(** * dropbox-sync: the synchronisation engine, embedded and verified

    The repository holds three revisions of one module:
    - [src/index.js]          one watched path per instance, no instance cache;
    - [src/unnamed/part_001]  a path table, a cache keyed by uid, one commit
                              per watched path;
    - [src/unnamed/part_000]  a path table, a cache keyed by uid and root, one
                              commit per batch and a notification queue per
                              registration.

    The engine is callback-driven JavaScript.  It is embedded as an event
    loop: a [World] holds the JavaScript heap (instances, cache, queues, the
    bookkeeping of the [async] combinators), the local filesystem, the
    operations in flight together with the closure each one will call, and
    the history of what the engine did.  Every closure of the source is one
    constructor of [Kont]; running a closure is a function on worlds.

    What stands outside the engine is the environment, and it answers as it
    pleases: the remote service (pages, long-polls, file contents), the
    listing of a directory, timers, and the consumer, whose functions are
    opaque: a call of [onError], [onChange] or a callback is recorded in the
    history, and the consumer calls the completion callback of [onChange]
    back when it wants to.  Operations in flight complete in any order, one
    at a time; a filesystem primitive takes effect when it completes.  A
    long-poll that was aborted may still call back.  [this.client._uid] is
    the [uid] of the configuration.  The [async] combinators ([each],
    [series], [parallel], [queue]) follow the library: [each] and [parallel]
    start everything at once and call back once, at the first error or when
    everything is done; a queue of concurrency 1 gives its worker one task
    at a time.  Strings are sequences of ASCII characters. *)

From Stdlib Require Import Ascii String Bool Arith Lia.
From stdpp Require Import gmap strings list.

Open Scope string_scope.
Open Scope list_scope.

(** ** JavaScript strings and values *)

Module Js.

(** [s.slice(0, n)] *)
Fixpoint slice0 (n : nat) (s : string) : string :=
  match n, s with
  | S n', String c s' => String c (slice0 n' s')
  | _, _ => EmptyString
  end.

(** [s.slice(1)] *)
Definition slice1 (s : string) : string :=
  match s with
  | EmptyString => EmptyString
  | String _ s' => s'
  end.

(** [s[0]]; [None] is [undefined] *)
Definition head (s : string) : option ascii :=
  match s with
  | EmptyString => None
  | String c _ => Some c
  end.

(** [s[0] === '/'] and [s[0] !== '/'] *)
Definition head_is_slash (s : string) : bool :=
  match head s with
  | Some c => Ascii.eqb c "/"
  | None => false
  end.

Definition lower_ascii (c : ascii) : ascii :=
  let n := nat_of_ascii c in
  if ((65 <=? n) && (n <=? 90))%nat then ascii_of_nat (n + 32)%nat else c.

(** [s.toLowerCase()], on the ASCII letters *)
Fixpoint toLowerCase (s : string) : string :=
  match s with
  | EmptyString => EmptyString
  | String c s' => String (lower_ascii c) (toLowerCase s')
  end.

(** The values whose truthiness the source tests without a comparison. *)
Inductive value :=
| VUndefined
| VBool (b : bool)
| VFunction.

Definition truthy (v : value) : bool :=
  match v with
  | VUndefined => false
  | VBool b => b
  | VFunction => true
  end.

(** The properties that a plain object ([{}]) inherits from
    [Object.prototype] in Node: for these keys [object[key]] is a function or
    an object, which is truthy, though the object has no such key of its
    own. *)
Definition object_prototype : list string :=
  ["constructor"; "toString"; "toLocaleString"; "valueOf"; "hasOwnProperty";
   "isPrototypeOf"; "propertyIsEnumerable"; "__proto__"; "__defineGetter__";
   "__defineSetter__"; "__lookupGetter__"; "__lookupSetter__"].

Definition inherited (k : string) : bool :=
  existsb (String.eqb k) object_prototype.

(** The property key that a value names in [object[value]]: a string names
    itself, [undefined] names "undefined". *)
Definition property_key (v : option string) : string :=
  match v with
  | Some s => s
  | None => "undefined"
  end.

End Js.

(** ** Node's [path] module (posix) *)

Module Path.

(** [s.split('/').filter(function (p) { return !!p; })] *)
Fixpoint segments_aux (s : string) (cur : string) : list string :=
  match s with
  | EmptyString => if String.eqb cur "" then [] else [cur]
  | String c s' =>
      if Ascii.eqb c "/"
      then (if String.eqb cur "" then [] else [cur]) ++ segments_aux s' ""
      else segments_aux s' (cur +:+ String c EmptyString)
  end.

Definition segments (s : string) : list string := segments_aux s "".

(** [normalizeArray]: the parts are scanned from the last one to the first;
    [up] counts the [..] still to be resolved. *)
Fixpoint normalize_scan (parts_rev : list string) (up : nat)
  (kept : list string) : list string * nat :=
  match parts_rev with
  | [] => (kept, up)
  | p :: rest =>
      if String.eqb p "." then normalize_scan rest up kept
      else if String.eqb p ".." then normalize_scan rest (S up) kept
      else match up with
           | S u => normalize_scan rest u kept
           | O => normalize_scan rest O (p :: kept)
           end
  end.

Definition normalizeArray (parts : list string) (allowAboveRoot : bool)
  : list string :=
  let '(kept, up) := normalize_scan (rev parts) 0 [] in
  (if allowAboveRoot then repeat ".." up else []) ++ kept.

Fixpoint join_slash (parts : list string) : string :=
  match parts with
  | [] => ""
  | [p] => p
  | p :: rest => p +:+ "/" +:+ join_slash rest
  end.

Fixpoint last_is_slash (s : string) : bool :=
  match s with
  | EmptyString => false
  | String c EmptyString => Ascii.eqb c "/"
  | String _ s' => last_is_slash s'
  end.

Definition normalize (path : string) : string :=
  let isAbsolute := Js.head_is_slash path in
  let trailingSlash := last_is_slash path in
  let p := join_slash (normalizeArray (segments path) (negb isAbsolute)) in
  let p := if String.eqb p "" && negb isAbsolute then "." else p in
  let p := if negb (String.eqb p "") && trailingSlash then p +:+ "/" else p in
  (if isAbsolute then "/" else "") +:+ p.

(** [Path.join(a, b)] *)
Definition join (a b : string) : string :=
  let path :=
    if String.eqb a "" then b
    else if String.eqb b "" then a
    else a +:+ "/" +:+ b in
  normalize path.

(** [Path.resolve(args...)], with [cwd] for [process.cwd()]: the arguments
    are taken from the last one until an absolute one is met. *)
Fixpoint resolve_rev (args_rev : list string) (cwd : string) : string * bool :=
  match args_rev with
  | [] => (cwd +:+ "/", Js.head_is_slash cwd)
  | a :: rest =>
      if String.eqb a "" then resolve_rev rest cwd
      else if Js.head_is_slash a then (a +:+ "/", true)
      else let '(r, ab) := resolve_rev rest cwd in (r +:+ a +:+ "/", ab)
  end.

Definition resolve (cwd : string) (args : list string) : string :=
  let '(resolvedPath, resolvedAbsolute) := resolve_rev (rev args) cwd in
  let p := join_slash (normalizeArray (segments resolvedPath)
                         (negb resolvedAbsolute)) in
  let r := (if resolvedAbsolute then "/" else "") +:+ p in
  if String.eqb r "" then "." else r.

End Path.

(** ** The local filesystem (fs-extra)

    A location is the list of the segments of an absolute path.  The
    primitives are atomic: each takes effect when it completes. *)

Module Fs.

Abbreviation loc := (list string) (only parsing).

Inductive node :=
| File (data : string)
| Dir.

Definition t := loc -> option node.

(** The filesystem with nothing but its root directory. *)
Definition empty : t := fun l => match l with [] => Some Dir | _ => None end.

Fixpoint is_prefix (p q : loc) : bool :=
  match p, q with
  | [], _ => true
  | a :: p', b :: q' => String.eqb a b && is_prefix p' q'
  | _ :: _, [] => false
  end.

Definition loc_eqb (p q : loc) : bool := is_prefix p q && is_prefix q p.

(** Where the process finds the path [p]. *)
Definition locate (cwd p : string) : loc :=
  Path.segments (Path.resolve cwd [p]).

(** [fs.Stats]: [isDirectory] and [isFile] are methods. *)
Record Stats := { isDirectory : unit -> bool; isFile : unit -> bool }.

(** The property [stat.isDirectory], read but not called: the method. *)
Definition isDirectory_property (st : Stats) : Js.value := Js.VFunction.

Definition stats_of (n : node) : Stats :=
  match n with
  | File _ => {| isDirectory := fun _ => false; isFile := fun _ => true |}
  | Dir => {| isDirectory := fun _ => true; isFile := fun _ => false |}
  end.

Inductive op :=
| Remove (p : string)
| Mkdirs (p : string)
| Stat (p : string)
| OutputFile (p : string) (data : string).

Inductive result :=
| Err (code : string)
| Ok
| OkStats (st : Stats).

(** Some strict ancestor of [l] is a regular file. *)
Fixpoint file_above (fs : t) (pre : loc) (l : loc) : bool :=
  match l with
  | [] => false
  | s :: l' =>
      match fs pre with
      | Some (File _) => true
      | _ => file_above fs (pre ++ [s]) l'
      end
  end.

(** What is left when [l] and everything under it is gone. *)
Definition remove (fs : t) (l : loc) : t :=
  fun q => if is_prefix l q then None else fs q.

(** [fs.remove] (rimraf): nothing at [l] is not an error; a regular file
    on the way to [l] is one, as for [fs.stat] and [fs.mkdirs]. *)
Definition rimraf (fs : t) (l : loc) : result * t :=
  if file_above fs [] l then (Err "ENOTDIR", fs) else (Ok, remove fs l).

Definition mkdirs (fs : t) (l : loc) : result * t :=
  if file_above fs [] l then (Err "ENOTDIR", fs)
  else match fs l with
       | Some (File _) => (Err "EEXIST", fs)
       | _ => (Ok, fun q => if is_prefix q l then Some Dir else fs q)
       end.

Definition stat (fs : t) (l : loc) : result :=
  if file_above fs [] l then Err "ENOTDIR"
  else match fs l with
       | None => Err "ENOENT"
       | Some n => OkStats (stats_of n)
       end.

Definition parent (l : loc) : loc := removelast l.

Definition outputFile (fs : t) (l : loc) (data : string) : result * t :=
  match mkdirs fs (parent l) with
  | (Ok, fs') =>
      match fs' l with
      | Some Dir => (Err "EISDIR", fs')
      | _ => (Ok, fun q => if loc_eqb q l then Some (File data) else fs' q)
      end
  | (r, fs') => (r, fs')
  end.

(** A primitive, run to completion on the filesystem of a process whose
    working directory is [cwd]. *)
Definition exec (cwd : string) (fs : t) (o : op) : result * t :=
  match o with
  | Remove p => rimraf fs (locate cwd p)
  | Mkdirs p => mkdirs fs (locate cwd p)
  | Stat p => (stat fs (locate cwd p), fs)
  | OutputFile p data => outputFile fs (locate cwd p) data
  end.

End Fs.

(** ** The remote feed (dropbox.js) *)

Module Dropbox.

(** [Dropbox.File.Stat]: [isFile] and [isFolder] are boolean properties. *)
Record Stat := { isFile : bool; isFolder : bool }.

(** [Dropbox.Http.PulledChange] *)
Record Change := { path : string; wasRemoved : bool; stat : Stat }.

(** [Dropbox.Http.PulledChanges]: one page of the delta feed.  The engine
    stores the page itself as its cursor. *)
Record PulledChanges := {
  changes : list Change;
  shouldPullAgain : bool;
  blankSlate : bool;
  cursorTag : string
}.

(** [prevChanges.changes = prevChanges.changes.concat(pulledChanges.changes)] *)
Definition concat_changes (prev page : PulledChanges) : PulledChanges :=
  {| changes := changes prev ++ changes page;
     shouldPullAgain := shouldPullAgain prev;
     blankSlate := blankSlate prev;
     cursorTag := cursorTag prev |}.

(** The batch after a page: [prevChanges], with the entries of the page
    appended, when there is one ([prevChanges || pulledChanges]). *)
Definition accumulate (prev : option PulledChanges) (page : PulledChanges)
  : PulledChanges :=
  match prev with
  | Some p => concat_changes p page
  | None => page
  end.

(** [clonedChanges.changes = filtered] on a clone of the batch *)
Definition with_changes (b : PulledChanges) (cs : list Change) : PulledChanges :=
  {| changes := cs;
     shouldPullAgain := shouldPullAgain b;
     blankSlate := blankSlate b;
     cursorTag := cursorTag b |}.

Record PollResult := { hasChanges : bool; retryAfter : nat }.

End Dropbox.

(** ** The engine's heap, the event loop and the history *)

Module Engine.

Import Dropbox.

(** A reference to a [DropboxSync] instance. *)
Abbreviation ref := nat (only parsing).
(** A function supplied by the consumer ([onError], [onChange], a
    [stopSync] callback), by name. *)
Abbreviation fn := nat (only parsing).
Abbreviation Error := string (only parsing).

Inductive outcome (A : Type) :=
| Failed (e : Error)
| Done (a : A).
Arguments Failed {A} e.
Arguments Done {A} a.

(** The closure that [sync] stores in [this.paths[path]]. *)
Record Handler := {
  h_self : ref;
  h_onError : fn;
  h_onChange : fn;
  h_queue : option nat
}.

(** An [async.queue] of concurrency 1 made by [sync]: its worker calls
    [onChange], its [drain] calls [self.watchForChanges()]. *)
Record Queue := {
  q_self : ref;
  q_worker : fn;
  q_tasks : list (list string);
  q_workers : nat
}.

Record Instance := {
  client_uid : string;
  root : string;
  paths : list (string * Handler);
  cursor : option PulledChanges;
  watchingForChanges : option nat;
  pullingChanges : bool
}.

(** What [commitChanges] calls back when it is done. *)
Inductive CommitCallback :=
| CbDispatch
| CbHandler (h : Handler).

Record CommitCtx := {
  cc_self : ref;
  cc_path : string;
  cc_batch : PulledChanges;
  cc_callback : CommitCallback
}.

(** The state of one [async.each]: the count of iterations that called
    back, and whether the final callback was replaced by a no-op. *)
Record EachJoin := {
  e_total : nat;
  e_completed : nat;
  e_fired : bool;
  e_ctx : CommitCtx
}.

(** The state of the [async.parallel] of [_replaceLocalWithFile]. *)
Record ParJoin := {
  p_localPath : string;
  p_each : nat;
  p_change : Change;
  p_completed : nat;
  p_fired : bool;
  p_dropbox : option string
}.

Inductive ResetCallback :=
| RSeries (ctx : CommitCtx)
| RUser (callback : fn).

(** The closures that wait for an operation to complete. *)
Inductive Kont :=
| KPull (i : ref) (prev : option PulledChanges)
| KPoll (i : ref)
| KDelay (i : ref)
| KLocalState (h : Handler)
| KQueueProcess (q : nat)
| KWorkerDone (q : nat)
| KNextTick (callback : fn)
| KResetRemoved (dir : string) (k : ResetCallback)
| KResetMade (k : ResetCallback)
| KEntry (j : nat) (c : Change)
| KParLocal (p : nat)
| KParDropbox (p : nat)
| KFolderStat (localPath : string) (j : nat) (c : Change)
| KFolderRemoved (localPath : string) (j : nat) (c : Change).

(** The operations in flight. *)
Inductive Op :=
| OpPull (i : ref) (c : option PulledChanges)
| OpPoll (i : ref) (h : nat) (c : PulledChanges)
| OpReadFile (p : string)
| OpFs (o : Fs.op)
| OpReaddir (p : string)
| OpTimer (seconds : nat)
| OpImmediate
| OpNextTick
| OpConsumer (f : fn) (ps : list string).

(** What the engine did, and what it called of the consumer. *)
Inductive event :=
| EvFetch (i : ref) (c : option PulledChanges)
| EvPoll (i : ref) (h : nat)
| EvAbort (i : ref) (h : nat)
| EvCommit (ctx : CommitCtx)
| EvEntryBegin (j : nat) (c : Change)
| EvEntryEnd (j : nat) (c : Change) (err : option Error)
| EvFsCall (o : Fs.op)
| EvFsDone (o : Fs.op) (err : option Error)
| EvOnError (f : fn) (e : Error)
| EvOnChange (f : fn) (ps : list string)
| EvOnChangeDone (f : fn)
| EvCallback (f : fn) (err : option Error)
| EvThrow (msg : string).

Record World := {
  heap : list Instance;
  cache : gmap string ref;
  queues : list Queue;
  eaches : list EachJoin;
  parallels : list ParJoin;
  pending : list (Op * Kont);
  fs : Fs.t;
  cwd : string;
  next_handle : nat;
  trace : list event
}.

(** A fresh process in the directory [d] over the filesystem [f]. *)
Definition boot (d : string) (f : Fs.t) : World :=
  {| heap := []; cache := ∅; queues := []; eaches := []; parallels := [];
     pending := []; fs := f; cwd := d; next_handle := 0; trace := [] |}.

(** The history, oldest event first. *)
Definition history (w : World) : list event := rev (trace w).

(** *** Updates of the world *)

Definition set_heap (h : list Instance) (w : World) : World :=
  {| heap := h; cache := cache w; queues := queues w; eaches := eaches w;
     parallels := parallels w; pending := pending w; fs := fs w; cwd := cwd w;
     next_handle := next_handle w; trace := trace w |}.

Definition set_cache (c : gmap string ref) (w : World) : World :=
  {| heap := heap w; cache := c; queues := queues w; eaches := eaches w;
     parallels := parallels w; pending := pending w; fs := fs w; cwd := cwd w;
     next_handle := next_handle w; trace := trace w |}.

Definition set_queues (q : list Queue) (w : World) : World :=
  {| heap := heap w; cache := cache w; queues := q; eaches := eaches w;
     parallels := parallels w; pending := pending w; fs := fs w; cwd := cwd w;
     next_handle := next_handle w; trace := trace w |}.

Definition set_eaches (e : list EachJoin) (w : World) : World :=
  {| heap := heap w; cache := cache w; queues := queues w; eaches := e;
     parallels := parallels w; pending := pending w; fs := fs w; cwd := cwd w;
     next_handle := next_handle w; trace := trace w |}.

Definition set_parallels (p : list ParJoin) (w : World) : World :=
  {| heap := heap w; cache := cache w; queues := queues w; eaches := eaches w;
     parallels := p; pending := pending w; fs := fs w; cwd := cwd w;
     next_handle := next_handle w; trace := trace w |}.

Definition set_pending (p : list (Op * Kont)) (w : World) : World :=
  {| heap := heap w; cache := cache w; queues := queues w; eaches := eaches w;
     parallels := parallels w; pending := p; fs := fs w; cwd := cwd w;
     next_handle := next_handle w; trace := trace w |}.

Definition set_fs (f : Fs.t) (w : World) : World :=
  {| heap := heap w; cache := cache w; queues := queues w; eaches := eaches w;
     parallels := parallels w; pending := pending w; fs := f; cwd := cwd w;
     next_handle := next_handle w; trace := trace w |}.

Definition set_next_handle (n : nat) (w : World) : World :=
  {| heap := heap w; cache := cache w; queues := queues w; eaches := eaches w;
     parallels := parallels w; pending := pending w; fs := fs w; cwd := cwd w;
     next_handle := n; trace := trace w |}.

Definition log (e : event) (w : World) : World :=
  {| heap := heap w; cache := cache w; queues := queues w; eaches := eaches w;
     parallels := parallels w; pending := pending w; fs := fs w; cwd := cwd w;
     next_handle := next_handle w; trace := e :: trace w |}.

(** An operation is started; [k] is the closure given to it. *)
Definition start (o : Op) (k : Kont) (w : World) : World :=
  set_pending (pending w ++ [(o, k)]) w.

(** A filesystem primitive is called. *)
Definition fs_call (o : Fs.op) (k : Kont) (w : World) : World :=
  start (OpFs o) k (log (EvFsCall o) w).

(** Updates of the fields of an instance. *)
Definition set_paths (ps : list (string * Handler)) (s : Instance) : Instance :=
  {| client_uid := client_uid s; root := root s; paths := ps;
     cursor := cursor s; watchingForChanges := watchingForChanges s;
     pullingChanges := pullingChanges s |}.

Definition set_cursor (c : option PulledChanges) (s : Instance) : Instance :=
  {| client_uid := client_uid s; root := root s; paths := paths s;
     cursor := c; watchingForChanges := watchingForChanges s;
     pullingChanges := pullingChanges s |}.

Definition set_watchingForChanges (h : option nat) (s : Instance) : Instance :=
  {| client_uid := client_uid s; root := root s; paths := paths s;
     cursor := cursor s; watchingForChanges := h;
     pullingChanges := pullingChanges s |}.

Definition set_pullingChanges (b : bool) (s : Instance) : Instance :=
  {| client_uid := client_uid s; root := root s; paths := paths s;
     cursor := cursor s; watchingForChanges := watchingForChanges s;
     pullingChanges := b |}.

(** [self.field = ...] *)
Definition update (i : ref) (f : Instance -> Instance) (w : World) : World :=
  set_heap (alter f i (heap w)) w.

(** *** The path table, a JavaScript object: keys in insertion order *)

Fixpoint table_set {A} (k : string) (v : A) (t : list (string * A))
  : list (string * A) :=
  match t with
  | [] => [(k, v)]
  | (k', v') :: t' =>
      if String.eqb k k' then (k, v) :: t' else (k', v') :: table_set k v t'
  end.

Fixpoint table_delete {A} (k : string) (t : list (string * A))
  : list (string * A) :=
  match t with
  | [] => []
  | (k', v') :: t' =>
      if String.eqb k k' then t' else (k', v') :: table_delete k t'
  end.

Fixpoint table_get {A} (k : string) (t : list (string * A)) : option A :=
  match t with
  | [] => None
  | (k', v') :: t' => if String.eqb k k' then Some v' else table_get k t'
  end.

(** *** Methods shared by the revisions with a path table *)

(** [toLocalPath]: [if(path[0] === '/') path = '.' + path;
    return Path.join(this.root, path)] *)
Definition toLocalPath (root_ : string) (p : string) : string :=
  Path.join root_ (if Js.head_is_slash p then "." +:+ p else p).

Definition root_of (i : ref) (w : World) : string :=
  match heap w !! i with
  | Some s => root s
  | None => ""
  end.

(** The test of the path filter:
    [change.path.slice(0, path.length) === path] *)
Definition under (p : string) (c : Change) : bool :=
  String.eqb (Js.slice0 (String.length p) (path c)) p.

(** [errAll]: every closure of the path table is called with the error,
    and each one hands it to its [onError]. *)
Definition errAll (i : ref) (e : Error) (w : World) : World :=
  match heap w !! i with
  | Some s =>
      foldl (fun w' ph => log (EvOnError (h_onError (snd ph)) e) w') w (paths s)
  | None => w
  end.

(** [pullChanges(prevChanges)], up to the call of the remote feed. *)
Definition pullChanges (i : ref) (prev : option PulledChanges) (w : World)
  : World :=
  match heap w !! i with
  | Some s =>
      if pullingChanges s then w
      else
        let w := update i (set_pullingChanges true) w in
        start (OpPull i (cursor s)) (KPull i prev) (log (EvFetch i (cursor s)) w)
  | None => w
  end.

(** [watchForChanges()], up to the call of the remote long-poll. *)
Definition watchForChanges (i : ref) (w : World) : World :=
  match heap w !! i with
  | Some s =>
      match cursor s with
      | None => pullChanges i None w
      | Some c =>
          match watchingForChanges s with
          | Some _ => w
          | None =>
              let h := next_handle w in
              let w := set_next_handle (S h) w in
              let w := start (OpPoll i h c) (KPoll i) (log (EvPoll i h) w) in
              update i (set_watchingForChanges (Some h)) w
          end
      end
  | None => w
  end.

(** [delay(seconds, fn)] with [fn] calling [self.watchForChanges()] *)
Definition delay (seconds : nat) (i : ref) (w : World) : World :=
  match seconds with
  | O => start OpImmediate (KDelay i) w
  | S _ => start (OpTimer seconds) (KDelay i) w
  end.

(** The callback of [pollForChanges]. *)
Definition poll_callback (i : ref) (r : outcome PollResult) (w : World)
  : World :=
  match r with
  | Failed e => errAll i e w
  | Done pollResult =>
      match heap w !! i with
      | Some s =>
          match watchingForChanges s with
          | None => w
          | Some _ =>
              let w := update i (set_watchingForChanges None) w in
              if negb (hasChanges pollResult)
              then delay (retryAfter pollResult) i w
              else pullChanges i None w
          end
      | None => w
      end
  end.

(** *** The commit of a batch ([commitChanges], [commitChange],
    [_replaceLocalWithFile], [_replaceLocalWithFolder])

    The text is the same in the revisions; they differ in the directory
    that is reset and in what [commitChanges] calls back, here [final]. *)

Section Commit.

Variable final : CommitCtx -> option Error -> World -> World.

Definition err_of (r : Fs.result) : option Error :=
  match r with
  | Fs.Err code => Some code
  | _ => None
  end.

(** The [done] of [async.each]: the first error goes to the final callback,
    which is then replaced by a no-op; else the final callback is called when
    every iteration has called back. *)
Definition each_done (j : nat) (err : option Error) (w : World) : World :=
  match eaches w !! j with
  | None => w
  | Some e =>
      match err with
      | Some x =>
          if e_fired e then w
          else
            let e' := {| e_total := e_total e; e_completed := e_completed e;
                         e_fired := true; e_ctx := e_ctx e |} in
            final (e_ctx e) (Some x) (set_eaches (<[j := e']> (eaches w)) w)
      | None =>
          let e' := {| e_total := e_total e; e_completed := S (e_completed e);
                       e_fired := e_fired e; e_ctx := e_ctx e |} in
          let w := set_eaches (<[j := e']> (eaches w)) w in
          if (e_total e <=? e_completed e')%nat
          then (if e_fired e then w else final (e_ctx e) None w)
          else w
      end
  end.

(** The callback given to [commitChange] for the entry [c]. *)
Definition entry_callback (j : nat) (c : Change) (err : option Error)
  (w : World) : World :=
  each_done j err (log (EvEntryEnd j c err) w).

Definition replaceLocalWithFile (i : ref) (j : nat) (c : Change) (w : World)
  : World :=
  let localPath := toLocalPath (root_of i w) (path c) in
  let p := length (parallels w) in
  let w := set_parallels
             (parallels w ++
              [{| p_localPath := localPath; p_each := j; p_change := c;
                  p_completed := 0; p_fired := false; p_dropbox := None |}]) w in
  let w := fs_call (Fs.Remove localPath) (KParLocal p) w in
  start (OpReadFile (path c)) (KParDropbox p) w.

(** A task of the [async.parallel] calls back. *)
Definition parallel_done (p : nat) (err : option Error)
  (buffer : option string) (w : World) : World :=
  match parallels w !! p with
  | None => w
  | Some s =>
      let results := match buffer with Some b => Some b | None => p_dropbox s end in
      match err with
      | Some x =>
          if p_fired s then w
          else
            let s' := {| p_localPath := p_localPath s; p_each := p_each s;
                         p_change := p_change s; p_completed := p_completed s;
                         p_fired := true; p_dropbox := results |} in
            entry_callback (p_each s) (p_change s) (Some x)
              (set_parallels (<[p := s']> (parallels w)) w)
      | None =>
          let s' := {| p_localPath := p_localPath s; p_each := p_each s;
                       p_change := p_change s; p_completed := S (p_completed s);
                       p_fired := p_fired s; p_dropbox := results |} in
          let w := set_parallels (<[p := s']> (parallels w)) w in
          if (2 <=? p_completed s')%nat && negb (p_fired s)
          then fs_call (Fs.OutputFile (p_localPath s) (default "" results))
                 (KEntry (p_each s) (p_change s)) w
          else w
      end
  end.

Definition replaceLocalWithFolder (i : ref) (j : nat) (c : Change) (w : World)
  : World :=
  let localPath := toLocalPath (root_of i w) (path c) in
  fs_call (Fs.Stat localPath) (KFolderStat localPath j c) w.

(** The callback of the [fs.stat] of [_replaceLocalWithFolder]. *)
Definition folder_stat_callback (localPath : string) (j : nat) (c : Change)
  (r : Fs.result) (w : World) : World :=
  match r with
  | Fs.Err code =>
      if String.eqb code "ENOENT"
      then fs_call (Fs.Mkdirs localPath) (KEntry j c) w
      else entry_callback j c (Some code) w
  | Fs.OkStats st =>
      if Js.truthy (Fs.isDirectory_property st)
      then entry_callback j c None w
      else fs_call (Fs.Remove localPath) (KFolderRemoved localPath j c) w
  | Fs.Ok => w
  end.

Definition folder_removed_callback (localPath : string) (j : nat) (c : Change)
  (r : Fs.result) (w : World) : World :=
  match err_of r with
  | Some e => entry_callback j c (Some e) w
  | None => fs_call (Fs.Mkdirs localPath) (KEntry j c) w
  end.

Definition commitChange (i : ref) (j : nat) (c : Change) (w : World) : World :=
  let w := log (EvEntryBegin j c) w in
  if wasRemoved c
  then fs_call (Fs.Remove (toLocalPath (root_of i w) (path c))) (KEntry j c) w
  else if isFile (stat c) then replaceLocalWithFile i j c w
  else if isFolder (stat c) then replaceLocalWithFolder i j c w
  else entry_callback j c (Some "Unable to commit change.") w.

(** The second task of the [async.series]:
    [async.each(pulledChanges.changes, self.commitChange.bind(self), next)].
    The iterator is called on every item in turn, none waiting for another. *)
Definition each_changes (ctx : CommitCtx) (w : World) : World :=
  match changes (cc_batch ctx) with
  | [] => final ctx None w
  | cs =>
      let j := length (eaches w) in
      let w := set_eaches
                 (eaches w ++
                  [{| e_total := length cs; e_completed := 0;
                      e_fired := false; e_ctx := ctx |}]) w in
      foldl (fun w' c => commitChange (cc_self ctx) j c w') w cs
  end.

(** What [resetDir] calls back: the [next] of the first task of the
    series, or the callback of [stopSync]. *)
Definition reset_callback (k : ResetCallback) (err : option Error) (w : World)
  : World :=
  match k with
  | RSeries ctx =>
      match err with
      | Some e => final ctx (Some e) w
      | None => each_changes ctx w
      end
  | RUser f => log (EvCallback f err) w
  end.

(** [resetDir]: [fs.remove(dir, ...)], then [fs.mkdirs(dir, callback)]. *)
Definition resetDir (dir : string) (k : ResetCallback) (w : World) : World :=
  fs_call (Fs.Remove dir) (KResetRemoved dir k) w.

Definition reset_removed_callback (dir : string) (k : ResetCallback)
  (r : Fs.result) (w : World) : World :=
  match err_of r with
  | Some e => reset_callback k (Some e) w
  | None => fs_call (Fs.Mkdirs dir) (KResetMade k) w
  end.

(** [commitChanges], given the directory that [resetDir] resets. *)
Definition commitChanges (dir : string) (ctx : CommitCtx) (w : World) : World :=
  let w := log (EvCommit ctx) w in
  if blankSlate (cc_batch ctx)
  then resetDir dir (RSeries ctx) w
  else each_changes ctx w.

(** What an operation hands to its closure when it completes. *)
Inductive Arg :=
| AUnit
| APull (r : outcome PulledChanges)
| APoll (r : outcome PollResult)
| AFile (r : outcome string)
| AReaddir (r : outcome (list string))
| AFs (r : Fs.result).

(** The closures of the commit; [None] when the closure is not one of the
    commit or is not called with what it expects. *)
Definition fire_commit (k : Kont) (a : Arg) (w : World) : option World :=
  match k, a with
  | KResetRemoved dir rk, AFs r => Some (reset_removed_callback dir rk r w)
  | KResetMade rk, AFs r => Some (reset_callback rk (err_of r) w)
  | KEntry j c, AFs r => Some (entry_callback j c (err_of r) w)
  | KParLocal p, AFs r => Some (parallel_done p (err_of r) None w)
  | KParDropbox p, AFile (Failed e) => Some (parallel_done p (Some e) None w)
  | KParDropbox p, AFile (Done b) => Some (parallel_done p None (Some b) w)
  | KFolderStat lp j c, AFs r => Some (folder_stat_callback lp j c r w)
  | KFolderRemoved lp j c, AFs r => Some (folder_removed_callback lp j c r w)
  | _, _ => None
  end.

End Commit.

(** *** The event loop *)

(** How the environment answers an operation in flight: the remote service
    and the directory listing answer as they please; a filesystem primitive
    runs on the filesystem or fails with an injected error; a timer fires
    and a consumer calls back. *)
Inductive Resp :=
| RPull (r : outcome PulledChanges)
| RPoll (r : outcome PollResult)
| RFile (r : outcome string)
| RReaddir (r : outcome (list string))
| RFs (fault : option Error)
| RFired.

Definition answer (o : Op) (r : Resp) (w : World) : option (Arg * World) :=
  match o, r with
  | OpPull _ _, RPull x => Some (APull x, w)
  | OpPoll _ _ _, RPoll x => Some (APoll x, w)
  | OpReadFile _, RFile x => Some (AFile x, w)
  | OpReaddir _, RReaddir x => Some (AReaddir x, w)
  | OpFs op, RFs None =>
      let '(res, fs') := Fs.exec (cwd w) (fs w) op in
      Some (AFs res, log (EvFsDone op (err_of res)) (set_fs fs' w))
  | OpFs op, RFs (Some e) => Some (AFs (Fs.Err e), log (EvFsDone op (Some e)) w)
  | OpTimer _, RFired => Some (AUnit, w)
  | OpImmediate, RFired => Some (AUnit, w)
  | OpNextTick, RFired => Some (AUnit, w)
  | OpConsumer _ _, RFired => Some (AUnit, w)
  | _, _ => None
  end.

(** The [n]-th operation in flight completes and its closure runs. *)
Definition complete (fire : Kont -> Arg -> World -> option World) (n : nat)
  (r : Resp) (w : World) : option World :=
  match pending w !! n with
  | Some (o, k) =>
      match answer o r (set_pending (delete n (pending w)) w) with
      | Some (a, w') => fire k a w'
      | None => None
      end
  | None => None
  end.

(** [dropboxConfig] *)
Record Config := { key : string; secret : string; uid : string; token : string }.

(** What the consumer and the environment do to the process. *)
Inductive label :=
| LNew (cfg : Config) (root_ : string)
| LSync (i : ref) (p : option string) (onError onChange : fn)
| LStopSync (i : ref) (p : string) (callback : fn)
| LComplete (n : nat) (r : Resp).

Fixpoint run (step : World -> label -> option World) (w : World)
  (ls : list label) : option World :=
  match ls with
  | [] => Some w
  | l :: ls' =>
      match step w l with
      | Some w' => run step w' ls'
      | None => None
      end
  end.

(** The instance made by [new DropboxSync(dropboxConfig, root)]. *)
Definition fresh (cfg : Config) (root_ : string) : Instance :=
  {| client_uid := uid cfg; root := root_; paths := []; cursor := None;
     watchingForChanges := None; pullingChanges := false |}.

End Engine.

(** ** src/unnamed/part_000: the cache keyed by uid and root, one commit per
    batch, one notification queue per registration *)

Module Part000.

Import Dropbox Engine.

(** [normalizePath] *)
Definition normalizePath (p : string) : string :=
  let p := if negb (String.eqb p "") && negb (Js.head_is_slash p)
           then "/" +:+ p else p in
  Js.toLowerCase p.

(** The key of the cache, [dropboxConfig.uid + ':' + root]; with its colon
    it is never the name of a property that the cache inherits. *)
Definition cache_key (uid_ root_ : string) : string := uid_ +:+ ":" +:+ root_.

(** [new DropboxSync(dropboxConfig, root)]: the instance of the cache when
    there is one under the key, else a new one, which is put in the cache. *)
Definition DropboxSync (cfg : Config) (root_ : string) (w : World)
  : ref * World :=
  match cache w !! cache_key (uid cfg) root_ with
  | Some i => (i, w)
  | None =>
      let i := length (heap w) in
      (i, set_cache (<[cache_key (uid cfg) root_ := i]> (cache w))
            (set_heap (heap w ++ [fresh cfg root_]) w))
  end.

(** [queue.push(task)] of [async.queue]: the task is appended and
    [q.process] is scheduled. *)
Definition queue_push (q : nat) (task : list string) (w : World) : World :=
  let add s := {| q_self := q_self s; q_worker := q_worker s;
                  q_tasks := q_tasks s ++ [task]; q_workers := q_workers s |} in
  start OpImmediate (KQueueProcess q) (set_queues (alter add q (queues w)) w).

(** [q.process]: with a free worker and a task waiting, the worker is
    called: [onChange(task.paths, cb)]. *)
Definition queue_process (q : nat) (w : World) : World :=
  match queues w !! q with
  | Some s =>
      match q_tasks s with
      | task :: rest =>
          if (q_workers s <? 1)%nat then
            let s' := {| q_self := q_self s; q_worker := q_worker s;
                         q_tasks := rest; q_workers := S (q_workers s) |} in
            let w := set_queues (<[q := s']> (queues w)) w in
            start (OpConsumer (q_worker s) task) (KWorkerDone q)
              (log (EvOnChange (q_worker s) task) w)
          else w
      | [] => w
      end
  | None => w
  end.

(** The [cb] given to [onChange]: the worker is free again; with nothing
    waiting and nothing running, [drain] calls [self.watchForChanges()];
    then [q.process()]. *)
Definition worker_done (q : nat) (w : World) : World :=
  match queues w !! q with
  | Some s =>
      let s' := {| q_self := q_self s; q_worker := q_worker s;
                   q_tasks := q_tasks s; q_workers := pred (q_workers s) |} in
      let w := set_queues (<[q := s']> (queues w)) w in
      let w := log (EvOnChangeDone (q_worker s)) w in
      let w := if (length (q_tasks s') + q_workers s' =? 0)%nat
               then watchForChanges (q_self s) w else w in
      queue_process q w
  | None => w
  end.

(** The closure [this.paths[path]] made by [sync]. *)
Definition handler (h : Handler) (err : option Error)
  (changesMade : list string) (w : World) : World :=
  match err with
  | Some e => log (EvOnError (h_onError h) e) w
  | None =>
      match changesMade, h_queue h with
      | _ :: _, Some q =>
          queue_push q (map (toLocalPath (root_of (h_self h) w)) changesMade) w
      | _, _ => w
      end
  end.

(** [sync(path, onError, onChange)]; [p] is [None] when the path is left
    out. *)
Definition sync (i : ref) (p : option string) (onError onChange : fn)
  (w : World) : World :=
  match heap w !! i with
  | Some s =>
      let q := length (queues w) in
      let w := set_queues
                 (queues w ++ [{| q_self := i; q_worker := onChange;
                                  q_tasks := []; q_workers := 0 |}]) w in
      let p := normalizePath
                 (match p with
                  | Some x => if String.eqb x "" then "/" else x
                  | None => "/"
                  end) in
      let h := {| h_self := i; h_onError := onError; h_onChange := onChange;
                  h_queue := Some q |} in
      let w := update i (set_paths (table_set p h (paths s))) w in
      let w := start (OpReaddir (toLocalPath (root s) p)) (KLocalState h) w in
      watchForChanges i w
  | None => w
  end.

(** The callback of the [readdir] of [getLocalState]. *)
Definition local_state_callback (h : Handler) (r : outcome (list string))
  (w : World) : World :=
  match r with
  | Failed code =>
      if String.eqb code "ENOENT" then handler h None [] w
      else handler h (Some code) [] w
  | Done ps => handler h None ps w
  end.

(** [resetDir]'s directory: [Path.resolve(this.root)] *)
Definition reset_dir (w : World) (root_ : string) : string :=
  Path.resolve (cwd w) [root_].

(** [stopSync(path, callback)] *)
Definition stopSync (i : ref) (p : string) (callback : fn) (w : World)
  : World :=
  match heap w !! i with
  | Some s =>
      let p := normalizePath p in
      let ps := table_delete p (paths s) in
      let w := update i (set_paths ps) w in
      match ps, watchingForChanges s with
      | [], Some h =>
          let w := log (EvAbort i h) w in
          let w := update i (set_watchingForChanges None) w in
          let w := set_cache
                     (delete (cache_key (client_uid s) (root s)) (cache w)) w in
          resetDir (reset_dir w (root s)) (RUser callback) w
      | _, _ => start OpNextTick (KNextTick callback) w
      end
  | None => w
  end.

(** [pulledChanges.changes.filter(...).map(...)]: the paths of the entries
    under the watched path [p]. *)
Definition changedPaths (p : string) (batch : PulledChanges) : list string :=
  map path (List.filter (under p) (changes batch)).

(** The callback that [pullChanges] gives to [commitChanges]: every closure
    of the path table is called with the paths of the entries under its
    path. *)
Definition dispatch (ctx : CommitCtx) (err : option Error) (w : World)
  : World :=
  let i := cc_self ctx in
  match err with
  | Some e => errAll i e w
  | None =>
      match heap w !! i with
      | Some s =>
          match paths s with
          | [] => w
          | ps =>
              let '(w, triggered) :=
                foldl (fun '(w', _) ph =>
                         (handler (snd ph) None
                            (changedPaths (fst ph) (cc_batch ctx)) w', true))
                      (w, false) ps in
              if negb triggered then watchForChanges i w else w
          end
      | None => w
      end
  end.

(** [commitChanges(pulledChanges, callback)] as [pullChanges] calls it. *)
Definition commitChanges (i : ref) (batch : PulledChanges) (w : World)
  : World :=
  Engine.commitChanges dispatch (reset_dir w (root_of i w))
    {| cc_self := i; cc_path := ""; cc_batch := batch;
       cc_callback := CbDispatch |} w.

(** The callback of [client.pullChanges]. *)
Definition pull_callback (i : ref) (prev : option PulledChanges)
  (r : outcome PulledChanges) (w : World) : World :=
  match r with
  | Failed e => errAll i e w
  | Done pulledChanges =>
      let w := update i (set_cursor (Some pulledChanges)) w in
      let w := update i (set_pullingChanges false) w in
      if shouldPullAgain pulledChanges
      then pullChanges i (Some (accumulate prev pulledChanges)) w
      else commitChanges i (accumulate prev pulledChanges) w
  end.

Definition fire (k : Kont) (a : Arg) (w : World) : option World :=
  match k, a with
  | KPull i prev, APull r => Some (pull_callback i prev r w)
  | KPoll i, APoll r => Some (poll_callback i r w)
  | KDelay i, AUnit => Some (watchForChanges i w)
  | KLocalState h, AReaddir r => Some (local_state_callback h r w)
  | KQueueProcess q, AUnit => Some (queue_process q w)
  | KWorkerDone q, AUnit => Some (worker_done q w)
  | KNextTick f, AUnit => Some (log (EvCallback f None) w)
  | _, _ => fire_commit dispatch k a w
  end.

Definition step (w : World) (l : label) : option World :=
  match l with
  | LNew cfg root_ => Some (snd (DropboxSync cfg root_ w))
  | LSync i p onError onChange => Some (sync i p onError onChange w)
  | LStopSync i p callback => Some (stopSync i p callback w)
  | LComplete n r => complete fire n r w
  end.

(** [DropboxSync.sync(options, localPath, syncPath, onError, onChange)] *)
Definition DropboxSync_sync (options : Config) (localPath : string)
  (syncPath : option string) (onError onChange : fn) (w : World)
  : ref * World :=
  let '(dbfs, w) := DropboxSync options localPath w in
  (dbfs, sync dbfs syncPath onError onChange w).

End Part000.

(** ** src/unnamed/part_001: the cache keyed by uid, one commit per watched
    path with entries, the consumer notified by the commit's callback *)

Module Part001.

Import Dropbox Engine.

(** [normalizePath] *)
Definition normalizePath (p : string) : string :=
  if negb (String.eqb p "") && negb (Js.head_is_slash p)
  then "/" +:+ p else p.

(** What [new DropboxSync(dropboxConfig, root)] evaluates to: an instance,
    or what the constructor found in the cache under a key that the cache
    does not hold but inherits. *)
Inductive Constructed :=
| AnInstance (i : ref)
| Builtin (name : string).

(** [new DropboxSync(dropboxConfig, root)]: the cache is a plain object and
    its key is the uid, so [cache[dropboxConfig.uid]] is truthy for an
    instance of the cache and for an inherited property; what it holds is
    returned, and otherwise the new instance is put in the cache. *)
Definition DropboxSync (cfg : Config) (root_ : string) (w : World)
  : Constructed * World :=
  match cache w !! uid cfg with
  | Some i => (AnInstance i, w)
  | None =>
      if Js.inherited (uid cfg) then (Builtin (uid cfg), w)
      else
        let i := length (heap w) in
        (AnInstance i, set_cache (<[uid cfg := i]> (cache w))
                         (set_heap (heap w ++ [fresh cfg root_]) w))
  end.

(** The closure [this.paths[path]] made by [sync]; [onChange] is called
    and returns before the engine goes on. *)
Definition handler (h : Handler) (err : option Error)
  (changesMade : PulledChanges) (w : World) : World :=
  match err with
  | Some e => log (EvOnError (h_onError h) e) w
  | None =>
      let w :=
        match changes changesMade with
        | [] => w
        | cs =>
            log (EvOnChange (h_onChange h)
                   (map (fun c => toLocalPath (root_of (h_self h) w) (path c)) cs))
              w
        end in
      watchForChanges (h_self h) w
  end.

(** [sync] after [path = normalizePath(path)]: the closure is stored under
    the key that the normalized path names, and the watch is started. *)
Definition sync_under (i : ref) (key : string) (onError onChange : fn)
  (w : World) : World :=
  match heap w !! i with
  | Some s =>
      let h := {| h_self := i; h_onError := onError; h_onChange := onChange;
                  h_queue := None |} in
      let w := update i (set_paths (table_set key h (paths s))) w in
      watchForChanges i w
  | None => w
  end.

(** [sync(path, onError, onChange)] with a string for the path *)
Definition sync (i : ref) (p : string) (onError onChange : fn) (w : World)
  : World :=
  sync_under i (normalizePath p) onError onChange w.

(** [sync(path, onError, onChange)]; [p] is [None] when the path is left
    out: [normalizePath(undefined)] is [undefined], which names the key
    "undefined". *)
Definition sync_value (i : ref) (p : option string) (onError onChange : fn)
  (w : World) : World :=
  sync_under i (Js.property_key (option_map normalizePath p)) onError onChange w.

(** [resetDir]'s directory: [Path.resolve(this.root, path.slice(1))] *)
Definition reset_dir (w : World) (root_ p : string) : string :=
  Path.resolve (cwd w) [root_; Js.slice1 p].

(** [stopSync(path, callback)]; with no path left and no long-poll held,
    [this.watchingForChanges.abort()] throws and the call ends there. *)
Definition stopSync (i : ref) (p : string) (callback : fn) (w : World)
  : World :=
  match heap w !! i with
  | Some s =>
      let p := normalizePath p in
      let ps := table_delete p (paths s) in
      let w := update i (set_paths ps) w in
      match ps, watchingForChanges s with
      | [], Some h =>
          let w := log (EvAbort i h) w in
          let w := update i (set_watchingForChanges None) w in
          resetDir (reset_dir w (root s) p) (RUser callback) w
      | [], None => log (EvThrow "TypeError") w
      | _ :: _, _ => resetDir (reset_dir w (root s) p) (RUser callback) w
      end
  | None => w
  end.

(** What [commitChanges] calls back: the closure of the path. *)
Definition committed (ctx : CommitCtx) (err : option Error) (w : World)
  : World :=
  match cc_callback ctx with
  | CbHandler h => handler h err (cc_batch ctx) w
  | CbDispatch => w
  end.

(** [commitChanges(path, pulledChanges, callback)] *)
Definition commitChanges (i : ref) (p : string) (batch : PulledChanges)
  (callback : Handler) (w : World) : World :=
  Engine.commitChanges committed (reset_dir w (root_of i w) p)
    {| cc_self := i; cc_path := p; cc_batch := batch;
       cc_callback := CbHandler callback |} w.

(** [pulledChanges.changes.filter(...)]: the entries under the watched
    path [p]. *)
Definition filtered (p : string) (batch : PulledChanges) : list Change :=
  List.filter (under p) (changes batch).

(** The loop of [pullChanges] over [Object.keys(self.paths)]: a path with
    entries under it gets a clone of the batch with these entries, which is
    committed; [changedPaths] collects these paths. *)
Definition filter_and_commit (i : ref) (batch : PulledChanges)
  (acc : World * list string) (ph : string * Handler) : World * list string :=
  let '(w, changedPaths) := acc in
  match filtered (fst ph) batch with
  | [] => (w, changedPaths)
  | filtered =>
      (commitChanges i (fst ph) (with_changes batch filtered) (snd ph) w,
       changedPaths ++ [fst ph])
  end.

(** The end of the callback of [client.pullChanges], once the batch is
    complete: the batch is filtered for every watched path; with no path to
    commit for, the watch is resumed at once. *)
Definition filter_dispatch (i : ref) (batch : PulledChanges) (w : World)
  : World :=
  match heap w !! i with
  | Some s =>
      let '(w, changedPaths) :=
        foldl (filter_and_commit i batch) (w, []) (paths s) in
      match changedPaths with
      | [] => watchForChanges i w
      | _ => w
      end
  | None => w
  end.

(** The callback of [client.pullChanges]. *)
Definition pull_callback (i : ref) (prev : option PulledChanges)
  (r : outcome PulledChanges) (w : World) : World :=
  match r with
  | Failed e => errAll i e w
  | Done pulledChanges =>
      let w := update i (set_cursor (Some pulledChanges)) w in
      let w := update i (set_pullingChanges false) w in
      if shouldPullAgain pulledChanges
      then pullChanges i (Some (accumulate prev pulledChanges)) w
      else filter_dispatch i (accumulate prev pulledChanges) w
  end.

Definition fire (k : Kont) (a : Arg) (w : World) : option World :=
  match k, a with
  | KPull i prev, APull r => Some (pull_callback i prev r w)
  | KPoll i, APoll r => Some (poll_callback i r w)
  | KDelay i, AUnit => Some (watchForChanges i w)
  | _, _ => fire_commit committed k a w
  end.

Definition step (w : World) (l : label) : option World :=
  match l with
  | LNew cfg root_ => Some (snd (DropboxSync cfg root_ w))
  | LSync i p onError onChange => Some (sync_value i p onError onChange w)
  | LStopSync i p callback => Some (stopSync i p callback w)
  | LComplete n r => complete fire n r w
  end.

(** [DropboxSync.sync(options, localPath, syncPath, onError, onChange)];
    [dbfs.sync] is not a function when [dbfs] is a built-in, and the call
    throws: nothing is returned. *)
Definition DropboxSync_sync (options : Config) (localPath : string)
  (syncPath : option string) (onError onChange : fn) (w : World)
  : option ref * World :=
  let '(dbfs, w) := DropboxSync options localPath w in
  match dbfs with
  | AnInstance i => (Some i, sync_value i syncPath onError onChange w)
  | Builtin _ => (None, log (EvThrow "TypeError") w)
  end.

End Part001.

(** ** src/index.js: one watched path per instance

    Only the puller is embedded: [pullChanges(callback)] up to its call of
    [commitChanges], which is recorded. *)

Module Index.

Import Dropbox Engine.

Record Instance := {
  root : string;
  path : string;
  cursor : option PulledChanges;
  watchingForChanges : option nat
}.

(** The closures that are passed as [callback]: the one [sync] makes, and
    the [next] of the second task of [commitChanges]'s series, which ends in
    the callback of that [commitChanges]. *)
Inductive Callback :=
| CbSync (onError onChange : fn)
| CbNext (outer : Callback).

Inductive Effect :=
| Call (e : event)
| CommitChanges (pulledChanges : PulledChanges) (callback : Callback).

(** The [onError] that was registered with [sync]. *)
Fixpoint registered_onError (callback : Callback) : fn :=
  match callback with
  | CbSync onError _ => onError
  | CbNext outer => registered_onError outer
  end.

(** [callback(err)] *)
Fixpoint call_with_error (callback : Callback) (e : Error) : list Effect :=
  match callback with
  | CbSync onError _ => [Call (EvOnError onError e)]
  | CbNext outer => call_with_error outer e
  end.

(** The callback of [client.pullChanges] in [pullChanges(callback)]. *)
Definition pull_callback (s : Instance) (callback : Callback)
  (r : outcome PulledChanges) : Instance * list Effect :=
  match r with
  | Failed e => (s, call_with_error callback e)
  | Done pulledChanges =>
      let s := {| root := root s; path := path s;
                  cursor := Some pulledChanges;
                  watchingForChanges := watchingForChanges s |} in
      let pulledChanges :=
        if negb (String.eqb (path s) "")
        then with_changes pulledChanges
               (List.filter (under (path s)) (changes pulledChanges))
        else pulledChanges in
      (s, [CommitChanges pulledChanges callback])
  end.

End Index.

(** ** What is observed of a world and of its history *)

Module Obs.

Import Dropbox Engine.

(** The entries for which [commitChange] was called, oldest first. *)
Definition entries_begun (h : list event) : list Change :=
  omap (fun e => match e with EvEntryBegin _ c => Some c | _ => None end) h.

(** The number of entries of the [async.each] [j] whose [commitChange] was
    called and has not called back. *)
Definition open_entries (j : nat) (h : list event) : nat :=
  length (List.filter (fun e => match e with
                           | EvEntryBegin j' _ => Nat.eqb j j'
                           | _ => false
                           end) h)
  - length (List.filter (fun e => match e with
                             | EvEntryEnd j' _ _ => Nat.eqb j j'
                             | _ => false
                             end) h).

(** The filesystem primitives that were called, oldest first. *)
Definition fs_calls (h : list event) : list Fs.op :=
  omap (fun e => match e with EvFsCall o => Some o | _ => None end) h.

(** The events of filtering, commit and notification. *)
Definition is_dispatch (e : event) : bool :=
  match e with
  | EvCommit _ | EvEntryBegin _ _ | EvEntryEnd _ _ _ | EvFsCall _
  | EvOnChange _ _ => true
  | _ => false
  end.

Definition dispatched (h : list event) : list event := List.filter is_dispatch h.

(** The fetches of the instance [i]. *)
Definition is_fetch (i : ref) (e : event) : bool :=
  match e with
  | EvFetch i' _ => Nat.eqb i i'
  | _ => false
  end.

Definition fetches (i : ref) (h : list event) : nat :=
  length (List.filter (is_fetch i) h).

(** The closures in flight. *)
Definition konts (w : World) : list Kont := map snd (pending w).

Definition is_pull_of (i : ref) (k : Kont) : bool :=
  match k with
  | KPull i' _ => Nat.eqb i i'
  | _ => false
  end.

(** The fetches of [i] in flight. *)
Definition pulls_in_flight (i : ref) (w : World) : nat :=
  length (List.filter (is_pull_of i) (konts w)).

Definition is_worker_of (q : nat) (k : Kont) : bool :=
  match k with
  | KWorkerDone q' => Nat.eqb q q'
  | _ => false
  end.

(** The calls of [onChange] by the queue [q] that have not called back. *)
Definition notifications_in_flight (q : nat) (w : World) : nat :=
  length (List.filter (is_worker_of q) (konts w)).

(** [this.pullingChanges] of the instance [i] *)
Definition busy (i : ref) (w : World) : bool :=
  match heap w !! i with
  | Some s => pullingChanges s
  | None => false
  end.

(** The operations of the remote feed in flight ([pullChanges] and
    [pollForChanges]). *)
Definition is_remote (ok : Op * Kont) : bool :=
  match fst ok with
  | OpPull _ _ | OpPoll _ _ _ => true
  | _ => false
  end.

Definition remote_in_flight (w : World) : list (Op * Kont) :=
  List.filter is_remote (pending w).

Definition is_stopSync (l : label) : bool :=
  match l with
  | LStopSync _ _ _ => true
  | _ => false
  end.

(** part_000: the step [l] is a [stopSync] that tears down an instance
    whose key in the cache is [key]: it removes the last watched path of the
    instance while a long-poll is held. *)
Definition tears_down (key : string) (w : World) (l : label) : bool :=
  match l with
  | LStopSync i p _ =>
      match heap w !! i with
      | Some s =>
          match table_delete (Part000.normalizePath p) (paths s),
                watchingForChanges s with
          | [], Some _ =>
              String.eqb (Part000.cache_key (client_uid s) (root s)) key
          | _, _ => false
          end
      | None => false
      end
  | _ => false
  end.

(** No step of the run [ls] from [w] tears down an instance cached under
    [key]. *)
Fixpoint never_torn_down (key : string) (w : World) (ls : list label) : bool :=
  match ls with
  | [] => true
  | l :: ls' =>
      negb (tears_down key w l)
      && match Part000.step w l with
         | Some w' => never_torn_down key w' ls'
         | None => true
         end
  end.

(** The consumer of the queue [q] is in its [onChange]. *)
Definition notifying (q : nat) (w : World) : bool :=
  match queues w !! q with
  | Some s => (0 <? q_workers s)%nat
  | None => false
  end.

(** A primitive that changes the filesystem is in flight for an entry
    under the watched path [p]. *)
Definition mutating_under (p : string) (w : World) : bool :=
  existsb (fun ok =>
             match ok with
             | (OpFs (Fs.Remove _), KEntry _ c)
             | (OpFs (Fs.Mkdirs _), KEntry _ c)
             | (OpFs (Fs.OutputFile _ _), KEntry _ c)
             | (OpFs (Fs.Remove _), KFolderRemoved _ _ c) => under p c
             | _ => false
             end) (pending w).

(** The tasks that wait in the queue [q]. *)
Definition tasks_of (q : nat) (w : World) : list (list string) :=
  match queues w !! q with
  | Some s => q_tasks s
  | None => []
  end.

(** The index of the operation started last. *)
Definition last_op (w : World) : nat := pred (length (pending w)).

(** Where the operation in flight at [n] is after a step that is not its
    completion. *)
Definition beside (n : nat) (l : label) : option nat :=
  match l with
  | LComplete m _ =>
      if (m =? n)%nat then None
      else Some (if (m <? n)%nat then pred n else n)
  | _ => Some n
  end.

(** A run that leaves the operation in flight at [n] in flight; with the
    world, the place of the operation at the end. *)
Fixpoint run_beside (step : World -> label -> option World) (w : World)
  (n : nat) (ls : list label) : option (World * nat) :=
  match ls with
  | [] => Some (w, n)
  | l :: ls' =>
      match beside n l, step w l with
      | Some n', Some w' => run_beside step w' n' ls'
      | _, _ => None
      end
  end.

(** A pull cycle: the first page answers the fetch in flight at [n], each
    later page the operation that the page before started; before each page
    the process takes other steps. With the world at the end: the place of
    the operation started last, and what the callbacks of the pages added to
    the history. *)
Fixpoint pull_cycle (step : World -> label -> option World) (w : World)
  (n : nat) (turns : list (list label * PulledChanges))
  : option (World * nat * list event) :=
  match turns with
  | [] => Some (w, n, [])
  | (ls, p) :: rest =>
      match run_beside step w n ls with
      | Some (w1, n1) =>
          match step w1 (LComplete n1 (RPull (Done p))) with
          | Some w2 =>
              match pull_cycle step w2 (last_op w2) rest with
              | Some (w3, n3, evs) =>
                  Some (w3, n3, drop (length (history w1)) (history w2) ++ evs)
              | None => None
              end
          | None => None
          end
      | None => None
      end
  end.

(** The batch after some pages. *)
Definition accumulated (prev : option PulledChanges)
  (pages : list PulledChanges) : option PulledChanges :=
  foldl (fun a p => Some (accumulate a p)) prev pages.

(** The cursor after some pages. *)
Definition cursor_after (c : option PulledChanges)
  (pages : list PulledChanges) : option PulledChanges :=
  foldl (fun _ p => Some p) c pages.

(** The world in which the callback of a fetch runs on a page: the fetch
    is no longer in flight, the page is the cursor, the instance is no longer
    busy. *)
Definition page_taken (n : nat) (i : ref) (page : PulledChanges) (w : World)
  : World :=
  update i (set_pullingChanges false)
    (update i (set_cursor (Some page))
       (set_pending (delete n (pending w)) w)).

(** The location [l] is a directory with nothing in it. *)
Definition is_empty_dir (f : Fs.t) (l : Fs.loc) : Prop :=
  f l = Some Fs.Dir
  /\ forall q, Fs.is_prefix l q = true -> q <> l -> f q = None.


(** The callbacks of [stopSync] that were called, oldest first. *)
Definition callbacks (h : list event) : list (nat * option string) :=
  omap (fun e => match e with EvCallback f err => Some (f, err) | _ => None end)
    h.

(** What [resetDir(callback)] does from the world [w] when nothing else
    happens in between.  [fs.remove(dir)] is called and the callback is not
    called yet.  The removal fails when a regular file is on the way to the
    directory, or when the environment makes it fail: the callback is then
    called with the error and the filesystem is as it was.  Otherwise the
    directory is removed and [fs.mkdirs(dir)] is called, and the callback is
    not called yet.  When the environment makes it fail, the callback is
    called with the error; otherwise the directory is made, it is empty, and
    the callback is called without error. *)
Definition wipes_then_calls_back
  (fire : Kont -> Arg -> World -> option World)
  (dir : string) (callback : nat) (w : World) : Prop :=
  let w1 := resetDir dir (RUser callback) w in
  let l := Fs.locate (cwd w) dir in
  let calls_back (w0 : World) (o : Fs.op) (r : option World)
        (err : option Error) :=
    exists w',
      r = Some w'
      /\ pending w' = pending w /\ (err <> None -> fs w' = fs w0)
      /\ history w' = history w0 ++ [EvFsDone o err; EvCallback callback err] in
  pending w1
  = pending w ++ [(OpFs (Fs.Remove dir), KResetRemoved dir (RUser callback))]
  /\ callbacks (history w1) = callbacks (history w)
  /\ fs w1 = fs w
  /\ (forall e,
        calls_back w1 (Fs.Remove dir)
          (complete fire (last_op w1) (RFs (Some e)) w1) (Some e))
  /\ (Fs.file_above (fs w) [] l = true ->
      calls_back w1 (Fs.Remove dir)
        (complete fire (last_op w1) (RFs None) w1) (Some "ENOTDIR"))
  /\ (Fs.file_above (fs w) [] l = false ->
      exists w2,
        complete fire (last_op w1) (RFs None) w1 = Some w2
        /\ pending w2
           = pending w ++ [(OpFs (Fs.Mkdirs dir), KResetMade (RUser callback))]
        /\ fs w2 = Fs.remove (fs w) l
        /\ callbacks (history w2) = callbacks (history w)
        /\ (forall e,
              calls_back w2 (Fs.Mkdirs dir)
                (complete fire (last_op w2) (RFs (Some e)) w2) (Some e))
        /\ exists w3,
            calls_back w2 (Fs.Mkdirs dir)
              (complete fire (last_op w2) (RFs None) w2) None
            /\ complete fire (last_op w2) (RFs None) w2 = Some w3
            /\ is_empty_dir (fs w3) l).

(** [p] is a string prefix of [s]. *)
Definition string_prefix (p s : string) : Prop := exists t, s = p +:+ t.

End Obs.

(** ** Properties of worlds that the engine keeps

    The invariants below look at the instances, the queues, the closures in
    flight, the cache and the fetches of the history.  A property is
    [Stable] when the elementary updates that do not touch what it looks at
    keep it; the methods of the engine are then shown to keep it once and
    for all. *)

Module Keep.

Import Dropbox Engine Obs.

(** The events that no invariant counts. *)
Definition quiet (e : event) : bool :=
  match e with
  | EvFetch _ _ | EvEntryBegin _ _ => false
  | _ => true
  end.

(** The closures that any method may leave in flight. *)
Definition plain (k : Kont) : bool :=
  match k with
  | KPull _ _ | KWorkerDone _ => false
  | _ => true
  end.

Definition not_worker (k : Kont) : bool :=
  match k with
  | KWorkerDone _ => false
  | _ => true
  end.

(** The [n]-th operation is no longer in flight. *)
Definition completed (n : nat) (w : World) : World :=
  set_pending (delete n (pending w)) w.

Class Stable (P : World -> Prop) : Prop := {
  st_log e w : quiet e = true -> P w -> P (log e w);
  st_fs f w : P w -> P (set_fs f w);
  st_eaches x w : P w -> P (set_eaches x w);
  st_parallels x w : P w -> P (set_parallels x w);
  st_next_handle n w : P w -> P (set_next_handle n w);
  st_start o k w : plain k = true -> P w -> P (start o k w);
  st_paths i ps w : P w -> P (update i (set_paths ps) w);
  st_watching i h w : P w -> P (update i (set_watchingForChanges h) w);
  st_pullChanges i prev w : P w -> P (pullChanges i prev w)
}.

(** A stable property that does not count the entries begun. *)
Class Committing (P : World -> Prop) : Prop := {
  cm_stable :: Stable P;
  cm_begin j c w : P w -> P (log (EvEntryBegin j c) w)
}.

(** A property that the completion of an operation keeps: the operation is
    no longer in flight; for a fetch that brought a page, the page is the
    cursor and the instance is no longer busy. *)
Class Completing (P : World -> Prop) : Prop := {
  cp_committing :: Committing P;
  cp_completed n o k w :
    pending w !! n = Some (o, k) -> not_worker k = true ->
    P w -> P (completed n w);
  cp_page_taken n o i prev page w :
    pending w !! n = Some (o, KPull i prev) ->
    P w -> P (page_taken n i page w)
}.

(** *** The invariants *)

(** At most one fetch of an instance is in flight, and only while the
    instance is busy ([pullingChanges]). *)
Definition one_fetch (w : World) : Prop :=
  forall i, pulls_in_flight i w <= (if busy i w then 1 else 0).

(** At most one fetch of an instance is in flight, and it was made with the
    cursor that the instance holds. *)
Definition fetch_has_cursor (w : World) : Prop :=
  one_fetch w
  /\ forall o i prev,
      In (o, KPull i prev) (pending w) ->
      exists s, heap w !! i = Some s /\ o = OpPull i (cursor s).

(** The instance [i] is busy with no fetch in flight, and [n] fetches were
    made for it. *)
Definition stuck (i : ref) (n : nat) (w : World) : Prop :=
  busy i w = true /\ pulls_in_flight i w = 0 /\ fetches i (trace w) = n.

(** The [onChange] of a queue is in progress as many times as the queue
    has workers at work, which is at most once. *)
Definition one_notification (w : World) : Prop :=
  (forall q s, queues w !! q = Some s ->
               notifications_in_flight q w = q_workers s /\ q_workers s <= 1)
  /\ (forall q, length (queues w) <= q -> notifications_in_flight q w = 0).

(** From the world [w1] on, the instance [i] stays busy, no fetch is made
    for it, and every [pullChanges], also the one that [watchForChanges] makes
    without a cursor, returns at once. *)
Definition never_pulls_again (step : World -> label -> option World)
  (i : ref) (w1 : World) : Prop :=
  forall ls w2,
    run step w1 ls = Some w2 ->
    busy i w2 = true
    /\ pulls_in_flight i w2 = 0
    /\ fetches i (trace w2) = fetches i (trace w1)
    /\ (forall prev, pullChanges i prev w2 = w2)
    /\ (forall s, heap w2 !! i = Some s -> cursor s = None ->
                  watchForChanges i w2 = w2).

(** [commitChange] was called for the entries [l], in this order. *)
Definition begun_is (l : list Change) (w : World) : Prop :=
  entries_begun (history w) = l.

(** The cache holds the instance [i] under [key]. *)
Definition cached (key : string) (i : ref) (w : World) : Prop :=
  cache w !! key = Some i.

(** The cache holds nothing under [key]. *)
Definition uncached (key : string) (w : World) : Prop :=
  cache w !! key = None.

(** part_000: every instance whose uid and root make the key [key] is the
    one that the cache holds under [key]. *)
Definition sole_000 (key : string) (w : World) : Prop :=
  forall i s,
    heap w !! i = Some s ->
    Part000.cache_key (client_uid s) (root s) = key ->
    cache w !! key = Some i.

(** part_001: every instance is the one that the cache holds under its
    uid, and the cache holds no key that it inherits. *)
Definition sole_001 (w : World) : Prop :=
  (forall i s, heap w !! i = Some s -> cache w !! client_uid s = Some i)
  /\ forall k, Js.inherited k = true -> cache w !! k = None.

(** An instance is live when it watches a path. *)
Definition live (s : Instance) : Prop := paths s <> [].

(** At most one live instance has a given uid and root. *)
Definition one_live_per_identity (w : World) : Prop :=
  forall i j s t,
    heap w !! i = Some s -> heap w !! j = Some t ->
    client_uid s = client_uid t -> root s = root t ->
    live s -> live t -> i = j.

(** The watch of the instance [i] is armed: without a cursor a fetch was
    started, with a cursor a long-poll is held. *)
Definition armed (i : ref) (w : World) : Prop :=
  match heap w !! i with
  | Some s =>
      match cursor s with
      | None => pullingChanges s = true
      | Some _ => watchingForChanges s <> None
      end
  | None => True
  end.

(** From [w1] to [w2] no instance was made, nothing was asked of the remote
    feed and the cursor of [i] was left as it was. *)
Definition nothing_doubled (i : ref) (w1 w2 : World) : Prop :=
  length (heap w2) = length (heap w1)
  /\ remote_in_flight w2 = remote_in_flight w1
  /\ cursor <$> heap w2 !! i = cursor <$> heap w1 !! i.

(** The operations [l] are in flight, at the places they have in [l];
    others were started after them. *)
Definition in_flight (l : list (Op * Kont)) (w : World) : Prop :=
  exists later, pending w = l ++ later.

(** The instance [i] exists. *)
Definition alive (i : ref) (w : World) : Prop := is_Some (heap w !! i).

End Keep.

(** ** Processes and batches used as examples *)

Module Ex.

Import Dropbox Engine Obs.

Definition cfg : Config :=
  {| key := "k"; secret := "s"; uid := "7"; token := "t" |}.

Definition file_entry (p : string) : Change :=
  {| path := p; wasRemoved := false;
     stat := {| isFile := true; isFolder := false |} |}.

Definition folder_entry (p : string) : Change :=
  {| path := p; wasRemoved := false;
     stat := {| isFile := false; isFolder := true |} |}.

Definition removal (p : string) : Change :=
  {| path := p; wasRemoved := true;
     stat := {| isFile := false; isFolder := false |} |}.

Definition page (cs : list Change) (again blank : bool) (tag : string)
  : PulledChanges :=
  {| changes := cs; shouldPullAgain := again; blankSlate := blank;
     cursorTag := tag |}.

Definition nested_example : PulledChanges :=
  page [file_entry "/a/b/file.txt"; file_entry "/c/other.txt"] false false "c1".

(** The world that a run leaves; the starting world when a step is not
    defined. *)
Definition after (step : World -> label -> option World) (w : World)
  (ls : list label) : World :=
  default w (run step w ls).

(** An instance that watches [/a] and [/b]; its first fetch is in flight. *)
Definition two_watchers : World :=
  after Part000.step (boot "/w" Fs.empty)
    [LNew cfg "mirror"; LSync 0 (Some "/a") 1 2; LSync 0 (Some "/b") 3 4].

(** An instance that watches [/a] and [/a/b]; its first fetch is in
    flight. *)
Definition nested_watchers : World :=
  after Part000.step (boot "/w" Fs.empty)
    [LNew cfg "mirror"; LSync 0 (Some "/a") 1 2; LSync 0 (Some "/a/b") 3 4].

(** An instance that watches [/a]; its first fetch is in flight. *)
Definition one_watcher : World :=
  after Part000.step (boot "/w" Fs.empty)
    [LNew cfg "mirror"; LSync 0 (Some "/a") 1 2].

(** A filesystem in which [/w/mirror/docs] is a regular file. *)
Definition docs_is_file : Fs.t :=
  snd (Fs.outputFile Fs.empty ["w"; "mirror"; "docs"] "old").

Definition folder_page : PulledChanges :=
  page [folder_entry "/docs"] false false "c1".

(** The root is watched; the feed reports the folder [/docs]; the [fs.stat]
    of [_replaceLocalWithFolder] completes. *)
Definition folder_over_file_run : list label :=
  [LNew cfg "mirror"; LSync 0 None 1 2;
   LComplete 1 (RPull (Done folder_page)); LComplete 1 (RFs None)].

(** A filesystem in which the mirror of [/a] holds a file. *)
Definition mirror_with_file : Fs.t :=
  snd (Fs.outputFile Fs.empty ["w"; "mirror"; "a"; "old"] "old").

(** [/a] is watched and its mirror is not empty.  The consumer is told of
    the local state and calls back, which arms the long-poll while the first
    batch is being committed; it is then told of the first batch; the
    long-poll reports changes and the second batch is fetched and committed
    while the consumer has not called back. *)
Definition overlap_run : list label :=
  [LNew cfg "mirror"; LSync 0 (Some "/a") 1 2;
   LComplete 0 (RReaddir (Done ["mirror/a/old"]));
   LComplete 1 RFired;
   LComplete 0 (RPull (Done (page [removal "/a/x"] false false "c1")));
   LComplete 0 RFired;
   LComplete 0 (RFs None);
   LComplete 1 RFired;
   LComplete 0 (RPoll (Done {| hasChanges := true; retryAfter := 0 |}));
   LComplete 1 (RPull (Done (page [removal "/a/y"] false false "c2")))].

Definition overlap : World :=
  after Part000.step (boot "/w" mirror_with_file) overlap_run.

(** [/a] is watched; the feed reports two removals under it. *)
Definition two_entries_run : list label :=
  [LNew cfg "mirror"; LSync 0 (Some "/a") 1 2;
   LComplete 1 (RPull (Done (page [removal "/a/x"; removal "/a/y"]
                               false false "c1")))].

(** part_001: [/a] is watched; its first fetch is in flight. *)
Definition one_watcher_001 : World :=
  after Part001.step (boot "/w" Fs.empty)
    [LNew cfg "mirror"; LSync 0 (Some "/a") 1 2].

(** part_001: [/a] and [/a/b] are watched; the first fetch is in flight. *)
Definition nested_watchers_001 : World :=
  after Part001.step (boot "/w" Fs.empty)
    [LNew cfg "mirror"; LSync 0 (Some "/a") 1 2; LSync 0 (Some "/a/b") 3 4].


(** The instance [i] of a world. *)
Definition instance (i : ref) (w : World) : Instance :=
  default (fresh cfg "") (heap w !! i).

End Ex.

(** ** src/index.js: the constructor, [sync], [stopSync] and the watch

    The methods are functions from the instance to the instance and to what
    they ask of the environment and of the consumer, in order; a closure
    that the environment calls back is named by the [Callback] it was given.
    [commitChanges] is asked for and not entered. *)

Module IndexLoop.

Import Dropbox Engine Index.

Inductive Request :=
| ReqPull (cursor : option PulledChanges) (callback : Callback)
| ReqPoll (cursor : PulledChanges) (handle : nat) (callback : Callback)
| ReqDelay (seconds : nat) (callback : Callback)
| ReqRemove (p : string) (callback : fn)
| ReqThrow (msg : string)
| ReqEffect (e : Effect).

(** [new DropboxSync(dropboxConfig, root, path)] *)
Definition DropboxSync (root_ path_ : string) : Instance :=
  {| root := root_;
     path := if negb (Js.head_is_slash path_) then "/" +:+ path_ else path_;
     cursor := None;
     watchingForChanges := None |}.

(** [pullChanges(callback)], up to the call of the remote feed. *)
Definition pullChanges (s : Instance) (callback : Callback)
  : Instance * list Request :=
  (s, [ReqPull (cursor s) callback]).

(** [watchForChanges(callback)]; [h] is the handle that [pollForChanges]
    returns. *)
Definition watchForChanges (h : nat) (s : Instance) (callback : Callback)
  : Instance * list Request :=
  match cursor s with
  | None => pullChanges s callback
  | Some c =>
      match watchingForChanges s with
      | Some _ => (s, [])
      | None =>
          ({| root := root s; path := path s; cursor := cursor s;
              watchingForChanges := Some h |},
           [ReqPoll c h callback])
      end
  end.

(** [sync(onError, onChange)] *)
Definition sync (h : nat) (s : Instance) (onError onChange : fn)
  : Instance * list Request :=
  watchForChanges h s (CbSync onError onChange).

(** The closure that [sync] gives to [watchForChanges]. *)
Definition sync_callback (h : nat) (s : Instance) (onError onChange : fn)
  (r : outcome PulledChanges) : Instance * list Request :=
  match r with
  | Failed e => (s, [ReqEffect (Call (EvOnError onError e))])
  | Done changesMade =>
      let '(s', reqs) := sync h s onError onChange in
      (s',
       ReqEffect
         (Call (EvOnChange onChange
                  (map (fun c => toLocalPath (root s) (Dropbox.path c))
                     (changes changesMade))))
       :: reqs)
  end.

(** [stopSync(callback)]; with no long-poll held,
    [this.watchingForChanges.abort()] throws. *)
Definition stopSync (s : Instance) (callback : fn)
  : Instance * list Request :=
  match watchingForChanges s with
  | None => (s, [ReqThrow "TypeError"])
  | Some _ =>
      ({| root := root s; path := path s; cursor := cursor s;
          watchingForChanges := None |},
       [ReqRemove (root s) callback])
  end.

(** The callback of [pollForChanges] in [watchForChanges(callback)]. *)
Definition poll_callback (s : Instance) (callback : Callback)
  (r : outcome PollResult) : Instance * list Request :=
  match r with
  | Failed e => (s, map ReqEffect (call_with_error callback e))
  | Done pollResult =>
      match watchingForChanges s with
      | None => (s, [])
      | Some _ =>
          if negb (hasChanges pollResult)
          then (s, [ReqDelay (retryAfter pollResult) callback])
          else pullChanges s callback
      end
  end.

(** What the environment and the consumer do to an instance. *)
Inductive Call :=
| CallSync (h : nat) (onError onChange : fn)
| CallTimer (h : nat) (callback : Callback)
| CallPolled (callback : Callback) (r : outcome PollResult)
| CallPulled (callback : Callback) (r : outcome PulledChanges)
| CallCommitted (h : nat) (onError onChange : fn) (r : outcome PulledChanges).

Definition call (c : Call) (s : Instance) : Instance * list Request :=
  match c with
  | CallSync h onError onChange => sync h s onError onChange
  | CallTimer h callback => watchForChanges h s callback
  | CallPolled callback r => poll_callback s callback r
  | CallPulled callback r =>
      let '(s', effects) := pull_callback s callback r in
      (s', map ReqEffect effects)
  | CallCommitted h onError onChange r => sync_callback h s onError onChange r
  end.

Fixpoint calls (cs : list Call) (s : Instance) : Instance * list Request :=
  match cs with
  | [] => (s, [])
  | c :: cs' =>
      let '(s1, reqs1) := call c s in
      let '(s2, reqs2) := calls cs' s1 in
      (s2, reqs1 ++ reqs2)
  end.

Definition is_poll (r : Request) : bool :=
  match r with
  | ReqPoll _ _ _ => true
  | _ => false
  end.

End IndexLoop.

(** ** More of what is observed of a world *)

Module View.

Import Dropbox Engine.

(** The path table of the instance [i]. *)
Definition watched (i : ref) (w : World) : list (string * Handler) :=
  match heap w !! i with
  | Some s => paths s
  | None => []
  end.

(** The long-poll handle that the instance [i] holds. *)
Definition polling (i : ref) (w : World) : option nat :=
  match heap w !! i with
  | Some s => watchingForChanges s
  | None => None
  end.

(** The cursor that the instance [i] stores. *)
Definition stored_cursor (i : ref) (w : World) : option PulledChanges :=
  match heap w !! i with
  | Some s => cursor s
  | None => None
  end.

(** A segment of a path that names an entry of its directory: neither
    [.] nor [..]. *)
Definition plain_segment (x : string) : bool :=
  negb (String.eqb x ".") && negb (String.eqb x "..").

(** The string has no slash. *)
Fixpoint no_slash (s : string) : bool :=
  match s with
  | EmptyString => true
  | String c s' => negb (Ascii.eqb c "/") && no_slash s'
  end.

(** No entry of the batch lies under a path of the table. *)
Definition unrouted (ps : list (string * Handler)) (batch : PulledChanges)
  : Prop :=
  forall ph c, In ph ps -> In c (changes batch) -> under (fst ph) c = false.

(** The context of the commit of a batch in part_000. *)
Definition commit_of (i : ref) (batch : PulledChanges) : CommitCtx :=
  {| cc_self := i; cc_path := ""; cc_batch := batch;
     cc_callback := CbDispatch |}.

(** The calls of [onError], oldest first: the function and the error. *)
Definition errors_reported (h : list event) : list (fn * Error) :=
  omap (fun e => match e with EvOnError f x => Some (f, x) | _ => None end) h.

(** The entry is a removal, a file or a folder. *)
Definition known_kind (c : Change) : bool :=
  wasRemoved c || isFile (stat c) || isFolder (stat c).

(** The instance [i] stores a cursor. *)
Definition has_cursor (i : ref) (w : World) : Prop :=
  stored_cursor i w <> None.

(** The join of the [async.each] of a batch of one entry, of which [done]
    have called back. *)
Definition one_entry (ctx : CommitCtx) (done : nat) : EachJoin :=
  {| e_total := 1; e_completed := done; e_fired := false; e_ctx := ctx |}.

(** The timer that [delay] sets: [setImmediate] for no delay, else
    [setTimeout]. *)
Definition delay_op (seconds : nat) : Op :=
  match seconds with
  | O => OpImmediate
  | S _ => OpTimer seconds
  end.

End View.

(** ** More processes used as examples *)

Module Ex2.

Import Dropbox Engine.

(** A page with no entry that ends its batch. *)
Definition empty_page : PulledChanges := Ex.page [] false false "c1".

(** part_001: [/a] is watched; the first batch had no entry and the
    long-poll is held. *)
Definition polling_001 : World :=
  Ex.after Part001.step Ex.one_watcher_001
    [LComplete 0 (RPull (Done empty_page))].

(** part_001: the long-poll is held; [stopSync] removes [/a], the only
    watched path, and aborts the long-poll; [/a] is registered again, and a
    new long-poll is made while the aborted one has not answered. *)
Definition rearmed_001 : World :=
  Ex.after Part001.step polling_001
    [LStopSync 0 "/a" 9; LSync 0 (Some "/a") 11 12].

(** [/docs] is watched over a filesystem in which the mirror of [/docs] is
    a regular file; the first fetch is in flight. *)
Definition docs_watcher_000 : World :=
  Ex.after Part000.step (boot "/w" Ex.docs_is_file)
    [LNew Ex.cfg "mirror"; LSync 0 (Some "/docs") 1 2].

Definition docs_watcher_001 : World :=
  Ex.after Part001.step (boot "/w" Ex.docs_is_file)
    [LNew Ex.cfg "mirror"; LSync 0 (Some "/docs") 1 2].

(** part_000: [/a] is watched; the first batch had no entry, and a second
    registration of [/a] made the long-poll, which is held. *)
Definition polling_000 : World :=
  Ex.after Part000.step Ex.one_watcher
    [LComplete 1 (RPull (Done empty_page)); LSync 0 (Some "/a") 1 2].

(** part_000: [/a] is watched; the first batch brings the file [/a/x],
    whose removal and download are in flight. *)
Definition file_arriving : World :=
  Ex.after Part000.step Ex.one_watcher
    [LComplete 1 (RPull (Done (Ex.page [Ex.file_entry "/a/x"] false false "c1")))].

(** part_000: [/a] is watched and, once the first batch has come, a second
    registration holds the long-poll; [stopSync] removes the path, which
    takes the instance out of the cache; whoever holds the instance registers
    [/a] on it again; a construction with the same uid and root then makes a
    second instance, on which [/a] is registered too. *)
Definition doubled_run : list label :=
  [LNew Ex.cfg "mirror"; LSync 0 (Some "/a") 1 2;
   LComplete 1 (RPull (Done empty_page));
   LSync 0 (Some "/a") 1 2;
   LStopSync 0 "/a" 9;
   LSync 0 (Some "/a") 1 2;
   LNew Ex.cfg "mirror";
   LSync 1 (Some "/a") 3 4].

Definition doubled : World :=
  Ex.after Part000.step (boot "/w" Fs.empty) doubled_run.

(** A configuration whose uid is the name of a property that every object
    inherits. *)
Definition cfg_constructor : Config :=
  {| key := "k"; secret := "s"; uid := "constructor"; token := "t" |}.

(** The join of the [async.parallel] [p] of a world. *)
Definition join (p : nat) (w : World) : ParJoin :=
  default {| p_localPath := ""; p_each := 0; p_change := Ex.removal "";
             p_completed := 0; p_fired := false; p_dropbox := None |}
    (parallels w !! p).

End Ex2.

(** * Properties *)

Import Dropbox Engine Obs.

(** ** Strings *)

Lemma slice0_prefix (p s : string) :
  Js.slice0 (String.length p) s = p <-> string_prefix p s.
Proof.
  unfold string_prefix. revert s.
  induction p as [|a p IH]; intros s; simpl.
  - split; [intros _; exists s; reflexivity | reflexivity].
  - destruct s as [|b s]; simpl.
    + split; [discriminate | intros [t Ht]; discriminate].
    + split.
      * intros H. injection H as -> H. apply IH in H as [t ->].
        exists t. reflexivity.
      * intros [t Ht]. injection Ht as -> Ht. f_equal. apply IH. eauto.
Qed.

Lemma append_assoc (a b c : string) : (a +:+ b) +:+ c = a +:+ (b +:+ c).
Proof.
  induction a as [|x a IH]; [reflexivity|].
  change (String x ((a +:+ b) +:+ c) = String x (a +:+ b +:+ c)).
  f_equal. exact IH.
Qed.

Lemma under_prefix (p : string) (c : Change) :
  under p c = true <-> string_prefix p (path c).
Proof.
  unfold under. rewrite String.eqb_eq. apply slice0_prefix.
Qed.

(** ** Routing of the entries of a batch (C6) *)

Lemma foldl_triggered {A B} (f : A -> B -> A) (l : list B) (a : A) (t : bool) :
  foldl (fun '(a', _) b => (f a' b, true)) (a, t) l
  = (foldl f a l, match l with [] => t | _ => true end).
Proof.
  revert a t. induction l as [|b l IH]; intros a t; simpl; [reflexivity|].
  rewrite IH. destruct l; reflexivity.
Qed.

(** part_000: after a commit without error, the closure of every watched
    path is called, in the order of the table, with its [changedPaths]. *)
Lemma dispatch_calls_each_closure (ctx : CommitCtx) (w : World) (s : Instance) :
  heap w !! cc_self ctx = Some s ->
  Part000.dispatch ctx None w
  = foldl (fun w' ph =>
             Part000.handler (snd ph) None
               (Part000.changedPaths (fst ph) (cc_batch ctx)) w')
      w (paths s).
Proof.
  intros Hs. unfold Part000.dispatch. rewrite Hs.
  destruct (paths s) as [|ph ps] eqn:Hps; [reflexivity|].
  rewrite foldl_triggered. reflexivity.
Qed.

(** part_001: a watched path gets a commit exactly when entries lie under
    it, and the commit is that of these entries. *)
Lemma filter_and_commit_cases (i : ref) (b : PulledChanges) (w : World)
  (acc : list string) (p : string) (h : Handler) :
  Part001.filter_and_commit i b (w, acc) (p, h)
  = match Part001.filtered p b with
    | [] => (w, acc)
    | _ :: _ =>
        (Part001.commitChanges i p
           (with_changes b (Part001.filtered p b)) h w, acc ++ [p])
    end.
Proof.
  unfold Part001.filter_and_commit. simpl.
  destruct (Part001.filtered p b); reflexivity.
Qed.

Lemma in_changedPaths (p : string) (b : PulledChanges) (x : string) :
  In x (Part000.changedPaths p b)
  <-> exists c, In c (changes b) /\ path c = x /\ string_prefix p x.
Proof.
  unfold Part000.changedPaths. rewrite in_map_iff. split.
  - intros [c [Hx Hc]]. apply filter_In in Hc as [Hc Hu].
    exists c. subst x. rewrite <- under_prefix. auto.
  - intros [c [Hc [Hx Hp]]]. exists c. split; [assumption|].
    apply filter_In. split; [assumption|]. apply under_prefix. congruence.
Qed.

Lemma in_filtered (p : string) (b : PulledChanges) (c : Change) :
  In c (Part001.filtered p b) <-> In c (changes b) /\ string_prefix p (path c).
Proof.
  unfold Part001.filtered. rewrite filter_In, under_prefix. reflexivity.
Qed.


(** ** A failed fetch (C5) *)

Lemma foldl_log_trace {A} (g : A -> event) (l : list A) (w : World) :
  trace (foldl (fun w' x => log (g x) w') w l) = rev (map g l) ++ trace w.
Proof.
  revert w. induction l as [|x l IH]; intros w; simpl; [reflexivity|].
  rewrite IH. simpl. rewrite <- app_assoc. reflexivity.
Qed.

Lemma foldl_log_frame {A} (g : A -> event) (l : list A) (w : World) :
  let w' := foldl (fun w' x => log (g x) w') w l in
  heap w' = heap w /\ cache w' = cache w /\ queues w' = queues w
  /\ eaches w' = eaches w /\ parallels w' = parallels w
  /\ pending w' = pending w /\ fs w' = fs w /\ cwd w' = cwd w
  /\ next_handle w' = next_handle w.
Proof.
  revert w. induction l as [|x l IH]; intros w; simpl; [repeat split|].
  apply (IH (log (g x) w)).
Qed.

(** [errAll] calls the [onError] of every watched path, in the order of the
    table, and does nothing else. *)
Lemma errAll_history (i : ref) (e : Error) (w : World) (s : Instance) :
  heap w !! i = Some s ->
  history (errAll i e w)
  = history w ++ map (fun ph => EvOnError (h_onError (snd ph)) e) (paths s).
Proof.
  intros Hs. unfold history, errAll. rewrite Hs.
  rewrite (foldl_log_trace (fun ph => EvOnError (h_onError (snd ph)) e)).
  rewrite rev_app_distr, rev_involutive. reflexivity.
Qed.

Lemma errAll_frame (i : ref) (e : Error) (w : World) :
  let w' := errAll i e w in
  heap w' = heap w /\ cache w' = cache w /\ queues w' = queues w
  /\ eaches w' = eaches w /\ parallels w' = parallels w
  /\ pending w' = pending w /\ fs w' = fs w /\ cwd w' = cwd w
  /\ next_handle w' = next_handle w.
Proof.
  unfold errAll. destruct (heap w !! i) as [s|]; [|repeat split].
  apply (foldl_log_frame (fun ph => EvOnError (h_onError (snd ph)) e)).
Qed.


(** ** A folder entry (C8) *)

(** Nothing at the local path: the directory is made. *)
Lemma folder_stat_missing_creates (final : CommitCtx -> option Error -> World -> World)
  (localPath : string) (j : nat) (c : Change) (w : World) :
  folder_stat_callback final localPath j c (Fs.Err "ENOENT") w
  = fs_call (Fs.Mkdirs localPath) (KEntry j c) w.
Proof. reflexivity. Qed.

(** Something at the local path, a directory or not: [stat.isDirectory] is
    the method, which is truthy, and the entry is done; the branch that
    removes what is there and makes the directory is never taken. *)
Lemma folder_stat_existing_is_left (final : CommitCtx -> option Error -> World -> World)
  (localPath : string) (j : nat) (c : Change) (st : Fs.Stats) (w : World) :
  folder_stat_callback final localPath j c (Fs.OkStats st) w
  = entry_callback final j c None w.
Proof. reflexivity. Qed.

(** C8, at the input where the code leaves it: the feed reports [/docs] as a
    folder while the local [/w/mirror/docs] is a regular file.  The only
    primitive called is [fs.stat]; the entry is reported as committed; the
    regular file is still there. *)
Theorem folder_over_file_keeps_file :
  Ex.docs_is_file ["w"; "mirror"; "docs"] = Some (Fs.File "old")
  /\ exists w,
      run Part000.step (boot "/w" Ex.docs_is_file) Ex.folder_over_file_run
      = Some w
      /\ fs_calls (history w) = [Fs.Stat "mirror/docs"]
      /\ In (EvEntryEnd 0 (Ex.folder_entry "/docs") None) (history w)
      /\ fs w (Fs.locate "/w" "mirror/docs") = Some (Fs.File "old")
      /\ exists w1,
          run Part001.step (boot "/w" Ex.docs_is_file)
            [LNew Ex.cfg "mirror"; LSync 0 (Some "/") 1 2;
             LComplete 0 (RPull (Done Ex.folder_page)); LComplete 0 (RFs None)]
          = Some w1
          /\ fs_calls (history w1) = [Fs.Stat "mirror/docs"]
          /\ fs w1 (Fs.locate "/w" "mirror/docs") = Some (Fs.File "old").
Proof.
  split; [reflexivity|].
  eexists. split; [vm_compute; reflexivity|].
  split; [vm_compute; reflexivity|].
  split; [vm_compute; auto 10|].
  split; [vm_compute; reflexivity|].
  eexists. split; [vm_compute; reflexivity|].
  split; vm_compute; reflexivity.
Qed.

(** ** The methods keep the stable properties *)

Import Keep.

Ltac keep_step :=
  match goal with
  | H : ?P ?w |- ?P ?w => exact H
  | |- _ (log (EvEntryBegin _ _) _) => apply cm_begin
  | |- _ (log _ _) => apply st_log; [reflexivity|]
  | |- _ (set_fs _ _) => apply st_fs
  | |- _ (set_eaches _ _) => apply st_eaches
  | |- _ (set_parallels _ _) => apply st_parallels
  | |- _ (set_next_handle _ _) => apply st_next_handle
  | |- _ (start _ _ _) => apply st_start; [reflexivity|]
  | |- _ (fs_call _ _ _) => unfold fs_call
  | |- _ (update _ (set_paths _) _) => apply st_paths
  | |- _ (update _ (set_watchingForChanges _) _) => apply st_watching
  | |- _ (pullChanges _ _ _) => apply st_pullChanges
  | |- _ (match ?x with _ => _ end) => destruct x eqn:?
  end.

Ltac keep := repeat keep_step; eauto.

Section KeepBase.

Context {P : World -> Prop} `{!Stable P}.

Lemma keep_foldl {A} (f : World -> A -> World) (l : list A) :
  (forall w x, P w -> P (f w x)) -> forall w, P w -> P (foldl f w l).
Proof.
  intros Hf. induction l as [|x l IH]; intros w Hw; simpl; auto.
Qed.

Lemma keep_errAll (i : ref) (e : Error) (w : World) :
  P w -> P (errAll i e w).
Proof.
  intros Hw. unfold errAll. destruct (heap w !! i); [|assumption].
  apply keep_foldl; [|assumption]. intros w' x Hw'. keep.
Qed.

Lemma keep_watchForChanges (i : ref) (w : World) :
  P w -> P (watchForChanges i w).
Proof. intros Hw. unfold watchForChanges. keep. Qed.

Lemma keep_delay (seconds : nat) (i : ref) (w : World) :
  P w -> P (delay seconds i w).
Proof. intros Hw. unfold delay. keep. Qed.

Lemma keep_poll_callback (i : ref) (r : outcome PollResult) (w : World) :
  P w -> P (poll_callback i r w).
Proof.
  intros Hw. unfold poll_callback.
  destruct r; [apply keep_errAll; assumption|].
  destruct (heap w !! i); [|assumption].
  destruct (watchingForChanges _); [|assumption].
  destruct (negb _); [apply keep_delay|]; keep.
Qed.

Lemma answer_world (o : Op) (r : Resp) (a : Arg) (w w' : World) :
  answer o r w = Some (a, w') ->
  (w' = w /\ forall x, a <> AFs x) \/ (exists x, a = AFs x /\ (P w -> P w')).
Proof.
  intros E. destruct o, r; simpl in E; try discriminate;
    try (injection E as <- <-; left; split; [reflexivity | discriminate]).
  destruct fault as [e|].
  - injection E as <- <-. right. eexists. split; [reflexivity|].
    intros Hw. keep.
  - destruct (Fs.exec _ _ _) as [res fs'].
    injection E as <- <-. right. eexists. split; [reflexivity|].
    intros Hw. keep.
Qed.

End KeepBase.

(** *** The closures of an entry *)

Section KeepEntry.

Context {P : World -> Prop} `{!Stable P}.
Variable final : CommitCtx -> option Error -> World -> World.
Hypothesis keep_final : forall ctx err w, P w -> P (final ctx err w).

Lemma keep_each_done (j : nat) (err : option Error) (w : World) :
  P w -> P (each_done final j err w).
Proof.
  intros Hw. unfold each_done. keep; apply keep_final; keep.
Qed.

Lemma keep_entry_callback (j : nat) (c : Change) (err : option Error)
  (w : World) : P w -> P (entry_callback final j c err w).
Proof.
  intros Hw. unfold entry_callback. apply keep_each_done. keep.
Qed.

Lemma keep_replaceLocalWithFile (i : ref) (j : nat) (c : Change) (w : World) :
  P w -> P (replaceLocalWithFile i j c w).
Proof. intros Hw. unfold replaceLocalWithFile. keep. Qed.

Lemma keep_parallel_done (p : nat) (err : option Error)
  (buffer : option string) (w : World) :
  P w -> P (parallel_done final p err buffer w).
Proof.
  intros Hw. unfold parallel_done.
  destruct (parallels w !! p); [|assumption].
  destruct err.
  - destruct (p_fired _); [assumption|]. apply keep_entry_callback. keep.
  - destruct (_ && _); keep.
Qed.

Lemma keep_replaceLocalWithFolder (i : ref) (j : nat) (c : Change)
  (w : World) : P w -> P (replaceLocalWithFolder i j c w).
Proof. intros Hw. unfold replaceLocalWithFolder. keep. Qed.

Lemma keep_folder_stat_callback (lp : string) (j : nat) (c : Change)
  (r : Fs.result) (w : World) :
  P w -> P (folder_stat_callback final lp j c r w).
Proof.
  intros Hw. unfold folder_stat_callback. destruct r; [| assumption |].
  - destruct (String.eqb _ _); [keep | apply keep_entry_callback; assumption].
  - destruct (Js.truthy _); [apply keep_entry_callback; assumption | keep].
Qed.

Lemma keep_folder_removed_callback (lp : string) (j : nat) (c : Change)
  (r : Fs.result) (w : World) :
  P w -> P (folder_removed_callback final lp j c r w).
Proof.
  intros Hw. unfold folder_removed_callback.
  destruct (err_of r); [apply keep_entry_callback; assumption | keep].
Qed.

(** [commitChange], once the entry is in the history. *)
Lemma keep_commitChange_begun (i : ref) (j : nat) (c : Change) (w : World) :
  P (log (EvEntryBegin j c) w) -> P (commitChange final i j c w).
Proof.
  intros Hw. unfold commitChange.
  destruct (wasRemoved c); [keep|].
  destruct (isFile _); [apply keep_replaceLocalWithFile; keep|].
  destruct (isFolder _); [apply keep_replaceLocalWithFolder; keep|].
  apply keep_entry_callback. keep.
Qed.

End KeepEntry.

(** *** The commit of a batch *)

Section KeepCommit.

Context {P : World -> Prop} `{!Committing P}.
Variable final : CommitCtx -> option Error -> World -> World.
Hypothesis keep_final : forall ctx err w, P w -> P (final ctx err w).

Lemma keep_commitChange (i : ref) (j : nat) (c : Change) (w : World) :
  P w -> P (commitChange final i j c w).
Proof.
  intros Hw. apply keep_commitChange_begun; [assumption|].
  apply cm_begin. assumption.
Qed.

Lemma keep_each_changes (ctx : CommitCtx) (w : World) :
  P w -> P (each_changes final ctx w).
Proof.
  intros Hw. unfold each_changes.
  destruct (changes (cc_batch ctx)) as [|c cs] eqn:Hcs;
    [apply keep_final; assumption|].
  apply keep_foldl; [|keep].
  intros w' x Hw'. apply keep_commitChange. assumption.
Qed.

Lemma keep_reset_callback (k : ResetCallback) (err : option Error)
  (w : World) : P w -> P (reset_callback final k err w).
Proof.
  intros Hw. unfold reset_callback. destruct k; [|keep].
  destruct err; [apply keep_final | apply keep_each_changes]; assumption.
Qed.

Lemma keep_resetDir (dir : string) (k : ResetCallback) (w : World) :
  P w -> P (resetDir dir k w).
Proof. intros Hw. unfold resetDir. keep. Qed.

Lemma keep_reset_removed_callback (dir : string) (k : ResetCallback)
  (r : Fs.result) (w : World) :
  P w -> P (reset_removed_callback final dir k r w).
Proof.
  intros Hw. unfold reset_removed_callback.
  destruct (err_of r); [apply keep_reset_callback; assumption | keep].
Qed.

Lemma keep_commitChanges (dir : string) (ctx : CommitCtx) (w : World) :
  P w -> P (Engine.commitChanges final dir ctx w).
Proof.
  intros Hw. unfold Engine.commitChanges.
  destruct (blankSlate _);
    [apply keep_resetDir | apply keep_each_changes]; keep.
Qed.

Lemma keep_fire_commit (k : Kont) (a : Arg) (w w' : World) :
  P w -> fire_commit final k a w = Some w' -> P w'.
Proof.
  intros Hw E. unfold fire_commit in E.
  destruct k; try discriminate; destruct a; try discriminate;
    try (injection E as <-);
    try (destruct r; injection E as <-);
    first [ apply keep_reset_removed_callback
          | apply keep_reset_callback
          | apply (keep_entry_callback final keep_final)
          | apply (keep_parallel_done final keep_final)
          | apply (keep_folder_stat_callback final keep_final)
          | apply (keep_folder_removed_callback final keep_final) ];
    assumption.
Qed.

End KeepCommit.

(** *** part_000 *)

Section KeepNotify000.

Context {P : World -> Prop} `{!Stable P}.
Hypothesis keep_queue_push :
  forall q task w, P w -> P (Part000.queue_push q task w).

Lemma keep_handler_000 (h : Handler) (err : option Error)
  (changesMade : list string) (w : World) :
  P w -> P (Part000.handler h err changesMade w).
Proof. intros Hw. unfold Part000.handler. keep. Qed.

Lemma keep_local_state_callback (h : Handler) (r : outcome (list string))
  (w : World) : P w -> P (Part000.local_state_callback h r w).
Proof.
  intros Hw. unfold Part000.local_state_callback.
  destruct r; [destruct (String.eqb _ _)|]; apply keep_handler_000; assumption.
Qed.

Lemma keep_dispatch (ctx : CommitCtx) (err : option Error) (w : World) :
  P w -> P (Part000.dispatch ctx err w).
Proof.
  intros Hw. destruct err as [e|].
  - apply keep_errAll. assumption.
  - destruct (heap w !! cc_self ctx) as [s|] eqn:Hs.
    + rewrite (dispatch_calls_each_closure ctx w s Hs).
      apply keep_foldl; [|assumption].
      intros w' x Hw'. apply keep_handler_000. assumption.
    + unfold Part000.dispatch. rewrite Hs. assumption.
Qed.

End KeepNotify000.

Section KeepCommit000.

Context {P : World -> Prop} `{!Committing P}.
Hypothesis keep_queue_push :
  forall q task w, P w -> P (Part000.queue_push q task w).

Lemma keep_dispatch_000 (ctx : CommitCtx) (err : option Error) (w : World) :
  P w -> P (Part000.dispatch ctx err w).
Proof. apply keep_dispatch. exact keep_queue_push. Qed.

Lemma keep_commitChanges_000 (i : ref) (batch : PulledChanges) (w : World) :
  P w -> P (Part000.commitChanges i batch w).
Proof.
  intros Hw. unfold Part000.commitChanges.
  apply keep_commitChanges; [apply keep_dispatch_000 | assumption].
Qed.

Lemma keep_sync_000
  (keep_new_queue : forall i f w,
      P w ->
      P (set_queues (queues w ++ [{| q_self := i; q_worker := f;
                                     q_tasks := []; q_workers := 0 |}]) w))
  (i : ref) (p : option string) (onError onChange : fn) (w : World) :
  P w -> P (Part000.sync i p onError onChange w).
Proof.
  intros Hw. unfold Part000.sync. destruct (heap w !! i); [|assumption].
  apply keep_watchForChanges. keep.
Qed.

Lemma keep_stopSync_000
  (keep_evict : forall k w, P w -> P (set_cache (delete k (cache w)) w))
  (i : ref) (p : string) (callback : fn) (w : World) :
  P w -> P (Part000.stopSync i p callback w).
Proof.
  intros Hw. unfold Part000.stopSync. destruct (heap w !! i); [|assumption].
  destruct (table_delete _ _); [destruct (watchingForChanges _)|].
  - apply keep_resetDir. apply keep_evict. keep.
  - keep.
  - keep.
Qed.

End KeepCommit000.

Section Keep000.

Context {P : World -> Prop} `{!Completing P}.
Hypothesis keep_queue_push :
  forall q task w, P w -> P (Part000.queue_push q task w).
Hypothesis keep_queue_process :
  forall q w, P w -> P (Part000.queue_process q w).
Hypothesis keep_worker_done :
  forall n o q w, pending w !! n = Some (o, KWorkerDone q) ->
                  P w -> P (Part000.worker_done q (completed n w)).

Lemma keep_pull_callback_000 (n : nat) (o : Op) (i : ref)
  (prev : option PulledChanges) (r : outcome PulledChanges) (w : World) :
  pending w !! n = Some (o, KPull i prev) ->
  P w -> P (Part000.pull_callback i prev r (completed n w)).
Proof.
  intros Hn Hw. unfold Part000.pull_callback. destruct r as [e|page].
  - apply keep_errAll. eapply cp_completed; eauto.
  - fold (page_taken n i page w).
    assert (Ht : P (page_taken n i page w)) by (eapply cp_page_taken; eauto).
    destruct (shouldPullAgain page);
      [apply st_pullChanges | apply (keep_commitChanges_000 keep_queue_push)]; assumption.
Qed.

(** An operation completes and its closure runs. *)
Lemma keep_complete_000 (n : nat) (r : Resp) (w w' : World) :
  P w -> complete Part000.fire n r w = Some w' -> P w'.
Proof.
  intros Hw E. unfold complete in E.
  destruct (pending w !! n) as [[o k]|] eqn:Hn; [|discriminate].
  fold (completed n w) in E.
  destruct (answer o r (completed n w)) as [[a w1]|] eqn:Ha; [|discriminate].
  destruct (answer_world o r a (completed n w) w1 Ha) as [[-> Hna]|[x [-> Hx]]].
  - (* the closure runs in the world where its operation has completed *)
    assert (Hc : not_worker k = true -> P (completed n w))
      by (intros Hk; eapply cp_completed; eauto).
    destruct k; destruct a; simpl in E; try discriminate;
      try (exfalso; eapply Hna; reflexivity);
      first
        [ injection E as <-;
          first
            [ solve [eapply keep_pull_callback_000; eauto]
            | solve [apply keep_poll_callback; auto]
            | solve [apply keep_watchForChanges; auto]
            | solve [apply (keep_local_state_callback keep_queue_push); auto]
            | solve [apply keep_queue_process; auto]
            | solve [eapply keep_worker_done; eauto]
            | solve [apply st_log; auto] ]
        | eapply (keep_fire_commit Part000.dispatch (keep_dispatch_000 keep_queue_push)
                    (KParDropbox p) (AFile r0)); [apply Hc; reflexivity | exact E] ].
  - (* a filesystem primitive completed: a closure of the commit runs *)
    assert (Hk : not_worker k = true).
    { destruct k; try reflexivity. simpl in E. discriminate. }
    assert (H1 : P w1) by (apply Hx; eapply cp_completed; eauto).
    assert (Hf : Part000.fire k (AFs x) w1
                 = fire_commit Part000.dispatch k (AFs x) w1)
      by (destruct k; reflexivity).
    rewrite Hf in E.
    exact (keep_fire_commit Part000.dispatch (keep_dispatch_000 keep_queue_push) k (AFs x) w1 w'
             H1 E).
Qed.

End Keep000.

(** *** part_001 *)

Section KeepNotify001.

Context {P : World -> Prop} `{!Stable P}.

Lemma keep_handler_001 (h : Handler) (err : option Error)
  (changesMade : PulledChanges) (w : World) :
  P w -> P (Part001.handler h err changesMade w).
Proof.
  intros Hw. unfold Part001.handler. destruct err; [keep|].
  apply keep_watchForChanges. keep.
Qed.

Lemma keep_committed (ctx : CommitCtx) (err : option Error) (w : World) :
  P w -> P (Part001.committed ctx err w).
Proof.
  intros Hw. unfold Part001.committed.
  destruct (cc_callback ctx); [assumption | apply keep_handler_001; assumption].
Qed.

End KeepNotify001.

Section KeepCommit001.

Context {P : World -> Prop} `{!Committing P}.

Lemma keep_commitChanges_001 (i : ref) (p : string) (batch : PulledChanges)
  (h : Handler) (w : World) :
  P w -> P (Part001.commitChanges i p batch h w).
Proof.
  intros Hw. unfold Part001.commitChanges.
  apply keep_commitChanges; [apply keep_committed | assumption].
Qed.

Lemma keep_filter_and_commit (i : ref) (batch : PulledChanges)
  (l : list (string * Handler)) :
  forall (w : World) (acc : list string),
    P w -> P (fst (foldl (Part001.filter_and_commit i batch) (w, acc) l)).
Proof.
  induction l as [|[p h] l IH]; intros w acc Hw; cbn [foldl]; [assumption|].
  rewrite filter_and_commit_cases.
  destruct (Part001.filtered p batch); apply IH;
    [assumption | apply keep_commitChanges_001; assumption].
Qed.

Lemma keep_filter_dispatch (i : ref) (batch : PulledChanges) (w : World) :
  P w -> P (Part001.filter_dispatch i batch w).
Proof.
  intros Hw. unfold Part001.filter_dispatch.
  destruct (heap w !! i) as [s|]; [|assumption].
  pose proof (keep_filter_and_commit i batch (paths s) w [] Hw) as H.
  destruct (foldl _ _ _) as [w1 changed]. simpl in H.
  destruct changed; [apply keep_watchForChanges|]; assumption.
Qed.

Lemma keep_sync_under_001 (i : ref) (key : string) (onError onChange : fn)
  (w : World) : P w -> P (Part001.sync_under i key onError onChange w).
Proof.
  intros Hw. unfold Part001.sync_under. destruct (heap w !! i); [|assumption].
  apply keep_watchForChanges. keep.
Qed.

Lemma keep_sync_001 (i : ref) (p : string) (onError onChange : fn)
  (w : World) : P w -> P (Part001.sync i p onError onChange w).
Proof. apply keep_sync_under_001. Qed.

Lemma keep_stopSync_001 (i : ref) (p : string) (callback : fn) (w : World) :
  P w -> P (Part001.stopSync i p callback w).
Proof.
  intros Hw. unfold Part001.stopSync. destruct (heap w !! i); [|assumption].
  destruct (table_delete _ _); [destruct (watchingForChanges _)|];
    try apply keep_resetDir; keep.
Qed.

End KeepCommit001.

Section Keep001.

Context {P : World -> Prop} `{!Completing P}.

Lemma keep_pull_callback_001 (n : nat) (o : Op) (i : ref)
  (prev : option PulledChanges) (r : outcome PulledChanges) (w : World) :
  pending w !! n = Some (o, KPull i prev) ->
  P w -> P (Part001.pull_callback i prev r (completed n w)).
Proof.
  intros Hn Hw. unfold Part001.pull_callback. destruct r as [e|page].
  - apply keep_errAll. eapply cp_completed; eauto.
  - fold (page_taken n i page w).
    assert (Ht : P (page_taken n i page w)) by (eapply cp_page_taken; eauto).
    destruct (shouldPullAgain page);
      [apply st_pullChanges | apply keep_filter_dispatch]; assumption.
Qed.

Lemma keep_complete_001 (n : nat) (r : Resp) (w w' : World) :
  P w -> complete Part001.fire n r w = Some w' -> P w'.
Proof.
  intros Hw E. unfold complete in E.
  destruct (pending w !! n) as [[o k]|] eqn:Hn; [|discriminate].
  fold (completed n w) in E.
  destruct (answer o r (completed n w)) as [[a w1]|] eqn:Ha; [|discriminate].
  destruct (answer_world o r a (completed n w) w1 Ha) as [[-> Hna]|[x [-> Hx]]].
  - assert (Hc : not_worker k = true -> P (completed n w))
      by (intros Hk; eapply cp_completed; eauto).
    destruct k; destruct a; simpl in E; try discriminate;
      try (exfalso; eapply Hna; reflexivity);
      first
        [ injection E as <-;
          first
            [ solve [eapply keep_pull_callback_001; eauto]
            | solve [apply keep_poll_callback; auto]
            | solve [apply keep_watchForChanges; auto] ]
        | eapply (keep_fire_commit Part001.committed keep_committed
                    (KParDropbox p) (AFile r0)); [apply Hc; reflexivity | exact E] ].
  - assert (Hk : not_worker k = true).
    { destruct k; try reflexivity. simpl in E. discriminate. }
    assert (H1 : P w1) by (apply Hx; eapply cp_completed; eauto).
    assert (Hf : Part001.fire k (AFs x) w1
                 = fire_commit Part001.committed k (AFs x) w1)
      by (destruct k; reflexivity).
    rewrite Hf in E.
    exact (keep_fire_commit Part001.committed keep_committed k (AFs x) w1 w' H1 E).
Qed.

End Keep001.

(** ** The invariants are stable *)

Lemma count_konts_app (f : Kont -> bool) (l : list (Op * Kont)) (o : Op)
  (k : Kont) :
  length (List.filter f (map snd (l ++ [(o, k)])))
  = length (List.filter f (map snd l)) + (if f k then 1 else 0).
Proof.
  rewrite map_app, List.filter_app, length_app. simpl.
  destruct (f k); reflexivity.
Qed.

Lemma count_konts_delete (f : Kont -> bool) (l : list (Op * Kont)) :
  forall (n : nat) (o : Op) (k : Kont),
    l !! n = Some (o, k) ->
    length (List.filter f (map snd l))
    = length (List.filter f (map snd (delete n l)))
      + (if f k then 1 else 0).
Proof.
  induction l as [|[o' k'] l IH]; intros n o k Hn; [discriminate|].
  destruct n as [|n]; simpl in *.
  - injection Hn as -> ->. destruct (f k); simpl; lia.
  - pose proof (IH n o k Hn) as E. destruct (f k'); simpl; lia.
Qed.

Lemma pulls_start (i : ref) (o : Op) (k : Kont) (w : World) :
  pulls_in_flight i (start o k w)
  = pulls_in_flight i w + (if is_pull_of i k then 1 else 0).
Proof. apply count_konts_app. Qed.

Lemma pulls_completed (i : ref) (n : nat) (o : Op) (k : Kont) (w : World) :
  pending w !! n = Some (o, k) ->
  pulls_in_flight i w
  = pulls_in_flight i (completed n w) + (if is_pull_of i k then 1 else 0).
Proof. apply count_konts_delete. Qed.

Lemma notifications_start (q : nat) (o : Op) (k : Kont) (w : World) :
  notifications_in_flight q (start o k w)
  = notifications_in_flight q w + (if is_worker_of q k then 1 else 0).
Proof. apply count_konts_app. Qed.

Lemma notifications_completed (q : nat) (n : nat) (o : Op) (k : Kont)
  (w : World) :
  pending w !! n = Some (o, k) ->
  notifications_in_flight q w
  = notifications_in_flight q (completed n w)
    + (if is_worker_of q k then 1 else 0).
Proof. apply count_konts_delete. Qed.

Lemma plain_not_pull (i : ref) (k : Kont) :
  plain k = true -> is_pull_of i k = false.
Proof. destruct k; simpl; congruence. Qed.

Lemma plain_not_worker (q : nat) (k : Kont) :
  plain k = true -> is_worker_of q k = false.
Proof. destruct k; simpl; congruence. Qed.

Lemma not_worker_count (q : nat) (k : Kont) :
  not_worker k = true -> is_worker_of q k = false.
Proof. destruct k; simpl; congruence. Qed.

(** [busy] looks at [pullingChanges] only. *)
Lemma busy_update (i j : ref) (f : Instance -> Instance) (w : World) :
  (forall s, pullingChanges (f s) = pullingChanges s) ->
  busy j (update i f w) = busy j w.
Proof.
  intros Hf. unfold busy, update. simpl.
  destruct (decide (i = j)) as [->|Hij].
  - rewrite list_lookup_alter_eq. destruct (heap w !! j); simpl; auto.
  - rewrite list_lookup_alter_ne by assumption. reflexivity.
Qed.

Lemma busy_update_other (i j : ref) (f : Instance -> Instance) (w : World) :
  i <> j -> busy j (update i f w) = busy j w.
Proof.
  intros Hij. unfold busy, update. simpl.
  rewrite list_lookup_alter_ne by assumption. reflexivity.
Qed.

Lemma busy_set (i : ref) (b : bool) (w : World) (s : Instance) :
  heap w !! i = Some s ->
  busy i (update i (set_pullingChanges b) w) = b.
Proof.
  intros Hs. unfold busy, update. simpl.
  rewrite list_lookup_alter_eq, Hs. reflexivity.
Qed.

Lemma busy_page_taken (n : nat) (i j : ref) (page : PulledChanges) (w : World) :
  i <> j -> busy j (page_taken n i page w) = busy j w.
Proof.
  intros Hij. unfold page_taken.
  rewrite !busy_update_other by assumption. reflexivity.
Qed.

Lemma pulls_page_taken (n : nat) (i j : ref) (page : PulledChanges) (w : World) :
  pulls_in_flight j (page_taken n i page w) = pulls_in_flight j (completed n w).
Proof. reflexivity. Qed.

(** *** One fetch in flight *)

#[export] Instance one_fetch_stable : Stable one_fetch.
Proof.
  split; try (intros; assumption).
  - intros o k w Hk H i. rewrite pulls_start, (plain_not_pull i k Hk).
    specialize (H i). unfold busy in *. simpl. lia.
  - intros i ps w H j. specialize (H j).
    rewrite busy_update by reflexivity. exact H.
  - intros i h w H j. specialize (H j).
    rewrite busy_update by reflexivity. exact H.
  - intros i prev w H. unfold pullChanges.
    destruct (heap w !! i) as [s|] eqn:Hs; [|assumption].
    destruct (pullingChanges s) eqn:Hb; [assumption|].
    intros j. rewrite pulls_start. simpl.
    change (pulls_in_flight j (log _ ?x)) with (pulls_in_flight j x).
    change (busy j (start _ _ (log _ ?x))) with (busy j x).
    change (pulls_in_flight j (update _ _ w)) with (pulls_in_flight j w).
    destruct (Nat.eqb_spec j i) as [E|E].
    + subst j. rewrite (busy_set i true w s Hs).
      specialize (H i). unfold busy in H. rewrite Hs, Hb in H. lia.
    + rewrite busy_update_other by congruence. specialize (H j). lia.
Qed.

#[export] Instance one_fetch_committing : Committing one_fetch.
Proof. split; [exact one_fetch_stable | intros; assumption]. Qed.

#[export] Instance one_fetch_completing : Completing one_fetch.
Proof.
  split; [exact one_fetch_committing | |].
  - intros n o k w Hn _ H i. specialize (H i).
    rewrite (pulls_completed i n o k w Hn) in H.
    unfold busy in *. simpl. lia.
  - intros n o i prev page w Hn H j. specialize (H j).
    rewrite pulls_page_taken.
    rewrite (pulls_completed j n o _ w Hn) in H. simpl in H.
    destruct (Nat.eqb_spec j i) as [E|E].
    + destruct (busy j w), (busy j (page_taken n i page w)); lia.
    + rewrite busy_page_taken by congruence. lia.
Qed.

(** *** Properties that do not look at the queues *)

Section QueueBlind.

Context {P : World -> Prop} `{!Completing P}.
Hypothesis blind : forall q w, P w -> P (set_queues q w).
Hypothesis worker_start : forall o q w, P w -> P (start o (KWorkerDone q) w).
Hypothesis worker_completed :
  forall n o q w, pending w !! n = Some (o, KWorkerDone q) ->
                  P w -> P (completed n w).

Lemma blind_queue_push (q : nat) (task : list string) (w : World) :
  P w -> P (Part000.queue_push q task w).
Proof. intros Hw. unfold Part000.queue_push. keep. Qed.

Lemma blind_queue_process (q : nat) (w : World) :
  P w -> P (Part000.queue_process q w).
Proof.
  intros Hw. unfold Part000.queue_process.
  destruct (queues w !! q); [|assumption].
  destruct (q_tasks _); [assumption|].
  destruct (_ <? _)%nat; [|assumption].
  apply worker_start. keep.
Qed.

Lemma blind_worker_done (n : nat) (o : Op) (q : nat) (w : World) :
  pending w !! n = Some (o, KWorkerDone q) ->
  P w -> P (Part000.worker_done q (completed n w)).
Proof.
  intros Hn Hw. pose proof (worker_completed n o q w Hn Hw) as Hc.
  unfold Part000.worker_done.
  destruct (queues (completed n w) !! q); [|assumption].
  apply blind_queue_process.
  destruct (_ =? _)%nat; [apply keep_watchForChanges|]; keep.
Qed.

(** A step of part_000 that is not a [stopSync]. *)
Lemma blind_step_000
  (keep_new : forall cfg r w, P w -> P (snd (Part000.DropboxSync cfg r w)))
  (l : label) (w w' : World) :
  is_stopSync l = false -> P w -> Part000.step w l = Some w' -> P w'.
Proof.
  intros Hl Hw E. destruct l; simpl in E; try discriminate.
  - injection E as <-. apply keep_new. assumption.
  - injection E as <-.
    apply keep_sync_000; [|assumption].
    intros. apply blind. assumption.
  - eapply (keep_complete_000 blind_queue_push blind_queue_process
              blind_worker_done); eauto.
Qed.

(** A step of part_001. *)
Lemma blind_step_001
  (keep_new : forall cfg r w, P w -> P (snd (Part001.DropboxSync cfg r w)))
  (l : label) (w w' : World) :
  P w -> Part001.step w l = Some w' -> P w'.
Proof.
  intros Hw E. destruct l; simpl in E.
  - injection E as <-. apply keep_new. assumption.
  - injection E as <-. apply keep_sync_under_001. assumption.
  - injection E as <-. apply keep_stopSync_001. assumption.
  - eapply keep_complete_001; eauto.
Qed.

End QueueBlind.

Lemma run_keeps (P : World -> Prop) (step : World -> label -> option World)
  (ok : label -> bool) :
  (forall l w w', ok l = true -> P w -> step w l = Some w' -> P w') ->
  forall ls w w', forallb ok ls = true -> P w -> run step w ls = Some w' -> P w'.
Proof.
  intros Hstep. induction ls as [|l ls IH]; intros w w' Hok Hw E; simpl in *.
  - injection E as <-. assumption.
  - apply andb_prop in Hok as [Hl Hls].
    destruct (step w l) as [w1|] eqn:E1; [|discriminate].
    exact (IH w1 w' Hls (Hstep l w w1 Hl Hw E1) E).
Qed.

Lemma forallb_true {A} (l : list A) : forallb (fun _ => true) l = true.
Proof. induction l; simpl; auto. Qed.

(** *** One fetch in flight, along every run *)

Lemma busy_new_instance (j : ref) (s : Instance) (w : World) :
  pullingChanges s = false ->
  busy j (set_heap (heap w ++ [s]) w) = busy j w.
Proof.
  intros Hs. unfold busy. simpl.
  destruct (heap w !! j) as [x|] eqn:Hj.
  - rewrite (lookup_app_l_Some _ _ _ _ Hj). reflexivity.
  - apply lookup_ge_None in Hj. rewrite lookup_app_r by assumption.
    destruct (j - length (heap w)) as [|m]; simpl; [assumption|].
    reflexivity.
Qed.

Lemma one_fetch_new_000 (cfg : Config) (r : string) (w : World) :
  one_fetch w -> one_fetch (snd (Part000.DropboxSync cfg r w)).
Proof.
  intros H. unfold Part000.DropboxSync.
  destruct (cache w !! _); [assumption|]. simpl.
  intros j. specialize (H j).
  change (busy j (set_cache _ ?x)) with (busy j x).
  rewrite busy_new_instance by reflexivity. exact H.
Qed.

Lemma one_fetch_new_001 (cfg : Config) (r : string) (w : World) :
  one_fetch w -> one_fetch (snd (Part001.DropboxSync cfg r w)).
Proof.
  intros H. unfold Part001.DropboxSync.
  destruct (cache w !! _); [assumption|].
  destruct (Js.inherited _); [assumption|]. simpl.
  intros j. specialize (H j).
  change (busy j (set_cache _ ?x)) with (busy j x).
  rewrite busy_new_instance by reflexivity. exact H.
Qed.

Lemma one_fetch_worker_start (o : Op) (q : nat) (w : World) :
  one_fetch w -> one_fetch (start o (KWorkerDone q) w).
Proof.
  intros H i. rewrite pulls_start. simpl. specialize (H i).
  change (busy i (start _ _ w)) with (busy i w). lia.
Qed.

Lemma one_fetch_worker_completed (n : nat) (o : Op) (q : nat) (w : World) :
  pending w !! n = Some (o, KWorkerDone q) ->
  one_fetch w -> one_fetch (completed n w).
Proof.
  intros Hn H i. specialize (H i).
  rewrite (pulls_completed i n o _ w Hn) in H. simpl in H.
  change (busy i (completed n w)) with (busy i w). lia.
Qed.

Lemma one_fetch_step_000 (l : label) (w w' : World) :
  one_fetch w -> Part000.step w l = Some w' -> one_fetch w'.
Proof.
  intros Hw E. destruct (is_stopSync l) eqn:Hl.
  - destruct l; try discriminate. simpl in E. injection E as <-.
    apply (keep_stopSync_000 (P := one_fetch));
      [intros; assumption | assumption].
  - apply (blind_step_000 (P := one_fetch)
             (fun q w H => H) one_fetch_worker_start
             one_fetch_worker_completed one_fetch_new_000 l w w' Hl Hw E).
Qed.

Lemma one_fetch_step_001 (l : label) (w w' : World) :
  one_fetch w -> Part001.step w l = Some w' -> one_fetch w'.
Proof.
  intros Hw E.
  apply (blind_step_001 (P := one_fetch) one_fetch_new_001 l w w' Hw E).
Qed.

Lemma one_fetch_boot (d : string) (f : Fs.t) : one_fetch (boot d f).
Proof. intros i. unfold busy, pulls_in_flight. simpl. lia. Qed.

(** ** Operations stay in flight until they complete *)

(** *** Properties that starting an operation keeps *)

Section Appending.

Context {P : World -> Prop} `{!Committing P}.
Hypothesis start_any : forall o k w, P w -> P (start o k w).
Hypothesis heap_blind : forall i f w, P w -> P (update i f w).
Hypothesis queue_blind : forall q w, P w -> P (set_queues q w).

Lemma appending_queue_push (q : nat) (task : list string) (w : World) :
  P w -> P (Part000.queue_push q task w).
Proof.
  intros Hw. unfold Part000.queue_push. apply start_any, queue_blind, Hw.
Qed.

Lemma appending_queue_process (q : nat) (w : World) :
  P w -> P (Part000.queue_process q w).
Proof.
  intros Hw. unfold Part000.queue_process.
  destruct (queues w !! q); [|assumption].
  destruct (q_tasks _); [assumption|].
  destruct (_ <? _)%nat; [|assumption].
  apply start_any. apply st_log; [reflexivity|]. apply queue_blind, Hw.
Qed.

Lemma appending_worker_done (q : nat) (w : World) :
  P w -> P (Part000.worker_done q w).
Proof.
  intros Hw. unfold Part000.worker_done.
  destruct (queues w !! q); [|assumption].
  apply appending_queue_process.
  destruct (_ =? _)%nat; [apply keep_watchForChanges|];
    (apply st_log; [reflexivity|]); apply queue_blind, Hw.
Qed.

Lemma appending_answer (o : Op) (r : Resp) (a : Arg) (w w' : World) :
  P w -> answer o r w = Some (a, w') -> P w'.
Proof.
  intros Hw E.
  destruct (answer_world (P := P) o r a w w' E) as [[-> _]|[x [_ Hx]]]; auto.
Qed.

Lemma appending_fire_000 (k : Kont) (a : Arg) (w w' : World) :
  P w -> Part000.fire k a w = Some w' -> P w'.
Proof.
  intros Hw E.
  pose proof (keep_dispatch_000 appending_queue_push) as Hd.
  destruct k; destruct a; try (simpl in E; discriminate E);
    first
      [ exact (keep_fire_commit Part000.dispatch Hd _ _ _ _ Hw E)
      | simpl in E; injection E as <-;
        first
          [ solve [apply keep_poll_callback; auto]
          | solve [apply keep_watchForChanges; auto]
          | solve [apply (keep_local_state_callback appending_queue_push); auto]
          | solve [apply appending_queue_process; auto]
          | solve [apply appending_worker_done; auto]
          | solve [apply st_log; auto]
          | idtac ] ].
  unfold Part000.pull_callback. destruct r as [e|page].
  - apply keep_errAll, Hw.
  - destruct (shouldPullAgain page);
      [apply st_pullChanges
      | apply (keep_commitChanges_000 appending_queue_push)];
      apply heap_blind, heap_blind, Hw.
Qed.

Lemma appending_fire_001 (k : Kont) (a : Arg) (w w' : World) :
  P w -> Part001.fire k a w = Some w' -> P w'.
Proof.
  intros Hw E.
  destruct k; destruct a; try (simpl in E; discriminate E);
    first
      [ exact (keep_fire_commit Part001.committed keep_committed _ _ _ _ Hw E)
      | simpl in E; injection E as <-;
        first
          [ solve [apply keep_poll_callback; auto]
          | solve [apply keep_watchForChanges; auto]
          | idtac ] ].
  unfold Part001.pull_callback. destruct r as [e|page].
  - apply keep_errAll, Hw.
  - destruct (shouldPullAgain page);
      [apply st_pullChanges | apply keep_filter_dispatch];
      apply heap_blind, heap_blind, Hw.
Qed.

End Appending.

#[export] Instance in_flight_stable (l : list (Op * Kont)) :
  Stable (in_flight l).
Proof.
  split; try (intros; assumption).
  - intros o k w _ [later E]. exists (later ++ [(o, k)]). simpl.
    rewrite E, app_assoc. reflexivity.
  - intros i prev w H. unfold pullChanges.
    destruct (heap w !! i); [|assumption].
    destruct (pullingChanges _); [assumption|].
    destruct H as [later E]. eexists (later ++ [_]). simpl.
    rewrite E, app_assoc. reflexivity.
Qed.

#[export] Instance in_flight_committing (l : list (Op * Kont)) :
  Committing (in_flight l).
Proof. split; [apply in_flight_stable | intros; assumption]. Qed.

Lemma in_flight_start (l : list (Op * Kont)) (o : Op) (k : Kont) (w : World) :
  in_flight l w -> in_flight l (start o k w).
Proof.
  intros [later E]. exists (later ++ [(o, k)]). simpl.
  rewrite E, app_assoc. reflexivity.
Qed.

(** What was in flight before a step and did not complete in it. *)
Definition left_in_flight (l : label) (w : World) : list (Op * Kont) :=
  match l with
  | LComplete n _ => delete n (pending w)
  | _ => pending w
  end.

Lemma in_flight_refl (w : World) : in_flight (pending w) w.
Proof. exists []. rewrite app_nil_r. reflexivity. Qed.

Lemma in_flight_step_000 (l : label) (w w' : World) :
  Part000.step w l = Some w' -> in_flight (left_in_flight l w) w'.
Proof.
  intros E. destruct l; simpl in E.
  - injection E as <-. unfold Part000.DropboxSync.
    destruct (cache w !! _); exists []; simpl; rewrite app_nil_r;
      reflexivity.
  - injection E as <-.
    apply (keep_sync_000 (P := in_flight (pending w)));
      [intros; assumption | apply in_flight_refl].
  - injection E as <-.
    apply (keep_stopSync_000 (P := in_flight (pending w)));
      [intros; assumption | apply in_flight_refl].
  - unfold complete in E.
    destruct (pending w !! n) as [[o k]|]; [|discriminate].
    destruct (answer _ _ _) as [[a w1]|] eqn:Ha; [|discriminate].
    assert (H1 : in_flight (delete n (pending w)) w1).
    { eapply appending_answer; [|exact Ha]. exists [].
      simpl. rewrite app_nil_r. reflexivity. }
    eapply (appending_fire_000 (P := in_flight (delete n (pending w))));
      eauto using in_flight_start.
Qed.

Lemma in_flight_step_001 (l : label) (w w' : World) :
  Part001.step w l = Some w' -> in_flight (left_in_flight l w) w'.
Proof.
  intros E. destruct l; simpl in E.
  - injection E as <-. unfold Part001.DropboxSync.
    destruct (cache w !! _); [|destruct (Js.inherited _)];
      exists []; simpl; rewrite app_nil_r; reflexivity.
  - injection E as <-.
    apply (keep_sync_under_001 (P := in_flight (pending w))), in_flight_refl.
  - injection E as <-.
    apply (keep_stopSync_001 (P := in_flight (pending w))), in_flight_refl.
  - unfold complete in E.
    destruct (pending w !! n) as [[o k]|]; [|discriminate].
    destruct (answer _ _ _) as [[a w1]|] eqn:Ha; [|discriminate].
    assert (H1 : in_flight (delete n (pending w)) w1).
    { eapply appending_answer; [|exact Ha]. exists [].
      simpl. rewrite app_nil_r. reflexivity. }
    eapply (appending_fire_001 (P := in_flight (delete n (pending w))));
      eauto.
Qed.

(** A step that is not the completion of the operation at [n] leaves it in
    flight, at the place that [beside] gives. *)
Lemma beside_step (step : World -> label -> option World)
  (Hstep : forall l w w', step w l = Some w' ->
                          in_flight (left_in_flight l w) w')
  (x : Op * Kont) (n n' : nat) (l : label) (w w' : World) :
  pending w !! n = Some x ->
  beside n l = Some n' ->
  step w l = Some w' ->
  pending w' !! n' = Some x.
Proof.
  intros Hn Hb E. destruct (Hstep l w w' E) as [later ->].
  apply lookup_app_l_Some.
  destruct l; simpl in *; try (injection Hb as <-; exact Hn).
  destruct (Nat.eqb_spec n0 n) as [|Hne]; [discriminate|].
  injection Hb as <-.
  destruct (Nat.ltb_spec n0 n) as [Hlt|Hge].
  - rewrite list_lookup_delete_ge by lia.
    replace (S (pred n)) with n by lia. exact Hn.
  - rewrite list_lookup_delete_lt by lia. exact Hn.
Qed.

Lemma run_beside_keeps (step : World -> label -> option World)
  (Hstep : forall l w w', step w l = Some w' ->
                          in_flight (left_in_flight l w) w')
  (x : Op * Kont) (ls : list label) :
  forall (w w' : World) (n n' : nat),
    pending w !! n = Some x ->
    run_beside step w n ls = Some (w', n') ->
    pending w' !! n' = Some x.
Proof.
  induction ls as [|l ls IH]; intros w w' n n' Hn E; simpl in E.
  - injection E as <- <-. exact Hn.
  - destruct (beside n l) as [n1|] eqn:Hb; [|discriminate].
    destruct (step w l) as [w1|] eqn:E1; [|discriminate].
    exact (IH w1 w' n1 n' (beside_step step Hstep x n n1 l w w1 Hn Hb E1) E).
Qed.

Lemma run_beside_run (step : World -> label -> option World)
  (ls : list label) :
  forall (w w' : World) (n n' : nat),
    run_beside step w n ls = Some (w', n') -> run step w ls = Some w'.
Proof.
  induction ls as [|l ls IH]; intros w w' n n' E; simpl in *.
  - injection E as <- _. reflexivity.
  - destruct (beside n l); [|discriminate].
    destruct (step w l) as [w1|]; [|discriminate]. eauto.
Qed.

(** *** An instance stays in the heap *)

Lemma alive_update (i j : ref) (f : Instance -> Instance) (w : World) :
  alive i w -> alive i (update j f w).
Proof.
  intros [s Hs]. unfold alive, update. simpl.
  destruct (decide (j = i)) as [->|Hne].
  - rewrite list_lookup_alter_eq, Hs. eexists. reflexivity.
  - rewrite list_lookup_alter_ne by assumption. eexists. exact Hs.
Qed.

#[export] Instance alive_stable (i : ref) : Stable (alive i).
Proof.
  split; try (intros; assumption).
  - intros j ps w H. apply alive_update, H.
  - intros j h w H. apply alive_update, H.
  - intros j prev w H. unfold pullChanges.
    destruct (heap w !! j); [|assumption].
    destruct (pullingChanges _); [assumption|].
    apply (alive_update i j (set_pullingChanges true) w H).
Qed.

#[export] Instance alive_committing (i : ref) : Committing (alive i).
Proof. split; [apply alive_stable | intros; assumption]. Qed.

#[export] Instance alive_completing (i : ref) : Completing (alive i).
Proof.
  split; [apply alive_committing | intros; assumption |].
  intros n o j prev page w _ H. unfold page_taken.
  apply alive_update, alive_update, H.
Qed.

Lemma alive_new (i : ref) (s : Instance) (w : World) :
  alive i w -> alive i (set_heap (heap w ++ [s]) w).
Proof.
  intros [x Hx]. exists x. simpl. apply lookup_app_l_Some. exact Hx.
Qed.

Lemma alive_step_000 (i : ref) (l : label) (w w' : World) :
  alive i w -> Part000.step w l = Some w' -> alive i w'.
Proof.
  intros Hw E. destruct (is_stopSync l) eqn:Hl.
  - destruct l; try discriminate. simpl in E. injection E as <-.
    apply (keep_stopSync_000 (P := alive i));
      [intros; assumption | assumption].
  - apply (blind_step_000 (P := alive i)
             (fun q w H => H) (fun o q w H => H) (fun n o q w _ H => H))
      with (l := l) (w := w); try assumption.
    intros cfg r w0 H. unfold Part000.DropboxSync.
    destruct (cache w0 !! _); [assumption|]. apply (alive_new i), H.
Qed.

Lemma alive_step_001 (i : ref) (l : label) (w w' : World) :
  alive i w -> Part001.step w l = Some w' -> alive i w'.
Proof.
  intros Hw E.
  apply (blind_step_001 (P := alive i)) with (l := l) (w := w);
    try assumption.
  intros cfg r w0 H. unfold Part001.DropboxSync.
  destruct (cache w0 !! _); [assumption|].
  destruct (Js.inherited _); [assumption|]. apply (alive_new i), H.
Qed.

(** ** The pages of a pull cycle (C4) *)

Lemma lookup_page_taken (n : nat) (i : ref) (page : PulledChanges) (w : World)
  (s : Instance) :
  heap w !! i = Some s ->
  heap (page_taken n i page w) !! i
  = Some (set_pullingChanges false (set_cursor (Some page) s)).
Proof.
  intros Hs. unfold page_taken, update. simpl.
  rewrite !list_lookup_alter_eq, Hs. reflexivity.
Qed.

(** A page that asks to pull again: the next fetch is started with the
    batch so far; nothing else happens. *)
Lemma page_with_more_000 (w : World) (n : nat) (i : ref)
  (c prev : option PulledChanges) (page : PulledChanges) (s : Instance) :
  pending w !! n = Some (OpPull i c, KPull i prev) ->
  heap w !! i = Some s ->
  shouldPullAgain page = true ->
  Part000.step w (LComplete n (RPull (Done page)))
  = Some (start (OpPull i (Some page)) (KPull i (Some (accumulate prev page)))
            (log (EvFetch i (Some page))
               (update i (set_pullingChanges true) (page_taken n i page w)))).
Proof.
  intros Hn Hs Hmore. simpl. unfold complete. rewrite Hn. simpl.
  unfold Part000.pull_callback. rewrite Hmore.
  fold (page_taken n i page w). unfold pullChanges.
  rewrite (lookup_page_taken n i page w s Hs). reflexivity.
Qed.

Lemma page_with_more_001 (w : World) (n : nat) (i : ref)
  (c prev : option PulledChanges) (page : PulledChanges) (s : Instance) :
  pending w !! n = Some (OpPull i c, KPull i prev) ->
  heap w !! i = Some s ->
  shouldPullAgain page = true ->
  Part001.step w (LComplete n (RPull (Done page)))
  = Some (start (OpPull i (Some page)) (KPull i (Some (accumulate prev page)))
            (log (EvFetch i (Some page))
               (update i (set_pullingChanges true) (page_taken n i page w)))).
Proof.
  intros Hn Hs Hmore. simpl. unfold complete. rewrite Hn. simpl.
  unfold Part001.pull_callback. rewrite Hmore.
  fold (page_taken n i page w). unfold pullChanges.
  rewrite (lookup_page_taken n i page w s Hs). reflexivity.
Qed.

(** The page that ends the batch: the batch goes to the commit (part_000)
    or to the filter (part_001). *)
Lemma last_page_000 (w : World) (n : nat) (i : ref)
  (c prev : option PulledChanges) (page : PulledChanges) :
  pending w !! n = Some (OpPull i c, KPull i prev) ->
  shouldPullAgain page = false ->
  Part000.step w (LComplete n (RPull (Done page)))
  = Some (Part000.commitChanges i (accumulate prev page) (page_taken n i page w)).
Proof.
  intros Hn Hlast. simpl. unfold complete. rewrite Hn. simpl.
  unfold Part000.pull_callback. rewrite Hlast. reflexivity.
Qed.

Lemma last_page_001 (w : World) (n : nat) (i : ref)
  (c prev : option PulledChanges) (page : PulledChanges) :
  pending w !! n = Some (OpPull i c, KPull i prev) ->
  shouldPullAgain page = false ->
  Part001.step w (LComplete n (RPull (Done page)))
  = Some (Part001.filter_dispatch i (accumulate prev page) (page_taken n i page w)).
Proof.
  intros Hn Hlast. simpl. unfold complete. rewrite Hn. simpl.
  unfold Part001.pull_callback. rewrite Hlast. reflexivity.
Qed.

Lemma lookup_last_started {A} (l : list A) (n : nat) (x y : A) :
  l !! n = Some y ->
  (delete n l ++ [x]) !! pred (length (delete n l ++ [x])) = Some x.
Proof.
  intros Hn. rewrite length_app. simpl.
  replace (pred (length (delete n l) + 1)) with (length (delete n l)) by lia.
  apply list_lookup_middle. reflexivity.
Qed.

Lemma history_after_fetch (o : Op) (k : Kont) (e : event) (w0 w : World) :
  trace w0 = trace w ->
  drop (length (history w)) (history (start o k (log e w0))) = [e].
Proof.
  intros E. unfold history. simpl. rewrite E.
  apply drop_app_length.
Qed.

Lemma dispatched_fetches (i : ref) (pages : list PulledChanges) :
  dispatched (map (fun p => EvFetch i (Some p)) pages) = [].
Proof. induction pages as [|p ps IH]; [reflexivity | exact IH]. Qed.

Section Cycle.

Variable step : World -> label -> option World.
Hypothesis step_more : forall w n i c prev page s,
  pending w !! n = Some (OpPull i c, KPull i prev) ->
  heap w !! i = Some s ->
  shouldPullAgain page = true ->
  step w (LComplete n (RPull (Done page)))
  = Some (start (OpPull i (Some page))
            (KPull i (Some (accumulate prev page)))
            (log (EvFetch i (Some page))
               (update i (set_pullingChanges true) (page_taken n i page w)))).
Hypothesis step_in_flight : forall l w w',
  step w l = Some w' -> in_flight (left_in_flight l w) w'.
Hypothesis step_alive : forall i l w w',
  alive i w -> step w l = Some w' -> alive i w'.

Lemma run_beside_alive (i : ref) (ls : list label) :
  forall (w w' : World) (n n' : nat),
    alive i w -> run_beside step w n ls = Some (w', n') -> alive i w'.
Proof.
  intros w w' n n' Hw E. apply run_beside_run in E.
  revert w Hw E. induction ls as [|l ls IH]; intros w Hw E; simpl in E.
  - injection E as <-. exact Hw.
  - destruct (step w l) as [w1|] eqn:E1; [|discriminate].
    exact (IH w1 (step_alive i l w w1 Hw E1) E).
Qed.

(** The callback of a page that asks to pull again: the world after it. *)
Lemma after_page_with_more (w : World) (n : nat) (i : ref)
  (c prev : option PulledChanges) (page : PulledChanges) :
  pending w !! n = Some (OpPull i c, KPull i prev) ->
  alive i w ->
  shouldPullAgain page = true ->
  exists w2,
    step w (LComplete n (RPull (Done page))) = Some w2
    /\ drop (length (history w)) (history w2) = [EvFetch i (Some page)]
    /\ alive i w2
    /\ pending w2 !! last_op w2
       = Some (OpPull i (Some page), KPull i (Some (accumulate prev page))).
Proof.
  intros Hn [s Hs] Hp. eexists. split; [exact (step_more w n i c prev page s Hn Hs Hp)|].
  split; [apply history_after_fetch; reflexivity|]. split.
  - assert (H : alive i (update i (set_pullingChanges true)
                           (page_taken n i page w))).
    { unfold page_taken. apply alive_update, alive_update, alive_update.
      exists s. exact Hs. }
    exact H.
  - unfold last_op. simpl. eapply lookup_last_started. exact Hn.
Qed.

(** The pages that ask to pull again are accumulated, in the order they
    come, whatever else the process does between them; their callbacks only
    start the next fetch. *)
Lemma partial_pages (i : ref) (turns : list (list label * PulledChanges)) :
  forall (w : World) (n : nat) (c prev : option PulledChanges),
    pending w !! n = Some (OpPull i c, KPull i prev) ->
    alive i w ->
    Forall (fun t => shouldPullAgain (snd t) = true) turns ->
    forall w1 n1 evs,
      pull_cycle step w n turns = Some (w1, n1, evs) ->
      evs = map (fun p => EvFetch i (Some p)) (map snd turns)
      /\ alive i w1
      /\ pending w1 !! n1
         = Some (OpPull i (cursor_after c (map snd turns)),
                 KPull i (accumulated prev (map snd turns))).
Proof.
  induction turns as [|[ls p] rest IH]; intros w n c prev Hn Hw Hall w1 n1 evs E.
  - simpl in E. injection E as <- <- <-. auto.
  - inversion Hall as [|? ? Hp Hrest]; subst. simpl in Hp.
    simpl in E.
    destruct (run_beside step w n ls) as [[wa na]|] eqn:Ea; [|discriminate].
    pose proof (run_beside_keeps step step_in_flight _ ls w wa n na Hn Ea)
      as Hna.
    pose proof (run_beside_alive i ls w wa n na Hw Ea) as Hwa.
    destruct (after_page_with_more wa na i c prev p Hna Hwa Hp)
      as [w2 [E2 [Hev [Hw2 Hn2]]]].
    rewrite E2 in E.
    destruct (pull_cycle step w2 (last_op w2) rest) as [[[w3 n3] evs3]|] eqn:E3;
      [|discriminate].
    injection E as <- <- <-.
    destruct (IH w2 (last_op w2) (Some p) (Some (accumulate prev p))
                Hn2 Hw2 Hrest w3 n3 evs3 E3) as [-> [Hw3 Hn3]].
    rewrite Hev. auto.
Qed.

(** A pull cycle that nothing interrupts can be run. *)
Lemma pull_cycle_alone (i : ref) (pages : list PulledChanges) :
  forall (w : World) (n : nat) (c prev : option PulledChanges),
    pending w !! n = Some (OpPull i c, KPull i prev) ->
    alive i w ->
    Forall (fun p => shouldPullAgain p = true) pages ->
    exists r, pull_cycle step w n (map (fun p => ([], p)) pages) = Some r.
Proof.
  induction pages as [|p ps IH]; intros w n c prev Hn Hw Hall.
  - eexists. reflexivity.
  - inversion Hall as [|? ? Hp Hps]; subst. simpl.
    destruct (after_page_with_more w n i c prev p Hn Hw Hp)
      as [w2 [E2 [_ [Hw2 Hn2]]]].
    rewrite E2.
    destruct (IH w2 (last_op w2) _ _ Hn2 Hw2 Hps) as [[[w3 n3] evs] ->].
    eexists. reflexivity.
Qed.

(** The whole cycle, for a callback of the last page that hands the batch
    to [finish]. *)
Lemma whole_cycle (finish : ref -> PulledChanges -> World -> World)
  (step_last : forall w n i c prev page,
      pending w !! n = Some (OpPull i c, KPull i prev) ->
      shouldPullAgain page = false ->
      step w (LComplete n (RPull (Done page)))
      = Some (finish i (accumulate prev page) (page_taken n i page w)))
  (w : World) (n : nat) (i : ref) (c : option PulledChanges)
  (turns : list (list label * PulledChanges)) (last : PulledChanges) :
  pending w !! n = Some (OpPull i c, KPull i None) ->
  alive i w ->
  Forall (fun t => shouldPullAgain (snd t) = true) turns ->
  shouldPullAgain last = false ->
  (exists r,
      pull_cycle step w n (map (fun p => ([], p)) (map snd turns)) = Some r)
  /\ forall w1 n1 evs,
       pull_cycle step w n turns = Some (w1, n1, evs) ->
       evs = map (fun p => EvFetch i (Some p)) (map snd turns)
       /\ dispatched evs = []
       /\ forall ls w2 n2,
            run_beside step w1 n1 ls = Some (w2, n2) ->
            pending w2 !! n2
            = Some (OpPull i (cursor_after c (map snd turns)),
                    KPull i (accumulated None (map snd turns)))
            /\ step w2 (LComplete n2 (RPull (Done last)))
               = Some (finish i
                         (accumulate (accumulated None (map snd turns)) last)
                         (page_taken n2 i last w2)).
Proof.
  intros Hn Hw Hall Hlast. split.
  - apply (pull_cycle_alone i (map snd turns) w n c None Hn Hw).
    apply Forall_map. exact Hall.
  - intros w1 n1 evs E.
    destruct (partial_pages i turns w n c None Hn Hw Hall w1 n1 evs E)
      as [Hev [Hw1 Hn1]].
    split; [exact Hev|].
    split; [rewrite Hev; apply dispatched_fetches|]. intros ls w2 n2 E2.
    pose proof (run_beside_keeps step step_in_flight _ ls w1 w2 n1 n2 Hn1 E2)
      as Hn2.
    split; [exact Hn2|]. exact (step_last w2 n2 i _ _ last Hn2 Hlast).
Qed.

End Cycle.

Lemma changes_accumulated (prev : option PulledChanges)
  (pages : list PulledChanges) (last : PulledChanges) :
  changes (accumulate (accumulated prev pages) last)
  = match prev with Some p => changes p | None => [] end
    ++ concat (map changes (pages ++ [last])).
Proof.
  revert prev. induction pages as [|p ps IH]; intros prev.
  - destruct prev; simpl; rewrite ?app_nil_r; reflexivity.
  - unfold accumulated. simpl. fold (accumulated (Some (accumulate prev p)) ps).
    rewrite IH. destruct prev; simpl; rewrite ?app_assoc; reflexivity.
Qed.

(** C4. In a pull cycle, whatever else the process does between the pages:
    while the pages ask to pull again the next page is fetched, from the
    position of the page before, and its entries are appended to those
    already there; the callbacks of these pages add nothing to the history
    but the next fetch (nothing is filtered, committed or notified); the fetch
    stays in flight with the batch so far until the page that does not ask to
    pull again, and then the whole batch goes to the commit (part_000) or to
    the filter (part_001). A cycle that nothing interrupts can always be
    run. *)
Theorem pages_accumulate_until_complete (w : World) (n : nat) (i : ref)
  (c : option PulledChanges) (s : Instance)
  (turns : list (list label * PulledChanges)) (last : PulledChanges) :
  pending w !! n = Some (OpPull i c, KPull i None) ->
  heap w !! i = Some s ->
  Forall (fun t => shouldPullAgain (snd t) = true) turns ->
  shouldPullAgain last = false ->
  let pages := map snd turns in
  let batch := accumulate (accumulated None pages) last in
  changes batch = concat (map changes (pages ++ [last]))
  /\ forall step finish,
       (step = Part000.step /\ finish = Part000.commitChanges)
       \/ (step = Part001.step /\ finish = Part001.filter_dispatch) ->
       (exists r,
           pull_cycle step w n (map (fun p => ([], p)) pages) = Some r)
       /\ forall w1 n1 evs,
            pull_cycle step w n turns = Some (w1, n1, evs) ->
            evs = map (fun p => EvFetch i (Some p)) pages
            /\ dispatched evs = []
            /\ forall ls w2 n2,
                 run_beside step w1 n1 ls = Some (w2, n2) ->
                 pending w2 !! n2
                 = Some (OpPull i (cursor_after c pages),
                         KPull i (accumulated None pages))
                 /\ step w2 (LComplete n2 (RPull (Done last)))
                    = Some (finish i batch (page_taken n2 i last w2)).
Proof.
  intros Hn Hs Hall Hlast pages batch.
  split; [apply (changes_accumulated None)|].
  assert (Hw : alive i w) by (exists s; exact Hs).
  intros step finish [[-> ->]|[-> ->]].
  - exact (whole_cycle Part000.step page_with_more_000 in_flight_step_000
             alive_step_000 Part000.commitChanges last_page_000
             w n i c turns last Hn Hw Hall Hlast).
  - exact (whole_cycle Part001.step page_with_more_001 in_flight_step_001
             alive_step_001 Part001.filter_dispatch last_page_001
             w n i c turns last Hn Hw Hall Hlast).
Qed.

Lemma pages_accumulate_until_complete_witness :
  changes (accumulate
             (accumulated None
                [Ex.page [Ex.file_entry "/a/1"] true true "c1";
                 Ex.page [Ex.file_entry "/a/2"; Ex.removal "/a/1"] true false "c2"])
             (Ex.page [Ex.folder_entry "/a/3"] false false "c3"))
  = [Ex.file_entry "/a/1"; Ex.file_entry "/a/2"; Ex.removal "/a/1";
     Ex.folder_entry "/a/3"].
Proof.
  refine (proj1 (pages_accumulate_until_complete Ex.one_watcher
                   (last_op Ex.one_watcher) 0 None
                   (Ex.instance 0 Ex.one_watcher)
                   [([LSync 0 (Some "/b") 3 4],
                     Ex.page [Ex.file_entry "/a/1"] true true "c1");
                    ([],
                     Ex.page [Ex.file_entry "/a/2"; Ex.removal "/a/1"] true false "c2")]
                   (Ex.page [Ex.folder_entry "/a/3"] false false "c3")
                   _ _ _ _)).
  - vm_compute. reflexivity.
  - vm_compute. reflexivity.
  - repeat constructor.
  - reflexivity.
Defined.

(** ** A failed fetch leaves the instance busy for ever (C10) *)

Lemma quiet_not_fetch (i : ref) (e : event) :
  quiet e = true -> is_fetch i e = false.
Proof. destruct e; simpl; congruence. Qed.

Lemma fetches_log (i : ref) (e : event) (w : World) :
  fetches i (trace (log e w))
  = fetches i (trace w) + (if is_fetch i e then 1 else 0).
Proof.
  unfold fetches. simpl. destruct (is_fetch i e); simpl; lia.
Qed.

#[export] Instance stuck_stable (i0 : ref) (m : nat) : Stable (stuck i0 m).
Proof.
  split; try (intros; assumption).
  - intros e w He [Hb [Hp Hf]]. repeat split; try assumption.
    rewrite fetches_log, (quiet_not_fetch i0 e He). lia.
  - intros o k w Hk [Hb [Hp Hf]]. repeat split; try assumption.
    rewrite pulls_start, (plain_not_pull i0 k Hk). lia.
  - intros i ps w [Hb [Hp Hf]]. repeat split; try assumption.
    rewrite busy_update by reflexivity. exact Hb.
  - intros i h w [Hb [Hp Hf]]. repeat split; try assumption.
    rewrite busy_update by reflexivity. exact Hb.
  - intros i prev w [Hb [Hp Hf]]. unfold pullChanges.
    destruct (heap w !! i) as [s|] eqn:Hs; [|repeat split; assumption].
    destruct (pullingChanges s) eqn:Hflag; [repeat split; assumption|].
    assert (Hi : i <> i0).
    { intros ->. unfold busy in Hb. rewrite Hs in Hb. congruence. }
    assert (Hn : Nat.eqb i0 i = false) by (apply Nat.eqb_neq; congruence).
    repeat split.
    + change (busy i0 (start _ _ (log _ ?x))) with (busy i0 x).
      rewrite busy_update_other by assumption. exact Hb.
    + rewrite pulls_start. simpl. rewrite Hn.
      change (pulls_in_flight i0 (log _ (update _ _ w)))
        with (pulls_in_flight i0 w). lia.
    + change (trace (start _ _ ?x)) with (trace x).
      rewrite fetches_log. simpl. rewrite Hn.
      change (trace (update _ _ w)) with (trace w). lia.
Qed.

#[export] Instance stuck_committing (i0 : ref) (m : nat) :
  Committing (stuck i0 m).
Proof.
  split; [apply stuck_stable|].
  intros j c w [Hb [Hp Hf]]. repeat split; try assumption.
Qed.

#[export] Instance stuck_completing (i0 : ref) (m : nat) :
  Completing (stuck i0 m).
Proof.
  split; [apply stuck_committing | |].
  - intros n o k w Hn _ [Hb [Hp Hf]]. repeat split; try assumption.
    rewrite (pulls_completed i0 n o k w Hn) in Hp. lia.
  - intros n o i prev page w Hn [Hb [Hp Hf]].
    pose proof (pulls_completed i0 n o _ w Hn) as E. simpl in E.
    destruct (Nat.eqb_spec i0 i) as [Hi|Hi]; [lia|].
    repeat split; try assumption.
    + rewrite busy_page_taken by congruence. exact Hb.
    + rewrite pulls_page_taken. lia.
Qed.

Lemma stuck_new_instance (i0 : ref) (m : nat) (s : Instance) (w : World) :
  pullingChanges s = false ->
  stuck i0 m w -> stuck i0 m (set_heap (heap w ++ [s]) w).
Proof.
  intros Hs [Hb [Hp Hf]]. repeat split; try assumption.
  rewrite busy_new_instance by assumption. exact Hb.
Qed.

Lemma stuck_new_000 (i0 : ref) (m : nat) (cfg : Config) (r : string)
  (w : World) :
  stuck i0 m w -> stuck i0 m (snd (Part000.DropboxSync cfg r w)).
Proof.
  intros H. unfold Part000.DropboxSync.
  destruct (cache w !! _); [assumption|].
  apply (stuck_new_instance i0 m (fresh cfg r) w eq_refl H).
Qed.

Lemma stuck_new_001 (i0 : ref) (m : nat) (cfg : Config) (r : string)
  (w : World) :
  stuck i0 m w -> stuck i0 m (snd (Part001.DropboxSync cfg r w)).
Proof.
  intros H. unfold Part001.DropboxSync.
  destruct (cache w !! _); [assumption|].
  destruct (Js.inherited _); [assumption|].
  apply (stuck_new_instance i0 m (fresh cfg r) w eq_refl H).
Qed.

Lemma stuck_worker_start (i0 : ref) (m : nat) (o : Op) (q : nat) (w : World) :
  stuck i0 m w -> stuck i0 m (start o (KWorkerDone q) w).
Proof.
  intros [Hb [Hp Hf]]. repeat split; try assumption.
  rewrite pulls_start. simpl. lia.
Qed.

Lemma stuck_worker_completed (i0 : ref) (m : nat) (n : nat) (o : Op) (q : nat)
  (w : World) :
  pending w !! n = Some (o, KWorkerDone q) ->
  stuck i0 m w -> stuck i0 m (completed n w).
Proof.
  intros Hn [Hb [Hp Hf]]. repeat split; try assumption.
  rewrite (pulls_completed i0 n o _ w Hn) in Hp. lia.
Qed.

Lemma stuck_step_000 (i0 : ref) (m : nat) (l : label) (w w' : World) :
  stuck i0 m w -> Part000.step w l = Some w' -> stuck i0 m w'.
Proof.
  intros Hw E. destruct (is_stopSync l) eqn:Hl.
  - destruct l; try discriminate. simpl in E. injection E as <-.
    apply (keep_stopSync_000 (P := stuck i0 m));
      [intros; assumption | assumption].
  - apply (blind_step_000 (P := stuck i0 m)
             (fun q w H => H) (stuck_worker_start i0 m)
             (stuck_worker_completed i0 m) (stuck_new_000 i0 m) l w w' Hl Hw E).
Qed.

Lemma stuck_step_001 (i0 : ref) (m : nat) (l : label) (w w' : World) :
  stuck i0 m w -> Part001.step w l = Some w' -> stuck i0 m w'.
Proof.
  intros Hw E.
  apply (blind_step_001 (P := stuck i0 m) (stuck_new_001 i0 m) l w w' Hw E).
Qed.

(** A busy instance does not fetch. *)
Lemma busy_pullChanges (i : ref) (prev : option PulledChanges) (w : World) :
  busy i w = true -> pullChanges i prev w = w.
Proof.
  unfold busy, pullChanges. destruct (heap w !! i) as [s|]; [|reflexivity].
  intros ->. reflexivity.
Qed.

Lemma stuck_never_pulls (step : World -> label -> option World) (i : ref)
  (w1 : World) :
  (forall m l w w', stuck i m w -> step w l = Some w' -> stuck i m w') ->
  stuck i (fetches i (trace w1)) w1 ->
  never_pulls_again step i w1.
Proof.
  intros Hstep H1 ls w2 E.
  assert (H2 : stuck i (fetches i (trace w1)) w2).
  { apply (run_keeps (stuck i (fetches i (trace w1))) step (fun _ => true)
             (fun l w w' _ => Hstep _ l w w') ls w1 w2
             (forallb_true ls) H1 E). }
  destruct H2 as [Hb [Hp Hf]].
  split; [assumption|]. split; [assumption|]. split; [assumption|].
  split.
  - intros prev. apply busy_pullChanges. assumption.
  - intros s Hs Hc. unfold watchForChanges. rewrite Hs, Hc.
    apply busy_pullChanges. assumption.
Qed.

(** The world after a failed fetch, in a world where at most one fetch is
    in flight. *)
Lemma failed_fetch_stuck (w : World) (n : nat) (i : ref) (o : Op)
  (prev : option PulledChanges) (e : Error) :
  one_fetch w ->
  pending w !! n = Some (o, KPull i prev) ->
  stuck i (fetches i (trace (errAll i e (completed n w))))
    (errAll i e (completed n w)).
Proof.
  intros H1 Hn.
  pose proof (H1 i) as Hi.
  rewrite (pulls_completed i n o _ w Hn) in Hi. simpl in Hi.
  rewrite Nat.eqb_refl in Hi.
  assert (Hc : stuck i (fetches i (trace w)) (completed n w)).
  { repeat split.
    - change (busy i (completed n w)) with (busy i w).
      destruct (busy i w); [reflexivity | lia].
    - destruct (busy i w); lia. }
  pose proof (keep_errAll (P := stuck i (fetches i (trace w))) i e
                (completed n w) Hc) as He.
  destruct He as [Hb [Hp Hf]]. rewrite Hf. repeat split; assumption.
Qed.

(** C10. In a process of part_000 or of part_001 started afresh, when a
    fetch of [pullChanges] fails, [pullingChanges] stays set: from then on
    every [pullChanges] of the instance returns at once, also from
    [watchForChanges] without a cursor, and no fetch is ever made for it
    again. *)
Theorem failed_fetch_stops_pulling (step : World -> label -> option World)
  (d : string) (f : Fs.t) (ls : list label) (w : World) (n : nat) (i : ref)
  (c prev : option PulledChanges) (e : Error) :
  step = Part000.step \/ step = Part001.step ->
  run step (boot d f) ls = Some w ->
  pending w !! n = Some (OpPull i c, KPull i prev) ->
  exists w1,
    step w (LComplete n (RPull (Failed e))) = Some w1
    /\ never_pulls_again step i w1.
Proof.
  intros [-> | ->] Hrun Hn.
  - assert (H1 : one_fetch w).
    { apply (run_keeps one_fetch Part000.step (fun _ => true)
               (fun l w w' _ => one_fetch_step_000 l w w') ls (boot d f) w
               (forallb_true ls) (one_fetch_boot d f) Hrun). }
    exists (errAll i e (completed n w)). split.
    + simpl. unfold complete. rewrite Hn. reflexivity.
    + apply stuck_never_pulls; [apply stuck_step_000|].
      eapply failed_fetch_stuck; eauto.
  - assert (H1 : one_fetch w).
    { apply (run_keeps one_fetch Part001.step (fun _ => true)
               (fun l w w' _ => one_fetch_step_001 l w w') ls (boot d f) w
               (forallb_true ls) (one_fetch_boot d f) Hrun). }
    exists (errAll i e (completed n w)). split.
    + simpl. unfold complete. rewrite Hn. reflexivity.
    + apply stuck_never_pulls; [apply stuck_step_001|].
      eapply failed_fetch_stuck; eauto.
Qed.

Lemma failed_fetch_stops_pulling_witness :
  exists w1,
    Part000.step Ex.one_watcher (LComplete 1 (RPull (Failed "ETIMEDOUT")))
    = Some w1
    /\ never_pulls_again Part000.step 0 w1.
Proof.
  apply (failed_fetch_stops_pulling Part000.step "/w" Fs.empty
           [LNew Ex.cfg "mirror"; LSync 0 (Some "/a") 1 2]
           Ex.one_watcher 1 0 None None "ETIMEDOUT" (or_introl eq_refl)).
  - vm_compute. reflexivity.
  - vm_compute. reflexivity.
Defined.

(** ** The cursor of a fetch in flight, and a failed fetch (C5) *)

Lemma in_delete {A} (x : A) (l : list A) :
  forall n, In x (delete n l) -> In x l.
Proof.
  induction l as [|a l IH]; intros [|n] H; simpl in *; auto.
  destruct H as [H|H]; [left; assumption | right; eapply IH; eauto].
Qed.

Lemma count_konts_in (f : Kont -> bool) (l : list (Op * Kont)) (o : Op)
  (k : Kont) :
  In (o, k) l -> f k = true -> 1 <= length (List.filter f (map snd l)).
Proof.
  induction l as [|[o' k'] l IH]; intros H Hk; simpl in *; [contradiction|].
  destruct H as [H|H].
  - injection H as -> ->. rewrite Hk. simpl. lia.
  - specialize (IH H Hk). destruct (f k'); simpl; lia.
Qed.

(** With one fetch of [i] in flight, no other closure in flight is a fetch
    of [i]. *)
Lemma one_fetch_other (w : World) (n : nat) (o o' : Op) (i : ref)
  (prev prev' : option PulledChanges) :
  one_fetch w ->
  pending w !! n = Some (o, KPull i prev) ->
  In (o', KPull i prev') (pending (completed n w)) -> False.
Proof.
  intros H Hn Hin. specialize (H i).
  rewrite (pulls_completed i n o _ w Hn) in H.
  assert (Hc : 1 <= pulls_in_flight i (completed n w)).
  { apply (count_konts_in (is_pull_of i) _ o' (KPull i prev') Hin).
    simpl. apply Nat.eqb_refl. }
  simpl in H. rewrite Nat.eqb_refl in H. destruct (busy i w); lia.
Qed.

Lemma lookup_update_cursor (i j : ref) (f : Instance -> Instance) (w : World)
  (s : Instance) :
  (forall x, cursor (f x) = cursor x) ->
  heap w !! j = Some s ->
  exists s', heap (update i f w) !! j = Some s' /\ cursor s' = cursor s.
Proof.
  intros Hf Hs. unfold update. simpl.
  destruct (decide (i = j)) as [->|Hij].
  - rewrite list_lookup_alter_eq, Hs. simpl. eauto.
  - rewrite list_lookup_alter_ne by assumption. eauto.
Qed.

#[export] Instance fetch_has_cursor_stable : Stable fetch_has_cursor.
Proof.
  split; try (intros; assumption).
  - intros o k w Hk [H1 H2]. split; [apply st_start; assumption|].
    intros o' i prev Hin. simpl in Hin. apply in_app_or in Hin as [Hin|Hin].
    + apply H2 in Hin. exact Hin.
    + destruct Hin as [E|[]]. injection E as -> ->. discriminate.
  - intros i ps w [H1 H2]. split; [apply st_paths; assumption|].
    intros o' j prev Hin. destruct (H2 o' j prev Hin) as [s [Hs ->]].
    destruct (lookup_update_cursor i j (set_paths ps) w s (fun _ => eq_refl) Hs)
      as [s' [Hs' <-]]. eauto.
  - intros i h w [H1 H2]. split; [apply st_watching; assumption|].
    intros o' j prev Hin. destruct (H2 o' j prev Hin) as [s [Hs ->]].
    destruct (lookup_update_cursor i j (set_watchingForChanges h) w s
                (fun _ => eq_refl) Hs) as [s' [Hs' <-]]. eauto.
  - intros i prev w [H1 H2]. split; [apply st_pullChanges; assumption|].
    unfold pullChanges.
    destruct (heap w !! i) as [s|] eqn:Hs; [|exact H2].
    destruct (pullingChanges s); [exact H2|].
    intros o' j prev' Hin. simpl in Hin. apply in_app_or in Hin as [Hin|Hin].
    + destruct (H2 o' j prev' Hin) as [s0 [Hs0 ->]].
      destruct (lookup_update_cursor i j (set_pullingChanges true) w s0
                  (fun _ => eq_refl) Hs0) as [s' [Hs' <-]]. eauto.
    + destruct Hin as [E|[]]. injection E as <- <- _.
      destruct (lookup_update_cursor i i (set_pullingChanges true) w s
                  (fun _ => eq_refl) Hs) as [s' [Hs' <-]]. eauto.
Qed.

#[export] Instance fetch_has_cursor_committing : Committing fetch_has_cursor.
Proof. split; [exact fetch_has_cursor_stable | intros; assumption]. Qed.

#[export] Instance fetch_has_cursor_completing : Completing fetch_has_cursor.
Proof.
  split; [exact fetch_has_cursor_committing | |].
  - intros n o k w Hn Hk [H1 H2]. split; [eapply cp_completed; eauto|].
    intros o' i prev Hin. apply in_delete in Hin. apply H2 in Hin. exact Hin.
  - intros n o i prev page w Hn [H1 H2].
    split; [eapply cp_page_taken; eauto|].
    intros o' j prev' Hin.
    change (pending (page_taken n i page w)) with (pending (completed n w))
      in Hin.
    destruct (decide (i = j)) as [<-|Hij].
    + exfalso. eapply one_fetch_other; eauto.
    + apply in_delete in Hin. destruct (H2 o' j prev' Hin) as [s [Hs ->]].
      exists s. split; [|reflexivity].
      unfold page_taken, update. simpl.
      rewrite !list_lookup_alter_ne by assumption. exact Hs.
Qed.

Lemma fetch_has_cursor_new (s : Instance) (w : World) :
  pullingChanges s = false ->
  fetch_has_cursor w -> fetch_has_cursor (set_heap (heap w ++ [s]) w).
Proof.
  intros Hs [H1 H2]. split.
  - intros j. specialize (H1 j). rewrite busy_new_instance by assumption.
    exact H1.
  - intros o i prev Hin. destruct (H2 o i prev Hin) as [s0 [Hs0 ->]].
    exists s0. split; [|reflexivity]. simpl.
    apply lookup_app_l_Some. exact Hs0.
Qed.

Lemma fetch_has_cursor_new_000 (cfg : Config) (r : string) (w : World) :
  fetch_has_cursor w -> fetch_has_cursor (snd (Part000.DropboxSync cfg r w)).
Proof.
  intros H. unfold Part000.DropboxSync.
  destruct (cache w !! _); [assumption|].
  apply (fetch_has_cursor_new (fresh cfg r) w eq_refl H).
Qed.

Lemma fetch_has_cursor_new_001 (cfg : Config) (r : string) (w : World) :
  fetch_has_cursor w -> fetch_has_cursor (snd (Part001.DropboxSync cfg r w)).
Proof.
  intros H. unfold Part001.DropboxSync.
  destruct (cache w !! _); [assumption|].
  destruct (Js.inherited _); [assumption|].
  apply (fetch_has_cursor_new (fresh cfg r) w eq_refl H).
Qed.

Lemma fetch_has_cursor_worker_start (o : Op) (q : nat) (w : World) :
  fetch_has_cursor w -> fetch_has_cursor (start o (KWorkerDone q) w).
Proof.
  intros [H1 H2]. split; [apply one_fetch_worker_start; assumption|].
  intros o' i prev Hin. simpl in Hin. apply in_app_or in Hin as [Hin|Hin].
  - apply H2 in Hin. exact Hin.
  - destruct Hin as [E|[]]. discriminate.
Qed.

Lemma fetch_has_cursor_worker_completed (n : nat) (o : Op) (q : nat)
  (w : World) :
  pending w !! n = Some (o, KWorkerDone q) ->
  fetch_has_cursor w -> fetch_has_cursor (completed n w).
Proof.
  intros Hn [H1 H2]. split; [eapply one_fetch_worker_completed; eauto|].
  intros o' i prev Hin. apply in_delete in Hin. apply H2 in Hin. exact Hin.
Qed.

Lemma fetch_has_cursor_step_000 (l : label) (w w' : World) :
  fetch_has_cursor w -> Part000.step w l = Some w' -> fetch_has_cursor w'.
Proof.
  intros Hw E. destruct (is_stopSync l) eqn:Hl.
  - destruct l; try discriminate. simpl in E. injection E as <-.
    apply (keep_stopSync_000 (P := fetch_has_cursor));
      [intros; assumption | assumption].
  - apply (blind_step_000 (P := fetch_has_cursor)
             (fun q w H => H) fetch_has_cursor_worker_start
             fetch_has_cursor_worker_completed fetch_has_cursor_new_000
             l w w' Hl Hw E).
Qed.

Lemma fetch_has_cursor_step_001 (l : label) (w w' : World) :
  fetch_has_cursor w -> Part001.step w l = Some w' -> fetch_has_cursor w'.
Proof.
  intros Hw E.
  apply (blind_step_001 (P := fetch_has_cursor) fetch_has_cursor_new_001
           l w w' Hw E).
Qed.

Lemma fetch_has_cursor_boot (d : string) (f : Fs.t) :
  fetch_has_cursor (boot d f).
Proof. split; [apply one_fetch_boot | intros o i prev []]. Qed.

(** C5. In a process of part_000 or of part_001 started afresh, when a fetch
    of [pullChanges] fails, nothing of the instance changes: its cursor is
    still the one the fetch was made with; and the error is handed to the
    [onError] of every watched path.  In index.js the instance is unchanged
    as well and the error is handed to the [onError] given to [sync]. *)
Theorem fetch_error_keeps_cursor (step : World -> label -> option World)
  (d : string) (f : Fs.t) (ls : list label) (w : World) (n : nat) (i : ref)
  (c prev : option PulledChanges) (e : Error) :
  step = Part000.step \/ step = Part001.step ->
  run step (boot d f) ls = Some w ->
  pending w !! n = Some (OpPull i c, KPull i prev) ->
  (exists w' s,
      step w (LComplete n (RPull (Failed e))) = Some w'
      /\ heap w' = heap w
      /\ heap w' !! i = Some s
      /\ cursor s = c
      /\ history w'
         = history w ++ map (fun ph => EvOnError (h_onError (snd ph)) e) (paths s))
  /\ (forall (si : Index.Instance) (callback : Index.Callback),
      Index.pull_callback si callback (Failed e)
      = (si, [Index.Call (EvOnError (Index.registered_onError callback) e)])).
Proof.
  intros Hstep Hrun Hn. split.
  - assert (Hinv : fetch_has_cursor w).
    { destruct Hstep as [-> | ->].
      - apply (run_keeps fetch_has_cursor Part000.step (fun _ => true)
                 (fun l w w' _ => fetch_has_cursor_step_000 l w w') ls
                 (boot d f) w (forallb_true ls) (fetch_has_cursor_boot d f)
                 Hrun).
      - apply (run_keeps fetch_has_cursor Part001.step (fun _ => true)
                 (fun l w w' _ => fetch_has_cursor_step_001 l w w') ls
                 (boot d f) w (forallb_true ls) (fetch_has_cursor_boot d f)
                 Hrun). }
    destruct Hinv as [_ H2].
    destruct (H2 (OpPull i c) i prev) as [s [Hs Hc]].
    { apply list_elem_of_In. eapply list_elem_of_lookup_2. exact Hn. }
    injection Hc as ->.
    set (w1 := completed n w).
    assert (H1 : heap w1 !! i = Some s) by exact Hs.
    exists (errAll i e w1), s.
    assert (Hh : heap (errAll i e w1) = heap w) by apply (errAll_frame i e w1).
    split.
    { destruct Hstep as [-> | ->]; simpl; unfold complete; rewrite Hn;
        reflexivity. }
    split; [exact Hh|]. split; [rewrite Hh; exact Hs|].
    split; [reflexivity|].
    rewrite (errAll_history i e w1 s H1). reflexivity.
  - intros si callback. simpl. f_equal.
    induction callback as [onError onChange|outer IH]; simpl; auto.
Qed.

Lemma fetch_error_keeps_cursor_witness :
  exists w' s,
    Part000.step Ex.two_watchers (LComplete 1 (RPull (Failed "ECONNRESET")))
    = Some w'
    /\ heap w' = heap Ex.two_watchers
    /\ heap w' !! 0 = Some s
    /\ cursor s = None
    /\ history w'
       = history Ex.two_watchers
         ++ map (fun ph => EvOnError (h_onError (snd ph)) "ECONNRESET") (paths s).
Proof.
  refine (proj1 (fetch_error_keeps_cursor Part000.step "/w" Fs.empty
                   [LNew Ex.cfg "mirror"; LSync 0 (Some "/a") 1 2;
                    LSync 0 (Some "/b") 3 4]
                   Ex.two_watchers 1 0 None None "ECONNRESET"
                   (or_introl eq_refl) _ _)).
  - vm_compute. reflexivity.
  - vm_compute. reflexivity.
Defined.

(** ** The cache of instances (C7) *)

#[export] Instance cached_stable (key : string) (i0 : ref) :
  Stable (cached key i0).
Proof.
  split; try (intros; assumption).
  intros i prev w H. unfold pullChanges.
  destruct (heap w !! i) as [s|]; [|assumption].
  destruct (pullingChanges s); assumption.
Qed.

#[export] Instance cached_committing (key : string) (i0 : ref) :
  Committing (cached key i0).
Proof. split; [apply cached_stable | intros; assumption]. Qed.

#[export] Instance cached_completing (key : string) (i0 : ref) :
  Completing (cached key i0).
Proof. split; [apply cached_committing | |]; intros; assumption. Qed.

#[export] Instance uncached_stable (key : string) : Stable (uncached key).
Proof.
  split; try (intros; assumption).
  intros i prev w H. unfold pullChanges.
  destruct (heap w !! i) as [s|]; [|assumption].
  destruct (pullingChanges s); assumption.
Qed.

#[export] Instance uncached_committing (key : string) :
  Committing (uncached key).
Proof. split; [apply uncached_stable | intros; assumption]. Qed.

#[export] Instance uncached_completing (key : string) :
  Completing (uncached key).
Proof. split; [apply uncached_committing | |]; intros; assumption. Qed.

Lemma cached_new_000 (key : string) (i0 : ref) (cfg : Config) (r : string)
  (w : World) :
  cached key i0 w -> cached key i0 (snd (Part000.DropboxSync cfg r w)).
Proof.
  intros H. unfold Part000.DropboxSync.
  destruct (cache w !! Part000.cache_key (uid cfg) r) eqn:E; [assumption|].
  unfold cached in *. simpl.
  rewrite lookup_insert_ne; [assumption|]. congruence.
Qed.

Lemma cached_new_001 (key : string) (i0 : ref) (cfg : Config) (r : string)
  (w : World) :
  cached key i0 w -> cached key i0 (snd (Part001.DropboxSync cfg r w)).
Proof.
  intros H. unfold Part001.DropboxSync.
  destruct (cache w !! uid cfg) eqn:E; [assumption|].
  destruct (Js.inherited (uid cfg)); [assumption|].
  unfold cached in *. simpl.
  rewrite lookup_insert_ne; [assumption|]. congruence.
Qed.

(** part_001: a key that the cache inherits is never put in the cache. *)
Lemma uncached_new_001 (key : string) (cfg : Config) (r : string) (w : World) :
  Js.inherited key = true ->
  uncached key w -> uncached key (snd (Part001.DropboxSync cfg r w)).
Proof.
  intros Hk H. unfold Part001.DropboxSync.
  destruct (cache w !! uid cfg) eqn:E; [assumption|].
  destruct (Js.inherited (uid cfg)) eqn:Hi; [assumption|].
  unfold uncached in *. simpl.
  rewrite lookup_insert_ne; [assumption|].
  intros Heq. rewrite Heq, Hk in Hi. discriminate.
Qed.

(** part_000: only a [stopSync] that tears the instance down takes it out
    of the cache. *)
Lemma cached_stopSync_000 (key : string) (i0 : ref) (i : ref) (p : string)
  (callback : fn) (w : World) :
  tears_down key w (LStopSync i p callback) = false ->
  cached key i0 w -> cached key i0 (Part000.stopSync i p callback w).
Proof.
  intros Ht Hw. unfold Part000.stopSync. simpl in Ht.
  destruct (heap w !! i) as [s|]; [|assumption].
  destruct (table_delete _ _); [destruct (watchingForChanges s)|];
    try exact Hw.
  unfold cached in *. simpl.
  rewrite lookup_delete_ne; [assumption|].
  intros E. rewrite E, String.eqb_refl in Ht. discriminate.
Qed.

Lemma cached_step_000 (key : string) (i0 : ref) (l : label) (w w' : World) :
  tears_down key w l = false ->
  cached key i0 w -> Part000.step w l = Some w' -> cached key i0 w'.
Proof.
  intros Hl Hw E. destruct (is_stopSync l) eqn:Hs.
  - destruct l; try discriminate. simpl in E. injection E as <-.
    apply cached_stopSync_000; assumption.
  - apply (blind_step_000 (P := cached key i0)
             (fun q w H => H) (fun o q w H => H) (fun n o q w _ H => H)
             (cached_new_000 key i0) l w w' Hs Hw E).
Qed.

Lemma cached_run_000 (key : string) (i0 : ref) (ls : list label) :
  forall w w',
    never_torn_down key w ls = true ->
    cached key i0 w -> run Part000.step w ls = Some w' -> cached key i0 w'.
Proof.
  induction ls as [|l ls IH]; intros w w' Hn Hw E; simpl in *.
  - injection E as <-. assumption.
  - apply andb_prop in Hn as [Hl Hn]. apply negb_true_iff in Hl.
    destruct (Part000.step w l) as [w1|] eqn:E1; [|discriminate].
    exact (IH w1 w' Hn (cached_step_000 key i0 l w w1 Hl Hw E1) E).
Qed.

(** part_001: nothing takes an instance out of the cache. *)
Lemma cached_step_001 (key : string) (i0 : ref) (l : label) (w w' : World) :
  cached key i0 w -> Part001.step w l = Some w' -> cached key i0 w'.
Proof.
  intros Hw E.
  apply (blind_step_001 (P := cached key i0) (cached_new_001 key i0)
           l w w' Hw E).
Qed.

Lemma uncached_step_001 (key : string) (l : label) (w w' : World) :
  Js.inherited key = true ->
  uncached key w -> Part001.step w l = Some w' -> uncached key w'.
Proof.
  intros Hk Hw E.
  apply (blind_step_001 (P := uncached key)
           (fun cfg r w0 => uncached_new_001 key cfg r w0 Hk) l w w' Hw E).
Qed.

(** The constructor puts what it returns in the cache. *)
Lemma new_cached_000 (cfg : Config) (r : string) (w : World) :
  cached (Part000.cache_key (uid cfg) r) (fst (Part000.DropboxSync cfg r w))
    (snd (Part000.DropboxSync cfg r w)).
Proof.
  unfold Part000.DropboxSync, cached.
  destruct (cache w !! Part000.cache_key (uid cfg) r) eqn:E; simpl;
    [assumption | apply lookup_insert_eq].
Qed.

(** part_001: the constructor returns an instance, which it puts in the
    cache, or what the cache inherits under the uid, and then it does
    nothing. *)
Lemma new_cached_001 (cfg : Config) (r : string) (w : World) :
  match fst (Part001.DropboxSync cfg r w) with
  | Part001.AnInstance i => cached (uid cfg) i (snd (Part001.DropboxSync cfg r w))
  | Part001.Builtin name =>
      name = uid cfg /\ Js.inherited (uid cfg) = true
      /\ uncached (uid cfg) w /\ snd (Part001.DropboxSync cfg r w) = w
  end.
Proof.
  unfold Part001.DropboxSync, cached, uncached.
  destruct (cache w !! uid cfg) eqn:E; simpl; [assumption|].
  destruct (Js.inherited (uid cfg)) eqn:Hi; simpl;
    [auto | apply lookup_insert_eq].
Qed.

(** The constructor returns what the cache holds, and changes nothing. *)
Lemma cached_returned_000 (cfg : Config) (r : string) (i : ref) (w : World) :
  cached (Part000.cache_key (uid cfg) r) i w ->
  Part000.DropboxSync cfg r w = (i, w).
Proof. unfold cached, Part000.DropboxSync. intros ->. reflexivity. Qed.

Lemma cached_returned_001 (cfg : Config) (r : string) (i : ref) (w : World) :
  cached (uid cfg) i w -> Part001.DropboxSync cfg r w = (Part001.AnInstance i, w).
Proof. unfold cached, Part001.DropboxSync. intros ->. reflexivity. Qed.

Lemma uncached_returned_001 (cfg : Config) (r : string) (w : World) :
  Js.inherited (uid cfg) = true -> uncached (uid cfg) w ->
  Part001.DropboxSync cfg r w = (Part001.Builtin (uid cfg), w).
Proof.
  unfold uncached, Part001.DropboxSync. intros -> ->. reflexivity.
Qed.

(** [watchForChanges] arms the watch; on an armed watch it does nothing. *)
Lemma watchForChanges_armed (i : ref) (w : World) :
  armed i (watchForChanges i w).
Proof.
  unfold watchForChanges, armed.
  destruct (heap w !! i) as [s|] eqn:Hs; [|rewrite Hs; exact I].
  destruct (cursor s) as [c|] eqn:Hc.
  - destruct (watchingForChanges s) as [h|] eqn:Hh.
    + rewrite Hs, Hc, Hh. discriminate.
    + unfold update. simpl. rewrite list_lookup_alter_eq, Hs. simpl.
      rewrite Hc. discriminate.
  - unfold pullChanges. rewrite Hs.
    destruct (pullingChanges s) eqn:Hb.
    + rewrite Hs, Hc. assumption.
    + unfold update. simpl. rewrite list_lookup_alter_eq, Hs. simpl.
      rewrite Hc. reflexivity.
Qed.

Lemma armed_watchForChanges (i : ref) (w : World) :
  armed i w -> watchForChanges i w = w.
Proof.
  unfold watchForChanges, armed, pullChanges.
  destruct (heap w !! i) as [s|]; [|reflexivity].
  destruct (cursor s).
  - destruct (watchingForChanges s); [reflexivity | congruence].
  - intros ->. reflexivity.
Qed.

Lemma armed_set_paths (i : ref) (ps : list (string * Handler)) (w : World) :
  armed i w -> armed i (update i (set_paths ps) w).
Proof.
  unfold armed, update. simpl. rewrite list_lookup_alter_eq.
  destruct (heap w !! i); simpl; auto.
Qed.

Lemma remote_in_flight_start (o : Op) (k : Kont) (w : World) :
  is_remote (o, k) = false ->
  remote_in_flight (start o k w) = remote_in_flight w.
Proof.
  intros H. unfold remote_in_flight. simpl.
  rewrite List.filter_app. simpl. rewrite H. apply app_nil_r.
Qed.

Lemma cursor_set_paths (i j : ref) (ps : list (string * Handler)) (w : World) :
  cursor <$> heap (update i (set_paths ps) w) !! j = cursor <$> heap w !! j.
Proof.
  unfold update. simpl. destruct (decide (i = j)) as [->|Hij].
  - rewrite list_lookup_alter_eq. destruct (heap w !! j); reflexivity.
  - rewrite list_lookup_alter_ne by assumption. reflexivity.
Qed.

(** A registration on an armed watch asks nothing of the remote feed. *)
Lemma armed_sync_000 (i : ref) (p : option string) (onError onChange : fn)
  (w : World) :
  armed i w -> nothing_doubled i w (Part000.sync i p onError onChange w).
Proof.
  intros Ha. unfold Part000.sync.
  destruct (heap w !! i) as [s|] eqn:Hs; [|repeat split].
  rewrite armed_watchForChanges.
  - split; [|split].
    + simpl. apply length_alter.
    + rewrite remote_in_flight_start by reflexivity. reflexivity.
    + apply (cursor_set_paths i i _ (set_queues _ w)).
  - apply (armed_set_paths i _ (set_queues _ w)). exact Ha.
Qed.

Lemma armed_sync_001 (i : ref) (key : string) (onError onChange : fn)
  (w : World) :
  armed i w -> nothing_doubled i w (Part001.sync_under i key onError onChange w).
Proof.
  intros Ha. unfold Part001.sync_under.
  destruct (heap w !! i) as [s|] eqn:Hs; [|repeat split].
  rewrite armed_watchForChanges.
  - split; [|split].
    + simpl. apply length_alter.
    + reflexivity.
    + apply cursor_set_paths.
  - apply armed_set_paths. exact Ha.
Qed.

Lemma sync_armed_000 (i : ref) (p : option string) (onError onChange : fn)
  (w : World) : armed i (Part000.sync i p onError onChange w).
Proof.
  unfold Part000.sync. destruct (heap w !! i) as [s|] eqn:Hs.
  - apply watchForChanges_armed.
  - unfold armed. rewrite Hs. exact I.
Qed.

Lemma sync_armed_001 (i : ref) (key : string) (onError onChange : fn)
  (w : World) : armed i (Part001.sync_under i key onError onChange w).
Proof.
  unfold Part001.sync_under. destruct (heap w !! i) as [s|] eqn:Hs.
  - apply watchForChanges_armed.
  - unfold armed. rewrite Hs. exact I.
Qed.

(** *** Every instance is the one of the cache *)

Lemma lookup_updated (i j : ref) (f : Instance -> Instance) (w : World)
  (t : Instance) :
  heap (update i f w) !! j = Some t ->
  exists s, heap w !! j = Some s /\ (t = s \/ t = f s).
Proof.
  unfold update. simpl. destruct (decide (i = j)) as [->|Hij].
  - rewrite list_lookup_alter_eq.
    destruct (heap w !! j) as [s|]; [|discriminate].
    simpl. intros E. injection E as <-. eauto.
  - rewrite list_lookup_alter_ne by assumption. eauto.
Qed.

Lemma sole_000_update (key : string) (i : ref) (f : Instance -> Instance)
  (w : World) :
  (forall s, client_uid (f s) = client_uid s /\ root (f s) = root s) ->
  sole_000 key w -> sole_000 key (update i f w).
Proof.
  intros Hf H j t Ht Hk.
  apply lookup_updated in Ht as [s [Hs [->| ->]]].
  - exact (H j s Hs Hk).
  - destruct (Hf s) as [Hu Hr]. rewrite Hu, Hr in Hk. exact (H j s Hs Hk).
Qed.

#[export] Instance sole_000_stable (key : string) : Stable (sole_000 key).
Proof.
  split; try (intros; assumption).
  - intros i ps w H. apply sole_000_update; [split; reflexivity | exact H].
  - intros i h w H. apply sole_000_update; [split; reflexivity | exact H].
  - intros i prev w H. unfold pullChanges.
    destruct (heap w !! i) as [s|]; [|assumption].
    destruct (pullingChanges s); [assumption|].
    exact (sole_000_update key i (set_pullingChanges true) w
             (fun _ => conj eq_refl eq_refl) H).
Qed.

#[export] Instance sole_000_committing (key : string) :
  Committing (sole_000 key).
Proof. split; [apply sole_000_stable | intros; assumption]. Qed.

#[export] Instance sole_000_completing (key : string) :
  Completing (sole_000 key).
Proof.
  split; [apply sole_000_committing | intros; assumption |].
  intros n o i prev page w Hn H. unfold page_taken.
  apply sole_000_update; [split; reflexivity|].
  apply sole_000_update; [split; reflexivity|]. exact H.
Qed.

Lemma lookup_new_instance (s t : Instance) (j : ref) (w : World) :
  (heap w ++ [s]) !! j = Some t ->
  heap w !! j = Some t \/ (j = length (heap w) /\ t = s).
Proof.
  intros H. apply lookup_snoc_Some in H as [[_ H]|[-> <-]]; auto.
Qed.

Lemma sole_new_000 (key : string) (cfg : Config) (r : string) (w : World) :
  sole_000 key w -> sole_000 key (snd (Part000.DropboxSync cfg r w)).
Proof.
  intros H. unfold Part000.DropboxSync.
  destruct (cache w !! Part000.cache_key (uid cfg) r) eqn:E; [assumption|].
  intros j t Ht Hk. simpl in Ht |- *.
  apply lookup_new_instance in Ht as [Ht|[-> ->]].
  - pose proof (H j t Ht Hk) as Hc.
    rewrite lookup_insert_ne; [assumption|]. congruence.
  - simpl in Hk. rewrite Hk. apply lookup_insert_eq.
Qed.

(** part_000: a [stopSync] that does not tear down an instance of the key
    leaves the key in the cache. *)
Lemma sole_stopSync_000 (key : string) (i : ref) (p : string) (callback : fn)
  (w : World) :
  tears_down key w (LStopSync i p callback) = false ->
  sole_000 key w -> sole_000 key (Part000.stopSync i p callback w).
Proof.
  intros Ht Hw. unfold Part000.stopSync. simpl in Ht.
  destruct (heap w !! i) as [s|]; [|assumption].
  destruct (table_delete _ _); [destruct (watchingForChanges s) as [x|]|];
    try (apply (st_start (P := sole_000 key)); [reflexivity|];
         apply st_paths; exact Hw).
  assert (H1 : sole_000 key
                 (update i (set_watchingForChanges None)
                    (log (EvAbort i x) (update i (set_paths []) w))))
    by (apply st_watching, st_log; [reflexivity|]; apply st_paths; exact Hw).
  intros j t Hj Hk. pose proof (H1 j t Hj Hk) as Hc. simpl in Hc |- *.
  rewrite lookup_delete_ne; [exact Hc|].
  intros E. rewrite E, String.eqb_refl in Ht. discriminate.
Qed.

Lemma sole_step_000 (key : string) (l : label) (w w' : World) :
  tears_down key w l = false ->
  sole_000 key w -> Part000.step w l = Some w' -> sole_000 key w'.
Proof.
  intros Hl Hw E. destruct (is_stopSync l) eqn:Hs.
  - destruct l; try discriminate. simpl in E. injection E as <-.
    apply sole_stopSync_000; assumption.
  - apply (blind_step_000 (P := sole_000 key)
             (fun q w H => H) (fun o q w H => H) (fun n o q w _ H => H)
             (sole_new_000 key) l w w' Hs Hw E).
Qed.

Lemma sole_run_000 (key : string) (ls : list label) :
  forall w w',
    never_torn_down key w ls = true ->
    sole_000 key w -> run Part000.step w ls = Some w' -> sole_000 key w'.
Proof.
  induction ls as [|l ls IH]; intros w w' Hn Hw E; simpl in *.
  - injection E as <-. assumption.
  - apply andb_prop in Hn as [Hl Hn]. apply negb_true_iff in Hl.
    destruct (Part000.step w l) as [w1|] eqn:E1; [|discriminate].
    exact (IH w1 w' Hn (sole_step_000 key l w w1 Hl Hw E1) E).
Qed.

Lemma sole_001_update (i : ref) (f : Instance -> Instance) (w : World) :
  (forall s, client_uid (f s) = client_uid s) ->
  sole_001 w -> sole_001 (update i f w).
Proof.
  intros Hf [H1 H2]. split; [|exact H2].
  intros j t Ht. apply lookup_updated in Ht as [s [Hs [->| ->]]].
  - exact (H1 j s Hs).
  - rewrite Hf. exact (H1 j s Hs).
Qed.

#[export] Instance sole_001_stable : Stable sole_001.
Proof.
  split; try (intros; assumption).
  - intros i ps w H. apply sole_001_update; [reflexivity | exact H].
  - intros i h w H. apply sole_001_update; [reflexivity | exact H].
  - intros i prev w H. unfold pullChanges.
    destruct (heap w !! i) as [s|]; [|assumption].
    destruct (pullingChanges s); [assumption|].
    exact (sole_001_update i (set_pullingChanges true) w (fun _ => eq_refl) H).
Qed.

#[export] Instance sole_001_committing : Committing sole_001.
Proof. split; [apply sole_001_stable | intros; assumption]. Qed.

#[export] Instance sole_001_completing : Completing sole_001.
Proof.
  split; [apply sole_001_committing | intros; assumption |].
  intros n o i prev page w Hn H. unfold page_taken.
  apply sole_001_update; [reflexivity|].
  apply sole_001_update; [reflexivity|]. exact H.
Qed.

Lemma sole_new_001 (cfg : Config) (r : string) (w : World) :
  sole_001 w -> sole_001 (snd (Part001.DropboxSync cfg r w)).
Proof.
  intros [H1 H2]. unfold Part001.DropboxSync.
  destruct (cache w !! uid cfg) eqn:E; [split; assumption|].
  destruct (Js.inherited (uid cfg)) eqn:Hi; [split; assumption|].
  split.
  - intros j t Ht. simpl in Ht |- *.
    apply lookup_new_instance in Ht as [Ht|[-> ->]].
    + pose proof (H1 j t Ht) as Hc.
      rewrite lookup_insert_ne; [assumption|]. congruence.
    + apply lookup_insert_eq.
  - intros k Hk. simpl. rewrite lookup_insert_ne; [apply H2, Hk|].
    intros Heq. rewrite Heq, Hk in Hi. discriminate.
Qed.

Lemma sole_step_001 (l : label) (w w' : World) :
  sole_001 w -> Part001.step w l = Some w' -> sole_001 w'.
Proof.
  intros Hw E.
  apply (blind_step_001 (P := sole_001) sole_new_001 l w w' Hw E).
Qed.

Lemma sole_boot_000 (key d : string) (f : Fs.t) : sole_000 key (boot d f).
Proof. intros i s Hs. discriminate. Qed.

Lemma sole_boot_001 (d : string) (f : Fs.t) : sole_001 (boot d f).
Proof. split; [intros i s Hs; discriminate | intros k _; apply lookup_empty]. Qed.

(** C7, as the code has it.  A construction with the uid and the root of an
    earlier one returns what the earlier one returned and makes nothing: in
    part_001 always (the key of the cache is the uid alone, so also with
    another root), in part_000 as long as no [stopSync] took the identity out
    of the cache, which the [stopSync] that removes the last watched path of
    an instance does when the long-poll is held.  In every world that a
    process reaches there is then one instance of the identity at most: in
    part_001 one per uid, in part_000 one per uid and root while the
    identity was never taken out of the cache.  In part_001 a uid that names
    a property which the cache inherits gets no instance at all: the
    constructor returns the built-in.  Of two [DropboxSync.sync] in a row
    with the same uid and root, the second returns the instance of the
    first, makes no instance, asks nothing of the remote feed and leaves the
    cursor as it is. *)
Theorem same_identity_same_instance (cfg1 cfg2 : Config) (r : string)
  (w : World) :
  uid cfg1 = uid cfg2 ->
  (forall ls w',
      never_torn_down (Part000.cache_key (uid cfg1) r)
        (snd (Part000.DropboxSync cfg1 r w)) ls = true ->
      run Part000.step (snd (Part000.DropboxSync cfg1 r w)) ls = Some w' ->
      Part000.DropboxSync cfg2 r w' = (fst (Part000.DropboxSync cfg1 r w), w'))
  /\ (forall r' ls w',
      run Part001.step (snd (Part001.DropboxSync cfg1 r w)) ls = Some w' ->
      Part001.DropboxSync cfg2 r' w'
      = (fst (Part001.DropboxSync cfg1 r w), w'))
  /\ (forall d f ls w',
      run Part000.step (boot d f) ls = Some w' ->
      never_torn_down (Part000.cache_key (uid cfg1) r) (boot d f) ls = true ->
      forall i s,
        heap w' !! i = Some s -> client_uid s = uid cfg1 -> root s = r ->
        Part000.DropboxSync cfg2 r w' = (i, w')
        /\ forall j t,
            heap w' !! j = Some t -> client_uid t = uid cfg1 -> root t = r ->
            j = i)
  /\ (forall d f ls w',
      run Part001.step (boot d f) ls = Some w' ->
      (forall i s,
          heap w' !! i = Some s -> client_uid s = uid cfg1 ->
          (forall r', Part001.DropboxSync cfg2 r' w'
                      = (Part001.AnInstance i, w'))
          /\ forall j t,
              heap w' !! j = Some t -> client_uid t = uid cfg1 -> j = i)
      /\ (Js.inherited (uid cfg1) = true ->
          (forall r', Part001.DropboxSync cfg2 r' w'
                      = (Part001.Builtin (uid cfg1), w'))
          /\ forall j t, heap w' !! j = Some t -> client_uid t <> uid cfg1))
  /\ (forall p1 e1 c1 p2 e2 c2,
      let first := Part000.DropboxSync_sync cfg1 r p1 e1 c1 w in
      let second := Part000.DropboxSync_sync cfg2 r p2 e2 c2 (snd first) in
      fst second = fst first
      /\ nothing_doubled (fst first) (snd first) (snd second))
  /\ (forall p1 e1 c1 r' p2 e2 c2,
      let first := Part001.DropboxSync_sync cfg1 r p1 e1 c1 w in
      let second := Part001.DropboxSync_sync cfg2 r' p2 e2 c2 (snd first) in
      fst second = fst first
      /\ match fst first with
         | Some i => nothing_doubled i (snd first) (snd second)
         | None =>
             Js.inherited (uid cfg1) = true
             /\ heap (snd second) = heap w
             /\ pending (snd second) = pending w
         end).
Proof.
  intros Huid. split; [|split; [|split; [|split; [|split]]]].
  - intros ls w' Hls Hrun. apply cached_returned_000. rewrite <- Huid.
    apply (cached_run_000 _ _ ls _ w' Hls (new_cached_000 cfg1 r w) Hrun).
  - intros r' ls w' Hrun. pose proof (new_cached_001 cfg1 r w) as Hc.
    destruct (fst (Part001.DropboxSync cfg1 r w)) as [i|name].
    + apply cached_returned_001. rewrite <- Huid.
      apply (run_keeps _ Part001.step (fun _ => true)
               (fun l w w' _ => cached_step_001 _ _ l w w') ls _ w'
               (forallb_true ls) Hc Hrun).
    + destruct Hc as [-> [Hi [Hu Hw]]]. rewrite Hw in Hrun. rewrite Huid.
      apply uncached_returned_001; rewrite <- Huid; [exact Hi|].
      apply (run_keeps _ Part001.step (fun _ => true)
               (fun l w w' _ => uncached_step_001 _ l w w' Hi) ls _ w'
               (forallb_true ls) Hu Hrun).
  - intros d f ls w' Hrun Hls i s Hs Hu Hr.
    pose proof (sole_run_000 _ ls _ w' Hls (sole_boot_000 _ d f) Hrun) as H.
    assert (Hi : cached (Part000.cache_key (uid cfg1) r) i w')
      by (apply (H i s Hs); rewrite Hu, Hr; reflexivity).
    split.
    + apply cached_returned_000. rewrite <- Huid. exact Hi.
    + intros j t Ht Hu' Hr'.
      assert (Hj : cached (Part000.cache_key (uid cfg1) r) j w')
        by (apply (H j t Ht); rewrite Hu', Hr'; reflexivity).
      unfold cached in *. congruence.
  - intros d f ls w' Hrun.
    pose proof (run_keeps _ Part001.step (fun _ => true)
                  (fun l w w' _ => sole_step_001 l w w') ls _ w'
                  (forallb_true ls) (sole_boot_001 d f) Hrun) as [H1 H2].
    split.
    + intros i s Hs Hu. split.
      * intros r'. apply cached_returned_001. rewrite <- Huid, <- Hu.
        exact (H1 i s Hs).
      * intros j t Ht Hu'. pose proof (H1 i s Hs) as Hi.
        pose proof (H1 j t Ht) as Hj. rewrite Hu in Hi. rewrite Hu' in Hj.
        congruence.
    + intros Hi. split.
      * intros r'. rewrite Huid. apply uncached_returned_001;
          rewrite <- Huid; [exact Hi | exact (H2 _ Hi)].
      * intros j t Ht Hu. pose proof (H1 j t Ht) as Hj.
        rewrite Hu, (H2 _ Hi) in Hj. discriminate.
  - intros p1 e1 c1 p2 e2 c2. unfold Part000.DropboxSync_sync.
    pose proof (new_cached_000 cfg1 r w) as Hc.
    destruct (Part000.DropboxSync cfg1 r w) as [i1 w0]. simpl in *.
    assert (Hc1 : cached (Part000.cache_key (uid cfg2) r) i1
                    (Part000.sync i1 p1 e1 c1 w0)).
    { rewrite <- Huid.
      apply (keep_sync_000 (P := cached _ i1)); [|assumption].
      intros; assumption. }
    rewrite (cached_returned_000 cfg2 r i1 _ Hc1). simpl.
    split; [reflexivity|]. apply armed_sync_000, sync_armed_000.
  - intros p1 e1 c1 r' p2 e2 c2. unfold Part001.DropboxSync_sync.
    pose proof (new_cached_001 cfg1 r w) as Hc.
    destruct (Part001.DropboxSync cfg1 r w) as [[i1|name] w0]; simpl in *.
    + assert (Hc1 : cached (uid cfg2) i1 (Part001.sync_value i1 p1 e1 c1 w0)).
      { rewrite <- Huid.
        apply (keep_sync_under_001 (P := cached _ i1)). assumption. }
      rewrite (cached_returned_001 cfg2 r' i1 _ Hc1). simpl.
      split; [reflexivity|]. apply armed_sync_001, sync_armed_001.
    + destruct Hc as [-> [Hi [Hu ->]]].
      assert (Hu1 : uncached (uid cfg2) (log (EvThrow "TypeError") w))
        by (rewrite <- Huid; exact Hu).
      rewrite (uncached_returned_001 cfg2 r' _
                 ltac:(rewrite <- Huid; exact Hi) Hu1).
      simpl. auto.
Qed.

Lemma same_identity_same_instance_witness :
  (forall w',
      run Part000.step (snd (Part000.DropboxSync Ex.cfg "mirror"
                               (boot "/w" Fs.empty)))
        [LSync 0 (Some "/a") 1 2; LStopSync 0 "/a" 9] = Some w' ->
      Part000.DropboxSync Ex.cfg "mirror" w' = (0, w'))
  /\ (Part000.DropboxSync Ex.cfg "mirror" Ex.two_watchers
      = (0, Ex.two_watchers)
      /\ forall j t,
          heap Ex.two_watchers !! j = Some t ->
          client_uid t = "7" -> root t = "mirror" -> j = 0)
  /\ (let first := Part000.DropboxSync_sync Ex.cfg "mirror" (Some "/a") 1 2
                     (boot "/w" Fs.empty) in
      let second := Part000.DropboxSync_sync Ex.cfg "mirror" (Some "/b") 3 4
                      (snd first) in
      fst second = fst first
      /\ nothing_doubled (fst first) (snd first) (snd second)).
Proof.
  pose proof (same_identity_same_instance Ex.cfg Ex.cfg "mirror"
                (boot "/w" Fs.empty) eq_refl) as [H1 [_ [H3 [_ [H5 _]]]]].
  split; [|split].
  - intros w'. apply (H1 [LSync 0 (Some "/a") 1 2; LStopSync 0 "/a" 9] w').
    vm_compute. reflexivity.
  - apply (H3 "/w" Fs.empty
             [LNew Ex.cfg "mirror"; LSync 0 (Some "/a") 1 2;
              LSync 0 (Some "/b") 3 4] Ex.two_watchers
             ltac:(vm_compute; reflexivity) ltac:(vm_compute; reflexivity)
             0 (Ex.instance 0 Ex.two_watchers));
      vm_compute; reflexivity.
  - exact (H5 (Some "/a") 1 2 (Some "/b") 3 4).
Defined.

(** C7, as it is stated, fails in part_000.  [/a] is watched and the
    long-poll is held; [stopSync] removes [/a], which takes the instance out
    of the cache; whoever holds the instance registers [/a] on it again, and
    a long-poll is made; a construction with the same uid and root makes a
    second instance, on which [/a] is registered.  Two instances of one
    identity are live: each has a cursor of its own, one holds a long-poll
    and the other fetches from the beginning of the feed.  In part_001 a
    construction with the uid [constructor] returns no instance. *)
Lemma evicted_instance_is_doubled :
  (run Part000.step (boot "/w" Fs.empty) Ex2.doubled_run = Some Ex2.doubled
   /\ (exists s t,
         heap Ex2.doubled !! 0 = Some s /\ heap Ex2.doubled !! 1 = Some t
         /\ client_uid s = client_uid t /\ root s = root t
         /\ live s /\ live t
         /\ cursor s = Some Ex2.empty_page /\ cursor t = None
         /\ watchingForChanges s = Some 1 /\ pullingChanges t = true)
   /\ map fst (remote_in_flight Ex2.doubled)
      = [OpPoll 0 0 Ex2.empty_page; OpPoll 0 1 Ex2.empty_page; OpPull 1 None])
  /\ ~ (forall d f ls w,
         run Part000.step (boot d f) ls = Some w -> one_live_per_identity w)
  /\ ~ (forall cfg r w ls w',
         run Part000.step (snd (Part000.DropboxSync cfg r w)) ls = Some w' ->
         Part000.DropboxSync cfg r w' = (fst (Part000.DropboxSync cfg r w), w'))
  /\ Part001.DropboxSync Ex2.cfg_constructor "mirror" (boot "/w" Fs.empty)
     = (Part001.Builtin "constructor", boot "/w" Fs.empty).
Proof.
  assert (Hrun : run Part000.step (boot "/w" Fs.empty) Ex2.doubled_run
                 = Some Ex2.doubled) by (vm_compute; reflexivity).
  split; [|split; [|split]].
  - split; [exact Hrun|]. split.
    + eexists _, _. split; [vm_compute; reflexivity|].
      split; [vm_compute; reflexivity|].
      repeat split; try (vm_compute; reflexivity);
        vm_compute; discriminate.
    + vm_compute. reflexivity.
  - intros H. specialize (H "/w" Fs.empty Ex2.doubled_run Ex2.doubled Hrun
                            0 1 (Ex.instance 0 Ex2.doubled)
                            (Ex.instance 1 Ex2.doubled)).
    assert (E : 0 = 1); [|discriminate E].
    apply H; try (vm_compute; reflexivity); vm_compute; discriminate.
  - intros H.
    specialize (H Ex.cfg "mirror" (boot "/w" Fs.empty)
                  (removelast (tl Ex2.doubled_run))
                  (Ex.after Part000.step (boot "/w" Fs.empty)
                     (removelast Ex2.doubled_run))
                  ltac:(vm_compute; reflexivity)).
    vm_compute in H. discriminate H.
  - vm_compute. reflexivity.
Qed.
(** ** Routing of the entries of a batch to the watched paths (C6) *)

Lemma tasks_queue_push (q q' : nat) (task : list string) (w : World) :
  tasks_of q (Part000.queue_push q' task w)
  = tasks_of q w
    ++ (if (q =? q')%nat
        then match queues w !! q with Some _ => [task] | None => [] end
        else []).
Proof.
  unfold tasks_of, Part000.queue_push. simpl.
  destruct (Nat.eqb_spec q q') as [->|Hne].
  - rewrite list_lookup_alter_eq. destruct (queues w !! q'); reflexivity.
  - rewrite list_lookup_alter_ne by congruence.
    destruct (queues w !! q); symmetry; apply app_nil_r.
Qed.

Lemma root_of_handler_000 (j : ref) (h : Handler) (err : option Error)
  (cps : list string) (w : World) :
  root_of j (Part000.handler h err cps w) = root_of j w.
Proof.
  unfold Part000.handler. destruct err; [reflexivity|].
  destruct cps; [reflexivity|]. destruct (h_queue h); reflexivity.
Qed.

Lemma queues_handler_000 (q : nat) (h : Handler) (err : option Error)
  (cps : list string) (w : World) :
  is_Some (queues w !! q) ->
  is_Some (queues (Part000.handler h err cps w) !! q).
Proof.
  intros H. unfold Part000.handler. destruct err; [exact H|].
  destruct cps; [exact H|]. destruct (h_queue h) as [q'|]; [|exact H].
  unfold Part000.queue_push. simpl.
  destruct (decide (q' = q)) as [->|Hne].
  - rewrite list_lookup_alter_eq. destruct H as [x ->]. eexists. reflexivity.
  - rewrite list_lookup_alter_ne by assumption. exact H.
Qed.

(** The closure of a registration puts one task in the queue of the
    registration when it is called with paths, and nothing when it is called
    with none; it leaves the other queues as they are. *)
Lemma tasks_handler_000 (q : nat) (h : Handler) (cps : list string)
  (w : World) :
  is_Some (queues w !! q) ->
  tasks_of q (Part000.handler h None cps w)
  = tasks_of q w
    ++ match h_queue h, cps with
       | Some q', _ :: _ =>
           if (q' =? q)%nat
           then [map (toLocalPath (root_of (h_self h) w)) cps]
           else []
       | _, _ => []
       end.
Proof.
  intros [qs Hqs]. unfold Part000.handler.
  destruct cps as [|x cps]; [destruct (h_queue h); symmetry; apply app_nil_r|].
  destruct (h_queue h) as [q'|]; [|symmetry; apply app_nil_r].
  rewrite tasks_queue_push, Hqs, (Nat.eqb_sym q q'). reflexivity.
Qed.

Lemma tasks_dispatched (q : nat) (batch : PulledChanges) (r : ref -> string)
  (ps : list (string * Handler)) :
  forall w,
    (forall j, root_of j w = r j) ->
    is_Some (queues w !! q) ->
    tasks_of q
      (foldl (fun w' ph =>
                Part000.handler (snd ph) None
                  (Part000.changedPaths (fst ph) batch) w') w ps)
    = tasks_of q w
      ++ concat
           (map (fun ph =>
                   match h_queue (snd ph), Part000.changedPaths (fst ph) batch
                   with
                   | Some q', _ :: _ =>
                       if (q' =? q)%nat
                       then [map (toLocalPath (r (h_self (snd ph))))
                               (Part000.changedPaths (fst ph) batch)]
                       else []
                   | _, _ => []
                   end) ps).
Proof.
  induction ps as [|ph ps IH]; intros w Hr Hq; cbn [foldl map concat].
  - symmetry. apply app_nil_r.
  - rewrite IH.
    + rewrite (tasks_handler_000 q _ _ w Hq), Hr, <- app_assoc. reflexivity.
    + intros j. rewrite root_of_handler_000. apply Hr.
    + apply queues_handler_000, Hq.
Qed.

Lemma foldl_filter_and_commit (i : ref) (batch : PulledChanges)
  (ps : list (string * Handler)) :
  forall w acc,
    foldl (Part001.filter_and_commit i batch) (w, acc) ps
    = (foldl (fun w' ph =>
                match Part001.filtered (fst ph) batch with
                | [] => w'
                | es => Part001.commitChanges i (fst ph)
                          (with_changes batch es) (snd ph) w'
                end) w ps,
       acc ++ map fst
                (List.filter
                   (fun ph => match Part001.filtered (fst ph) batch with
                              | [] => false
                              | _ => true
                              end) ps)).
Proof.
  induction ps as [|[p h] ps IH]; intros w acc; cbn [foldl List.filter map].
  - rewrite app_nil_r. reflexivity.
  - rewrite filter_and_commit_cases. cbn [fst snd].
    destruct (Part001.filtered p batch) as [|e es]; rewrite IH;
      [reflexivity|].
    cbn [map fst]. rewrite <- app_assoc. reflexivity.
Qed.

(** C6.  When the commit of a batch ends without error, part_000 calls the
    closure of every watched path, in the order of the table, with the paths
    of the entries under the watched path: a registration whose path has
    entries under it gets one task in its queue, the local paths of these
    entries, and a registration whose path has none gets nothing: a queue
    gets what the registrations that own it put, in the order of the
    table.  When a
    batch is complete, part_001 calls [commitChanges] for every watched path
    with entries under it, in the order of the table, on a clone of the batch
    that holds these entries and no other, and for no other path.  An entry is under a watched path exactly
    when the watched path is a string prefix of its remote path, so an entry
    under two nested watched paths goes to both. *)
Theorem routed_iff_prefix (w : World) (ctx : CommitCtx) (s : Instance) :
  heap w !! cc_self ctx = Some s ->
  let i := cc_self ctx in
  let batch := cc_batch ctx in
  Part000.dispatch ctx None w
  = foldl (fun w' ph =>
             Part000.handler (snd ph) None
               (Part000.changedPaths (fst ph) batch) w') w (paths s)
  /\ (forall q,
        is_Some (queues w !! q) ->
        tasks_of q (Part000.dispatch ctx None w)
        = tasks_of q w
          ++ concat
               (map (fun ph =>
                       match h_queue (snd ph),
                             Part000.changedPaths (fst ph) batch with
                       | Some q', _ :: _ =>
                           if (q' =? q)%nat
                           then [map (toLocalPath
                                        (root_of (h_self (snd ph)) w))
                                   (Part000.changedPaths (fst ph) batch)]
                           else []
                       | _, _ => []
                       end) (paths s)))
  /\ Part001.filter_dispatch i batch w
     = (let w1 :=
          foldl (fun w' ph =>
                   match Part001.filtered (fst ph) batch with
                   | [] => w'
                   | es => Part001.commitChanges i (fst ph)
                             {| changes := es;
                                shouldPullAgain := shouldPullAgain batch;
                                blankSlate := blankSlate batch;
                                cursorTag := cursorTag batch |}
                             (snd ph) w'
                   end) w (paths s) in
        match List.filter
                (fun ph => match Part001.filtered (fst ph) batch with
                           | [] => false
                           | _ => true
                           end) (paths s) with
        | [] => watchForChanges i w1
        | _ => w1
        end)
  /\ (forall p e,
        In e (changes batch) ->
        (In (path e) (Part000.changedPaths p batch)
         <-> string_prefix p (path e))
        /\ (In e (Part001.filtered p batch) <-> string_prefix p (path e)))
  /\ (forall p p' e,
        In e (changes batch) ->
        string_prefix p p' -> string_prefix p' (path e) ->
        (In (path e) (Part000.changedPaths p batch)
         /\ In (path e) (Part000.changedPaths p' batch))
        /\ (In e (Part001.filtered p batch)
            /\ In e (Part001.filtered p' batch))).
Proof.
  intros Hs i batch.
  assert (H0 : forall q e, In e (changes batch) ->
                 (In (path e) (Part000.changedPaths q batch)
                  <-> string_prefix q (path e))).
  { intros q e He. rewrite in_changedPaths. split.
    - intros [c [_ [_ Hp]]]. exact Hp.
    - intros Hp. exists e. auto. }
  assert (H1 : forall q e, In e (changes batch) ->
                 (In e (Part001.filtered q batch)
                  <-> string_prefix q (path e))).
  { intros q e He. rewrite in_filtered. tauto. }
  split; [exact (dispatch_calls_each_closure ctx w s Hs)|].
  split; [|split; [|split]].
  - intros q Hq.
    rewrite (dispatch_calls_each_closure ctx w s Hs).
    exact (tasks_dispatched q batch (fun j => root_of j w) (paths s) w
             (fun j => eq_refl) Hq).
  - unfold Part001.filter_dispatch. unfold i in *. rewrite Hs.
    rewrite foldl_filter_and_commit. simpl.
    destruct (List.filter _ (paths s)); reflexivity.
  - intros p e He. split; [apply H0 | apply H1]; exact He.
  - intros p p' e He [t Ht] [t' Ht'].
    assert (Hp : string_prefix p (path e)).
    { exists (t +:+ t'). rewrite Ht', Ht. apply append_assoc. }
    assert (Hp' : string_prefix p' (path e)) by (exists t'; assumption).
    repeat split; first [apply H0; assumption | apply H1; assumption].
Qed.

Lemma routed_iff_prefix_witness :
  (tasks_of 0 (Part000.dispatch
                 {| cc_self := 0; cc_path := ""; cc_batch := Ex.nested_example;
                    cc_callback := CbDispatch |} None Ex.nested_watchers)
   = [["mirror/a/b/file.txt"]]
   /\ tasks_of 1 (Part000.dispatch
                    {| cc_self := 0; cc_path := "";
                       cc_batch := Ex.nested_example;
                       cc_callback := CbDispatch |} None Ex.nested_watchers)
      = [["mirror/a/b/file.txt"]])
  /\ Part001.filter_dispatch 0 Ex.nested_example Ex.nested_watchers_001
     = Part001.commitChanges 0 "/a/b"
         (Ex.page [Ex.file_entry "/a/b/file.txt"] false false "c1")
         {| h_self := 0; h_onError := 3; h_onChange := 4; h_queue := None |}
         (Part001.commitChanges 0 "/a"
            (Ex.page [Ex.file_entry "/a/b/file.txt"] false false "c1")
            {| h_self := 0; h_onError := 1; h_onChange := 2;
               h_queue := None |}
            Ex.nested_watchers_001)
  /\ (In "/a/b/file.txt" (Part000.changedPaths "/a" Ex.nested_example)
      /\ In "/a/b/file.txt" (Part000.changedPaths "/a/b" Ex.nested_example))
  /\ ~ In "/c/other.txt" (Part000.changedPaths "/a" Ex.nested_example).
Proof.
  pose proof (routed_iff_prefix Ex.nested_watchers_001
                {| cc_self := 0; cc_path := ""; cc_batch := Ex.nested_example;
                   cc_callback := CbDispatch |}
                (Ex.instance 0 Ex.nested_watchers_001)
                ltac:(vm_compute; reflexivity)) as [_ [_ [H3 _]]].
  pose proof (routed_iff_prefix Ex.nested_watchers
                {| cc_self := 0; cc_path := ""; cc_batch := Ex.nested_example;
                   cc_callback := CbDispatch |}
                (Ex.instance 0 Ex.nested_watchers)
                ltac:(vm_compute; reflexivity)) as [_ [H2 [_ [H4 H5]]]].
  split; [split|split; [|split]].
  - rewrite (H2 0 ltac:(vm_compute; eexists; reflexivity)).
    vm_compute. reflexivity.
  - rewrite (H2 1 ltac:(vm_compute; eexists; reflexivity)).
    vm_compute. reflexivity.
  - etransitivity; [exact H3|]. reflexivity.
  - apply (H5 "/a" "/a/b" (Ex.file_entry "/a/b/file.txt"));
      [left; reflexivity | exists "/b" | exists "/file.txt"]; reflexivity.
  - intros Hin.
    apply (proj1 (H4 "/a" (Ex.file_entry "/c/other.txt")
                    (or_intror (or_introl eq_refl)))) in Hin.
    destruct Hin as [t Ht]. discriminate Ht.
Defined.

(** ** The notifications of a registration, one at a time (C1) *)

Lemma one_notification_same (w w' : World) :
  queues w' = queues w ->
  (forall q, notifications_in_flight q w' = notifications_in_flight q w) ->
  one_notification w -> one_notification w'.
Proof.
  intros Hq Hn [H1 H2]. split.
  - intros q s Hs. rewrite Hn. apply H1. rewrite <- Hq. exact Hs.
  - intros q Hl. rewrite Hn. apply H2. rewrite <- Hq. exact Hl.
Qed.

#[export] Instance one_notification_stable : Stable one_notification.
Proof.
  split; try (intros; assumption).
  - intros o k w Hk. apply one_notification_same; [reflexivity|].
    intros q. rewrite notifications_start, (plain_not_worker q k Hk). lia.
  - intros i prev w H. unfold pullChanges.
    destruct (heap w !! i) as [s|]; [|assumption].
    destruct (pullingChanges s); [assumption|].
    revert H. apply one_notification_same; [reflexivity|].
    intros q. rewrite notifications_start. simpl.
    change (notifications_in_flight q (log _ (update _ _ w)))
      with (notifications_in_flight q w). lia.
Qed.

#[export] Instance one_notification_committing : Committing one_notification.
Proof. split; [exact one_notification_stable | intros; assumption]. Qed.

#[export] Instance one_notification_completing : Completing one_notification.
Proof.
  split; [exact one_notification_committing | |].
  - intros n o k w Hn Hk. apply one_notification_same; [reflexivity|].
    intros q. rewrite (notifications_completed q n o k w Hn),
                (not_worker_count q k Hk). lia.
  - intros n o i prev page w Hn.
    apply one_notification_same; [reflexivity|].
    intros q. rewrite (notifications_completed q n o _ w Hn). simpl.
    change (notifications_in_flight q (page_taken n i page w))
      with (notifications_in_flight q (completed n w)). lia.
Qed.

Lemma one_notification_push (q : nat) (task : list string) (w : World) :
  one_notification w -> one_notification (Part000.queue_push q task w).
Proof.
  intros [H1 H2]. unfold Part000.queue_push. split.
  - intros q' s' Hs'. rewrite notifications_start. simpl in *.
    change (notifications_in_flight q' (set_queues _ w))
      with (notifications_in_flight q' w).
    rewrite Nat.add_0_r.
    destruct (decide (q = q')) as [->|Hq].
    + rewrite list_lookup_alter_eq in Hs'.
      destruct (queues w !! q') as [s|] eqn:Hs; [|discriminate].
      injection Hs' as <-. simpl. apply H1. exact Hs.
    + rewrite list_lookup_alter_ne in Hs' by assumption. apply H1. exact Hs'.
  - intros q' Hl. rewrite notifications_start. simpl in *.
    rewrite length_alter in Hl. rewrite Nat.add_0_r. apply H2. exact Hl.
Qed.

Lemma one_notification_process (q : nat) (w : World) :
  one_notification w -> one_notification (Part000.queue_process q w).
Proof.
  intros [H1 H2]. unfold Part000.queue_process.
  destruct (queues w !! q) as [s|] eqn:Hs; [|split; assumption].
  destruct (q_tasks s) as [|task rest]; [split; assumption|].
  destruct (Nat.ltb_spec (q_workers s) 1) as [Hw|Hw]; [|split; assumption].
  assert (Hq : q < length (queues w)) by (eapply lookup_lt_Some; eauto).
  split.
  - intros q' s' Hs'. rewrite notifications_start. simpl in *.
    change (notifications_in_flight q' (log _ (set_queues _ w)))
      with (notifications_in_flight q' w).
    destruct (Nat.eqb_spec q' q) as [E|E].
    + subst q'. rewrite list_lookup_insert_eq in Hs' by assumption.
      injection Hs' as <-. simpl. destruct (H1 q s Hs). lia.
    + rewrite list_lookup_insert_ne in Hs' by congruence.
      destruct (H1 q' s' Hs'). lia.
  - intros q' Hl. rewrite notifications_start. simpl in *.
    rewrite length_insert in Hl.
    change (notifications_in_flight q' (log _ (set_queues _ w)))
      with (notifications_in_flight q' w).
    destruct (Nat.eqb_spec q' q) as [E|E]; [lia|].
    rewrite (H2 q' Hl). lia.
Qed.

Lemma one_notification_worker_done (n : nat) (o : Op) (q : nat) (w : World) :
  pending w !! n = Some (o, KWorkerDone q) ->
  one_notification w ->
  one_notification (Part000.worker_done q (completed n w)).
Proof.
  intros Hn [H1 H2]. unfold Part000.worker_done.
  change (queues (completed n w)) with (queues w).
  assert (Hc : forall q', notifications_in_flight q' w
                          = notifications_in_flight q' (completed n w)
                            + (if Nat.eqb q' q then 1 else 0)).
  { intros q'. apply (notifications_completed q' n o _ w Hn). }
  destruct (queues w !! q) as [s|] eqn:Hs.
  - assert (Hq : q < length (queues w)) by (eapply lookup_lt_Some; eauto).
    apply one_notification_process.
    match goal with
    | |- one_notification (if ?b then watchForChanges ?i ?x else ?x) =>
        assert (Hx : one_notification x);
        [| destruct b; [apply keep_watchForChanges|]; exact Hx]
    end.
    apply (st_log (P := one_notification)); [reflexivity|].
    split.
    + intros q' s' Hs'. simpl in *.
      change (notifications_in_flight q' (set_queues _ (completed n w)))
        with (notifications_in_flight q' (completed n w)).
      specialize (Hc q').
      destruct (Nat.eqb_spec q' q) as [E|E].
      * subst q'. rewrite list_lookup_insert_eq in Hs' by assumption.
        injection Hs' as <-. simpl. destruct (H1 q s Hs). lia.
      * rewrite list_lookup_insert_ne in Hs' by congruence.
        destruct (H1 q' s' Hs'). lia.
    + intros q' Hl. simpl in *. rewrite length_insert in Hl.
      change (notifications_in_flight q' (set_queues _ (completed n w)))
        with (notifications_in_flight q' (completed n w)).
      specialize (Hc q'). rewrite (H2 q' Hl) in Hc. lia.
  - exfalso. apply lookup_ge_None in Hs.
    pose proof (Hc q) as E. rewrite Nat.eqb_refl, (H2 q Hs) in E. lia.
Qed.

Lemma one_notification_new_queue (i f : nat) (w : World) :
  one_notification w ->
  one_notification
    (set_queues (queues w ++ [{| q_self := i; q_worker := f;
                                 q_tasks := []; q_workers := 0 |}]) w).
Proof.
  intros [H1 H2]. split.
  - intros q s Hs. simpl in *.
    change (notifications_in_flight q (set_queues _ w))
      with (notifications_in_flight q w).
    apply lookup_snoc_Some in Hs as [[_ Hs]|[-> <-]].
    + apply H1. exact Hs.
    + simpl. split; [apply H2|]; lia.
  - intros q Hl. simpl in *. rewrite length_app in Hl. simpl in Hl.
    apply H2. lia.
Qed.

Lemma one_notification_new (cfg : Config) (r : string) (w : World) :
  one_notification w -> one_notification (snd (Part000.DropboxSync cfg r w)).
Proof.
  intros H. unfold Part000.DropboxSync.
  destruct (cache w !! _); assumption.
Qed.

Lemma one_notification_step (l : label) (w w' : World) :
  one_notification w -> Part000.step w l = Some w' -> one_notification w'.
Proof.
  intros Hw E. destruct l; simpl in E.
  - injection E as <-. apply one_notification_new. assumption.
  - injection E as <-.
    apply (keep_sync_000 (P := one_notification));
      [apply one_notification_new_queue | assumption].
  - injection E as <-.
    apply (keep_stopSync_000 (P := one_notification));
      [intros; assumption | assumption].
  - apply (keep_complete_000 (P := one_notification)
             one_notification_push one_notification_process
             one_notification_worker_done n r w w' Hw E).
Qed.

(** While the consumer is in [onChange], [q.process] calls nothing. *)
Lemma queue_process_waits (q : nat) (w : World) :
  notifying q w = true -> Part000.queue_process q w = w.
Proof.
  unfold notifying, Part000.queue_process.
  destruct (queues w !! q) as [s|]; [|discriminate].
  intros H. apply Nat.ltb_lt in H.
  destruct (q_tasks s); [reflexivity|].
  destruct (Nat.ltb_spec (q_workers s) 1); [lia | reflexivity].
Qed.

(** C1, as the code has it.  In every world of a process of part_000 started
    afresh, the [onChange] of a registration is in progress at most once: as
    long as the consumer has not called back, the queue of the registration
    calls nothing; the next notification waits in the queue. *)
Theorem notifications_one_at_a_time (d : string) (f : Fs.t) (ls : list label)
  (w : World) :
  run Part000.step (boot d f) ls = Some w ->
  one_notification w
  /\ (forall q, notifying q w = true -> Part000.queue_process q w = w).
Proof.
  intros Hrun. split; [|intros q; apply queue_process_waits].
  apply (run_keeps one_notification Part000.step (fun _ => true)
           (fun l w w' _ => one_notification_step l w w') ls (boot d f) w
           (forallb_true ls)); [|exact Hrun].
  split.
  - intros q s Hs. discriminate.
  - intros q _. reflexivity.
Qed.

Lemma notifications_one_at_a_time_witness :
  one_notification Ex.overlap
  /\ (forall q, notifying q Ex.overlap = true ->
                Part000.queue_process q Ex.overlap = Ex.overlap).
Proof.
  apply (notifications_one_at_a_time "/w" Ex.mirror_with_file Ex.overlap_run).
  vm_compute. reflexivity.
Defined.

(** C1, as it is stated, fails: in [Ex.overlap] the consumer of [/a] is in
    the [onChange] of the first batch and has not called back, while the
    [fs.remove] of an entry under [/a] of the second batch is in flight. *)
Lemma change_callback_overlaps_next_batch :
  pending Ex.overlap
  = [(OpConsumer 2 ["mirror/a/x"], KWorkerDone 0);
     (OpFs (Fs.Remove "mirror/a/y"), KEntry 1 (Ex.removal "/a/y"))]
  /\ ~ (forall ls w i s p h q,
         run Part000.step (boot "/w" Ex.mirror_with_file) ls = Some w ->
         heap w !! i = Some s ->
         table_get p (paths s) = Some h ->
         h_queue h = Some q ->
         notifying q w = true ->
         mutating_under p w = false).
Proof.
  split; [vm_compute; reflexivity|].
  intros H.
  assert (Hrun : run Part000.step (boot "/w" Ex.mirror_with_file)
                   Ex.overlap_run
                 = Some Ex.overlap) by (vm_compute; reflexivity).
  specialize (H Ex.overlap_run Ex.overlap 0 (Ex.instance 0 Ex.overlap) "/a"
                {| h_self := 0; h_onError := 1; h_onChange := 2;
                   h_queue := Some 0 |} 0 Hrun).
  assert (C : mutating_under "/a" Ex.overlap = false).
  { apply H; vm_compute; reflexivity. }
  vm_compute in C. discriminate.
Qed.

(** ** The order of the entries of a batch (C3) *)

Lemma begun_log (e : event) (w : World) :
  entries_begun (history (log e w))
  = entries_begun (history w)
    ++ match e with EvEntryBegin _ c => [c] | _ => [] end.
Proof.
  unfold entries_begun, history. simpl. rewrite omap_app. simpl.
  destruct e; reflexivity.
Qed.

#[export] Instance begun_stable (l : list Change) : Stable (begun_is l).
Proof.
  split; try (intros; assumption).
  - intros e w He H. unfold begun_is in *. rewrite begun_log, H.
    destruct e; try discriminate; apply app_nil_r.
  - intros i prev w H. unfold pullChanges.
    destruct (heap w !! i) as [s|]; [|assumption].
    destruct (pullingChanges s); [assumption|].
    unfold begun_is in *.
    change (history (start _ _ ?x)) with (history x).
    rewrite begun_log. simpl. rewrite app_nil_r. exact H.
Qed.

Lemma begun_dispatch (l : list Change) (ctx : CommitCtx)
  (err : option Error) (w : World) :
  begun_is l w -> begun_is l (Part000.dispatch ctx err w).
Proof. apply keep_dispatch. intros; assumption. Qed.

Lemma begun_committed (l : list Change) (ctx : CommitCtx)
  (err : option Error) (w : World) :
  begun_is l w -> begun_is l (Part001.committed ctx err w).
Proof. apply keep_committed. Qed.

Section Begun.

Variable final : CommitCtx -> option Error -> World -> World.
Hypothesis begun_final :
  forall l ctx err w, begun_is l w -> begun_is l (final ctx err w).

Lemma begun_commitChange (l : list Change) (i : ref) (j : nat) (c : Change)
  (w : World) :
  begun_is l w -> begun_is (l ++ [c]) (commitChange final i j c w).
Proof.
  intros H. apply (keep_commitChange_begun final (begun_final (l ++ [c]))).
  unfold begun_is in *. rewrite begun_log, H. reflexivity.
Qed.

Lemma begun_foldl (i : ref) (j : nat) (cs : list Change) :
  forall (l : list Change) (w : World),
    begun_is l w ->
    begun_is (l ++ cs) (foldl (fun w' c => commitChange final i j c w') w cs).
Proof.
  induction cs as [|c cs IH]; intros l w H; simpl.
  - rewrite app_nil_r. exact H.
  - replace (l ++ c :: cs) with ((l ++ [c]) ++ cs)
      by (rewrite <- app_assoc; reflexivity).
    apply IH. apply begun_commitChange. exact H.
Qed.

Lemma begun_each_changes (l : list Change) (ctx : CommitCtx) (w : World) :
  begun_is l w ->
  begun_is (l ++ changes (cc_batch ctx)) (each_changes final ctx w).
Proof.
  intros H. unfold each_changes.
  destruct (changes (cc_batch ctx)) as [|c cs].
  - rewrite app_nil_r. apply begun_final. exact H.
  - apply begun_foldl. exact H.
Qed.

End Begun.

(** C3, as the code has it.  When the entries of a batch are committed,
    [commitChange] is called on them in the order of the batch, one call
    right after the other in the same turn of the event loop: each call
    starts the filesystem work of its entry and none waits for the work of
    an earlier entry to complete. *)
Theorem entries_begin_in_feed_order (ctx : CommitCtx) (w : World) :
  entries_begun (history (each_changes Part000.dispatch ctx w))
  = entries_begun (history w) ++ changes (cc_batch ctx)
  /\ entries_begun (history (each_changes Part001.committed ctx w))
     = entries_begun (history w) ++ changes (cc_batch ctx).
Proof.
  split.
  - apply (begun_each_changes Part000.dispatch begun_dispatch
             (entries_begun (history w)) ctx w eq_refl).
  - apply (begun_each_changes Part001.committed begun_committed
             (entries_begun (history w)) ctx w eq_refl).
Qed.

(** C3, as it is stated, fails: after the fetch of a batch of two removals,
    both entries are begun and none is done; the second can then be done
    before the first. *)
Lemma entries_do_not_wait :
  (exists w,
      run Part000.step (boot "/w" Fs.empty) Ex.two_entries_run = Some w
      /\ entries_begun (history w) = [Ex.removal "/a/x"; Ex.removal "/a/y"]
      /\ open_entries 0 (history w) = 2
      /\ exists w',
          Part000.step w (LComplete 2 (RFs None)) = Some w'
          /\ In (EvEntryEnd 0 (Ex.removal "/a/y") None) (history w')
          /\ ~ In (EvEntryEnd 0 (Ex.removal "/a/x") None) (history w'))
  /\ ~ (forall ls w j,
         run Part000.step (boot "/w" Fs.empty) ls = Some w ->
         open_entries j (history w) <= 1)
  /\ ~ (forall ls w j,
         run Part001.step (boot "/w" Fs.empty) ls = Some w ->
         open_entries j (history w) <= 1).
Proof.
  split; [|split].
  - eexists. split; [vm_compute; reflexivity|].
    split; [vm_compute; reflexivity|].
    split; [vm_compute; reflexivity|].
    eexists. split; [vm_compute; reflexivity|].
    split; [vm_compute; auto 10|].
    vm_compute. intros H.
    repeat (destruct H as [H|H]; [discriminate|]). exact H.
  - intros H.
    assert (Hrun : run Part000.step (boot "/w" Fs.empty) Ex.two_entries_run
                   = Some (Ex.after Part000.step (boot "/w" Fs.empty)
                             Ex.two_entries_run))
      by (vm_compute; reflexivity).
    specialize (H _ _ 0 Hrun). vm_compute in H. lia.
  - intros H.
    assert (Hrun : run Part001.step (boot "/w" Fs.empty)
                     [LNew Ex.cfg "mirror"; LSync 0 (Some "/a") 1 2;
                      LComplete 0 (RPull (Done (Ex.page [Ex.removal "/a/x";
                                                         Ex.removal "/a/y"]
                                                  false false "c1")))]
                   = Some (Ex.after Part001.step (boot "/w" Fs.empty)
                     [LNew Ex.cfg "mirror"; LSync 0 (Some "/a") 1 2;
                      LComplete 0 (RPull (Done (Ex.page [Ex.removal "/a/x";
                                                         Ex.removal "/a/y"]
                                                  false false "c1")))]))
      by (vm_compute; reflexivity).
    specialize (H _ _ 0 Hrun). vm_compute in H. lia.
Qed.

(** ** The blank slate (C2) *)

Lemma is_prefix_refl (l : Fs.loc) : Fs.is_prefix l l = true.
Proof.
  induction l as [|a l IH]; simpl; [reflexivity|].
  rewrite String.eqb_refl. exact IH.
Qed.

Lemma is_prefix_antisym (p : Fs.loc) :
  forall q, Fs.is_prefix p q = true -> Fs.is_prefix q p = true -> p = q.
Proof.
  induction p as [|a p IH]; intros [|b q] H1 H2; simpl in *;
    try discriminate; [reflexivity|].
  apply andb_prop in H1 as [Ha H1]. apply andb_prop in H2 as [_ H2].
  apply String.eqb_eq in Ha. subst b. f_equal. apply IH; assumption.
Qed.

(** A directory that is removed and made again is empty. *)
Lemma reset_empties (f f' : Fs.t) (l : Fs.loc) :
  Fs.mkdirs (Fs.remove f l) l = (Fs.Ok, f') -> is_empty_dir f' l.
Proof.
  unfold Fs.mkdirs. destruct (Fs.file_above _ _ _); [discriminate|].
  assert (Hl : Fs.remove f l l = None).
  { unfold Fs.remove. rewrite is_prefix_refl. reflexivity. }
  rewrite Hl. intros E. injection E as <-. split.
  - rewrite is_prefix_refl. reflexivity.
  - intros q Hq Hne.
    destruct (Fs.is_prefix q l) eqn:Hql.
    + exfalso. apply Hne. symmetry. apply is_prefix_antisym; assumption.
    + unfold Fs.remove. rewrite Hq. reflexivity.
Qed.

Lemma delete_last_started {A} (l : list A) (x : A) :
  delete (pred (length (l ++ [x]))) (l ++ [x]) = l.
Proof.
  rewrite length_app. simpl.
  replace (pred (length l + 1)) with (length l) by lia.
  induction l as [|a l IH]; simpl; [reflexivity|]. f_equal. exact IH.
Qed.

Lemma lookup_last_op {A} (l : list A) (x : A) :
  (l ++ [x]) !! pred (length (l ++ [x])) = Some x.
Proof.
  rewrite length_app. simpl.
  replace (pred (length l + 1)) with (length l) by lia.
  apply list_lookup_middle. reflexivity.
Qed.

(** A location is not under a longer one. *)
Lemma is_prefix_longer (pre : Fs.loc) (x : string) (rest : Fs.loc) :
  Fs.is_prefix (pre ++ x :: rest) pre = false.
Proof.
  induction pre as [|a pre IH]; simpl; [reflexivity|].
  rewrite IH. apply andb_false_r.
Qed.

(** What is on the way to a location does not change when the location is
    removed. *)
Lemma file_above_remove (f : Fs.t) (rest : Fs.loc) :
  forall pre,
    Fs.file_above (Fs.remove f (pre ++ rest)) pre rest
    = Fs.file_above f pre rest.
Proof.
  induction rest as [|x rest IH]; intros pre; simpl; [reflexivity|].
  unfold Fs.remove at 1. rewrite is_prefix_longer.
  destruct (f pre) as [[data|]|]; try reflexivity;
    (replace (pre ++ x :: rest) with ((pre ++ [x]) ++ rest)
       by (rewrite <- app_assoc; reflexivity));
    apply IH.
Qed.

(** A directory that was removed can be made again. *)
Lemma mkdirs_removed (f : Fs.t) (l : Fs.loc) :
  Fs.file_above f [] l = false ->
  exists f', Fs.mkdirs (Fs.remove f l) l = (Fs.Ok, f').
Proof.
  intros H. unfold Fs.mkdirs.
  pose proof (file_above_remove f l []) as Ha. simpl in Ha. rewrite Ha, H.
  assert (Hl : Fs.remove f l l = None).
  { unfold Fs.remove. rewrite is_prefix_refl. reflexivity. }
  rewrite Hl. eexists. reflexivity.
Qed.

Section BlankSlate.

Variable final : CommitCtx -> option Error -> World -> World.
Variable fire : Kont -> Arg -> World -> option World.
Hypothesis fire_fs :
  forall k r w, fire k (AFs r) w = fire_commit final k (AFs r) w.
Hypothesis begun_final :
  forall l ctx err w, begun_is l w -> begun_is l (final ctx err w).


End BlankSlate.




(** ** The last [stopSync] (C9) *)

Lemma wipe_sequence (fire : Kont -> Arg -> World -> option World)
  (final : CommitCtx -> option Error -> World -> World)
  (fire_fs : forall k r w, fire k (AFs r) w = fire_commit final k (AFs r) w)
  (dir : string) (callback : fn) (w : World) :
  wipes_then_calls_back fire dir callback w.
Proof.
  unfold wipes_then_calls_back, resetDir, fs_call.
  split; [reflexivity|]. split.
  { unfold history. simpl. unfold callbacks.
    rewrite !omap_app. simpl. rewrite !app_nil_r. reflexivity. }
  split; [reflexivity|].
  unfold complete, last_op. simpl pending.
  rewrite lookup_last_op, delete_last_started.
  split; [|split].
  - intros e. simpl. rewrite fire_fs. simpl.
    eexists. split; [reflexivity|]. split; [reflexivity|].
    split; [reflexivity|]. unfold history. simpl.
    rewrite <- !app_assoc. reflexivity.
  - intros Hf. simpl answer. unfold Fs.rimraf. rewrite Hf, fire_fs. simpl.
    eexists. split; [reflexivity|]. split; [reflexivity|].
    split; [reflexivity|]. unfold history. simpl.
    rewrite <- !app_assoc. reflexivity.
  - intros Hf. simpl answer. unfold Fs.rimraf. rewrite Hf, fire_fs. simpl.
    eexists. split; [reflexivity|].
    split; [reflexivity|]. split; [reflexivity|]. split.
    { unfold history. simpl. unfold callbacks.
      rewrite !omap_app. simpl. rewrite !app_nil_r. reflexivity. }
    simpl. rewrite lookup_last_op, delete_last_started. split.
    + intros e. simpl. rewrite fire_fs. simpl.
      eexists. split; [reflexivity|]. split; [reflexivity|].
      split; [reflexivity|]. unfold history. simpl.
      rewrite <- !app_assoc. reflexivity.
    + destruct (mkdirs_removed (fs w) (Fs.locate (cwd w) dir) Hf) as [f' Hm].
      simpl. unfold Fs.exec. simpl. rewrite Hm.
      rewrite fire_fs. simpl.
      eexists. split; [|split; [reflexivity|]].
      * eexists. split; [reflexivity|]. split; [reflexivity|].
        split; [intros H; congruence|]. unfold history. simpl.
        rewrite <- !app_assoc. reflexivity.
      * eapply reset_empties. exact Hm.
Qed.

Lemma table_delete_only {A} (k : string) (v : A) :
  table_delete k [(k, v)] = [].
Proof. simpl. rewrite String.eqb_refl. reflexivity. Qed.

(** C9, as the code has it.  When [stopSync] removes the last watched path:
    in part_000, with a long-poll held, the long-poll is aborted, the
    instance is taken out of the cache and the mirror root is removed and
    made again before the callback is called; with no long-poll held, the
    instance stays in the cache, nothing is wiped and the callback is called
    on the next tick.  In part_001 the instance is never taken out of the
    cache; with a long-poll held, the long-poll is aborted and the mirror of
    the path is removed and made again before the callback is called; with
    none held, the call throws.  When the removal fails (a regular file is on
    the way to the directory) or the making fails, the callback is called
    with the error, and after a failed removal the directory is as it
    was. *)
Theorem last_stopSync (w : World) (i : ref) (s : Instance) (p : string)
  (callback : fn) :
  heap w !! i = Some s ->
  (forall h, paths s = [(Part000.normalizePath p, h)] ->
     (forall x, watchingForChanges s = Some x ->
        exists w',
          Part000.stopSync i p callback w
          = resetDir (Part000.reset_dir w (root s)) (RUser callback) w'
          /\ history w' = history w ++ [EvAbort i x]
          /\ watchingForChanges <$> heap w' !! i = Some None
          /\ cache w'
             = delete (Part000.cache_key (client_uid s) (root s)) (cache w)
          /\ pending w' = pending w /\ fs w' = fs w /\ cwd w' = cwd w
          /\ wipes_then_calls_back Part000.fire
               (Part000.reset_dir w (root s)) callback w')
     /\ (watchingForChanges s = None ->
         Part000.stopSync i p callback w
         = start OpNextTick (KNextTick callback) (update i (set_paths []) w)))
  /\ (forall h, paths s = [(Part001.normalizePath p, h)] ->
     cache (Part001.stopSync i p callback w) = cache w
     /\ (forall x, watchingForChanges s = Some x ->
        exists w',
          Part001.stopSync i p callback w
          = resetDir (Part001.reset_dir w (root s) (Part001.normalizePath p))
              (RUser callback) w'
          /\ history w' = history w ++ [EvAbort i x]
          /\ watchingForChanges <$> heap w' !! i = Some None
          /\ pending w' = pending w /\ fs w' = fs w /\ cwd w' = cwd w
          /\ wipes_then_calls_back Part001.fire
               (Part001.reset_dir w (root s) (Part001.normalizePath p))
               callback w')
     /\ (watchingForChanges s = None ->
         Part001.stopSync i p callback w
         = log (EvThrow "TypeError") (update i (set_paths []) w))).
Proof.
  intros Hs. split.
  - intros h Hp. split.
    + intros x Hx. unfold Part000.stopSync. rewrite Hs, Hp, table_delete_only, Hx.
      eexists. split; [reflexivity|].
      split; [unfold history; reflexivity|]. split.
      { unfold update. simpl. rewrite !list_lookup_alter_eq, Hs. reflexivity. }
      split; [reflexivity|]. split; [reflexivity|].
      split; [reflexivity|]. split; [reflexivity|].
      apply (wipe_sequence Part000.fire Part000.dispatch).
      intros k r w0. destruct k; reflexivity.
    + intros Hx. unfold Part000.stopSync.
      rewrite Hs, Hp, table_delete_only, Hx. reflexivity.
  - intros h Hp. split; [|split].
    + unfold Part001.stopSync. rewrite Hs, Hp, table_delete_only.
      destruct (watchingForChanges s); reflexivity.
    + intros x Hx. unfold Part001.stopSync. rewrite Hs, Hp, table_delete_only, Hx.
      eexists. split; [reflexivity|].
      split; [unfold history; reflexivity|]. split.
      { unfold update. simpl. rewrite !list_lookup_alter_eq, Hs. reflexivity. }
      split; [reflexivity|]. split; [reflexivity|]. split; [reflexivity|].
      apply (wipe_sequence Part001.fire Part001.committed).
      intros k r w0. destruct k; reflexivity.
    + intros Hx. unfold Part001.stopSync.
      rewrite Hs, Hp, table_delete_only, Hx. reflexivity.
Qed.

Lemma last_stopSync_witness :
  (exists w',
     Part000.stopSync 0 "/a" 9 Ex2.polling_000
     = resetDir "/w/mirror" (RUser 9) w'
     /\ history w' = history Ex2.polling_000 ++ [EvAbort 0 0]
     /\ cache w' = delete "7:mirror" (cache Ex2.polling_000)
     /\ wipes_then_calls_back Part000.fire "/w/mirror" 9 w')
  /\ (exists w',
        Part001.stopSync 0 "/a" 9 Ex2.polling_001
        = resetDir "/w/mirror/a" (RUser 9) w'
        /\ history w' = history Ex2.polling_001 ++ [EvAbort 0 0]
        /\ wipes_then_calls_back Part001.fire "/w/mirror/a" 9 w')
  /\ Part000.stopSync 0 "/a" 9 Ex.one_watcher
     = start OpNextTick (KNextTick 9) (update 0 (set_paths []) Ex.one_watcher).
Proof.
  split; [|split].
  - destruct (proj1 (proj1 (last_stopSync Ex2.polling_000 0
                              (Ex.instance 0 Ex2.polling_000) "/a" 9
                              ltac:(vm_compute; reflexivity))
                       {| h_self := 0; h_onError := 1; h_onChange := 2;
                          h_queue := Some 1 |}
                       ltac:(vm_compute; reflexivity))
                0 ltac:(vm_compute; reflexivity))
      as [w' [E [Hh [_ [Hc [_ [_ [_ Hw]]]]]]]].
    exists w'. split; [exact E|]. split; [exact Hh|].
    split; [exact Hc | exact Hw].
  - destruct (proj1 (proj2 (proj2 (last_stopSync Ex2.polling_001 0
                              (Ex.instance 0 Ex2.polling_001) "/a" 9
                              ltac:(vm_compute; reflexivity))
                       {| h_self := 0; h_onError := 1; h_onChange := 2;
                          h_queue := None |}
                       ltac:(vm_compute; reflexivity)))
                0 ltac:(vm_compute; reflexivity))
      as [w' [E [Hh [_ [_ [_ [_ Hw]]]]]]].
    exists w'. split; [exact E|]. split; [exact Hh | exact Hw].
  - refine (proj2 (proj1 (last_stopSync Ex.one_watcher 0
                            (Ex.instance 0 Ex.one_watcher) "/a" 9 _)
                     {| h_self := 0; h_onError := 1; h_onChange := 2;
                        h_queue := Some 0 |} _) _).
    + vm_compute. reflexivity.
    + vm_compute. reflexivity.
    + vm_compute. reflexivity.
Defined.

(** C9, as it is stated, fails: [/a] is the only watched path and the first
    fetch is in flight, so no long-poll is held; [stopSync] leaves the
    instance in the cache and calls no filesystem primitive, and the callback
    is called with the mirror as it was. *)
Lemma last_stopSync_without_poll_wipes_nothing :
  (paths (Ex.instance 0 Ex.one_watcher)
   = [("/a", {| h_self := 0; h_onError := 1; h_onChange := 2;
                h_queue := Some 0 |})]
   /\ watchingForChanges (Ex.instance 0 Ex.one_watcher) = None
   /\ cache Ex.one_watcher !! "7:mirror" = Some 0
   /\ exists w',
       run Part000.step Ex.one_watcher
         [LStopSync 0 "/a" 9; LComplete 2 RFired] = Some w'
       /\ paths (Ex.instance 0 w') = []
       /\ cache w' !! "7:mirror" = Some 0
       /\ fs_calls (history w') = []
       /\ callbacks (history w') = [(9, None)])
  /\ ~ (forall w i s p callback h,
         heap w !! i = Some s ->
         paths s = [(Part000.normalizePath p, h)] ->
         cache (Part000.stopSync i p callback w)
           !! Part000.cache_key (client_uid s) (root s) = None
         /\ In (Fs.Remove (Part000.reset_dir w (root s)))
              (fs_calls (history (Part000.stopSync i p callback w)))).
Proof.
  split.
  - split; [vm_compute; reflexivity|]. split; [vm_compute; reflexivity|].
    split; [vm_compute; reflexivity|].
    eexists. split; [vm_compute; reflexivity|].
    split; [vm_compute; reflexivity|]. split; [vm_compute; reflexivity|].
    split; vm_compute; reflexivity.
  - intros H.
    destruct (H Ex.one_watcher 0 (Ex.instance 0 Ex.one_watcher) "/a" 9
                {| h_self := 0; h_onError := 1; h_onChange := 2;
                   h_queue := Some 0 |}) as [Hc _];
      try (vm_compute; reflexivity).
    vm_compute in Hc. discriminate.
Qed.

(** * Further properties of the engine *)

Import View.

(** ** The keys of the path table ([normalizePath]) *)

Lemma lower_ascii_idem (c : ascii) :
  Js.lower_ascii (Js.lower_ascii c) = Js.lower_ascii c.
Proof. destruct c as [[] [] [] [] [] [] [] []]; reflexivity. Qed.

Lemma lower_ascii_slash (c : ascii) :
  Ascii.eqb (Js.lower_ascii c) "/" = Ascii.eqb c "/".
Proof. destruct c as [[] [] [] [] [] [] [] []]; reflexivity. Qed.

Lemma toLowerCase_idem (s : string) :
  Js.toLowerCase (Js.toLowerCase s) = Js.toLowerCase s.
Proof.
  induction s as [|c s IH]; simpl; [reflexivity|].
  rewrite lower_ascii_idem, IH. reflexivity.
Qed.

Lemma toLowerCase_head (s : string) :
  Js.head_is_slash (Js.toLowerCase s) = Js.head_is_slash s.
Proof. destruct s as [|c s]; [reflexivity | apply lower_ascii_slash]. Qed.

Lemma toLowerCase_empty (s : string) :
  String.eqb (Js.toLowerCase s) "" = String.eqb s "".
Proof. destruct s; reflexivity. Qed.

Lemma normalizePath_001_head (p : string) :
  Js.head_is_slash (Part001.normalizePath p) = negb (String.eqb p "").
Proof.
  unfold Part001.normalizePath. destruct p as [|c p]; [reflexivity|].
  simpl. destruct (Js.head_is_slash (String c p)) eqn:E; simpl; auto.
Qed.

Lemma normalizePath_001_empty (p : string) :
  String.eqb (Part001.normalizePath p) "" = String.eqb p "".
Proof.
  unfold Part001.normalizePath. destruct p as [|c p]; [reflexivity|].
  simpl. destruct (Js.head_is_slash (String c p)); reflexivity.
Qed.

Lemma normalizePath_000_001 (p : string) :
  Part000.normalizePath p = Js.toLowerCase (Part001.normalizePath p).
Proof. reflexivity. Qed.

(** X1. [normalizePath] gives the key of a path in the table: a path that
    is not empty gets a leading slash when it has none (part_000 also puts it
    in lower case); the empty path is left as it is.  Normalizing a key
    gives the key: a path and its key name the same entry of the table, and
    so do, in part_000, two paths that differ by the case of their
    letters. *)
Theorem normalizePath_is_canonical (p : string) :
  Part000.normalizePath (Part000.normalizePath p) = Part000.normalizePath p
  /\ Part001.normalizePath (Part001.normalizePath p) = Part001.normalizePath p
  /\ Js.head_is_slash (Part000.normalizePath p) = negb (String.eqb p "")
  /\ Js.head_is_slash (Part001.normalizePath p) = negb (String.eqb p "")
  /\ Part000.normalizePath (Js.toLowerCase p) = Part000.normalizePath p.
Proof.
  assert (H1 : Part001.normalizePath (Part001.normalizePath p)
               = Part001.normalizePath p).
  { unfold Part001.normalizePath at 1.
    rewrite normalizePath_001_head, normalizePath_001_empty.
    destruct (String.eqb p ""); reflexivity. }
  assert (H0 : forall q, Part000.normalizePath (Js.toLowerCase q)
                         = Js.toLowerCase (Part001.normalizePath q)).
  { intros q. unfold Part000.normalizePath, Part001.normalizePath.
    rewrite toLowerCase_head, toLowerCase_empty.
    destruct (_ && _); [|apply toLowerCase_idem].
    change (Js.toLowerCase (String "/" (Js.toLowerCase q))
            = Js.toLowerCase (String "/" q)).
    simpl. rewrite toLowerCase_idem. reflexivity. }
  repeat split.
  - rewrite (normalizePath_000_001 p), H0, H1. reflexivity.
  - exact H1.
  - rewrite normalizePath_000_001, toLowerCase_head.
    apply normalizePath_001_head.
  - apply normalizePath_001_head.
  - rewrite H0. reflexivity.
Qed.

(** ** The path table: registration and its removal *)

Lemma table_get_set_eq {A} (k : string) (v : A) (t : list (string * A)) :
  table_get k (table_set k v t) = Some v.
Proof.
  induction t as [|[k' v'] t IH]; simpl.
  - rewrite String.eqb_refl. reflexivity.
  - destruct (String.eqb k k') eqn:E; simpl; rewrite ?String.eqb_refl, ?E; auto.
Qed.

Lemma table_get_set_ne {A} (k k' : string) (v : A) (t : list (string * A)) :
  k' <> k -> table_get k' (table_set k v t) = table_get k' t.
Proof.
  intros Hne. induction t as [|[k0 v0] t IH]; simpl.
  - apply String.eqb_neq in Hne. rewrite Hne. reflexivity.
  - destruct (String.eqb k k0) eqn:E; simpl.
    + apply String.eqb_eq in E. subst k0.
      apply String.eqb_neq in Hne. rewrite Hne. reflexivity.
    + destruct (String.eqb k' k0); auto.
Qed.

Lemma table_delete_set {A} (k : string) (v : A) (t : list (string * A)) :
  table_delete k (table_set k v t) = table_delete k t.
Proof.
  induction t as [|[k' v'] t IH]; simpl.
  - rewrite String.eqb_refl. reflexivity.
  - destruct (String.eqb k k') eqn:E; simpl; rewrite ?String.eqb_refl, ?E;
      [reflexivity | f_equal; exact IH].
Qed.

Lemma table_delete_missing {A} (k : string) (t : list (string * A)) :
  table_get k t = None -> table_delete k t = t.
Proof.
  induction t as [|[k' v'] t IH]; simpl; [reflexivity|].
  destruct (String.eqb k k'); [discriminate|].
  intros H. f_equal. auto.
Qed.

Lemma length_table_set {A} (k : string) (v : A) (t : list (string * A)) :
  length (table_set k v t)
  = match table_get k t with
    | Some _ => length t
    | None => S (length t)
    end.
Proof.
  induction t as [|[k' v'] t IH]; simpl; [reflexivity|].
  destruct (String.eqb k k'); simpl; [reflexivity|].
  rewrite IH. destruct (table_get k t); reflexivity.
Qed.

Lemma watched_update_paths (i : ref) (ps : list (string * Handler)) (w : World)
  (s : Instance) :
  heap w !! i = Some s -> watched i (update i (set_paths ps) w) = ps.
Proof.
  intros Hs. unfold watched, update. simpl.
  rewrite list_lookup_alter_eq, Hs. reflexivity.
Qed.

Lemma watched_update (i j : ref) (f : Instance -> Instance) (w : World) :
  (forall s, paths (f s) = paths s) ->
  watched j (update i f w) = watched j w.
Proof.
  intros Hf. unfold watched, update. simpl.
  destruct (decide (i = j)) as [->|Hij].
  - rewrite list_lookup_alter_eq. destruct (heap w !! j); simpl; auto.
  - rewrite list_lookup_alter_ne by assumption. reflexivity.
Qed.

Lemma watched_pullChanges (i j : ref) (prev : option PulledChanges) (w : World) :
  watched j (pullChanges i prev w) = watched j w.
Proof.
  unfold pullChanges. destruct (heap w !! i); [|reflexivity].
  destruct (pullingChanges _); [reflexivity|].
  apply (watched_update i j (set_pullingChanges true) w). reflexivity.
Qed.

Lemma watched_watchForChanges (i j : ref) (w : World) :
  watched j (watchForChanges i w) = watched j w.
Proof.
  unfold watchForChanges. destruct (heap w !! i) as [s|]; [|reflexivity].
  destruct (cursor s); [|apply watched_pullChanges].
  destruct (watchingForChanges s); [reflexivity|].
  rewrite (watched_update i j (set_watchingForChanges _)) by reflexivity.
  reflexivity.
Qed.

Lemma watched_sync_000 (i : ref) (p : option string) (e c : fn) (w : World)
  (s : Instance) :
  heap w !! i = Some s ->
  watched i (Part000.sync i p e c w)
  = table_set
      (Part000.normalizePath
         (match p with
          | Some x => if String.eqb x "" then "/" else x
          | None => "/"
          end))
      {| h_self := i; h_onError := e; h_onChange := c;
         h_queue := Some (length (queues w)) |}
      (paths s).
Proof.
  intros Hs. unfold Part000.sync. rewrite Hs.
  rewrite watched_watchForChanges.
  apply (watched_update_paths i _ (set_queues _ w) s Hs).
Qed.

Lemma watched_sync_001 (i : ref) (p : string) (e c : fn) (w : World)
  (s : Instance) :
  heap w !! i = Some s ->
  watched i (Part001.sync i p e c w)
  = table_set (Part001.normalizePath p)
      {| h_self := i; h_onError := e; h_onChange := c; h_queue := None |}
      (paths s).
Proof.
  intros Hs. unfold Part001.sync, Part001.sync_under. rewrite Hs.
  rewrite watched_watchForChanges.
  apply (watched_update_paths i _ w s Hs).
Qed.

Lemma watched_resetDir (j : ref) (dir : string) (k : ResetCallback) (w : World) :
  watched j (resetDir dir k w) = watched j w.
Proof. reflexivity. Qed.

Lemma watched_stopSync_000 (i : ref) (p : string) (cb : fn) (w : World) :
  watched i (Part000.stopSync i p cb w)
  = table_delete (Part000.normalizePath p) (watched i w).
Proof.
  unfold Part000.stopSync, watched at 2.
  destruct (heap w !! i) as [s|] eqn:Hs.
  - assert (H : watched i (update i (set_paths
                  (table_delete (Part000.normalizePath p) (paths s))) w)
                = table_delete (Part000.normalizePath p) (paths s))
      by (apply (watched_update_paths i _ w s Hs)).
    destruct (table_delete _ _) as [|x l]; [destruct (watchingForChanges s)|];
      try exact H.
    rewrite watched_resetDir.
    change (watched i (set_cache ?c ?x)) with (watched i x).
    rewrite (watched_update i i (set_watchingForChanges None)) by reflexivity.
    exact H.
  - unfold watched. rewrite Hs. reflexivity.
Qed.

Lemma watched_stopSync_001 (i : ref) (p : string) (cb : fn) (w : World) :
  watched i (Part001.stopSync i p cb w)
  = table_delete (Part001.normalizePath p) (watched i w).
Proof.
  unfold Part001.stopSync, watched at 2.
  destruct (heap w !! i) as [s|] eqn:Hs.
  - assert (H : watched i (update i (set_paths
                  (table_delete (Part001.normalizePath p) (paths s))) w)
                = table_delete (Part001.normalizePath p) (paths s))
      by (apply (watched_update_paths i _ w s Hs)).
    destruct (table_delete _ _) as [|x l]; [destruct (watchingForChanges s)|];
      try exact H.
    rewrite watched_resetDir.
    rewrite (watched_update i i (set_watchingForChanges None)) by reflexivity.
    exact H.
  - unfold watched. rewrite Hs. reflexivity.
Qed.

(** X2. Registration in the path table.  [sync] puts the closure of its
    callbacks under the key of the path: a path that is already watched keeps
    its place and gets the new callbacks (the table does not grow), another
    path is added after the others; the other paths keep their closures.
    [stopSync] with any spelling of the path that has the same key removes
    what [sync] put: when the path was not watched before, the table is
    again what it was. *)
Theorem sync_registers_stopSync_removes (i : ref) (w : World) (s : Instance)
  (p p' : string) (e c cb : fn) :
  heap w !! i = Some s ->
  p <> "" ->
  (let k := Part000.normalizePath p in
   let h := {| h_self := i; h_onError := e; h_onChange := c;
               h_queue := Some (length (queues w)) |} in
   let w1 := Part000.sync i (Some p) e c w in
   watched i w1 = table_set k h (paths s)
   /\ table_get k (watched i w1) = Some h
   /\ (forall k', k' <> k ->
         table_get k' (watched i w1) = table_get k' (paths s))
   /\ length (watched i w1)
      = match table_get k (paths s) with
        | Some _ => length (paths s)
        | None => S (length (paths s))
        end
   /\ (Part000.normalizePath p' = k ->
       watched i (Part000.stopSync i p' cb w1) = table_delete k (paths s))
   /\ (Part000.normalizePath p' = k -> table_get k (paths s) = None ->
       watched i (Part000.stopSync i p' cb w1) = paths s))
  /\ (let k := Part001.normalizePath p in
      let h := {| h_self := i; h_onError := e; h_onChange := c;
                  h_queue := None |} in
      let w1 := Part001.sync i p e c w in
      watched i w1 = table_set k h (paths s)
      /\ table_get k (watched i w1) = Some h
      /\ (forall k', k' <> k ->
            table_get k' (watched i w1) = table_get k' (paths s))
      /\ length (watched i w1)
         = match table_get k (paths s) with
           | Some _ => length (paths s)
           | None => S (length (paths s))
           end
      /\ (Part001.normalizePath p' = k ->
          watched i (Part001.stopSync i p' cb w1) = table_delete k (paths s))
      /\ (Part001.normalizePath p' = k -> table_get k (paths s) = None ->
          watched i (Part001.stopSync i p' cb w1) = paths s)).
Proof.
  intros Hs Hp. split.
  - intros k h w1.
    assert (H1 : watched i w1 = table_set k h (paths s)).
    { unfold w1. rewrite (watched_sync_000 i (Some p) e c w s Hs).
      apply String.eqb_neq in Hp. rewrite Hp. reflexivity. }
    assert (H2 : Part000.normalizePath p' = k ->
                 watched i (Part000.stopSync i p' cb w1)
                 = table_delete k (paths s)).
    { intros E. rewrite watched_stopSync_000, E, H1.
      apply table_delete_set. }
    rewrite H1. repeat split.
    + apply table_get_set_eq.
    + intros k' Hk. apply table_get_set_ne. exact Hk.
    + apply length_table_set.
    + exact H2.
    + intros E Hnone. rewrite (H2 E). apply table_delete_missing, Hnone.
  - intros k h w1.
    assert (H1 : watched i w1 = table_set k h (paths s))
      by apply (watched_sync_001 i p e c w s Hs).
    assert (H2 : Part001.normalizePath p' = k ->
                 watched i (Part001.stopSync i p' cb w1)
                 = table_delete k (paths s)).
    { intros E. rewrite watched_stopSync_001, E, H1.
      apply table_delete_set. }
    rewrite H1. repeat split.
    + apply table_get_set_eq.
    + intros k' Hk. apply table_get_set_ne. exact Hk.
    + apply length_table_set.
    + exact H2.
    + intros E Hnone. rewrite (H2 E). apply table_delete_missing, Hnone.
Qed.

Lemma sync_registers_stopSync_removes_witness :
  watched 0 (Part000.stopSync 0 "/PHOTOS" 9
               (Part000.sync 0 (Some "Photos") 5 6 Ex.one_watcher))
  = paths (Ex.instance 0 Ex.one_watcher).
Proof.
  refine (proj2 (proj2 (proj2 (proj2 (proj2 (proj1
            (sync_registers_stopSync_removes 0 Ex.one_watcher
               (Ex.instance 0 Ex.one_watcher) "Photos" "/PHOTOS" 5 6 9
               _ _)))))) _ _).
  - vm_compute. reflexivity.
  - discriminate.
  - vm_compute. reflexivity.
  - vm_compute. reflexivity.
Defined.

(** ** The watch: [watchForChanges] and the callback of the long-poll *)

Lemma heap_update_eq (i : ref) (f : Instance -> Instance) (w : World)
  (s : Instance) :
  heap w !! i = Some s -> heap (update i f w) !! i = Some (f s).
Proof.
  intros Hs. unfold update. simpl. rewrite list_lookup_alter_eq, Hs.
  reflexivity.
Qed.

Lemma pullChanges_idem (i : ref) (prev prev' : option PulledChanges)
  (w : World) :
  pullChanges i prev' (pullChanges i prev w) = pullChanges i prev w.
Proof.
  destruct (heap w !! i) as [s|] eqn:Hs; [destruct (pullingChanges s) eqn:Hb|].
  - assert (E : pullChanges i prev w = w)
      by (unfold pullChanges; rewrite Hs, Hb; reflexivity).
    rewrite E. unfold pullChanges. rewrite Hs, Hb. reflexivity.
  - assert (E : pullChanges i prev w
                = start (OpPull i (cursor s)) (KPull i prev)
                    (log (EvFetch i (cursor s))
                       (update i (set_pullingChanges true) w)))
      by (unfold pullChanges; rewrite Hs, Hb; reflexivity).
    rewrite E. unfold pullChanges. simpl.
    rewrite list_lookup_alter_eq, Hs. reflexivity.
  - assert (E : pullChanges i prev w = w)
      by (unfold pullChanges; rewrite Hs; reflexivity).
    rewrite E. unfold pullChanges. rewrite Hs. reflexivity.
Qed.

(** X3. [watchForChanges] and [pullChanges] do their work once: a second
    call of [watchForChanges] on an instance changes nothing (no second
    fetch, no second long-poll), whoever makes it, and so does a call of
    [pullChanges] while the fetch of an earlier call is in flight. *)
Theorem watch_is_armed_once (i : ref) (prev prev' : option PulledChanges)
  (w : World) :
  watchForChanges i (watchForChanges i w) = watchForChanges i w
  /\ pullChanges i prev' (pullChanges i prev w) = pullChanges i prev w.
Proof.
  split; [apply armed_watchForChanges, watchForChanges_armed|].
  apply pullChanges_idem.
Qed.

Lemma polling_update_watching (i : ref) (h : option nat) (w : World)
  (s : Instance) :
  heap w !! i = Some s ->
  polling i (update i (set_watchingForChanges h) w) = h.
Proof.
  intros Hs. unfold polling. rewrite (heap_update_eq i _ w s Hs). reflexivity.
Qed.

Lemma delay_starts (seconds : nat) (i : ref) (w : World) :
  delay seconds i w = start (delay_op seconds) (KDelay i) w.
Proof. destruct seconds; reflexivity. Qed.

(** The callback of a long-poll that the instance still holds and that
    reports no change. *)
Lemma quiet_poll_callback (step : World -> label -> option World)
  (w : World) (n : nat) (i : ref) (h h' : nat) (c0 : PulledChanges)
  (s : Instance) (pr : PollResult) :
  step = Part000.step \/ step = Part001.step ->
  pending w !! n = Some (OpPoll i h c0, KPoll i) ->
  heap w !! i = Some s ->
  watchingForChanges s = Some h' ->
  hasChanges pr = false ->
  step w (LComplete n (RPoll (Done pr)))
  = Some (start (delay_op (retryAfter pr)) (KDelay i)
            (update i (set_watchingForChanges None) (completed n w))).
Proof.
  intros Hstep Hn Hs Hh Hpr.
  assert (E : poll_callback i (Done pr) (completed n w)
              = start (delay_op (retryAfter pr)) (KDelay i)
                  (update i (set_watchingForChanges None) (completed n w))).
  { unfold poll_callback. simpl heap. rewrite Hs, Hh, Hpr. simpl.
    apply delay_starts. }
  destruct Hstep as [-> | ->];
    [change (complete Part000.fire n (RPoll (Done pr)) w = Some
               (start (delay_op (retryAfter pr)) (KDelay i)
                  (update i (set_watchingForChanges None) (completed n w))))
    |change (complete Part001.fire n (RPoll (Done pr)) w = Some
               (start (delay_op (retryAfter pr)) (KDelay i)
                  (update i (set_watchingForChanges None) (completed n w))))];
    unfold complete; rewrite Hn; exact (f_equal Some E).
Qed.

(** The timer of [delay] fires on an instance with a cursor that holds no
    long-poll. *)
Lemma delay_fires (step : World -> label -> option World)
  (w : World) (i : ref) (o : Op) (s : Instance) (c : PulledChanges) :
  step = Part000.step \/ step = Part001.step ->
  o = OpImmediate \/ (exists seconds, o = OpTimer seconds) ->
  heap w !! i = Some s ->
  cursor s = Some c ->
  watchingForChanges s = None ->
  let w1 := start o (KDelay i) w in
  step w1 (LComplete (last_op w1) RFired)
  = Some (update i (set_watchingForChanges (Some (next_handle w)))
            (start (OpPoll i (next_handle w) c) (KPoll i)
               (log (EvPoll i (next_handle w))
                  (set_next_handle (S (next_handle w)) w)))).
Proof.
  intros Hstep Ho Hs Hc Hh w1.
  assert (E : watchForChanges i w
              = update i (set_watchingForChanges (Some (next_handle w)))
                  (start (OpPoll i (next_handle w) c) (KPoll i)
                     (log (EvPoll i (next_handle w))
                        (set_next_handle (S (next_handle w)) w))))
    by (unfold watchForChanges; rewrite Hs, Hc, Hh; reflexivity).
  assert (Hw : set_pending (pending w) w = w) by (destruct w; reflexivity).
  destruct Hstep as [-> | ->];
    (destruct Ho as [-> | [seconds ->]]; simpl; unfold complete, last_op, w1;
     simpl pending; rewrite lookup_last_op, delete_last_started; simpl;
     change (set_pending (pending w) (start _ _ w))
       with (set_pending (pending w) w);
     rewrite Hw, E; reflexivity).
Qed.

(** X4. A long-poll that the instance holds and that reports no change is
    renewed: its callback gives up the handle and sets a timer for the delay
    that the service asked for ([setImmediate] when it asked for none); when
    the timer fires, a new long-poll is made from the stored cursor and its
    handle is kept.  Nothing else is started and the consumer is not
    called. *)
Theorem quiet_poll_is_renewed (step : World -> label -> option World)
  (w : World) (n : nat) (i : ref) (h h' : nat) (c0 c : PulledChanges)
  (s : Instance) (pr : PollResult) :
  step = Part000.step \/ step = Part001.step ->
  pending w !! n = Some (OpPoll i h c0, KPoll i) ->
  heap w !! i = Some s ->
  cursor s = Some c ->
  watchingForChanges s = Some h' ->
  hasChanges pr = false ->
  exists w1 w2,
    step w (LComplete n (RPoll (Done pr))) = Some w1
    /\ pending w1
       = delete n (pending w) ++ [(delay_op (retryAfter pr), KDelay i)]
    /\ polling i w1 = None
    /\ history w1 = history w
    /\ step w1 (LComplete (last_op w1) RFired) = Some w2
    /\ pending w2
       = delete n (pending w) ++ [(OpPoll i (next_handle w) c, KPoll i)]
    /\ polling i w2 = Some (next_handle w)
    /\ stored_cursor i w2 = Some c
    /\ history w2 = history w ++ [EvPoll i (next_handle w)].
Proof.
  intros Hstep Hn Hs Hc Hh Hpr.
  set (w0 := update i (set_watchingForChanges None) (completed n w)).
  assert (Hs0 : heap w0 !! i = Some (set_watchingForChanges None s))
    by (apply (heap_update_eq i _ (completed n w) s Hs)).
  exists (start (delay_op (retryAfter pr)) (KDelay i) w0). eexists.
  split; [exact (quiet_poll_callback step w n i h h' c0 s pr Hstep Hn Hs Hh Hpr)|].
  split; [reflexivity|].
  split; [exact (polling_update_watching i None (completed n w) s Hs)|].
  split; [reflexivity|].
  split.
  { apply (delay_fires step w0 i (delay_op (retryAfter pr))
             (set_watchingForChanges None s) c Hstep); try assumption.
    - destruct (retryAfter pr); [left | right; eexists]; reflexivity.
    - reflexivity. }
  split; [reflexivity|].
  split.
  { unfold polling. simpl heap.
    rewrite !list_lookup_alter_eq, Hs. reflexivity. }
  split.
  { unfold stored_cursor. simpl heap.
    rewrite !list_lookup_alter_eq, Hs. exact Hc. }
  reflexivity.
Qed.

Lemma quiet_poll_is_renewed_witness :
  exists w1 w2,
    Part001.step Ex2.polling_001
      (LComplete 0 (RPoll (Done {| hasChanges := false; retryAfter := 3 |})))
    = Some w1
    /\ Part001.step w1 (LComplete (last_op w1) RFired) = Some w2
    /\ polling 0 w2 = Some 1.
Proof.
  destruct (quiet_poll_is_renewed Part001.step Ex2.polling_001
              0 0 0 0 Ex2.empty_page Ex2.empty_page
              (Ex.instance 0 Ex2.polling_001)
              {| hasChanges := false; retryAfter := 3 |})
    as [w1 [w2 [H1 [_ [_ [_ [H2 [_ [H3 _]]]]]]]]].
  - right. reflexivity.
  - vm_compute. reflexivity.
  - vm_compute. reflexivity.
  - vm_compute. reflexivity.
  - vm_compute. reflexivity.
  - reflexivity.
  - exists w1, w2. auto.
Defined.

Lemma step_poll_callback (step : World -> label -> option World)
  (w : World) (n : nat) (i : ref) (h : nat) (c0 : PulledChanges)
  (r : outcome PollResult) :
  step = Part000.step \/ step = Part001.step ->
  pending w !! n = Some (OpPoll i h c0, KPoll i) ->
  step w (LComplete n (RPoll r)) = Some (poll_callback i r (completed n w)).
Proof.
  intros Hstep Hn.
  destruct Hstep as [-> | ->];
    [change (complete Part000.fire n (RPoll r) w
             = Some (poll_callback i r (completed n w)))
    |change (complete Part001.fire n (RPoll r) w
             = Some (poll_callback i r (completed n w)))];
    unfold complete; rewrite Hn; reflexivity.
Qed.

(** X5. A long-poll that the instance holds and that reports changes: its
    callback gives up the handle and, when no fetch is in flight, fetches
    from the stored cursor, with no batch carried over; when a fetch is in
    flight it starts nothing.  The consumer is not called. *)
Theorem changed_poll_fetches (step : World -> label -> option World)
  (w : World) (n : nat) (i : ref) (h h' : nat) (c0 : PulledChanges)
  (s : Instance) (pr : PollResult) :
  step = Part000.step \/ step = Part001.step ->
  pending w !! n = Some (OpPoll i h c0, KPoll i) ->
  heap w !! i = Some s ->
  watchingForChanges s = Some h' ->
  hasChanges pr = true ->
  exists w1,
    step w (LComplete n (RPoll (Done pr))) = Some w1
    /\ polling i w1 = None
    /\ stored_cursor i w1 = cursor s
    /\ pending w1
       = delete n (pending w)
         ++ (if pullingChanges s then []
             else [(OpPull i (cursor s), KPull i None)])
    /\ history w1
       = history w
         ++ (if pullingChanges s then [] else [EvFetch i (cursor s)]).
Proof.
  intros Hstep Hn Hs Hh Hpr. eexists.
  split; [exact (step_poll_callback step w n i h c0 _ Hstep Hn)|].
  unfold poll_callback. simpl heap. rewrite Hs, Hh, Hpr. simpl negb. cbv iota.
  unfold pullChanges.
  rewrite (heap_update_eq i (set_watchingForChanges None) (completed n w) s Hs).
  simpl pullingChanges. simpl cursor.
  destruct (pullingChanges s).
  - rewrite app_nil_r. unfold polling, stored_cursor.
    rewrite (heap_update_eq i (set_watchingForChanges None) (completed n w) s Hs).
    rewrite app_nil_r. repeat split.
  - unfold polling, stored_cursor, history. simpl.
    rewrite !list_lookup_alter_eq, Hs. repeat split.
Qed.

Lemma changed_poll_fetches_witness :
  exists w1,
    Part001.step Ex2.polling_001
      (LComplete 0 (RPoll (Done {| hasChanges := true; retryAfter := 0 |})))
    = Some w1
    /\ pending w1 = [(OpPull 0 (Some Ex2.empty_page), KPull 0 None)].
Proof.
  destruct (changed_poll_fetches Part001.step Ex2.polling_001
              0 0 0 0 Ex2.empty_page (Ex.instance 0 Ex2.polling_001)
              {| hasChanges := true; retryAfter := 0 |})
    as [w1 [H1 [_ [_ [H2 _]]]]].
  - right. reflexivity.
  - vm_compute. reflexivity.
  - vm_compute. reflexivity.
  - vm_compute. reflexivity.
  - reflexivity.
  - exists w1. split; [exact H1 | exact H2].
Defined.

(** X6. A long-poll that fails: the [onError] of every watched path is
    called with the error, in the order of the table, and nothing else
    happens.  The instance keeps the handle of the long-poll that is over:
    with a cursor stored, a later [watchForChanges] (from [sync], from a
    timer or from a queue that drains) returns at once and makes no
    long-poll. *)
Theorem failed_poll_stops_the_watch (step : World -> label -> option World)
  (w : World) (n : nat) (i : ref) (h h' : nat) (c0 c : PulledChanges)
  (s : Instance) (e : Error) :
  step = Part000.step \/ step = Part001.step ->
  pending w !! n = Some (OpPoll i h c0, KPoll i) ->
  heap w !! i = Some s ->
  cursor s = Some c ->
  watchingForChanges s = Some h' ->
  exists w1,
    step w (LComplete n (RPoll (Failed e))) = Some w1
    /\ history w1
       = history w ++ map (fun ph => EvOnError (h_onError (snd ph)) e) (paths s)
    /\ heap w1 = heap w
    /\ pending w1 = delete n (pending w)
    /\ polling i w1 = Some h'
    /\ watchForChanges i w1 = w1.
Proof.
  intros Hstep Hn Hs Hc Hh. eexists.
  split; [exact (step_poll_callback step w n i h c0 _ Hstep Hn)|].
  unfold poll_callback.
  destruct (errAll_frame i e (completed n w))
    as [Hheap [_ [_ [_ [_ [Hpend _]]]]]].
  split; [exact (errAll_history i e (completed n w) s Hs)|].
  split; [exact Hheap|]. split; [exact Hpend|].
  split; [unfold polling; rewrite Hheap; simpl; rewrite Hs; exact Hh|].
  apply armed_watchForChanges. unfold armed. rewrite Hheap. simpl.
  rewrite Hs, Hc, Hh. discriminate.
Qed.

Lemma failed_poll_stops_the_watch_witness :
  exists w1,
    Part001.step Ex2.polling_001 (LComplete 0 (RPoll (Failed "offline")))
    = Some w1
    /\ history w1 = history Ex2.polling_001 ++ [EvOnError 1 "offline"]
    /\ watchForChanges 0 w1 = w1.
Proof.
  destruct (failed_poll_stops_the_watch Part001.step Ex2.polling_001
              0 0 0 0 Ex2.empty_page Ex2.empty_page
              (Ex.instance 0 Ex2.polling_001) "offline")
    as [w1 [H1 [H2 [_ [_ [_ H3]]]]]].
  - right. reflexivity.
  - vm_compute. reflexivity.
  - vm_compute. reflexivity.
  - vm_compute. reflexivity.
  - vm_compute. reflexivity.
  - exists w1. split; [exact H1|]. split; [exact H2 | exact H3].
Defined.

(** ** [stopSync]: the edges *)

Lemma update_same (i : ref) (f : Instance -> Instance) (w : World)
  (s : Instance) :
  heap w !! i = Some s -> f s = s -> update i f w = w.
Proof.
  intros Hs Hf. unfold update.
  assert (E : alter f i (heap w) = heap w).
  { apply list_eq. intros j. destruct (decide (i = j)) as [<-|Hij].
    - rewrite list_lookup_alter_eq, Hs. simpl. rewrite Hf. reflexivity.
    - rewrite list_lookup_alter_ne by assumption. reflexivity. }
  rewrite E. destruct w; reflexivity.
Qed.

Lemma set_paths_same (s : Instance) : set_paths (paths s) s = s.
Proof. destruct s; reflexivity. Qed.

(** X7. [stopSync] of a path that is not watched, on an instance that
    watches other paths.  In part_000 nothing is touched: the callback is
    called on the next tick.  In part_001 the table is left as it is, but the
    directory of the path under the mirror root is removed and made again all
    the same, and the callback is called after that. *)
Theorem stopSync_of_unwatched_path (i : ref) (p : string) (cb : fn)
  (w : World) (s : Instance) :
  heap w !! i = Some s ->
  paths s <> [] ->
  (table_get (Part000.normalizePath p) (paths s) = None ->
   Part000.stopSync i p cb w = start OpNextTick (KNextTick cb) w)
  /\ (table_get (Part001.normalizePath p) (paths s) = None ->
      Part001.stopSync i p cb w
      = resetDir (Part001.reset_dir w (root s) (Part001.normalizePath p))
          (RUser cb) w).
Proof.
  intros Hs Hne. split; intros Hk.
  - unfold Part000.stopSync. rewrite Hs.
    rewrite (table_delete_missing _ _ Hk).
    rewrite (update_same i _ w s Hs (set_paths_same s)).
    destruct (paths s); [congruence | reflexivity].
  - unfold Part001.stopSync. rewrite Hs.
    rewrite (table_delete_missing _ _ Hk).
    rewrite (update_same i _ w s Hs (set_paths_same s)).
    destruct (paths s); [congruence | reflexivity].
Qed.

Lemma stopSync_of_unwatched_path_witness :
  Part001.stopSync 0 "/" 9 Ex.one_watcher_001
  = resetDir "/w/mirror" (RUser 9) Ex.one_watcher_001.
Proof.
  refine (proj2 (stopSync_of_unwatched_path 0 "/" 9 Ex.one_watcher_001
                   (Ex.instance 0 Ex.one_watcher_001) _ _) _).
  - vm_compute. reflexivity.
  - vm_compute. discriminate.
  - vm_compute. reflexivity.
Defined.

Lemma sync_on_new_001 (i : ref) (p : string) (e c : fn) (w : World)
  (s : Instance) :
  heap w !! i = Some s ->
  cursor s = None ->
  pullingChanges s = false ->
  heap (Part001.sync i p e c w) !! i
  = Some (set_pullingChanges true
            (set_paths
               (table_set (Part001.normalizePath p)
                  {| h_self := i; h_onError := e; h_onChange := c;
                     h_queue := None |} (paths s)) s)).
Proof.
  intros Hs Hc Hb. unfold Part001.sync, Part001.sync_under, watchForChanges, pullChanges.
  rewrite Hs. rewrite !(heap_update_eq i _ w s Hs). simpl cursor.
  rewrite Hc. simpl pullingChanges. rewrite Hb. simpl heap.
  rewrite !list_lookup_alter_eq, Hs. reflexivity.
Qed.

Lemma sync_on_new_000 (i : ref) (p : option string) (e c : fn) (w : World)
  (s : Instance) :
  heap w !! i = Some s ->
  cursor s = None ->
  pullingChanges s = false ->
  heap (Part000.sync i p e c w) !! i
  = Some (set_pullingChanges true
            (set_paths (watched i (Part000.sync i p e c w)) s)).
Proof.
  intros Hs Hc Hb. rewrite (watched_sync_000 i p e c w s Hs).
  unfold Part000.sync, watchForChanges, pullChanges.
  rewrite Hs. simpl heap. rewrite !list_lookup_alter_eq, Hs. simpl.
  rewrite Hc, Hb. simpl. rewrite !list_lookup_alter_eq, Hs. reflexivity.
Qed.

(** X8. [sync] of a path on a new instance (nothing watched, no cursor, no
    fetch and no long-poll), followed at once by [stopSync] of the same path,
    while the first fetch is in flight.  In part_001,
    [this.watchingForChanges.abort()] is called on [null]: the call throws
    after the path was taken out of the table; the directory is not reset and
    the callback is never called.  In part_000 the callback is called on the
    next tick; nothing is reset and the instance stays in the cache.  In
    both the fetch stays in flight. *)
Theorem stopSync_during_first_fetch (i : ref) (p : string) (e c cb : fn)
  (w : World) (s : Instance) :
  heap w !! i = Some s ->
  paths s = [] ->
  cursor s = None ->
  watchingForChanges s = None ->
  pullingChanges s = false ->
  p <> "" ->
  (let w1 := Part001.sync i p e c w in
   Part001.stopSync i p cb w1
   = log (EvThrow "TypeError") (update i (set_paths []) w1)
   /\ pending w1 = pending w ++ [(OpPull i None, KPull i None)])
  /\ (let w1 := Part000.sync i (Some p) e c w in
      Part000.stopSync i p cb w1
      = start OpNextTick (KNextTick cb) (update i (set_paths []) w1)
      /\ In (OpPull i None, KPull i None) (pending w1)).
Proof.
  intros Hs Hp Hc Hh Hb Hne. split.
  - intros w1. subst w1. split.
    + unfold Part001.stopSync.
      rewrite (sync_on_new_001 i p e c w s Hs Hc Hb).
      simpl paths. rewrite Hp. simpl table_set. rewrite table_delete_only.
      simpl watchingForChanges. rewrite Hh. reflexivity.
    + unfold Part001.sync, Part001.sync_under, watchForChanges, pullChanges.
      rewrite Hs. rewrite !(heap_update_eq i _ w s Hs). simpl cursor.
      rewrite Hc. simpl pullingChanges. rewrite Hb. reflexivity.
  - intros w1. subst w1. split.
    + unfold Part000.stopSync.
      rewrite (sync_on_new_000 i (Some p) e c w s Hs Hc Hb).
      simpl paths. rewrite (watched_sync_000 i (Some p) e c w s Hs).
      apply String.eqb_neq in Hne. rewrite Hne, Hp.
      simpl table_set. rewrite table_delete_only.
      simpl watchingForChanges. rewrite Hh. reflexivity.
    + unfold Part000.sync, watchForChanges, pullChanges.
      rewrite Hs. simpl heap. rewrite !list_lookup_alter_eq, Hs. simpl.
      rewrite Hc, Hb. simpl. apply in_or_app. right. left. reflexivity.
Qed.

Lemma stopSync_during_first_fetch_witness :
  Part001.stopSync 0 "/a" 9
    (Part001.sync 0 "/a" 1 2
       (Ex.after Part001.step (boot "/w" Fs.empty) [LNew Ex.cfg "mirror"]))
  = log (EvThrow "TypeError") (update 0 (set_paths []) Ex.one_watcher_001).
Proof.
  refine (proj1 (proj1 (stopSync_during_first_fetch 0 "/a" 1 2 9
            (Ex.after Part001.step (boot "/w" Fs.empty) [LNew Ex.cfg "mirror"])
            (fresh Ex.cfg "mirror") _ _ _ _ _ _))).
  - reflexivity.
  - reflexivity.
  - reflexivity.
  - reflexivity.
  - reflexivity.
  - discriminate.
Defined.

Lemma errAll_no_paths (i : ref) (e : Error) (w : World) :
  watched i w = [] -> errAll i e w = w.
Proof.
  unfold watched, errAll. destruct (heap w !! i); [|reflexivity].
  intros ->. reflexivity.
Qed.

Lemma in_delete_other {A} (l : list A) (n m : nat) (x : A) :
  l !! m = Some x -> m <> n -> In x (delete n l).
Proof.
  intros Hm Hne. apply list_elem_of_In.
  destruct (Nat.lt_ge_cases m n) as [Hlt|Hge].
  - apply (list_elem_of_lookup_2 _ m). rewrite list_lookup_delete_lt by lia.
    exact Hm.
  - apply (list_elem_of_lookup_2 _ (pred m)).
    rewrite list_lookup_delete_ge by lia.
    replace (S (pred m)) with m by lia. exact Hm.
Qed.

(** X9. The callback of a long-poll looks at the instance as it is when
    the long-poll answers, not at the long-poll that answers.  After the
    [stopSync] that removed the last watched path and aborted the long-poll,
    the aborted long-poll is still in flight, and its answer does nothing as
    long as the instance is as [stopSync] left it: an error while no path is
    watched, a result while no long-poll is held.  But once a path is
    registered again and a new long-poll is held, a result of the aborted
    long-poll is taken for the answer of the new one: the instance gives up
    the handle of the new long-poll, which stays in flight. *)
Theorem aborted_poll_until_rearmed (step : World -> label -> option World)
  (w : World) (n : nat) (i : ref) (h : nat) (c0 : PulledChanges)
  (s : Instance) :
  step = Part000.step \/ step = Part001.step ->
  pending w !! n = Some (OpPoll i h c0, KPoll i) ->
  heap w !! i = Some s ->
  (paths s = [] ->
   forall e, step w (LComplete n (RPoll (Failed e))) = Some (completed n w))
  /\ (watchingForChanges s = None ->
      forall pr, step w (LComplete n (RPoll (Done pr))) = Some (completed n w))
  /\ (forall h' pr,
        watchingForChanges s = Some h' ->
        exists w1,
          step w (LComplete n (RPoll (Done pr))) = Some w1
          /\ polling i w1 = None
          /\ forall m o,
              m <> n -> pending w !! m = Some o -> In o (pending w1))
  /\ (forall p cb h',
        watchingForChanges s = Some h' ->
        (table_delete (Part000.normalizePath p) (paths s) = [] ->
         let w1 := Part000.stopSync i p cb w in
         pending w1 !! n = Some (OpPoll i h c0, KPoll i)
         /\ watched i w1 = [] /\ polling i w1 = None)
        /\ (table_delete (Part001.normalizePath p) (paths s) = [] ->
            let w1 := Part001.stopSync i p cb w in
            pending w1 !! n = Some (OpPoll i h c0, KPoll i)
            /\ watched i w1 = [] /\ polling i w1 = None)).
Proof.
  intros Hstep Hn Hs.
  assert (Hc : heap (completed n w) !! i = Some s) by exact Hs.
  split; [|split; [|split]].
  - intros Hp e. rewrite (step_poll_callback step w n i h c0 _ Hstep Hn).
    f_equal. apply errAll_no_paths. unfold watched. rewrite Hc. exact Hp.
  - intros Hh pr. rewrite (step_poll_callback step w n i h c0 _ Hstep Hn).
    f_equal. unfold poll_callback. rewrite Hc, Hh. reflexivity.
  - intros h' pr Hh. rewrite (step_poll_callback step w n i h c0 _ Hstep Hn).
    eexists. split; [reflexivity|].
    unfold poll_callback. rewrite Hc, Hh.
    assert (Hu : heap (update i (set_watchingForChanges None) (completed n w))
                 !! i = Some (set_watchingForChanges None s)).
    { unfold update. simpl. rewrite list_lookup_alter_eq, Hs. reflexivity. }
    destruct (negb (hasChanges pr)).
    + split.
      * unfold delay. destruct (retryAfter pr);
          change (polling i (start _ _ ?x)) with (polling i x);
          unfold polling; rewrite Hu; reflexivity.
      * intros m o Hm Ho. unfold delay. destruct (retryAfter pr); simpl;
          apply in_or_app; left; exact (in_delete_other _ n m o Ho Hm).
    + unfold pullChanges. rewrite Hu. simpl pullingChanges.
      destruct (pullingChanges s).
      * split; [unfold polling; rewrite Hu; reflexivity|].
        intros m o Hm Ho. exact (in_delete_other _ n m o Ho Hm).
      * split.
        -- unfold polling, update. simpl.
           rewrite !list_lookup_alter_eq, Hs. reflexivity.
        -- intros m o Hm Ho. simpl. apply in_or_app. left.
           exact (in_delete_other _ n m o Ho Hm).
  - intros p cb h' Hh. split; intros Hd w1.
    + assert (Hw1 : w1 = resetDir (Part000.reset_dir w (root s)) (RUser cb)
                           (set_cache
                              (delete (Part000.cache_key (client_uid s) (root s))
                                 (cache w))
                              (update i (set_watchingForChanges None)
                                 (log (EvAbort i h')
                                    (update i (set_paths []) w))))).
      { unfold w1, Part000.stopSync. rewrite Hs, Hd, Hh. reflexivity. }
      rewrite Hw1. split; [|split].
      * simpl. apply lookup_app_l_Some. exact Hn.
      * unfold watched. simpl.
        rewrite !list_lookup_alter_eq, Hs. reflexivity.
      * unfold polling. simpl.
        rewrite !list_lookup_alter_eq, Hs. reflexivity.
    + assert (Hw1 : w1 = resetDir
                           (Part001.reset_dir w (root s)
                              (Part001.normalizePath p))
                           (RUser cb)
                           (update i (set_watchingForChanges None)
                              (log (EvAbort i h')
                                 (update i (set_paths []) w)))).
      { unfold w1, Part001.stopSync. rewrite Hs, Hd, Hh. reflexivity. }
      rewrite Hw1. split; [|split].
      * simpl. apply lookup_app_l_Some. exact Hn.
      * unfold watched. simpl.
        rewrite !list_lookup_alter_eq, Hs. reflexivity.
      * unfold polling. simpl.
        rewrite !list_lookup_alter_eq, Hs. reflexivity.
Qed.

Lemma aborted_poll_until_rearmed_witness :
  (Part001.step (Part001.stopSync 0 "/a" 9 Ex2.polling_001)
     (LComplete 0 (RPoll (Failed "gone")))
   = Some (completed 0 (Part001.stopSync 0 "/a" 9 Ex2.polling_001))
   /\ Part001.step (Part001.stopSync 0 "/a" 9 Ex2.polling_001)
        (LComplete 0 (RPoll (Done {| hasChanges := true; retryAfter := 0 |})))
      = Some (completed 0 (Part001.stopSync 0 "/a" 9 Ex2.polling_001)))
  /\ (polling 0 Ex2.rearmed_001 = Some 1
      /\ exists w1,
          Part001.step Ex2.rearmed_001
            (LComplete 0
               (RPoll (Done {| hasChanges := false; retryAfter := 0 |})))
          = Some w1
          /\ polling 0 w1 = None
          /\ In (OpPoll 0 1 Ex2.empty_page, KPoll 0) (pending w1)).
Proof.
  split.
  - pose proof (aborted_poll_until_rearmed Part001.step
                  (Part001.stopSync 0 "/a" 9 Ex2.polling_001) 0 0 0
                  Ex2.empty_page
                  (Ex.instance 0 (Part001.stopSync 0 "/a" 9 Ex2.polling_001))
                  (or_intror eq_refl)
                  ltac:(vm_compute; reflexivity)
                  ltac:(vm_compute; reflexivity)) as [H1 [H2 _]].
    split; [apply H1 | apply H2]; vm_compute; reflexivity.
  - split; [vm_compute; reflexivity|].
    destruct (proj1 (proj2 (proj2
                (aborted_poll_until_rearmed Part001.step Ex2.rearmed_001
                   0 0 0 Ex2.empty_page (Ex.instance 0 Ex2.rearmed_001)
                   (or_intror eq_refl)
                   ltac:(vm_compute; reflexivity)
                   ltac:(vm_compute; reflexivity))))
                1 {| hasChanges := false; retryAfter := 0 |}
                ltac:(vm_compute; reflexivity))
      as [w1 [E [Hp Hin]]].
    exists w1. split; [exact E|]. split; [exact Hp|].
    apply (Hin 2); [discriminate | vm_compute; reflexivity].
Defined.

(** ** A batch with no entry under a watched path *)

Lemma filter_none {A} (f : A -> bool) (l : list A) :
  (forall x, In x l -> f x = false) -> List.filter f l = [].
Proof.
  induction l as [|x l IH]; intros H; simpl; [reflexivity|].
  rewrite (H x (or_introl eq_refl)). apply IH.
  intros y Hy. apply H. right. exact Hy.
Qed.

Lemma unrouted_changedPaths (ps : list (string * Handler))
  (batch : PulledChanges) (ph : string * Handler) :
  unrouted ps batch -> In ph ps -> Part000.changedPaths (fst ph) batch = [].
Proof.
  intros H Hin. unfold Part000.changedPaths.
  rewrite filter_none; [reflexivity|]. intros c Hc. exact (H ph c Hin Hc).
Qed.

Lemma unrouted_filtered (ps : list (string * Handler))
  (batch : PulledChanges) (ph : string * Handler) :
  unrouted ps batch -> In ph ps -> Part001.filtered (fst ph) batch = [].
Proof.
  intros H Hin. unfold Part001.filtered.
  apply filter_none. intros c Hc. exact (H ph c Hin Hc).
Qed.

Lemma handler_000_no_changes (h : Handler) (w : World) :
  Part000.handler h None [] w = w.
Proof. reflexivity. Qed.

Lemma dispatch_unrouted (ctx : CommitCtx) (w : World) (s : Instance) :
  heap w !! cc_self ctx = Some s ->
  unrouted (paths s) (cc_batch ctx) ->
  Part000.dispatch ctx None w = w.
Proof.
  intros Hs Hu. rewrite (dispatch_calls_each_closure ctx w s Hs).
  clear Hs. revert Hu. generalize (paths s) as ps.
  induction ps as [|ph ps IH]; intros Hu; cbn [foldl]; [reflexivity|].
  rewrite (unrouted_changedPaths (ph :: ps) _ ph Hu (or_introl eq_refl)).
  rewrite handler_000_no_changes. apply IH.
  intros ph' c Hin Hc. apply (Hu ph' c); [right|]; assumption.
Qed.

Lemma step_pull_callback_000 (w : World) (n : nat) (i : ref)
  (c prev : option PulledChanges) (r : outcome PulledChanges) :
  pending w !! n = Some (OpPull i c, KPull i prev) ->
  Part000.step w (LComplete n (RPull r))
  = Some (Part000.pull_callback i prev r (completed n w)).
Proof.
  intros Hn. change (complete Part000.fire n (RPull r) w
                     = Some (Part000.pull_callback i prev r (completed n w))).
  unfold complete. rewrite Hn. reflexivity.
Qed.

Lemma step_pull_callback_001 (w : World) (n : nat) (i : ref)
  (c prev : option PulledChanges) (r : outcome PulledChanges) :
  pending w !! n = Some (OpPull i c, KPull i prev) ->
  Part001.step w (LComplete n (RPull r))
  = Some (Part001.pull_callback i prev r (completed n w)).
Proof.
  intros Hn. change (complete Part001.fire n (RPull r) w
                     = Some (Part001.pull_callback i prev r (completed n w))).
  unfold complete. rewrite Hn. reflexivity.
Qed.

(** X10. part_000, a complete batch that brings nothing to the watched
    paths.  The callback that [pullChanges] gives to [commitChanges] calls
    the closure of every watched path with an empty list, which does nothing:
    the world is left as it is, and in particular [watchForChanges] is not
    called.  So when the last page of a batch with no entry (and no blank
    slate) comes, the page becomes the cursor, the commit is recorded, and
    nothing is started: no long-poll, no fetch, no timer; the consumer is not
    called. *)
Theorem unrouted_batch_is_not_followed_000 (w : World) (n : nat) (i : ref)
  (c prev : option PulledChanges) (page : PulledChanges) (s : Instance) :
  pending w !! n = Some (OpPull i c, KPull i prev) ->
  heap w !! i = Some s ->
  shouldPullAgain page = false ->
  changes (accumulate prev page) = [] ->
  blankSlate (accumulate prev page) = false ->
  (forall ctx w0 s0,
      heap w0 !! cc_self ctx = Some s0 ->
      unrouted (paths s0) (cc_batch ctx) ->
      Part000.dispatch ctx None w0 = w0)
  /\ exists w1,
      Part000.step w (LComplete n (RPull (Done page))) = Some w1
      /\ w1 = log (EvCommit (commit_of i (accumulate prev page)))
                (page_taken n i page w)
      /\ pending w1 = delete n (pending w)
      /\ polling i w1 = watchingForChanges s
      /\ stored_cursor i w1 = Some page.
Proof.
  intros Hn Hs Hlast Hcs Hb. split; [exact dispatch_unrouted|].
  assert (Hs1 : heap (page_taken n i page w) !! i
                = Some (set_pullingChanges false (set_cursor (Some page) s)))
    by (apply lookup_page_taken; exact Hs).
  eexists. split; [exact (step_pull_callback_000 w n i c prev _ Hn)|].
  assert (E : Part000.pull_callback i prev (Done page) (completed n w)
              = log (EvCommit (commit_of i (accumulate prev page)))
                  (page_taken n i page w)).
  { unfold Part000.pull_callback. rewrite Hlast.
    fold (page_taken n i page w).
    unfold Part000.commitChanges, Engine.commitChanges. simpl cc_batch.
    rewrite Hb. unfold each_changes. simpl cc_batch. rewrite Hcs.
    apply (dispatch_unrouted (commit_of i (accumulate prev page))
             (log _ (page_taken n i page w))
             (set_pullingChanges false (set_cursor (Some page) s)) Hs1).
    intros ph ch _ Hc. simpl in Hc. rewrite Hcs in Hc. destruct Hc. }
  rewrite E. split; [reflexivity|]. split; [reflexivity|].
  unfold polling, stored_cursor. simpl heap.
  change (heap (page_taken n i page w) !! i) with
    (heap (log (EvCommit (commit_of i (accumulate prev page)))
             (page_taken n i page w)) !! i) in Hs1.
  simpl heap in Hs1. rewrite Hs1. split; reflexivity.
Qed.

Lemma unrouted_batch_is_not_followed_000_witness :
  exists w1,
    Part000.step Ex.one_watcher (LComplete 1 (RPull (Done Ex2.empty_page)))
    = Some w1
    /\ pending w1 = delete 1 (pending Ex.one_watcher)
    /\ polling 0 w1 = None.
Proof.
  destruct (unrouted_batch_is_not_followed_000 Ex.one_watcher 1 0 None None
              Ex2.empty_page (Ex.instance 0 Ex.one_watcher))
    as [_ [w1 [H1 [_ [H2 [H3 _]]]]]].
  - vm_compute. reflexivity.
  - vm_compute. reflexivity.
  - reflexivity.
  - reflexivity.
  - reflexivity.
  - exists w1. split; [exact H1|]. split; [exact H2 | exact H3].
Defined.

Lemma filter_and_commit_unrouted (i : ref) (batch : PulledChanges)
  (ps : list (string * Handler)) (w : World) (acc : list string) :
  unrouted ps batch ->
  foldl (Part001.filter_and_commit i batch) (w, acc) ps = (w, acc).
Proof.
  induction ps as [|[p h] ps IH]; intros Hu; cbn [foldl]; [reflexivity|].
  rewrite filter_and_commit_cases.
  pose proof (unrouted_filtered ((p, h) :: ps) batch (p, h) Hu
                (or_introl eq_refl)) as E.
  simpl in E. rewrite E. apply IH. intros ph' c Hin Hc. apply (Hu ph' c); [right|]; assumption.
Qed.

(** X11. part_001, a complete batch that brings nothing to the watched
    paths: nothing is committed, and the watch is resumed at once.  When the
    last page of such a batch comes while no long-poll is held, the page
    becomes the cursor and a long-poll is made from it; the consumer is not
    called. *)
Theorem unrouted_batch_resumes_the_watch_001 (w : World) (n : nat) (i : ref)
  (c prev : option PulledChanges) (page : PulledChanges) (s : Instance) :
  pending w !! n = Some (OpPull i c, KPull i prev) ->
  heap w !! i = Some s ->
  shouldPullAgain page = false ->
  unrouted (paths s) (accumulate prev page) ->
  watchingForChanges s = None ->
  exists w1,
    Part001.step w (LComplete n (RPull (Done page))) = Some w1
    /\ w1 = watchForChanges i (page_taken n i page w)
    /\ pending w1
       = delete n (pending w) ++ [(OpPoll i (next_handle w) page, KPoll i)]
    /\ polling i w1 = Some (next_handle w)
    /\ stored_cursor i w1 = Some page
    /\ history w1 = history w ++ [EvPoll i (next_handle w)].
Proof.
  intros Hn Hs Hlast Hu Hh.
  assert (Hs1 : heap (page_taken n i page w) !! i
                = Some (set_pullingChanges false (set_cursor (Some page) s)))
    by (apply lookup_page_taken; exact Hs).
  eexists. split; [exact (step_pull_callback_001 w n i c prev _ Hn)|].
  assert (E : Part001.pull_callback i prev (Done page) (completed n w)
              = watchForChanges i (page_taken n i page w)).
  { unfold Part001.pull_callback. rewrite Hlast.
    change (update i (set_pullingChanges false)
              (update i (set_cursor (Some page)) (completed n w)))
      with (page_taken n i page w).
    unfold Part001.filter_dispatch. rewrite Hs1. simpl paths.
    rewrite (filter_and_commit_unrouted i _ (paths s) _ [] Hu). reflexivity. }
  rewrite E. split; [reflexivity|].
  unfold watchForChanges. rewrite Hs1. simpl cursor.
  simpl watchingForChanges. rewrite Hh.
  unfold polling, stored_cursor, history. simpl.
  rewrite !list_lookup_alter_eq, Hs. repeat split.
Qed.

Lemma unrouted_batch_resumes_the_watch_001_witness :
  exists w1,
    Part001.step Ex.one_watcher_001
      (LComplete 0 (RPull (Done (Ex.page [Ex.file_entry "/b/x"] false false "c1"))))
    = Some w1
    /\ pending w1
       = [(OpPoll 0 0 (Ex.page [Ex.file_entry "/b/x"] false false "c1"),
           KPoll 0)].
Proof.
  destruct (unrouted_batch_resumes_the_watch_001 Ex.one_watcher_001 0 0
              None None (Ex.page [Ex.file_entry "/b/x"] false false "c1")
              (Ex.instance 0 Ex.one_watcher_001))
    as [w1 [H1 [_ [H2 _]]]].
  - vm_compute. reflexivity.
  - vm_compute. reflexivity.
  - reflexivity.
  - intros ph ch Hph Hch. vm_compute in Hph. vm_compute in Hch.
    destruct Hph as [<-|[]]. destruct Hch as [<-|[]]. reflexivity.
  - vm_compute. reflexivity.
  - exists w1. split; [exact H1 | exact H2].
Defined.

(** ** The local state that [sync] reports (part_000, [getLocalState]) *)

Lemma queues_pullChanges (i : ref) (prev : option PulledChanges) (w : World) :
  queues (pullChanges i prev w) = queues w.
Proof.
  unfold pullChanges. destruct (heap w !! i); [|reflexivity].
  destruct (pullingChanges _); reflexivity.
Qed.

Lemma queues_watchForChanges (i : ref) (w : World) :
  queues (watchForChanges i w) = queues w.
Proof.
  unfold watchForChanges. destruct (heap w !! i) as [s|]; [|reflexivity].
  destruct (cursor s); [|apply queues_pullChanges].
  destruct (watchingForChanges s); reflexivity.
Qed.

Lemma root_of_update (i j : ref) (f : Instance -> Instance) (w : World) :
  (forall s, root (f s) = root s) ->
  root_of j (update i f w) = root_of j w.
Proof.
  intros Hf. unfold root_of, update. simpl.
  destruct (decide (i = j)) as [->|Hij].
  - rewrite list_lookup_alter_eq. destruct (heap w !! j); simpl; auto.
  - rewrite list_lookup_alter_ne by assumption. reflexivity.
Qed.

Lemma root_of_pullChanges (i j : ref) (prev : option PulledChanges) (w : World) :
  root_of j (pullChanges i prev w) = root_of j w.
Proof.
  unfold pullChanges. destruct (heap w !! i); [|reflexivity].
  destruct (pullingChanges _); [reflexivity|].
  apply (root_of_update i j (set_pullingChanges true) w). reflexivity.
Qed.

Lemma root_of_watchForChanges (i j : ref) (w : World) :
  root_of j (watchForChanges i w) = root_of j w.
Proof.
  unfold watchForChanges. destruct (heap w !! i) as [s|]; [|reflexivity].
  destruct (cursor s); [|apply root_of_pullChanges].
  destruct (watchingForChanges s); [reflexivity|].
  rewrite (root_of_update i j (set_watchingForChanges _)) by reflexivity.
  reflexivity.
Qed.

Lemma alter_last {A} (f : A -> A) (l : list A) (x : A) :
  alter f (length l) (l ++ [x]) = l ++ [f x].
Proof. induction l as [|a l IH]; simpl; [reflexivity|]. f_equal. exact IH. Qed.

Lemma insert_last {A} (l : list A) (x y : A) :
  <[length l := y]> (l ++ [x]) = l ++ [y].
Proof. induction l as [|a l IH]; simpl; [reflexivity|]. f_equal. exact IH. Qed.

Lemma step_local_state (w : World) (n : nat) (d : string) (h : Handler)
  (r : outcome (list string)) :
  pending w !! n = Some (OpReaddir d, KLocalState h) ->
  Part000.step w (LComplete n (RReaddir r))
  = Some (Part000.local_state_callback h r (completed n w)).
Proof.
  intros Hn.
  change (complete Part000.fire n (RReaddir r) w
          = Some (Part000.local_state_callback h r (completed n w))).
  unfold complete. rewrite Hn. reflexivity.
Qed.

Lemma step_queue_process (w : World) (n q : nat) :
  pending w !! n = Some (OpImmediate, KQueueProcess q) ->
  Part000.step w (LComplete n RFired)
  = Some (Part000.queue_process q (completed n w)).
Proof.
  intros Hn.
  change (complete Part000.fire n RFired w
          = Some (Part000.queue_process q (completed n w))).
  unfold complete. rewrite Hn. reflexivity.
Qed.

(** The listing that [sync] asked for is in flight and the queue of the
    registration is idle; the listing is not empty. *)
Lemma local_state_listed (w : World) (n q : nat) (d : string) (i : ref)
  (e c : fn) (ps : list string) :
  let h := {| h_self := i; h_onError := e; h_onChange := c;
              h_queue := Some q |} in
  let task := map (toLocalPath (root_of i w)) ps in
  pending w !! n = Some (OpReaddir d, KLocalState h) ->
  queues w !! q = Some {| q_self := i; q_worker := c; q_tasks := [];
                          q_workers := 0 |} ->
  ps <> [] ->
  exists w2 w3,
    Part000.step w (LComplete n (RReaddir (Done ps))) = Some w2
    /\ pending w2 = delete n (pending w) ++ [(OpImmediate, KQueueProcess q)]
    /\ history w2 = history w
    /\ Part000.step w2 (LComplete (last_op w2) RFired) = Some w3
    /\ pending w3 = delete n (pending w) ++ [(OpConsumer c task, KWorkerDone q)]
    /\ history w3 = history w ++ [EvOnChange c task].
Proof.
  intros h task Hn Hq Hps.
  set (w2 := Part000.queue_push q task (completed n w)).
  assert (H2 : pending w2 !! last_op w2 = Some (OpImmediate, KQueueProcess q))
    by (unfold w2, last_op, Part000.queue_push; simpl pending;
        apply lookup_last_op).
  assert (H3 : Part000.queue_process q (completed (last_op w2) w2)
               = start (OpConsumer c task) (KWorkerDone q)
                   (log (EvOnChange c task)
                      (set_queues
                         (<[q := {| q_self := i; q_worker := c; q_tasks := [];
                                    q_workers := 1 |}]>
                            (queues w2)) (completed (last_op w2) w2)))).
  { unfold Part000.queue_process.
    assert (Hq2 : queues (completed (last_op w2) w2) !! q
                  = Some {| q_self := i; q_worker := c; q_tasks := [task];
                            q_workers := 0 |}).
    { unfold w2, Part000.queue_push. simpl queues.
      rewrite list_lookup_alter_eq, Hq. reflexivity. }
    rewrite Hq2. reflexivity. }
  exists w2, (Part000.queue_process q (completed (last_op w2) w2)).
  split.
  { rewrite (step_local_state w n d h _ Hn). f_equal.
    unfold Part000.local_state_callback, Part000.handler. simpl.
    destruct ps as [|x ps]; [congruence|]. reflexivity. }
  split; [reflexivity|]. split; [reflexivity|].
  split; [exact (step_queue_process w2 _ q H2)|].
  rewrite H3. split.
  - unfold w2, last_op, Part000.queue_push. simpl pending.
    rewrite delete_last_started. reflexivity.
  - reflexivity.
Qed.

(** X12. part_000: what [sync] reports of the local state.  [sync] asks for
    the listing of the directory of the path under the mirror root
    ([getLocalState]).  A directory that does not exist is not an error and
    an empty listing is not a change: the consumer is not called.  Another
    error goes to the [onError] of the registration, and to no other.  A
    listing that is not empty is put in the queue of the registration, and
    on the next turn [onChange] is called with it: with every path of the
    listing put through [toLocalPath] (joined to the mirror root), as the
    paths of a batch are. *)
Theorem local_state_is_reported (i : ref) (p : option string) (e c : fn)
  (w : World) (s : Instance) :
  heap w !! i = Some s ->
  let w1 := Part000.sync i p e c w in
  let n := length (pending w) in
  let q := length (queues w) in
  let k := Part000.normalizePath
             (match p with
              | Some x => if String.eqb x "" then "/" else x
              | None => "/"
              end) in
  let h := {| h_self := i; h_onError := e; h_onChange := c;
              h_queue := Some q |} in
  pending w1 !! n = Some (OpReaddir (toLocalPath (root s) k), KLocalState h)
  /\ Part000.step w1 (LComplete n (RReaddir (Failed "ENOENT")))
     = Some (completed n w1)
  /\ Part000.step w1 (LComplete n (RReaddir (Done []))) = Some (completed n w1)
  /\ (forall code, code <> "ENOENT" ->
        Part000.step w1 (LComplete n (RReaddir (Failed code)))
        = Some (log (EvOnError e code) (completed n w1)))
  /\ (forall ps, ps <> [] ->
        let task := map (toLocalPath (root s)) ps in
        exists w2 w3,
          Part000.step w1 (LComplete n (RReaddir (Done ps))) = Some w2
          /\ pending w2
             = delete n (pending w1) ++ [(OpImmediate, KQueueProcess q)]
          /\ history w2 = history w1
          /\ Part000.step w2 (LComplete (last_op w2) RFired) = Some w3
          /\ pending w3
             = delete n (pending w1) ++ [(OpConsumer c task, KWorkerDone q)]
          /\ history w3 = history w1 ++ [EvOnChange c task]).
Proof.
  intros Hs w1 n q k h.
  set (w0 := start (OpReaddir (toLocalPath (root s) k)) (KLocalState h)
               (update i (set_paths (table_set k h (paths s)))
                  (set_queues
                     (queues w ++ [{| q_self := i; q_worker := c;
                                      q_tasks := []; q_workers := 0 |}]) w))).
  assert (Hw1 : w1 = watchForChanges i w0)
    by (unfold w1, Part000.sync; rewrite Hs; reflexivity).
  assert (Hn : pending w1 !! n
               = Some (OpReaddir (toLocalPath (root s) k), KLocalState h)).
  { destruct (keep_watchForChanges (P := in_flight (pending w0)) i w0
                (in_flight_refl w0)) as [later E].
    rewrite Hw1, E. apply lookup_app_l_Some.
    unfold w0. simpl pending. apply list_lookup_middle. reflexivity. }
  assert (Hq : queues w1 !! q
               = Some {| q_self := i; q_worker := c; q_tasks := [];
                         q_workers := 0 |}).
  { rewrite Hw1, queues_watchForChanges. unfold w0. simpl queues.
    apply list_lookup_middle. reflexivity. }
  assert (Hr : root_of i w1 = root s).
  { rewrite Hw1, root_of_watchForChanges. unfold w0, root_of. simpl heap.
    rewrite list_lookup_alter_eq, Hs. reflexivity. }
  split; [exact Hn|].
  split; [exact (step_local_state w1 n _ h _ Hn)|].
  split; [exact (step_local_state w1 n _ h _ Hn)|].
  split.
  - intros code Hcode. rewrite (step_local_state w1 n _ h _ Hn).
    unfold Part000.local_state_callback.
    apply String.eqb_neq in Hcode. rewrite Hcode. reflexivity.
  - intros ps Hps task. unfold task. rewrite <- Hr.
    exact (local_state_listed w1 n q _ i e c ps Hn Hq Hps).
Qed.

Lemma local_state_is_reported_witness :
  exists w2 w3,
    Part000.step Ex.one_watcher
      (LComplete 0 (RReaddir (Done ["mirror/a/old"]))) = Some w2
    /\ Part000.step w2 (LComplete (last_op w2) RFired) = Some w3
    /\ history w3
       = history Ex.one_watcher ++ [EvOnChange 2 ["mirror/mirror/a/old"]].
Proof.
  destruct (local_state_is_reported 0 (Some "/a") 1 2
              (Ex.after Part000.step (boot "/w" Fs.empty) [LNew Ex.cfg "mirror"])
              (fresh Ex.cfg "mirror") eq_refl)
    as [_ [_ [_ [_ H]]]].
  destruct (H ["mirror/a/old"]) as [w2 [w3 [H1 [_ [_ [H2 [_ H3]]]]]]];
    [discriminate|].
  exists w2, w3. split; [exact H1|]. split; [exact H2 | exact H3].
Defined.

(** ** A file entry ([_replaceLocalWithFile]) *)

Lemma fire_par_local (final : CommitCtx -> option Error -> World -> World)
  (p : nat) (r : Fs.result) (w : World) :
  fire_commit final (KParLocal p) (AFs r) w
  = Some (parallel_done final p (err_of r) None w).
Proof. reflexivity. Qed.

Lemma fire_par_dropbox_done (final : CommitCtx -> option Error -> World -> World)
  (p : nat) (b : string) (w : World) :
  fire_commit final (KParDropbox p) (AFile (Done b)) w
  = Some (parallel_done final p None (Some b) w).
Proof. reflexivity. Qed.

Lemma fire_par_dropbox_failed
  (final : CommitCtx -> option Error -> World -> World)
  (p : nat) (e : Error) (w : World) :
  fire_commit final (KParDropbox p) (AFile (Failed e)) w
  = Some (parallel_done final p (Some e) None w).
Proof. reflexivity. Qed.

Lemma parallels_insert_lookup (p : nat) (x s0 : ParJoin) (w : World) :
  parallels w !! p = Some s0 ->
  parallels (set_parallels (<[p := x]> (parallels w)) w) !! p = Some x.
Proof.
  intros Hp. simpl. apply list_lookup_insert_eq.
  apply lookup_lt_Some in Hp. exact Hp.
Qed.

(** The two tasks of the [async.parallel] called back without error, in one
    order or the other. *)
Lemma parallel_both_done (final : CommitCtx -> option Error -> World -> World)
  (p : nat) (b : string) (w : World) (s0 : ParJoin) :
  parallels w !! p = Some s0 ->
  p_completed s0 = 0 ->
  p_fired s0 = false ->
  let w' :=
    fs_call (Fs.OutputFile (p_localPath s0) b) (KEntry (p_each s0) (p_change s0))
      (set_parallels
         (<[p := {| p_localPath := p_localPath s0; p_each := p_each s0;
                    p_change := p_change s0; p_completed := 2;
                    p_fired := false; p_dropbox := Some b |}]> (parallels w))
         w) in
  parallel_done final p None (Some b) (parallel_done final p None None w) = w'
  /\ parallel_done final p None None (parallel_done final p None (Some b) w)
     = w'.
Proof.
  intros Hp Hc Hf w'. split.
  - unfold parallel_done at 2. rewrite Hp, Hc, Hf. simpl.
    unfold parallel_done.
    rewrite (parallels_insert_lookup p _ s0 w Hp). simpl.
    unfold w'. simpl. rewrite list_insert_insert_eq. reflexivity.
  - unfold parallel_done at 2. rewrite Hp, Hc, Hf. simpl.
    unfold parallel_done.
    rewrite (parallels_insert_lookup p _ s0 w Hp). simpl.
    unfold w'. simpl. rewrite list_insert_insert_eq. reflexivity.
Qed.

Lemma parallels_final_error (final : CommitCtx -> option Error -> World -> World)
  (ctx : CommitCtx) (e : Error) (w : World) :
  final = Part000.dispatch \/ final = Part001.committed ->
  parallels (final ctx (Some e) w) = parallels w.
Proof.
  intros [-> | ->].
  - simpl. destruct (errAll_frame (cc_self ctx) e w) as [_ [_ [_ [_ [H _]]]]].
    exact H.
  - unfold Part001.committed. destruct (cc_callback ctx); reflexivity.
Qed.

Lemma parallels_entry_failed
  (final : CommitCtx -> option Error -> World -> World)
  (j : nat) (c : Change) (e : Error) (w : World) :
  final = Part000.dispatch \/ final = Part001.committed ->
  parallels (entry_callback final j c (Some e) w) = parallels w.
Proof.
  intros Hf. unfold entry_callback, each_done. simpl eaches.
  destruct (eaches w !! j) as [x|]; [|reflexivity].
  destruct (e_fired x); [reflexivity|].
  rewrite (parallels_final_error final _ e _ Hf). reflexivity.
Qed.

(** After the [async.parallel] called back with an error, a task that
    calls back starts nothing and calls nothing. *)
Lemma parallel_done_after_failure
  (final : CommitCtx -> option Error -> World -> World)
  (p : nat) (err : option Error) (buffer : option string) (w : World)
  (s1 : ParJoin) :
  parallels w !! p = Some s1 ->
  p_fired s1 = true ->
  let w2 := parallel_done final p err buffer w in
  pending w2 = pending w /\ history w2 = history w /\ fs w2 = fs w.
Proof.
  intros Hp Hf w2. unfold w2, parallel_done. rewrite Hp, Hf.
  destruct err; [repeat split|].
  rewrite andb_false_r. repeat split.
Qed.

(** X13. The join of [_replaceLocalWithFile].  The removal of what is at
    the local path and the download run side by side.  When both call back
    without error, in one order or the other, the file is written once,
    after the second of them, with what was downloaded; the first to call
    back starts nothing.  When one of them calls back with an error first,
    the callback of the entry is called with this error, and when the other
    one calls back, with an error or not, nothing is written and nothing is
    called: a download that fails never writes, though the removal takes
    place. *)
Theorem file_entry_is_written_after_both_tasks (p : nat) (w : World)
  (s0 : ParJoin) :
  parallels w !! p = Some s0 ->
  p_completed s0 = 0 ->
  p_fired s0 = false ->
  let joined b :=
    fs_call (Fs.OutputFile (p_localPath s0) b) (KEntry (p_each s0) (p_change s0))
      (set_parallels
         (<[p := {| p_localPath := p_localPath s0; p_each := p_each s0;
                    p_change := p_change s0; p_completed := 2;
                    p_fired := false; p_dropbox := Some b |}]> (parallels w))
         w) in
  let failed :=
    set_parallels
      (<[p := {| p_localPath := p_localPath s0; p_each := p_each s0;
                 p_change := p_change s0; p_completed := 0;
                 p_fired := true; p_dropbox := p_dropbox s0 |}]> (parallels w))
      w in
  (forall final b,
      (fire_commit final (KParLocal p) (AFs Fs.Ok) w
         ≫= fire_commit final (KParDropbox p) (AFile (Done b)))
      = Some (joined b)
      /\ (fire_commit final (KParDropbox p) (AFile (Done b)) w
            ≫= fire_commit final (KParLocal p) (AFs Fs.Ok))
         = Some (joined b)
      /\ (forall w1,
             fire_commit final (KParLocal p) (AFs Fs.Ok) w = Some w1
             \/ fire_commit final (KParDropbox p) (AFile (Done b)) w = Some w1 ->
             pending w1 = pending w /\ history w1 = history w))
  /\ (forall final e,
        final = Part000.dispatch \/ final = Part001.committed ->
        let w1 := entry_callback final (p_each s0) (p_change s0) (Some e)
                    failed in
        fire_commit final (KParDropbox p) (AFile (Failed e)) w = Some w1
        /\ fire_commit final (KParLocal p) (AFs (Fs.Err e)) w = Some w1
        /\ (forall r w2,
               fire_commit final (KParLocal p) (AFs r) w1 = Some w2 ->
               pending w2 = pending w1 /\ history w2 = history w1
               /\ fs w2 = fs w1)
        /\ (forall r w2,
               fire_commit final (KParDropbox p) (AFile r) w1 = Some w2 ->
               pending w2 = pending w1 /\ history w2 = history w1
               /\ fs w2 = fs w1)).
Proof.
  intros Hp Hc Hf joined failed. split.
  - intros final b.
    destruct (parallel_both_done final p b w s0 Hp Hc Hf) as [H1 H2].
    split; [|split].
    + rewrite fire_par_local. cbn [mbind option_bind].
      rewrite fire_par_dropbox_done. f_equal. exact H1.
    + rewrite fire_par_dropbox_done. cbn [mbind option_bind].
      rewrite fire_par_local. f_equal. exact H2.
    + intros w1 [E|E].
      * rewrite fire_par_local in E. injection E as <-.
        unfold parallel_done. rewrite Hp, Hc, Hf. simpl. split; reflexivity.
      * rewrite fire_par_dropbox_done in E. injection E as <-.
        unfold parallel_done. rewrite Hp, Hc, Hf. simpl. split; reflexivity.
  - intros final e Hfinal w1.
    assert (H1 : parallel_done final p (Some e) None w = w1).
    { unfold parallel_done. rewrite Hp, Hf, Hc.
      destruct s0; simpl in *; subst. reflexivity. }
    assert (Hp1 : parallels w1 !! p
                  = Some {| p_localPath := p_localPath s0; p_each := p_each s0;
                            p_change := p_change s0; p_completed := 0;
                            p_fired := true; p_dropbox := p_dropbox s0 |}).
    { unfold w1. rewrite (parallels_entry_failed final _ _ e _ Hfinal).
      apply (parallels_insert_lookup p _ s0 w Hp). }
    split; [rewrite fire_par_dropbox_failed, H1; reflexivity|].
    split; [rewrite fire_par_local; simpl; rewrite H1; reflexivity|].
    split.
    + intros r w2 E. rewrite fire_par_local in E. injection E as <-.
      exact (parallel_done_after_failure final p _ _ w1 _ Hp1 eq_refl).
    + intros r w2 E. destruct r as [e'|b].
      * rewrite fire_par_dropbox_failed in E. injection E as <-.
        exact (parallel_done_after_failure final p _ _ w1 _ Hp1 eq_refl).
      * rewrite fire_par_dropbox_done in E. injection E as <-.
        exact (parallel_done_after_failure final p _ _ w1 _ Hp1 eq_refl).
Qed.

Lemma file_entry_is_written_after_both_tasks_witness :
  (fire_commit Part000.dispatch (KParLocal 0) (AFs Fs.Ok) Ex2.file_arriving
     ≫= fire_commit Part000.dispatch (KParDropbox 0) (AFile (Done "data")))
  = (fire_commit Part000.dispatch (KParDropbox 0) (AFile (Done "data"))
       Ex2.file_arriving
       ≫= fire_commit Part000.dispatch (KParLocal 0) (AFs Fs.Ok))
  /\ fs_calls (history Ex2.file_arriving) = [Fs.Remove "mirror/a/x"].
Proof.
  destruct (file_entry_is_written_after_both_tasks 0 Ex2.file_arriving
              (Ex2.join 0 Ex2.file_arriving))
    as [A _].
  - vm_compute. reflexivity.
  - reflexivity.
  - reflexivity.
  - destruct (A Part000.dispatch "data") as [E1 [E2 _]].
    rewrite E1, E2. split; [reflexivity | vm_compute; reflexivity].
Defined.

(** ** From a path of the remote tree to a local path ([toLocalPath]) *)

Lemma append_nil_r (s : string) : s +:+ "" = s.
Proof.
  induction s as [|c s IH]; [reflexivity|].
  change (String c (s +:+ "") = String c s). f_equal. exact IH.
Qed.

Lemma append_cons (c : ascii) (a b : string) :
  String c a +:+ b = String c (a +:+ b).
Proof. reflexivity. Qed.

Lemma append_empty (a b : string) : a +:+ b = "" -> a = "" /\ b = "".
Proof. destruct a; [intros H; split; [reflexivity | exact H] | discriminate]. Qed.

Lemma no_slash_snoc (s : string) (c : ascii) :
  no_slash s = true -> Ascii.eqb c "/" = false ->
  no_slash (s +:+ String c "") = true.
Proof.
  intros Hs Hc. induction s as [|a s IH].
  - simpl. change ("" +:+ String c "") with (String c ""). simpl.
    rewrite Hc. reflexivity.
  - rewrite append_cons. simpl in *. apply andb_prop in Hs as [Ha Hs].
    rewrite Ha, (IH Hs). reflexivity.
Qed.

Lemma segments_aux_cons (c : ascii) (s cur : string) :
  Path.segments_aux (String c s) cur
  = if Ascii.eqb c "/"
    then (if String.eqb cur "" then [] else [cur]) ++ Path.segments_aux s ""
    else Path.segments_aux s (cur +:+ String c "").
Proof. reflexivity. Qed.

(** The segments of [a/b] are those of [a], then those of [b]. *)
Lemma segments_aux_slash (a b cur : string) :
  Path.segments_aux (a +:+ "/" +:+ b) cur
  = Path.segments_aux a cur ++ Path.segments b.
Proof.
  revert cur. induction a as [|c a IH]; intros cur.
  - change ("" +:+ "/" +:+ b) with (String "/" b).
    rewrite segments_aux_cons. simpl. reflexivity.
  - rewrite append_cons, !segments_aux_cons.
    destruct (Ascii.eqb c "/").
    + rewrite IH, app_assoc. reflexivity.
    + apply IH.
Qed.

Lemma segments_slash (a b : string) :
  Path.segments (a +:+ "/" +:+ b) = Path.segments a ++ Path.segments b.
Proof. apply segments_aux_slash. Qed.

Lemma segments_trailing (a : string) :
  Path.segments (a +:+ "/") = Path.segments a.
Proof.
  pose proof (segments_slash a "") as H.
  change ("/" +:+ "") with "/" in H. rewrite H. apply app_nil_r.
Qed.

Lemma segments_leading (a : string) :
  Path.segments ("/" +:+ a) = Path.segments a.
Proof. reflexivity. Qed.

Lemma segments_dot_slash (p : string) :
  Js.head_is_slash p = true ->
  Path.segments ("." +:+ p) = "." :: Path.segments p.
Proof.
  destruct p as [|c p]; [discriminate|]. unfold Js.head_is_slash. simpl.
  intros Hc. change ("." +:+ String c p) with (String "." (String c p)).
  unfold Path.segments. rewrite !segments_aux_cons. simpl. rewrite Hc.
  reflexivity.
Qed.

(** A string without a slash is its own only segment. *)
Lemma segments_aux_no_slash (p cur : string) :
  no_slash p = true ->
  Path.segments_aux p cur
  = if String.eqb (cur +:+ p) "" then [] else [cur +:+ p].
Proof.
  revert cur. induction p as [|c p IH]; intros cur Hp.
  - rewrite append_nil_r. reflexivity.
  - simpl in Hp. apply andb_prop in Hp as [Hc Hp].
    apply negb_true_iff in Hc. rewrite segments_aux_cons, Hc.
    rewrite (IH _ Hp), append_assoc. reflexivity.
Qed.

(** The segments of a path are not empty and have no slash. *)
Lemma segments_aux_ok (s cur : string) :
  no_slash cur = true ->
  Forall (fun x => x <> "" /\ no_slash x = true) (Path.segments_aux s cur).
Proof.
  revert cur. induction s as [|c s IH]; intros cur Hcur.
  - simpl. destruct (String.eqb cur "") eqn:E; constructor; [|constructor].
    split; [|exact Hcur]. apply String.eqb_neq. exact E.
  - rewrite segments_aux_cons. destruct (Ascii.eqb c "/") eqn:Hc.
    + apply Forall_app. split; [|apply IH; reflexivity].
      destruct (String.eqb cur "") eqn:E; constructor; [|constructor].
      split; [|exact Hcur]. apply String.eqb_neq. exact E.
    + apply IH. apply no_slash_snoc; assumption.
Qed.

Lemma segments_ok (s : string) :
  Forall (fun x => x <> "" /\ no_slash x = true) (Path.segments s).
Proof. apply segments_aux_ok. reflexivity. Qed.

(** [split] after [join]: the segments of the parts joined by slashes are
    the parts. *)
Lemma segments_join_slash (l : list string) :
  Forall (fun x => x <> "" /\ no_slash x = true) l ->
  Path.segments (Path.join_slash l) = l.
Proof.
  induction l as [|x l IH]; intros H; [reflexivity|].
  inversion H as [|? ? [Hx Hs] Hl]; subst.
  assert (Ex : Path.segments x = [x]).
  { unfold Path.segments. rewrite (segments_aux_no_slash x "" Hs).
    change ("" +:+ x) with x. apply String.eqb_neq in Hx. rewrite Hx.
    reflexivity. }
  destruct l as [|y l]; [exact Ex|].
  change (Path.join_slash (x :: y :: l))
    with (x +:+ "/" +:+ Path.join_slash (y :: l)).
  rewrite segments_slash, Ex, (IH Hl). reflexivity.
Qed.

Lemma join_slash_not_empty (x : string) (l : list string) :
  x <> "" -> Path.join_slash (x :: l) <> "".
Proof.
  intros Hx. destruct l as [|y l]; [exact Hx|].
  change (Path.join_slash (x :: y :: l))
    with (x +:+ "/" +:+ Path.join_slash (y :: l)).
  intros E. apply append_empty in E as [E _]. contradiction.
Qed.

(** [normalizeArray] on parts that are names or [.]: the [.] are dropped. *)
Lemma normalize_scan_names (l : list string) (kept : list string) :
  Forall (fun x => x = "." \/ plain_segment x = true) l ->
  Path.normalize_scan l 0 kept
  = (rev (List.filter plain_segment l) ++ kept, 0).
Proof.
  revert kept. induction l as [|x l IH]; intros kept H; [reflexivity|].
  inversion H as [|? ? Hx Hl]; subst. simpl.
  destruct Hx as [-> | Hx].
  - simpl. apply IH. exact Hl.
  - rewrite Hx. unfold plain_segment in Hx.
    apply andb_prop in Hx as [H1 H2].
    apply negb_true_iff in H1. apply negb_true_iff in H2.
    rewrite H1, H2. rewrite (IH _ Hl). simpl. rewrite <- app_assoc.
    reflexivity.
Qed.

Lemma normalizeArray_names (l : list string) (above : bool) :
  Forall (fun x => x = "." \/ plain_segment x = true) l ->
  Path.normalizeArray l above = List.filter plain_segment l.
Proof.
  intros H. unfold Path.normalizeArray.
  rewrite normalize_scan_names.
  - simpl. destruct above; simpl; rewrite app_nil_r.
    + rewrite filter_rev, rev_involutive. reflexivity.
    + rewrite filter_rev, rev_involutive. reflexivity.
  - apply Forall_rev. exact H.
Qed.

Lemma filter_plain (l : list string) :
  forallb plain_segment l = true -> List.filter plain_segment l = l.
Proof.
  induction l as [|x l IH]; simpl; [reflexivity|].
  intros H. apply andb_prop in H as [Hx Hl]. rewrite Hx, (IH Hl).
  reflexivity.
Qed.

(** The segments of a normalized path are what [normalizeArray] leaves,
    when it leaves something. *)
Lemma segments_normalize_of (path : string) (S : list string) :
  Path.normalizeArray (Path.segments path) (negb (Js.head_is_slash path)) = S ->
  S <> [] ->
  Forall (fun x => x <> "" /\ no_slash x = true) S ->
  Path.segments (Path.normalize path) = S.
Proof.
  intros ES Hne HS. unfold Path.normalize. rewrite ES.
  destruct S as [|x S']; [congruence|].
  assert (Hx : x <> "") by (inversion HS as [|? ? [Hx _] _]; exact Hx).
  pose proof (join_slash_not_empty x S' Hx) as Hj.
  apply String.eqb_neq in Hj.
  assert (E1 : Path.segments (Path.join_slash (x :: S')) = x :: S')
    by (apply segments_join_slash; exact HS).
  set (J := Path.join_slash (x :: S')) in *.
  rewrite Hj. cbn [andb negb]. rewrite Hj. cbn [andb negb].
  destruct (Path.last_is_slash path), (Js.head_is_slash path);
    rewrite ?segments_leading, ?segments_trailing;
    try change ("" +:+ ?a) with a;
    rewrite ?segments_trailing; exact E1.
Qed.

Lemma filter_segments_ok (f : string -> bool) (path : string) :
  Forall (fun x => x <> "" /\ no_slash x = true)
    (List.filter f (Path.segments path)).
Proof.
  apply Forall_forall. intros x Hx.
  apply list_elem_of_In, filter_In in Hx as [Hx _].
  pose proof (segments_ok path) as Hok.
  rewrite Forall_forall in Hok. apply Hok, list_elem_of_In. exact Hx.
Qed.

(** The path that [Path.join] normalizes. *)
Lemma segments_joined (a b : string) :
  Path.segments (if String.eqb a "" then b
                 else if String.eqb b "" then a
                 else a +:+ "/" +:+ b)
  = Path.segments a ++ Path.segments b.
Proof.
  destruct (String.eqb a "") eqn:Ea.
  - apply String.eqb_eq in Ea. subst a. reflexivity.
  - destruct (String.eqb b "") eqn:Eb.
    + apply String.eqb_eq in Eb. subst b. symmetry. apply app_nil_r.
    + apply segments_slash.
Qed.

Lemma segments_dotted (p : string) :
  Path.segments (if Js.head_is_slash p then "." +:+ p else p)
  = (if Js.head_is_slash p then ["."] else []) ++ Path.segments p.
Proof.
  destruct (Js.head_is_slash p) eqn:E; [|reflexivity].
  apply segments_dot_slash. exact E.
Qed.

Lemma forallb_names (l : list string) :
  forallb plain_segment l = true ->
  Forall (fun x => x = "." \/ plain_segment x = true) l.
Proof.
  intros H. apply Forall_forall. intros x Hx. right.
  rewrite forallb_forall in H. apply H, list_elem_of_In. exact Hx.
Qed.

(** X14. The local path of an entry is under the mirror root.  When the
    segments of the root and of the remote path are names (neither [.] nor
    [..]), the segments of [toLocalPath(path)] are those of the root followed
    by those of the remote path, with or without a leading slash on the
    remote path: distinct remote paths get distinct places, all under the
    root. *)
Theorem toLocalPath_is_under_root (root_ p : string) :
  forallb plain_segment (Path.segments root_ ++ Path.segments p) = true ->
  Path.segments root_ ++ Path.segments p <> [] ->
  Path.segments (toLocalPath root_ p)
  = Path.segments root_ ++ Path.segments p.
Proof.
  intros Hplain Hne. unfold toLocalPath, Path.join.
  set (b := if Js.head_is_slash p then "." +:+ p else p).
  set (path := if String.eqb root_ "" then b
               else if String.eqb b "" then root_
               else root_ +:+ "/" +:+ b).
  assert (Eseg : Path.segments path
                 = Path.segments root_
                   ++ (if Js.head_is_slash p then ["."] else [])
                   ++ Path.segments p).
  { unfold path. rewrite segments_joined. unfold b.
    rewrite segments_dotted. reflexivity. }
  rewrite forallb_app in Hplain. apply andb_prop in Hplain as [Hr Hp].
  assert (Ef : List.filter plain_segment (Path.segments path)
               = Path.segments root_ ++ Path.segments p).
  { rewrite Eseg, !List.filter_app, (filter_plain _ Hr), (filter_plain _ Hp).
    destruct (Js.head_is_slash p); reflexivity. }
  apply segments_normalize_of.
  - rewrite normalizeArray_names; [exact Ef|].
    rewrite Eseg. apply Forall_app. split; [apply forallb_names, Hr|].
    apply Forall_app. split; [|apply forallb_names, Hp].
    destruct (Js.head_is_slash p); constructor; [left; reflexivity|constructor].
  - exact Hne.
  - rewrite <- Ef. apply filter_segments_ok.
Qed.

Lemma toLocalPath_is_under_root_witness :
  Path.segments (toLocalPath "mirror/" "/Photos/2014/img.jpg")
  = ["mirror"; "Photos"; "2014"; "img.jpg"].
Proof.
  refine (toLocalPath_is_under_root "mirror/" "/Photos/2014/img.jpg" _ _).
  - reflexivity.
  - discriminate.
Defined.

Lemma normalize_scan_app (l1 l2 : list string) (up : nat) (kept : list string) :
  Path.normalize_scan (l1 ++ l2) up kept
  = Path.normalize_scan l2 (snd (Path.normalize_scan l1 up kept))
      (fst (Path.normalize_scan l1 up kept)).
Proof.
  revert up kept. induction l1 as [|x l1 IH]; intros up kept; [reflexivity|].
  simpl. destruct (String.eqb x "."); [apply IH|].
  destruct (String.eqb x ".."); [apply IH|].
  destruct up; apply IH.
Qed.

Lemma removelast_snoc {A} (l : list A) (x : A) : removelast (l ++ [x]) = l.
Proof. apply removelast_last. Qed.

(** [normalizeArray] on names, then [.] or nothing, then [..], then names:
    the [..] takes the name before it. *)
Lemma normalizeArray_dot_dot (R dots P : list string) (above : bool) :
  forallb plain_segment R = true ->
  forallb plain_segment P = true ->
  dots = ["."] \/ dots = [] ->
  R <> [] ->
  Path.normalizeArray (R ++ dots ++ ".." :: P) above = removelast R ++ P.
Proof.
  intros HR HP Hdots HRne. unfold Path.normalizeArray.
  destruct (exists_last HRne) as [R0 [x ->]].
  rewrite removelast_snoc.
  rewrite forallb_app in HR. apply andb_prop in HR as [HR0 Hx].
  simpl in Hx. rewrite andb_true_r in Hx.
  assert (Hrev : rev ((R0 ++ [x]) ++ dots ++ ".." :: P)
                 = rev P ++ [".."] ++ rev dots ++ [x] ++ rev R0).
  { rewrite !rev_app_distr. simpl. rewrite <- !app_assoc. reflexivity. }
  rewrite Hrev.
  rewrite normalize_scan_app.
  rewrite (normalize_scan_names (rev P) []).
  2:{ apply forallb_names. rewrite forallb_forall in *.
      intros y Hy. apply HP. apply in_rev. exact Hy. }
  simpl fst. simpl snd. rewrite app_nil_r.
  rewrite (filter_plain (rev P)).
  2:{ rewrite forallb_forall in *.
      intros y Hy. apply HP. apply in_rev. exact Hy. }
  rewrite rev_involutive.
  rewrite normalize_scan_app. simpl fst. simpl snd.
  rewrite normalize_scan_app.
  assert (Hd : Path.normalize_scan (rev dots) 1 P = (P, 1))
    by (destruct Hdots as [-> | ->]; reflexivity).
  rewrite Hd. simpl fst. simpl snd.
  rewrite normalize_scan_app.
  assert (Hx1 : Path.normalize_scan [x] 1 P = (P, 0)).
  { simpl. unfold plain_segment in Hx. apply andb_prop in Hx as [H1 H2].
    apply negb_true_iff in H1. apply negb_true_iff in H2.
    rewrite H1, H2. reflexivity. }
  rewrite Hx1. simpl fst. simpl snd.
  rewrite (normalize_scan_names (rev R0) P).
  2:{ apply forallb_names. rewrite forallb_forall in *.
      intros y Hy. apply HR0. apply in_rev. exact Hy. }
  rewrite (filter_plain (rev R0)).
  2:{ rewrite forallb_forall in *.
      intros y Hy. apply HR0. apply in_rev. exact Hy. }
  rewrite rev_involutive. destruct above; reflexivity.
Qed.

(** X15. A remote path that begins with [..] leaves the mirror root.  When
    the first segment of the remote path is [..] and the others, like those
    of the root, are names, [toLocalPath] gives a path beside the root, not
    under it: the last segment of the root is dropped, and the names of the
    remote path follow. *)
Theorem dot_dot_leaves_the_root (root_ p : string) (P : list string) :
  Path.segments p = ".." :: P ->
  forallb plain_segment (Path.segments root_ ++ P) = true ->
  Path.segments root_ <> [] ->
  removelast (Path.segments root_) ++ P <> [] ->
  Path.segments (toLocalPath root_ p)
  = removelast (Path.segments root_) ++ P.
Proof.
  intros Hp Hplain HR Hne. unfold toLocalPath, Path.join.
  set (b := if Js.head_is_slash p then "." +:+ p else p).
  set (path := if String.eqb root_ "" then b
               else if String.eqb b "" then root_
               else root_ +:+ "/" +:+ b).
  assert (Eseg : Path.segments path
                 = Path.segments root_
                   ++ (if Js.head_is_slash p then ["."] else [])
                   ++ ".." :: P).
  { unfold path. rewrite segments_joined. unfold b.
    rewrite segments_dotted, Hp. reflexivity. }
  rewrite forallb_app in Hplain. apply andb_prop in Hplain as [Hr HP].
  apply segments_normalize_of.
  - rewrite Eseg. apply normalizeArray_dot_dot; try assumption.
    destruct (Js.head_is_slash p); auto.
  - exact Hne.
  - apply Forall_app. split.
    + pose proof (segments_ok root_) as Hok.
      destruct (exists_last HR) as [R0 [x E]]. rewrite E in *.
      rewrite removelast_snoc. apply Forall_app in Hok as [Hok _]. exact Hok.
    + pose proof (segments_ok p) as Hok. rewrite Hp in Hok.
      inversion Hok; assumption.
Qed.

Lemma dot_dot_leaves_the_root_witness :
  Path.segments (toLocalPath "home/mirror" "/../.ssh/authorized_keys")
  = ["home"; ".ssh"; "authorized_keys"].
Proof.
  refine (dot_dot_leaves_the_root "home/mirror" "/../.ssh/authorized_keys"
            [".ssh"; "authorized_keys"] _ _ _ _).
  - reflexivity.
  - reflexivity.
  - discriminate.
  - discriminate.
Defined.

(** ** What every run keeps *)

Lemma run_app (step : World -> label -> option World) (ls1 ls2 : list label) :
  forall w w1 w2,
    run step w ls1 = Some w1 -> run step w1 ls2 = Some w2 ->
    run step w (ls1 ++ ls2) = Some w2.
Proof.
  induction ls1 as [|l ls1 IH]; intros w w1 w2 H1 H2; simpl in *.
  - injection H1 as <-. exact H2.
  - destruct (step w l) as [w'|]; [|discriminate]. eauto.
Qed.

Lemma fetch_has_cursor_run (step : World -> label -> option World)
  (d : string) (f : Fs.t) (ls : list label) (w : World) :
  step = Part000.step \/ step = Part001.step ->
  run step (boot d f) ls = Some w -> fetch_has_cursor w.
Proof.
  intros [-> | ->] Hrun.
  - apply (run_keeps fetch_has_cursor Part000.step (fun _ => true)
             (fun l w w' _ => fetch_has_cursor_step_000 l w w') ls (boot d f) w
             (forallb_true ls) (fetch_has_cursor_boot d f) Hrun).
  - apply (run_keeps fetch_has_cursor Part001.step (fun _ => true)
             (fun l w w' _ => fetch_has_cursor_step_001 l w w') ls (boot d f) w
             (forallb_true ls) (fetch_has_cursor_boot d f) Hrun).
Qed.

Lemma fetch_in_flight (step : World -> label -> option World)
  (d : string) (f : Fs.t) (ls : list label) (w : World) :
  step = Part000.step \/ step = Part001.step ->
  run step (boot d f) ls = Some w ->
  (forall i, pulls_in_flight i w <= 1)
  /\ forall n o i prev,
      pending w !! n = Some (o, KPull i prev) ->
      busy i w = true
      /\ o = OpPull i (stored_cursor i w)
      /\ forall m o' prev',
          pending w !! m = Some (o', KPull i prev') -> m = n.
Proof.
  intros Hstep Hrun.
  destruct (fetch_has_cursor_run step d f ls w Hstep Hrun) as [H1 H2].
  split.
  - intros i. specialize (H1 i). destruct (busy i w); lia.
  - intros n o i prev Hn.
    assert (Hin : In (o, KPull i prev) (pending w))
      by (apply list_elem_of_In, (list_elem_of_lookup_2 _ n); exact Hn).
    split; [|split].
    + pose proof (H1 i) as Hi.
      pose proof (count_konts_in (is_pull_of i) (pending w) o (KPull i prev)
                    Hin) as Hc.
      simpl in Hc. rewrite Nat.eqb_refl in Hc. specialize (Hc eq_refl).
      unfold pulls_in_flight, konts in Hi.
      destruct (busy i w); [reflexivity | lia].
    + destruct (H2 o i prev Hin) as [s [Hs ->]].
      unfold stored_cursor. rewrite Hs. reflexivity.
    + intros m o' prev' Hm. destruct (decide (m = n)) as [|Hne]; [assumption|].
      exfalso. apply (one_fetch_other w n o o' i prev prev' H1 Hn).
      apply (in_delete_other (pending w) n m _ Hm Hne).
Qed.

(** X16. The fetches of an instance come one after the other.  In every
    world that a process of part_000 or of part_001 reaches, at most one
    fetch of an instance is in flight; while it is, the instance is busy
    ([pullingChanges]) and the fetch was made from the cursor that the
    instance stores. *)
Theorem fetches_are_one_at_a_time (step : World -> label -> option World)
  (d : string) (f : Fs.t) (ls : list label) (w : World) :
  step = Part000.step \/ step = Part001.step ->
  run step (boot d f) ls = Some w ->
  (forall i, pulls_in_flight i w <= 1)
  /\ forall n o i prev,
      pending w !! n = Some (o, KPull i prev) ->
      busy i w = true
      /\ o = OpPull i (stored_cursor i w)
      /\ forall m o' prev',
          pending w !! m = Some (o', KPull i prev') -> m = n.
Proof. exact (fetch_in_flight step d f ls w). Qed.

Lemma fetches_are_one_at_a_time_witness :
  pulls_in_flight 0 Ex.two_watchers <= 1.
Proof.
  refine (proj1 (fetches_are_one_at_a_time Part000.step "/w" Fs.empty
                   [LNew Ex.cfg "mirror"; LSync 0 (Some "/a") 1 2;
                    LSync 0 (Some "/b") 3 4]
                   Ex.two_watchers (or_introl eq_refl) _) 0).
  vm_compute. reflexivity.
Defined.

(** *** The cursor *)

Lemma has_cursor_update (i j : ref) (f : Instance -> Instance) (w : World) :
  (forall s, cursor s <> None -> cursor (f s) <> None) ->
  has_cursor i w -> has_cursor i (update j f w).
Proof.
  intros Hf. unfold has_cursor, stored_cursor, update. simpl.
  destruct (decide (j = i)) as [->|Hne].
  - rewrite list_lookup_alter_eq. destruct (heap w !! i); simpl; auto.
  - rewrite list_lookup_alter_ne by assumption. auto.
Qed.

#[export] Instance has_cursor_stable (i : ref) : Stable (has_cursor i).
Proof.
  split; try (intros; assumption).
  - intros j ps w H. apply has_cursor_update; auto.
  - intros j h w H. apply has_cursor_update; auto.
  - intros j prev w H. unfold pullChanges.
    destruct (heap w !! j); [|assumption].
    destruct (pullingChanges _); [assumption|].
    apply (has_cursor_update i j (set_pullingChanges true) w); auto.
Qed.

#[export] Instance has_cursor_committing (i : ref) : Committing (has_cursor i).
Proof. split; [apply has_cursor_stable | intros; assumption]. Qed.

#[export] Instance has_cursor_completing (i : ref) : Completing (has_cursor i).
Proof.
  split; [apply has_cursor_committing | intros; assumption |].
  intros n o j prev page w _ H. unfold page_taken.
  apply has_cursor_update; [auto|].
  apply has_cursor_update; [|exact H]. intros s _. discriminate.
Qed.

Lemma has_cursor_new (i : ref) (s : Instance) (w : World) :
  has_cursor i w -> has_cursor i (set_heap (heap w ++ [s]) w).
Proof.
  unfold has_cursor, stored_cursor. simpl.
  destruct (heap w !! i) as [x|] eqn:Hx; [|congruence].
  rewrite (lookup_app_l_Some _ _ _ _ Hx). auto.
Qed.

Lemma has_cursor_step (step : World -> label -> option World) (i : ref)
  (l : label) (w w' : World) :
  step = Part000.step \/ step = Part001.step ->
  has_cursor i w -> step w l = Some w' -> has_cursor i w'.
Proof.
  intros [-> | ->] Hw E.
  - destruct (is_stopSync l) eqn:Hl.
    + destruct l; try discriminate. simpl in E. injection E as <-.
      apply (keep_stopSync_000 (P := has_cursor i));
        [intros; assumption | assumption].
    + apply (blind_step_000 (P := has_cursor i)
               (fun q w H => H) (fun o q w H => H) (fun n o q w _ H => H))
        with (l := l) (w := w); try assumption.
      intros cfg r w0 H. unfold Part000.DropboxSync.
      destruct (cache w0 !! _); [assumption|]. apply (has_cursor_new i), H.
  - apply (blind_step_001 (P := has_cursor i)) with (l := l) (w := w);
      try assumption.
    intros cfg r w0 H. unfold Part001.DropboxSync.
    destruct (cache w0 !! _); [assumption|].
    destruct (Js.inherited _); [assumption|]. apply (has_cursor_new i), H.
Qed.

(** X17. The cursor is never lost.  Once an instance of a process of
    part_000 or of part_001 stores a cursor, it stores one in every later
    world, whatever the consumer and the environment do; and every fetch of
    the instance in flight later was made from a cursor: the feed is never
    read from its beginning again. *)
Theorem cursor_is_never_lost (step : World -> label -> option World)
  (d : string) (f : Fs.t) (ls1 ls2 : list label) (w w' : World) (i : ref) :
  step = Part000.step \/ step = Part001.step ->
  run step (boot d f) ls1 = Some w ->
  has_cursor i w ->
  run step w ls2 = Some w' ->
  has_cursor i w'
  /\ forall n o prev,
      pending w' !! n = Some (o, KPull i prev) ->
      exists c, o = OpPull i (Some c).
Proof.
  intros Hstep Hrun1 Hc Hrun2.
  assert (Hc' : has_cursor i w').
  { apply (run_keeps (has_cursor i) step (fun _ => true)
             (fun l w w' _ => has_cursor_step step i l w w' Hstep) ls2 w w'
             (forallb_true ls2) Hc Hrun2). }
  split; [exact Hc'|]. intros n o prev Hn.
  destruct (fetch_in_flight step d f (ls1 ++ ls2) w' Hstep
              (run_app step ls1 ls2 _ w w' Hrun1 Hrun2))
    as [_ H].
  destruct (H n o i prev Hn) as [_ [-> _]].
  unfold has_cursor in Hc'. destruct (stored_cursor i w') as [c|]; [|congruence].
  exists c. reflexivity.
Qed.

Lemma cursor_is_never_lost_witness :
  has_cursor 0
    (Ex.after Part001.step Ex2.polling_001
       [LComplete 0 (RPoll (Done {| hasChanges := true; retryAfter := 0 |}));
        LComplete 0 (RPull (Failed "offline"))]).
Proof.
  refine (proj1 (cursor_is_never_lost Part001.step "/w" Fs.empty
                   [LNew Ex.cfg "mirror"; LSync 0 (Some "/a") 1 2;
                    LComplete 0 (RPull (Done Ex2.empty_page))]
                   [LComplete 0 (RPoll (Done {| hasChanges := true;
                                                retryAfter := 0 |}));
                    LComplete 0 (RPull (Failed "offline"))]
                   Ex2.polling_001 _ 0 (or_intror eq_refl) _ _ _)).
  - vm_compute. reflexivity.
  - vm_compute. discriminate.
  - vm_compute. reflexivity.
Defined.

(** ** An entry that is neither a removal, a file nor a folder *)

Lemma reported_log (e : event) (w : World) :
  errors_reported (history (log e w))
  = errors_reported (history w)
    ++ match e with EvOnError f x => [(f, x)] | _ => [] end.
Proof.
  unfold errors_reported, history. simpl. rewrite omap_app. simpl.
  destruct e; reflexivity.
Qed.

Section Unknown.

Variable final : CommitCtx -> option Error -> World -> World.
Hypothesis final_eaches :
  forall ctx e w, eaches (final ctx (Some e) w) = eaches w.

(** An entry of a known kind starts its work and calls nothing back. *)
Lemma commitChange_known (i : ref) (j : nat) (c : Change) (w : World) :
  known_kind c = true ->
  let w' := commitChange final i j c w in
  eaches w' = eaches w /\ heap w' = heap w
  /\ errors_reported (history w') = errors_reported (history w).
Proof.
  intros Hk w'. unfold w', commitChange, known_kind in *.
  destruct (wasRemoved c).
  - repeat split. unfold fs_call.
    change (history (start ?o ?k ?x)) with (history x).
    rewrite !reported_log, !app_nil_r. reflexivity.
  - destruct (isFile (stat c)).
    + repeat split. unfold replaceLocalWithFile, fs_call.
      change (history (start ?o ?k ?x)) with (history x).
      change (history (start ?o ?k ?x)) with (history x).
      rewrite reported_log.
      change (history (set_parallels ?p ?x)) with (history x).
      rewrite reported_log, !app_nil_r. reflexivity.
    + destruct (isFolder (stat c)); [|discriminate].
      repeat split. unfold replaceLocalWithFolder, fs_call.
      change (history (start ?o ?k ?x)) with (history x).
      rewrite !reported_log, !app_nil_r. reflexivity.
Qed.

(** Once the [async.each] has called back, an entry calls nothing back. *)
Lemma commitChange_fired (i : ref) (j : nat) (c : Change) (w : World)
  (x : EachJoin) :
  eaches w !! j = Some x ->
  e_fired x = true ->
  let w' := commitChange final i j c w in
  eaches w' = eaches w /\ heap w' = heap w
  /\ errors_reported (history w') = errors_reported (history w).
Proof.
  intros Hj Hf w'.
  destruct (known_kind c) eqn:Hk; [apply commitChange_known; exact Hk|].
  unfold known_kind in Hk. apply orb_false_elim in Hk as [Hk H3].
  apply orb_false_elim in Hk as [H1 H2].
  unfold w', commitChange. rewrite H1, H2, H3.
  unfold entry_callback, each_done. simpl eaches. rewrite Hj, Hf.
  repeat split. rewrite !reported_log, !app_nil_r. reflexivity.
Qed.

Lemma foldl_known (i : ref) (j : nat) (cs : list Change) :
  forall w,
    forallb known_kind cs = true ->
    let w' := foldl (fun w0 c => commitChange final i j c w0) w cs in
    eaches w' = eaches w /\ heap w' = heap w
    /\ errors_reported (history w') = errors_reported (history w).
Proof.
  induction cs as [|c cs IH]; intros w Hk; [repeat split|].
  simpl in Hk. apply andb_prop in Hk as [Hc Hcs]. cbn [foldl].
  destruct (commitChange_known i j c w Hc) as [E1 [E2 E3]].
  destruct (IH (commitChange final i j c w) Hcs) as [F1 [F2 F3]].
  cbv zeta in *. rewrite F1, F2, F3. auto.
Qed.

Lemma foldl_fired (i : ref) (j : nat) (x : EachJoin) (cs : list Change) :
  forall w,
    eaches w !! j = Some x ->
    e_fired x = true ->
    let w' := foldl (fun w0 c => commitChange final i j c w0) w cs in
    eaches w' = eaches w /\ heap w' = heap w
    /\ errors_reported (history w') = errors_reported (history w).
Proof.
  induction cs as [|c cs IH]; intros w Hj Hf; [repeat split|].
  cbn [foldl].
  destruct (commitChange_fired i j c w x Hj Hf) as [E1 [E2 E3]].
  cbv zeta in E1.
  assert (Hj' : eaches (commitChange final i j c w) !! j = Some x)
    by (rewrite E1; exact Hj).
  destruct (IH (commitChange final i j c w) Hj' Hf) as [F1 [F2 F3]].
  cbv zeta in *. rewrite F1, F2, F3. auto.
Qed.

(** The entries of a batch are handed to [commitChange]; [c] is the first
    one of an unknown kind. *)
Lemma each_changes_unknown (ctx : CommitCtx) (w : World)
  (pre post : list Change) (c : Change) :
  changes (cc_batch ctx) = pre ++ c :: post ->
  forallb known_kind pre = true ->
  known_kind c = false ->
  exists wx,
    heap wx = heap w
    /\ errors_reported (history wx) = errors_reported (history w)
    /\ errors_reported (history (each_changes final ctx w))
       = errors_reported
           (history (final ctx (Some "Unable to commit change.") wx)).
Proof.
  intros Hcs Hpre Hc.
  set (j := length (eaches w)).
  set (x0 := {| e_total := length (pre ++ c :: post); e_completed := 0;
                e_fired := false; e_ctx := ctx |}).
  set (w0 := set_eaches (eaches w ++ [x0]) w).
  assert (E0 : each_changes final ctx w
               = foldl (fun w' c => commitChange final (cc_self ctx) j c w')
                   w0 (pre ++ c :: post)).
  { unfold each_changes. rewrite Hcs. destruct pre; reflexivity. }
  rewrite E0, foldl_app. cbn [foldl].
  destruct (foldl_known (cc_self ctx) j pre w0 Hpre) as [E1 [E2 E3]].
  cbv zeta in E1, E2, E3.
  set (w1 := foldl (fun w0 c => commitChange final (cc_self ctx) j c w0) w0 pre)
    in *.
  assert (Hj1 : eaches w1 !! j = Some x0).
  { rewrite E1. unfold w0, j. simpl. apply list_lookup_middle. reflexivity. }
  unfold known_kind in Hc. apply orb_false_elim in Hc as [Hc H3].
  apply orb_false_elim in Hc as [H1 H2].
  set (x1 := {| e_total := e_total x0; e_completed := e_completed x0;
                e_fired := true; e_ctx := e_ctx x0 |}).
  set (wx := set_eaches (<[j := x1]> (eaches w1))
               (log (EvEntryEnd j c (Some "Unable to commit change."))
                  (log (EvEntryBegin j c) w1))).
  assert (Hc1 : commitChange final (cc_self ctx) j c w1
                = final ctx (Some "Unable to commit change.") wx).
  { unfold commitChange. rewrite H1, H2, H3.
    unfold entry_callback, each_done. simpl eaches. rewrite Hj1. reflexivity. }
  rewrite Hc1.
  assert (Hjx : eaches (final ctx (Some "Unable to commit change.") wx) !! j
                = Some x1).
  { rewrite final_eaches. unfold wx. simpl.
    apply list_lookup_insert_eq. apply lookup_lt_Some in Hj1. exact Hj1. }
  destruct (foldl_fired (cc_self ctx) j x1 post _ Hjx eq_refl) as [_ [_ F3]].
  cbv zeta in F3. rewrite F3.
  exists wx. split; [exact E2|]. split; [|reflexivity].
  unfold wx.
  change (history (set_eaches ?e ?y)) with (history y).
  rewrite !reported_log, !app_nil_r. exact E3.
Qed.

End Unknown.

Lemma reported_app (h1 h2 : list event) :
  errors_reported (h1 ++ h2) = errors_reported h1 ++ errors_reported h2.
Proof. apply omap_app. Qed.

Lemma reported_errAll (i : ref) (e : Error) (w : World) (s : Instance) :
  heap w !! i = Some s ->
  errors_reported (history (errAll i e w))
  = errors_reported (history w)
    ++ map (fun ph => (h_onError (snd ph), e)) (paths s).
Proof.
  intros Hs. rewrite (errAll_history i e w s Hs), reported_app. f_equal.
  induction (paths s) as [|ph ps IH]; [reflexivity|].
  simpl. f_equal. exact IH.
Qed.

Lemma dispatch_eaches (ctx : CommitCtx) (e : Error) (w : World) :
  eaches (Part000.dispatch ctx (Some e) w) = eaches w.
Proof.
  simpl. destruct (errAll_frame (cc_self ctx) e w) as [_ [_ [_ [H _]]]].
  exact H.
Qed.

Lemma committed_eaches (ctx : CommitCtx) (e : Error) (w : World) :
  eaches (Part001.committed ctx (Some e) w) = eaches w.
Proof. unfold Part001.committed. destruct (cc_callback ctx); reflexivity. Qed.

(** X18. A batch with an entry that is neither a removal, a file nor a
    folder (and no blank slate) is reported as failed, once, as soon as
    [commitChanges] is called: in part_000 the [onError] of every watched
    path is called with "Unable to commit change.", in part_001 the [onError]
    of the path that the batch is committed for.  No other error is reported
    in this call, also when other entries are of an unknown kind. *)
Theorem unknown_entry_fails_the_batch (batch : PulledChanges)
  (pre post : list Change) (c : Change) :
  changes batch = pre ++ c :: post ->
  forallb known_kind pre = true ->
  known_kind c = false ->
  blankSlate batch = false ->
  (forall i w s,
      heap w !! i = Some s ->
      errors_reported (history (Part000.commitChanges i batch w))
      = errors_reported (history w)
        ++ map (fun ph => (h_onError (snd ph), "Unable to commit change."))
             (paths s))
  /\ (forall i p h w,
        errors_reported (history (Part001.commitChanges i p batch h w))
        = errors_reported (history w)
          ++ [(h_onError h, "Unable to commit change.")]).
Proof.
  intros Hcs Hpre Hc Hb. split.
  - intros i w s Hs. unfold Part000.commitChanges, Engine.commitChanges.
    simpl cc_batch. rewrite Hb.
    destruct (each_changes_unknown Part000.dispatch dispatch_eaches
                (commit_of i batch) (log (EvCommit (commit_of i batch)) w)
                pre post c Hcs Hpre Hc) as [wx [Hh [Hr E]]].
    change (errors_reported (history (each_changes Part000.dispatch
              (commit_of i batch) (log (EvCommit (commit_of i batch)) w)))
            = errors_reported (history w)
              ++ map (fun ph => (h_onError (snd ph), "Unable to commit change."))
                   (paths s)).
    rewrite E. simpl Part000.dispatch.
    rewrite (reported_errAll i _ wx s); [|rewrite Hh; exact Hs].
    rewrite Hr, reported_log, app_nil_r. reflexivity.
  - intros i p h w. unfold Part001.commitChanges, Engine.commitChanges.
    simpl cc_batch. rewrite Hb.
    set (ctx := {| cc_self := i; cc_path := p; cc_batch := batch;
                   cc_callback := CbHandler h |}).
    destruct (each_changes_unknown Part001.committed committed_eaches
                ctx (log (EvCommit ctx) w) pre post c Hcs Hpre Hc)
      as [wx [Hh [Hr E]]].
    rewrite E.
    change (Part001.committed ctx (Some "Unable to commit change.") wx)
      with (log (EvOnError (h_onError h) "Unable to commit change.") wx).
    rewrite reported_log, Hr, reported_log, app_nil_r. reflexivity.
Qed.

Lemma unknown_entry_fails_the_batch_witness :
  errors_reported
    (history
       (Part000.commitChanges 0
          (Ex.page [Ex.removal "/a/x";
                    {| path := "/a/y"; wasRemoved := false;
                       stat := {| isFile := false; isFolder := false |} |};
                    Ex.file_entry "/b/z"] false false "c1")
          Ex.two_watchers))
  = [(1, "Unable to commit change."); (3, "Unable to commit change.")].
Proof.
  refine (proj1 (unknown_entry_fails_the_batch
                   (Ex.page [Ex.removal "/a/x";
                             {| path := "/a/y"; wasRemoved := false;
                                stat := {| isFile := false;
                                           isFolder := false |} |};
                             Ex.file_entry "/b/z"] false false "c1")
                   [Ex.removal "/a/x"] [Ex.file_entry "/b/z"]
                   {| path := "/a/y"; wasRemoved := false;
                      stat := {| isFile := false; isFolder := false |} |}
                   _ _ _ _)
            0 Ex.two_watchers (Ex.instance 0 Ex.two_watchers) _).
  - reflexivity.
  - reflexivity.
  - reflexivity.
  - reflexivity.
  - vm_compute. reflexivity.
Defined.

(** ** src/index.js: the watch that does not resume *)

Lemma index_call_keeps_handle (c : IndexLoop.Call) (s : Index.Instance) :
  Index.cursor s <> None ->
  Index.watchingForChanges s <> None ->
  let '(s', reqs) := IndexLoop.call c s in
  List.filter IndexLoop.is_poll reqs = []
  /\ Index.watchingForChanges s' = Index.watchingForChanges s
  /\ Index.cursor s' <> None.
Proof.
  intros Hc Hh.
  assert (Hwatch : forall h cb, IndexLoop.watchForChanges h s cb = (s, [])).
  { intros h cb. unfold IndexLoop.watchForChanges.
    destruct (Index.cursor s); [|congruence].
    destruct (Index.watchingForChanges s); [reflexivity | congruence]. }
  assert (Herr : forall cb e,
             List.filter IndexLoop.is_poll
               (map IndexLoop.ReqEffect (Index.call_with_error cb e)) = []).
  { intros cb e. induction (Index.call_with_error cb e); [reflexivity|].
    simpl. assumption. }
  destruct c as [h e c|h cb|cb r|cb r|h e c r]; simpl.
  - unfold IndexLoop.sync. rewrite Hwatch. auto.
  - rewrite Hwatch. auto.
  - destruct r as [e|pr]; simpl; [auto|].
    destruct (Index.watchingForChanges s) as [n|] eqn:E; [|congruence].
    destruct (negb (hasChanges pr)); simpl; rewrite ?E; auto.
  - destruct r as [e|page]; simpl; [auto|].
    split; [reflexivity|]. split; [reflexivity | discriminate].
  - destruct r as [e'|page]; simpl; [auto|].
    unfold IndexLoop.sync. rewrite Hwatch. simpl. auto.
Qed.

Lemma index_calls_keep_handle (cs : list IndexLoop.Call) :
  forall s,
    Index.cursor s <> None ->
    Index.watchingForChanges s <> None ->
    List.filter IndexLoop.is_poll (snd (IndexLoop.calls cs s)) = []
    /\ Index.watchingForChanges (fst (IndexLoop.calls cs s))
       = Index.watchingForChanges s.
Proof.
  induction cs as [|c cs IH]; intros s Hc Hh; [split; reflexivity|].
  simpl. pose proof (index_call_keeps_handle c s Hc Hh) as H1.
  destruct (IndexLoop.call c s) as [s1 reqs1]. destruct H1 as [F1 [W1 C1]].
  assert (Hh1 : Index.watchingForChanges s1 <> None) by (rewrite W1; exact Hh).
  destruct (IH s1 C1 Hh1) as [F2 W2].
  destruct (IndexLoop.calls cs s1) as [s2 reqs2]. simpl in *.
  rewrite List.filter_app, F1, F2, W2, W1. split; reflexivity.
Qed.

(** X19. src/index.js: the long-poll is made once.  [watchForChanges] keeps
    the handle of the long-poll that it makes, and nothing but [stopSync]
    gives it up: the callback of the long-poll does not.  So after the first
    long-poll of an instance, whatever the long-poll answers and whatever
    comes then (the timer of [delay], the pages that are fetched, the commit
    that calls back the closure of [sync], a new call of [sync]), every
    [watchForChanges] returns at once: no other long-poll is made. *)
Theorem index_polls_only_once (s : Index.Instance) (c : PulledChanges)
  (h : nat) (callback : Index.Callback) (cs : list IndexLoop.Call) :
  Index.cursor s = Some c ->
  Index.watchingForChanges s = None ->
  let s1 := fst (IndexLoop.watchForChanges h s callback) in
  snd (IndexLoop.watchForChanges h s callback)
  = [IndexLoop.ReqPoll c h callback]
  /\ List.filter IndexLoop.is_poll (snd (IndexLoop.calls cs s1)) = []
  /\ Index.watchingForChanges (fst (IndexLoop.calls cs s1)) = Some h.
Proof.
  intros Hc Hh s1.
  assert (E : IndexLoop.watchForChanges h s callback
              = ({| Index.root := Index.root s; Index.path := Index.path s;
                    Index.cursor := Index.cursor s;
                    Index.watchingForChanges := Some h |},
                 [IndexLoop.ReqPoll c h callback])).
  { unfold IndexLoop.watchForChanges. rewrite Hc, Hh. reflexivity. }
  unfold s1. rewrite E. simpl fst. simpl snd.
  split; [reflexivity|].
  apply index_calls_keep_handle; simpl; [rewrite Hc|]; discriminate.
Qed.

Lemma index_polls_only_once_witness :
  List.filter IndexLoop.is_poll
    (snd (IndexLoop.calls
            [IndexLoop.CallPolled (Index.CbSync 1 2)
               (Done {| hasChanges := false; retryAfter := 0 |});
             IndexLoop.CallTimer 8 (Index.CbSync 1 2);
             IndexLoop.CallSync 9 3 4]
            (fst (IndexLoop.watchForChanges 7
                    {| Index.root := "mirror"; Index.path := "/a";
                       Index.cursor := Some Ex2.empty_page;
                       Index.watchingForChanges := None |}
                    (Index.CbSync 1 2)))))
  = [].
Proof.
  refine (proj1 (proj2 (index_polls_only_once
            {| Index.root := "mirror"; Index.path := "/a";
               Index.cursor := Some Ex2.empty_page;
               Index.watchingForChanges := None |}
            Ex2.empty_page 7 (Index.CbSync 1 2) _ _ _))).
  - reflexivity.
  - reflexivity.
Defined.

(** X20. src/index.js: the path of an instance and the filter of a page.
    The constructor gives the path a leading slash when it has none (the
    empty path becomes [/]), so the path of an instance is never empty and
    the test [if(self.path)] of [pullChanges] always holds: of every page
    that is fetched, the entries handed to [commitChanges] are those whose
    path begins with the path of the instance, in the order of the page. *)
Theorem index_pages_are_filtered (root_ path_ : string)
  (callback : Index.Callback) (page : PulledChanges) :
  let s := IndexLoop.DropboxSync root_ path_ in
  Js.head_is_slash (Index.path s) = true
  /\ Index.path (IndexLoop.DropboxSync root_ (Index.path s)) = Index.path s
  /\ snd (Index.pull_callback s callback (Done page))
     = [Index.CommitChanges
          (with_changes page
             (List.filter (under (Index.path s)) (changes page)))
          callback]
  /\ forall c,
      In c (List.filter (under (Index.path s)) (changes page))
      <-> In c (changes page) /\ string_prefix (Index.path s) (path c).
Proof.
  intros s.
  assert (Hhead : Js.head_is_slash (Index.path s) = true).
  { unfold s, IndexLoop.DropboxSync. simpl.
    destruct (Js.head_is_slash path_) eqn:E; [exact E | reflexivity]. }
  split; [exact Hhead|]. split.
  { unfold s, IndexLoop.DropboxSync. simpl.
    destruct (Js.head_is_slash path_) eqn:E; simpl; rewrite ?E; reflexivity. }
  split.
  - assert (Hne : String.eqb (Index.path s) "" = false)
      by (destruct (Index.path s); [discriminate | reflexivity]).
    unfold Index.pull_callback.
    change (Index.path {| Index.root := Index.root s;
                          Index.path := Index.path s;
                          Index.cursor := Some page;
                          Index.watchingForChanges :=
                            Index.watchingForChanges s |})
      with (Index.path s).
    rewrite Hne. reflexivity.
  - intros c. rewrite filter_In, under_prefix. reflexivity.
Qed.

Lemma index_call_with_error (callback : Index.Callback) (e : Error) :
  Index.call_with_error callback e
  = [Index.Call (EvOnError (Index.registered_onError callback) e)].
Proof. induction callback as [a b|outer IH]; [reflexivity | exact IH]. Qed.

(** X21. src/index.js: [stopSync].  On an instance that holds no long-poll,
    as a new instance does while its first fetch is in flight, [stopSync]
    throws and nothing is removed.  On an instance that holds one it gives up
    the handle and removes the mirror root (which is not made again).  After
    that, an answer of the aborted long-poll without error is ignored, but
    an error of it still goes to the [onError] of the registration, and a
    timer of [delay] that was set before makes a new long-poll from the
    stored cursor. *)
Theorem index_stopSync (s : Index.Instance) (hd : nat) (cb : fn) :
  Index.watchingForChanges s = Some hd ->
  let s1 := fst (IndexLoop.stopSync s cb) in
  snd (IndexLoop.stopSync s cb) = [IndexLoop.ReqRemove (Index.root s) cb]
  /\ Index.watchingForChanges s1 = None
  /\ Index.cursor s1 = Index.cursor s
  /\ (forall callback pr,
        IndexLoop.poll_callback s1 callback (Done pr) = (s1, []))
  /\ (forall callback e,
        IndexLoop.poll_callback s1 callback (Failed e)
        = (s1, [IndexLoop.ReqEffect
                  (Index.Call
                     (EvOnError (Index.registered_onError callback) e))]))
  /\ (forall h callback c,
        Index.cursor s = Some c ->
        snd (IndexLoop.watchForChanges h s1 callback)
        = [IndexLoop.ReqPoll c h callback])
  /\ (forall root_ path_ h onError onChange,
        let s0 := IndexLoop.DropboxSync root_ path_ in
        IndexLoop.sync h s0 onError onChange
        = (s0, [IndexLoop.ReqPull None (Index.CbSync onError onChange)])
        /\ IndexLoop.stopSync s0 cb = (s0, [IndexLoop.ReqThrow "TypeError"])).
Proof.
  intros Hh s1. unfold s1, IndexLoop.stopSync. rewrite Hh. simpl.
  split; [reflexivity|]. split; [reflexivity|]. split; [reflexivity|].
  split; [reflexivity|]. split.
  - intros callback e. unfold IndexLoop.poll_callback.
    rewrite index_call_with_error. reflexivity.
  - split.
    + intros h callback c Hc. unfold IndexLoop.watchForChanges. simpl.
      rewrite Hc. reflexivity.
    + intros root_ path_ h onError onChange. split; reflexivity.
Qed.

Lemma index_stopSync_witness :
  snd (IndexLoop.stopSync
         {| Index.root := "mirror"; Index.path := "/a";
            Index.cursor := Some Ex2.empty_page;
            Index.watchingForChanges := Some 7 |} 9)
  = [IndexLoop.ReqRemove "mirror" 9].
Proof.
  refine (proj1 (index_stopSync
            {| Index.root := "mirror"; Index.path := "/a";
               Index.cursor := Some Ex2.empty_page;
               Index.watchingForChanges := Some 7 |} 7 9 _)).
  reflexivity.
Defined.

(** ** A whole cycle: from the page to the consumer and back to the watch *)

Lemma root_of_page_taken (n : nat) (i : ref) (page : PulledChanges) (w : World)
  (s : Instance) :
  heap w !! i = Some s -> root_of i (page_taken n i page w) = root s.
Proof.
  intros Hs. unfold root_of. rewrite (lookup_page_taken n i page w s Hs).
  reflexivity.
Qed.

(** part_000: the last page of a batch brings one removal. *)
Lemma page_with_one_removal_000 (w : World) (n : nat) (i : ref)
  (c0 : option PulledChanges) (page : PulledChanges) (c : Change)
  (s : Instance) :
  pending w !! n = Some (OpPull i c0, KPull i None) ->
  heap w !! i = Some s ->
  shouldPullAgain page = false ->
  blankSlate page = false ->
  changes page = [c] ->
  wasRemoved c = true ->
  Part000.step w (LComplete n (RPull (Done page)))
  = Some (fs_call (Fs.Remove (toLocalPath (root s) (path c)))
            (KEntry (length (eaches w)) c)
            (log (EvEntryBegin (length (eaches w)) c)
               (set_eaches (eaches w ++ [one_entry (commit_of i page) 0])
                  (log (EvCommit (commit_of i page))
                     (page_taken n i page w))))).
Proof.
  intros Hn Hs Hlast Hb Hcs Hrm.
  rewrite (step_pull_callback_000 w n i c0 None _ Hn). f_equal.
  unfold Part000.pull_callback. rewrite Hlast.
  change (update i (set_pullingChanges false)
            (update i (set_cursor (Some page)) (completed n w)))
    with (page_taken n i page w).
  unfold Part000.commitChanges, Engine.commitChanges. simpl accumulate.
  simpl cc_batch. rewrite Hb. unfold each_changes. simpl cc_batch.
  rewrite Hcs. cbn [foldl length]. unfold commitChange. rewrite Hrm.
  simpl cc_self.
  change (root_of i (log ?e ?x)) with (root_of i x).
  change (root_of i (set_eaches ?e ?x)) with (root_of i x).
  change (root_of i (log ?e ?x)) with (root_of i x).
  rewrite (root_of_page_taken n i page w s Hs). reflexivity.
Qed.

Lemma step_entry_done (final : CommitCtx -> option Error -> World -> World)
  (fire : Kont -> Arg -> World -> option World) (w : World) (m j : nat)
  (o : Fs.op) (c : Change) :
  (forall k r w0, fire k (AFs r) w0 = fire_commit final k (AFs r) w0) ->
  pending w !! m = Some (OpFs o, KEntry j c) ->
  complete fire m (RFs None) w
  = Some (entry_callback final j c (err_of (fst (Fs.exec (cwd w) (fs w) o)))
            (log (EvFsDone o (err_of (fst (Fs.exec (cwd w) (fs w) o))))
               (set_fs (snd (Fs.exec (cwd w) (fs w) o)) (completed m w)))).
Proof.
  intros Hfire Hm. unfold complete. rewrite Hm. simpl.
  destruct (Fs.exec (cwd w) (fs w) o) as [res fs']. simpl.
  rewrite Hfire. reflexivity.
Qed.

(** part_000: the removal of the only entry of a batch completes, on an
    instance that watches one path, which the entry is under. *)
Lemma removal_done_000 (w : World) (m j : nat) (i : ref) (lp : string)
  (page : PulledChanges) (c : Change) (s : Instance) (p : string)
  (h : Handler) (q : nat) :
  pending w !! m = Some (OpFs (Fs.Remove lp), KEntry j c) ->
  eaches w !! j = Some (one_entry (commit_of i page) 0) ->
  heap w !! i = Some s ->
  paths s = [(p, h)] ->
  h_queue h = Some q ->
  h_self h = i ->
  changes page = [c] ->
  under p c = true ->
  Fs.file_above (fs w) [] (Fs.locate (cwd w) lp) = false ->
  Part000.step w (LComplete m (RFs None))
  = Some (Part000.queue_push q [toLocalPath (root s) (path c)]
            (set_eaches (<[j := one_entry (commit_of i page) 1]> (eaches w))
               (log (EvEntryEnd j c None)
                  (log (EvFsDone (Fs.Remove lp) None)
                     (set_fs (Fs.remove (fs w) (Fs.locate (cwd w) lp))
                        (completed m w)))))).
Proof.
  intros Hm Hj Hs Hp Hq Hself Hcs Hu Hf.
  change (Part000.step w (LComplete m (RFs None)))
    with (complete Part000.fire m (RFs None) w).
  rewrite (step_entry_done Part000.dispatch Part000.fire w m j _ c
             (fun k r w0 => ltac:(destruct k; reflexivity)) Hm).
  f_equal. simpl Fs.exec. unfold Fs.rimraf. rewrite Hf.
  simpl fst. simpl snd. simpl err_of.
  unfold entry_callback, each_done. simpl eaches. rewrite Hj.
  simpl. unfold Part000.dispatch. simpl cc_self. simpl heap. rewrite Hs, Hp.
  cbn [foldl snd fst]. simpl cc_batch.
  unfold Part000.changedPaths. rewrite Hcs. simpl List.filter. rewrite Hu.
  simpl map. unfold Part000.handler. rewrite Hq, Hself.
  unfold root_of. simpl heap. rewrite Hs. reflexivity.
Qed.

(** The join of an [async.each] of one entry that called back with an
    error. *)
Lemma entry_fails (final : CommitCtx -> option Error -> World -> World)
  (j : nat) (c : Change) (x : Error) (ctx : CommitCtx) (w : World) :
  eaches w !! j = Some (one_entry ctx 0) ->
  entry_callback final j c (Some x) w
  = final ctx (Some x)
      (set_eaches
         (<[j := {| e_total := 1; e_completed := 0; e_fired := true;
                    e_ctx := ctx |}]> (eaches w))
         (log (EvEntryEnd j c (Some x)) w)).
Proof.
  intros Hj. unfold entry_callback, each_done. simpl eaches. rewrite Hj.
  reflexivity.
Qed.

(** part_000: the removal of the only entry of a batch fails because a
    regular file is on the way: the [onError] of the watched path is called,
    and nothing else happens. *)
Lemma removal_fails_000 (w : World) (m j : nat) (i : ref) (lp : string)
  (page : PulledChanges) (c : Change) (s : Instance) (p : string)
  (h : Handler) :
  pending w !! m = Some (OpFs (Fs.Remove lp), KEntry j c) ->
  eaches w !! j = Some (one_entry (commit_of i page) 0) ->
  heap w !! i = Some s ->
  paths s = [(p, h)] ->
  Fs.file_above (fs w) [] (Fs.locate (cwd w) lp) = true ->
  Part000.step w (LComplete m (RFs None))
  = Some (log (EvOnError (h_onError h) "ENOTDIR")
            (set_eaches
               (<[j := {| e_total := 1; e_completed := 0; e_fired := true;
                          e_ctx := commit_of i page |}]> (eaches w))
               (log (EvEntryEnd j c (Some "ENOTDIR"))
                  (log (EvFsDone (Fs.Remove lp) (Some "ENOTDIR"))
                     (set_fs (fs w) (completed m w)))))).
Proof.
  intros Hm Hj Hs Hp Hf.
  change (Part000.step w (LComplete m (RFs None)))
    with (complete Part000.fire m (RFs None) w).
  rewrite (step_entry_done Part000.dispatch Part000.fire w m j _ c
             (fun k r w0 => ltac:(destruct k; reflexivity)) Hm).
  f_equal. simpl Fs.exec. unfold Fs.rimraf. rewrite Hf.
  simpl fst. simpl snd. simpl err_of.
  rewrite (entry_fails Part000.dispatch j c "ENOTDIR" (commit_of i page))
    by exact Hj.
  unfold Part000.dispatch, errAll. simpl cc_self. simpl heap.
  rewrite Hs, Hp. reflexivity.
Qed.

Lemma insert_alter {A} (f : A -> A) (l : list A) (q : nat) (y : A) :
  <[q := y]> (alter f q l) = <[q := y]> l.
Proof.
  revert q. induction l as [|a l IH]; intros [|q]; simpl; try reflexivity.
  f_equal. apply IH.
Qed.

(** part_000: a task is pushed on an idle queue; on the next turn the
    worker is called with it. *)
Lemma queue_tick (w : World) (q : nat) (i : ref) (f : fn)
  (task : list string) :
  queues w !! q = Some {| q_self := i; q_worker := f; q_tasks := [];
                          q_workers := 0 |} ->
  let w2 := Part000.queue_push q task w in
  Part000.step w2 (LComplete (last_op w2) RFired)
  = Some (start (OpConsumer f task) (KWorkerDone q)
            (log (EvOnChange f task)
               (set_queues
                  (<[q := {| q_self := i; q_worker := f; q_tasks := [];
                             q_workers := 1 |}]> (queues w)) w))).
Proof.
  intros Hq w2.
  assert (H2 : pending w2 !! last_op w2 = Some (OpImmediate, KQueueProcess q))
    by (unfold w2, last_op, Part000.queue_push; simpl pending;
        apply lookup_last_op).
  rewrite (step_queue_process w2 _ q H2). f_equal.
  unfold Part000.queue_process.
  assert (Hq2 : queues (completed (last_op w2) w2) !! q
                = Some {| q_self := i; q_worker := f; q_tasks := [task];
                          q_workers := 0 |}).
  { unfold w2, Part000.queue_push. simpl queues.
    rewrite list_lookup_alter_eq, Hq. reflexivity. }
  rewrite Hq2. simpl. rewrite insert_alter.
  unfold completed, w2, last_op, Part000.queue_push. simpl pending.
  rewrite delete_last_started. destruct w; reflexivity.
Qed.

Lemma step_worker_done (w : World) (m q : nat) (f : fn) (ps : list string) :
  pending w !! m = Some (OpConsumer f ps, KWorkerDone q) ->
  Part000.step w (LComplete m RFired)
  = Some (Part000.worker_done q (completed m w)).
Proof.
  intros Hm.
  change (complete Part000.fire m RFired w
          = Some (Part000.worker_done q (completed m w))).
  unfold complete. rewrite Hm. reflexivity.
Qed.

(** part_000: the consumer calls back the completion callback of
    [onChange] while nothing waits in the queue: the queue drains and the
    watch is resumed, here by a long-poll from the stored cursor. *)
Lemma consumer_done (w : World) (m q : nat) (i : ref) (f : fn)
  (ps : list string) (s : Instance) (cu : PulledChanges) :
  pending w !! m = Some (OpConsumer f ps, KWorkerDone q) ->
  queues w !! q = Some {| q_self := i; q_worker := f; q_tasks := [];
                          q_workers := 1 |} ->
  heap w !! i = Some s ->
  cursor s = Some cu ->
  watchingForChanges s = None ->
  Part000.step w (LComplete m RFired)
  = Some (update i (set_watchingForChanges (Some (next_handle w)))
            (start (OpPoll i (next_handle w) cu) (KPoll i)
               (log (EvPoll i (next_handle w))
                  (set_next_handle (S (next_handle w))
                     (log (EvOnChangeDone f)
                        (set_queues
                           (<[q := {| q_self := i; q_worker := f;
                                      q_tasks := []; q_workers := 0 |}]>
                              (queues w))
                           (completed m w))))))).
Proof.
  intros Hm Hq Hs Hc Hh. rewrite (step_worker_done w m q f ps Hm). f_equal.
  unfold Part000.worker_done. simpl queues. rewrite Hq. simpl.
  unfold watchForChanges. simpl heap. rewrite Hs, Hc, Hh.
  unfold Part000.queue_process. simpl queues.
  rewrite list_lookup_insert_eq by (apply lookup_lt_Some in Hq; exact Hq).
  reflexivity.
Qed.

(** X22. part_000, a whole cycle.  An instance watches one path and holds
    no long-poll; the queue of the registration is idle.  The last page of a
    batch brings one entry, a removal under the watched path.  Then, in this
    order: the page becomes the cursor and [fs.remove] is called on the local
    path of the entry; when it completes, what was at the local path is gone
    and a notification is put in the queue; on the next turn [onChange] is
    called with the local path; when the consumer calls back, and only then,
    the watch is resumed, by a long-poll from the new cursor.  Nothing else is
    started and nothing else is called.  When a regular file is on the way
    to the local path, [fs.remove] fails: the [onError] of the registration
    is called, [onChange] is not, and the watch is not resumed. *)
Theorem removal_goes_round_000 (w : World) (n : nat) (i : ref)
  (c0 : option PulledChanges) (page : PulledChanges) (c : Change)
  (s : Instance) (p : string) (e cfn : fn) (q : nat) :
  pending w !! n = Some (OpPull i c0, KPull i None) ->
  heap w !! i = Some s ->
  paths s = [(p, {| h_self := i; h_onError := e; h_onChange := cfn;
                    h_queue := Some q |})] ->
  watchingForChanges s = None ->
  queues w !! q = Some {| q_self := i; q_worker := cfn; q_tasks := [];
                          q_workers := 0 |} ->
  shouldPullAgain page = false ->
  blankSlate page = false ->
  changes page = [c] ->
  wasRemoved c = true ->
  under p c = true ->
  let lp := toLocalPath (root s) (path c) in
  let j := length (eaches w) in
  exists w1,
    Part000.step w (LComplete n (RPull (Done page))) = Some w1
    /\ pending w1 = delete n (pending w) ++ [(OpFs (Fs.Remove lp), KEntry j c)]
    /\ (Fs.file_above (fs w) [] (Fs.locate (cwd w) lp) = true ->
        exists w2,
          Part000.step w1 (LComplete (last_op w1) (RFs None)) = Some w2
          /\ fs w2 = fs w
          /\ pending w2 = delete n (pending w)
          /\ polling i w2 = None
          /\ history w2
             = history w
               ++ [EvCommit (commit_of i page); EvEntryBegin j c;
                   EvFsCall (Fs.Remove lp);
                   EvFsDone (Fs.Remove lp) (Some "ENOTDIR");
                   EvEntryEnd j c (Some "ENOTDIR"); EvOnError e "ENOTDIR"])
    /\ (Fs.file_above (fs w) [] (Fs.locate (cwd w) lp) = false ->
        exists w2 w3 w4,
          Part000.step w1 (LComplete (last_op w1) (RFs None)) = Some w2
          /\ fs w2 = Fs.remove (fs w) (Fs.locate (cwd w) lp)
          /\ pending w2
             = delete n (pending w) ++ [(OpImmediate, KQueueProcess q)]
          /\ Part000.step w2 (LComplete (last_op w2) RFired) = Some w3
          /\ pending w3
             = delete n (pending w) ++ [(OpConsumer cfn [lp], KWorkerDone q)]
          /\ polling i w3 = None
          /\ Part000.step w3 (LComplete (last_op w3) RFired) = Some w4
          /\ pending w4
             = delete n (pending w)
               ++ [(OpPoll i (next_handle w) page, KPoll i)]
          /\ fs w4 = fs w2
          /\ history w4
             = history w
               ++ [EvCommit (commit_of i page); EvEntryBegin j c;
                   EvFsCall (Fs.Remove lp); EvFsDone (Fs.Remove lp) None;
                   EvEntryEnd j c None; EvOnChange cfn [lp];
                   EvOnChangeDone cfn; EvPoll i (next_handle w)]).
Proof.
  intros Hn Hs Hp Hh Hq Hlast Hb Hcs Hrm Hu lp j.
  set (h := {| h_self := i; h_onError := e; h_onChange := cfn;
               h_queue := Some q |}) in *.
  set (sA := set_pullingChanges false (set_cursor (Some page) s)).
  (* the page *)
  set (wA := fs_call (Fs.Remove lp) (KEntry j c)
               (log (EvEntryBegin j c)
                  (set_eaches (eaches w ++ [one_entry (commit_of i page) 0])
                     (log (EvCommit (commit_of i page))
                        (page_taken n i page w))))).
  assert (E1 : Part000.step w (LComplete n (RPull (Done page))) = Some wA)
    by exact (page_with_one_removal_000 w n i c0 page c s Hn Hs Hlast Hb Hcs Hrm).
  assert (HnA : pending wA !! last_op wA = Some (OpFs (Fs.Remove lp), KEntry j c))
    by (unfold wA, fs_call, last_op; simpl pending; apply lookup_last_op).
  assert (HjA : eaches wA !! j = Some (one_entry (commit_of i page) 0))
    by (unfold wA; simpl eaches; apply list_lookup_middle; reflexivity).
  assert (HsA : heap wA !! i = Some sA)
    by (exact (lookup_page_taken n i page w s Hs)).
  assert (HpA : pending (completed (last_op wA) wA) = delete n (pending w)).
  { unfold completed, wA, fs_call, last_op. simpl pending.
    apply delete_last_started. }
  exists wA. split; [exact E1|]. split; [reflexivity|]. split.
  { (* the removal fails *)
    intros Hf. eexists. split.
    - exact (removal_fails_000 wA (last_op wA) j i lp page c sA p h
               HnA HjA HsA Hp Hf).
    - split; [reflexivity|]. split; [exact HpA|].
      split; [change (polling i wA = None); unfold polling; rewrite HsA;
              exact Hh|].
      unfold history. simpl. rewrite <- !app_assoc. reflexivity. }
  intros Hf.
  (* the removal completes *)
  set (wB0 := set_eaches (<[j := one_entry (commit_of i page) 1]> (eaches wA))
                (log (EvEntryEnd j c None)
                   (log (EvFsDone (Fs.Remove lp) None)
                      (set_fs (Fs.remove (fs wA) (Fs.locate (cwd wA) lp))
                         (completed (last_op wA) wA))))).
  assert (E2 : Part000.step wA (LComplete (last_op wA) (RFs None))
               = Some (Part000.queue_push q [lp] wB0))
    by exact (removal_done_000 wA (last_op wA) j i lp page c sA p h q
                HnA HjA HsA Hp eq_refl eq_refl Hcs Hu Hf).
  assert (HqB : queues wB0 !! q
                = Some {| q_self := i; q_worker := cfn; q_tasks := [];
                          q_workers := 0 |}) by exact Hq.
  (* the queue takes the notification *)
  set (wC := start (OpConsumer cfn [lp]) (KWorkerDone q)
               (log (EvOnChange cfn [lp])
                  (set_queues
                     (<[q := {| q_self := i; q_worker := cfn; q_tasks := [];
                                q_workers := 1 |}]> (queues wB0)) wB0))).
  assert (E3 : Part000.step (Part000.queue_push q [lp] wB0)
                 (LComplete (last_op (Part000.queue_push q [lp] wB0)) RFired)
               = Some wC)
    by exact (queue_tick wB0 q i cfn [lp] HqB).
  assert (HpB0 : pending wB0 = delete n (pending w)).
  { unfold wB0, completed, wA, fs_call, last_op. simpl pending.
    apply delete_last_started. }
  assert (HnC : pending wC !! last_op wC
                = Some (OpConsumer cfn [lp], KWorkerDone q))
    by (unfold wC, last_op; simpl pending; apply lookup_last_op).
  assert (HqC : queues wC !! q
                = Some {| q_self := i; q_worker := cfn; q_tasks := [];
                          q_workers := 1 |}).
  { unfold wC. simpl queues. apply list_lookup_insert_eq.
    apply lookup_lt_Some in HqB. exact HqB. }
  assert (HsC : heap wC !! i = Some sA) by exact HsA.
  (* the consumer calls back *)
  pose proof (consumer_done wC (last_op wC) q i cfn [lp] sA page
                HnC HqC HsC eq_refl Hh) as E4.
  eexists (Part000.queue_push q [lp] wB0), wC, _.
  split; [exact E2|].
  split; [reflexivity|].
  split; [rewrite <- HpB0; reflexivity|].
  split; [exact E3|].
  split; [rewrite <- HpB0; reflexivity|].
  split; [unfold polling; rewrite HsC; exact Hh|].
  split; [exact E4|].
  split.
  { rewrite <- HpB0.
    change (delete (last_op wC) (pending wC) ++
              [(OpPoll i (next_handle w) page, KPoll i)]
            = pending wB0 ++ [(OpPoll i (next_handle w) page, KPoll i)]).
    f_equal. unfold wC, last_op. simpl pending. apply delete_last_started. }
  split; [reflexivity|].
  unfold history. simpl. rewrite <- !app_assoc. reflexivity.
Qed.

Lemma removal_goes_round_000_witness :
  (exists w1 w2 w3 w4,
     Part000.step Ex.one_watcher
       (LComplete 1
          (RPull (Done (Ex.page [Ex.removal "/a/x"] false false "c1"))))
     = Some w1
     /\ Part000.step w1 (LComplete (last_op w1) (RFs None)) = Some w2
     /\ Part000.step w2 (LComplete (last_op w2) RFired) = Some w3
     /\ Part000.step w3 (LComplete (last_op w3) RFired) = Some w4
     /\ pending w4
        = [(OpReaddir "mirror/a",
            KLocalState {| h_self := 0; h_onError := 1; h_onChange := 2;
                           h_queue := Some 0 |});
           (OpPoll 0 0 (Ex.page [Ex.removal "/a/x"] false false "c1"),
            KPoll 0)])
  /\ (exists w1 w2,
        Part000.step Ex2.docs_watcher_000
          (LComplete 1
             (RPull (Done (Ex.page [Ex.removal "/docs/x"] false false "c1"))))
        = Some w1
        /\ Part000.step w1 (LComplete (last_op w1) (RFs None)) = Some w2
        /\ errors_reported (history w2) = [(1, "ENOTDIR")]
        /\ map fst (pending w2) = [OpReaddir "mirror/docs"]).
Proof.
  split.
  - destruct (removal_goes_round_000 Ex.one_watcher 1 0 None
                (Ex.page [Ex.removal "/a/x"] false false "c1")
                (Ex.removal "/a/x") (Ex.instance 0 Ex.one_watcher) "/a" 1 2 0
                ltac:(vm_compute; reflexivity) ltac:(vm_compute; reflexivity)
                ltac:(vm_compute; reflexivity) ltac:(vm_compute; reflexivity)
                ltac:(vm_compute; reflexivity) eq_refl eq_refl eq_refl
                eq_refl eq_refl)
      as [w1 [H1 [_ [_ Hok]]]].
    destruct (Hok ltac:(vm_compute; reflexivity))
      as [w2 [w3 [w4 [H2 [_ [_ [H3 [_ [_ [H4 [H5 _]]]]]]]]]]].
    exists w1, w2, w3, w4. repeat (split; [assumption|]). exact H5.
  - destruct (removal_goes_round_000 Ex2.docs_watcher_000 1 0 None
                (Ex.page [Ex.removal "/docs/x"] false false "c1")
                (Ex.removal "/docs/x") (Ex.instance 0 Ex2.docs_watcher_000)
                "/docs" 1 2 0
                ltac:(vm_compute; reflexivity) ltac:(vm_compute; reflexivity)
                ltac:(vm_compute; reflexivity) ltac:(vm_compute; reflexivity)
                ltac:(vm_compute; reflexivity) eq_refl eq_refl eq_refl
                eq_refl eq_refl)
      as [w1 [H1 [_ [Hfail _]]]].
    destruct (Hfail ltac:(vm_compute; reflexivity))
      as [w2 [H2 [_ [Hp [_ Hh]]]]].
    exists w1, w2. split; [exact H1|]. split; [exact H2|]. split.
    + rewrite Hh. vm_compute. reflexivity.
    + rewrite Hp. vm_compute. reflexivity.
Defined.

(** part_001: the last page of a batch brings one removal, under the only
    watched path. *)
Lemma page_with_one_removal_001 (w : World) (n : nat) (i : ref)
  (c0 : option PulledChanges) (page : PulledChanges) (c : Change)
  (s : Instance) (p : string) (h : Handler) :
  pending w !! n = Some (OpPull i c0, KPull i None) ->
  heap w !! i = Some s ->
  paths s = [(p, h)] ->
  shouldPullAgain page = false ->
  blankSlate page = false ->
  changes page = [c] ->
  wasRemoved c = true ->
  under p c = true ->
  let ctx := {| cc_self := i; cc_path := p;
                cc_batch := with_changes page [c];
                cc_callback := CbHandler h |} in
  Part001.step w (LComplete n (RPull (Done page)))
  = Some (fs_call (Fs.Remove (toLocalPath (root s) (path c)))
            (KEntry (length (eaches w)) c)
            (log (EvEntryBegin (length (eaches w)) c)
               (set_eaches (eaches w ++ [one_entry ctx 0])
                  (log (EvCommit ctx) (page_taken n i page w))))).
Proof.
  intros Hn Hs Hp Hlast Hb Hcs Hrm Hu ctx.
  rewrite (step_pull_callback_001 w n i c0 None _ Hn). f_equal.
  unfold Part001.pull_callback. rewrite Hlast.
  change (update i (set_pullingChanges false)
            (update i (set_cursor (Some page)) (completed n w)))
    with (page_taken n i page w).
  unfold Part001.filter_dispatch.
  rewrite (lookup_page_taken n i page w s Hs). simpl paths. rewrite Hp.
  cbn [foldl]. rewrite filter_and_commit_cases.
  simpl accumulate. unfold Part001.filtered. rewrite Hcs.
  simpl List.filter. rewrite Hu.
  unfold Part001.commitChanges, Engine.commitChanges. simpl cc_batch.
  simpl blankSlate. rewrite Hb. unfold each_changes. simpl cc_batch.
  simpl changes. cbn [foldl length]. unfold commitChange. rewrite Hrm.
  simpl cc_self.
  change (root_of i (log ?e ?x)) with (root_of i x).
  change (root_of i (set_eaches ?e ?x)) with (root_of i x).
  change (root_of i (log ?e ?x)) with (root_of i x).
  rewrite (root_of_page_taken n i page w s Hs). reflexivity.
Qed.

(** part_001: the removal of the only entry of the batch of a path
    completes, on an instance with a cursor that holds no long-poll. *)
Lemma removal_done_001 (w : World) (m j : nat) (i : ref) (lp : string)
  (batch : PulledChanges) (c : Change) (s : Instance) (p : string)
  (e cfn : fn) (cu : PulledChanges) :
  let h := {| h_self := i; h_onError := e; h_onChange := cfn;
              h_queue := None |} in
  let ctx := {| cc_self := i; cc_path := p; cc_batch := batch;
                cc_callback := CbHandler h |} in
  pending w !! m = Some (OpFs (Fs.Remove lp), KEntry j c) ->
  eaches w !! j = Some (one_entry ctx 0) ->
  heap w !! i = Some s ->
  cursor s = Some cu ->
  watchingForChanges s = None ->
  changes batch = [c] ->
  Fs.file_above (fs w) [] (Fs.locate (cwd w) lp) = false ->
  Part001.step w (LComplete m (RFs None))
  = Some (update i (set_watchingForChanges (Some (next_handle w)))
            (start (OpPoll i (next_handle w) cu) (KPoll i)
               (log (EvPoll i (next_handle w))
                  (set_next_handle (S (next_handle w))
                     (log (EvOnChange cfn [toLocalPath (root s) (path c)])
                        (set_eaches (<[j := one_entry ctx 1]> (eaches w))
                           (log (EvEntryEnd j c None)
                              (log (EvFsDone (Fs.Remove lp) None)
                                 (set_fs
                                    (Fs.remove (fs w) (Fs.locate (cwd w) lp))
                                    (completed m w)))))))))).
Proof.
  intros h ctx Hm Hj Hs Hc Hh Hcs Hf.
  change (Part001.step w (LComplete m (RFs None)))
    with (complete Part001.fire m (RFs None) w).
  rewrite (step_entry_done Part001.committed Part001.fire w m j _ c
             (fun k r w0 => ltac:(destruct k; reflexivity)) Hm).
  f_equal. simpl Fs.exec. unfold Fs.rimraf. rewrite Hf.
  simpl fst. simpl snd. simpl err_of.
  unfold entry_callback, each_done. simpl eaches. rewrite Hj.
  simpl. unfold Part001.committed. simpl cc_callback.
  unfold Part001.handler. simpl cc_batch. rewrite Hcs. simpl h_self.
  unfold root_of, watchForChanges. simpl heap. rewrite Hs, Hc, Hh.
  reflexivity.
Qed.

(** part_001: the removal of the only entry of the batch of a path fails
    because a regular file is on the way: the [onError] of the path is
    called, and nothing else happens. *)
Lemma removal_fails_001 (w : World) (m j : nat) (i : ref) (lp : string)
  (batch : PulledChanges) (c : Change) (p : string) (h : Handler) :
  let ctx := {| cc_self := i; cc_path := p; cc_batch := batch;
                cc_callback := CbHandler h |} in
  pending w !! m = Some (OpFs (Fs.Remove lp), KEntry j c) ->
  eaches w !! j = Some (one_entry ctx 0) ->
  Fs.file_above (fs w) [] (Fs.locate (cwd w) lp) = true ->
  Part001.step w (LComplete m (RFs None))
  = Some (log (EvOnError (h_onError h) "ENOTDIR")
            (set_eaches
               (<[j := {| e_total := 1; e_completed := 0; e_fired := true;
                          e_ctx := ctx |}]> (eaches w))
               (log (EvEntryEnd j c (Some "ENOTDIR"))
                  (log (EvFsDone (Fs.Remove lp) (Some "ENOTDIR"))
                     (set_fs (fs w) (completed m w)))))).
Proof.
  intros ctx Hm Hj Hf.
  change (Part001.step w (LComplete m (RFs None)))
    with (complete Part001.fire m (RFs None) w).
  rewrite (step_entry_done Part001.committed Part001.fire w m j _ c
             (fun k r w0 => ltac:(destruct k; reflexivity)) Hm).
  f_equal. simpl Fs.exec. unfold Fs.rimraf. rewrite Hf.
  simpl fst. simpl snd. simpl err_of.
  rewrite (entry_fails Part001.committed j c "ENOTDIR" ctx) by exact Hj.
  reflexivity.
Qed.

(** X23. part_001, a whole cycle.  An instance watches one path and holds
    no long-poll.  The last page of a batch brings one entry, a removal under
    the watched path.  Then, in this order: the page becomes the cursor and
    [fs.remove] is called on the local path of the entry; when it completes,
    what was at the local path is gone, [onChange] is called with the local
    path, and the watch is resumed at once, without waiting for the consumer,
    by a long-poll from the new cursor.  Nothing else is started and nothing
    else is called.  When a regular file is on the way to the local path,
    [fs.remove] fails: the [onError] of the path is called, [onChange] is
    not, and the watch is not resumed. *)
Theorem removal_goes_round_001 (w : World) (n : nat) (i : ref)
  (c0 : option PulledChanges) (page : PulledChanges) (c : Change)
  (s : Instance) (p : string) (e cfn : fn) :
  pending w !! n = Some (OpPull i c0, KPull i None) ->
  heap w !! i = Some s ->
  paths s = [(p, {| h_self := i; h_onError := e; h_onChange := cfn;
                    h_queue := None |})] ->
  watchingForChanges s = None ->
  shouldPullAgain page = false ->
  blankSlate page = false ->
  changes page = [c] ->
  wasRemoved c = true ->
  under p c = true ->
  let lp := toLocalPath (root s) (path c) in
  let j := length (eaches w) in
  let ctx := {| cc_self := i; cc_path := p;
                cc_batch := with_changes page [c];
                cc_callback :=
                  CbHandler {| h_self := i; h_onError := e; h_onChange := cfn;
                               h_queue := None |} |} in
  exists w1,
    Part001.step w (LComplete n (RPull (Done page))) = Some w1
    /\ pending w1 = delete n (pending w) ++ [(OpFs (Fs.Remove lp), KEntry j c)]
    /\ polling i w1 = None
    /\ (Fs.file_above (fs w) [] (Fs.locate (cwd w) lp) = true ->
        exists w2,
          Part001.step w1 (LComplete (last_op w1) (RFs None)) = Some w2
          /\ fs w2 = fs w
          /\ pending w2 = delete n (pending w)
          /\ polling i w2 = None
          /\ history w2
             = history w
               ++ [EvCommit ctx; EvEntryBegin j c; EvFsCall (Fs.Remove lp);
                   EvFsDone (Fs.Remove lp) (Some "ENOTDIR");
                   EvEntryEnd j c (Some "ENOTDIR"); EvOnError e "ENOTDIR"])
    /\ (Fs.file_above (fs w) [] (Fs.locate (cwd w) lp) = false ->
        exists w2,
          Part001.step w1 (LComplete (last_op w1) (RFs None)) = Some w2
          /\ fs w2 = Fs.remove (fs w) (Fs.locate (cwd w) lp)
          /\ pending w2
             = delete n (pending w)
               ++ [(OpPoll i (next_handle w) page, KPoll i)]
          /\ history w2
             = history w
               ++ [EvCommit ctx; EvEntryBegin j c; EvFsCall (Fs.Remove lp);
                   EvFsDone (Fs.Remove lp) None; EvEntryEnd j c None;
                   EvOnChange cfn [lp]; EvPoll i (next_handle w)]).
Proof.
  intros Hn Hs Hp Hh Hlast Hb Hcs Hrm Hu lp j ctx.
  set (sA := set_pullingChanges false (set_cursor (Some page) s)).
  set (wA := fs_call (Fs.Remove lp) (KEntry j c)
               (log (EvEntryBegin j c)
                  (set_eaches (eaches w ++ [one_entry ctx 0])
                     (log (EvCommit ctx) (page_taken n i page w))))).
  assert (E1 : Part001.step w (LComplete n (RPull (Done page))) = Some wA)
    by exact (page_with_one_removal_001 w n i c0 page c s p _
                Hn Hs Hp Hlast Hb Hcs Hrm Hu).
  assert (HnA : pending wA !! last_op wA = Some (OpFs (Fs.Remove lp), KEntry j c))
    by (unfold wA, fs_call, last_op; simpl pending; apply lookup_last_op).
  assert (HjA : eaches wA !! j = Some (one_entry ctx 0))
    by (unfold wA; simpl eaches; apply list_lookup_middle; reflexivity).
  assert (HsA : heap wA !! i = Some sA)
    by (exact (lookup_page_taken n i page w s Hs)).
  assert (HpA : pending (completed (last_op wA) wA) = delete n (pending w)).
  { unfold completed, wA, fs_call, last_op. simpl pending.
    apply delete_last_started. }
  exists wA.
  split; [exact E1|]. split; [reflexivity|].
  split; [unfold polling; rewrite HsA; exact Hh|]. split.
  - intros Hf. eexists. split.
    + exact (removal_fails_001 wA (last_op wA) j i lp (with_changes page [c])
               c p _ HnA HjA Hf).
    + split; [reflexivity|]. split; [exact HpA|].
      split; [change (polling i wA = None); unfold polling; rewrite HsA;
              exact Hh|].
      unfold history. simpl. rewrite <- !app_assoc. reflexivity.
  - intros Hf.
    pose proof (removal_done_001 wA (last_op wA) j i lp
                  (with_changes page [c]) c sA p e cfn page
                  HnA HjA HsA eq_refl Hh eq_refl Hf) as E2.
    eexists. split; [exact E2|]. split; [reflexivity|]. split.
    + change (delete (last_op wA) (pending wA) ++
                [(OpPoll i (next_handle w) page, KPoll i)]
              = delete n (pending w)
                ++ [(OpPoll i (next_handle w) page, KPoll i)]).
      f_equal. unfold wA, fs_call, last_op. simpl pending.
      apply delete_last_started.
    + unfold history. simpl. rewrite <- !app_assoc. reflexivity.
Qed.

Lemma removal_goes_round_001_witness :
  (exists w1 w2,
     Part001.step Ex.one_watcher_001
       (LComplete 0
          (RPull (Done (Ex.page [Ex.removal "/a/x"] false false "c1"))))
     = Some w1
     /\ Part001.step w1 (LComplete (last_op w1) (RFs None)) = Some w2
     /\ pending w2
        = [(OpPoll 0 0 (Ex.page [Ex.removal "/a/x"] false false "c1"),
            KPoll 0)])
  /\ (exists w1 w2,
        Part001.step Ex2.docs_watcher_001
          (LComplete 0
             (RPull (Done (Ex.page [Ex.removal "/docs/x"] false false "c1"))))
        = Some w1
        /\ Part001.step w1 (LComplete (last_op w1) (RFs None)) = Some w2
        /\ errors_reported (history w2) = [(1, "ENOTDIR")]
        /\ pending w2 = []).
Proof.
  split.
  - destruct (removal_goes_round_001 Ex.one_watcher_001 0 0 None
                (Ex.page [Ex.removal "/a/x"] false false "c1")
                (Ex.removal "/a/x") (Ex.instance 0 Ex.one_watcher_001)
                "/a" 1 2
                ltac:(vm_compute; reflexivity) ltac:(vm_compute; reflexivity)
                ltac:(vm_compute; reflexivity) ltac:(vm_compute; reflexivity)
                eq_refl eq_refl eq_refl eq_refl eq_refl)
      as [w1 [H1 [_ [_ [_ Hok]]]]].
    destruct (Hok ltac:(vm_compute; reflexivity)) as [w2 [H2 [_ [H3 _]]]].
    exists w1, w2. split; [exact H1|]. split; [exact H2 | exact H3].
  - destruct (removal_goes_round_001 Ex2.docs_watcher_001 0 0 None
                (Ex.page [Ex.removal "/docs/x"] false false "c1")
                (Ex.removal "/docs/x") (Ex.instance 0 Ex2.docs_watcher_001)
                "/docs" 1 2
                ltac:(vm_compute; reflexivity) ltac:(vm_compute; reflexivity)
                ltac:(vm_compute; reflexivity) ltac:(vm_compute; reflexivity)
                eq_refl eq_refl eq_refl eq_refl eq_refl)
      as [w1 [H1 [_ [_ [Hfail _]]]]].
    destruct (Hfail ltac:(vm_compute; reflexivity))
      as [w2 [H2 [_ [Hp [_ Hh]]]]].
    exists w1, w2. split; [exact H1|]. split; [exact H2|]. split.
    + rewrite Hh. vm_compute. reflexivity.
    + rewrite Hp. vm_compute. reflexivity.
Defined.
